(* ===== verification/_CoqProject ===== *)
-Q . S2P
Prelude.v
CStr.v
CNum.v
UciManifest.v
UciApply.v
UciWatch.v
Bytes.v
Json.v
ProcdWorld.v
ProcdStart.v
ReadAll.v
ProcdTrigger.v
ProcdCmd.v
UbusRelease.v
UbusSystem.v
UbusDaemon.v
Micrond.v
BmtFlash.v
BmtCore.v
BmtBbt.v
BmtV2.v
NmbmTable.v
NmbmCache.v
NmbmFlash.v
NmbmLocal.v
NmbmMgmt.v
NmbmUpdate.v
NmbmAttach.v
NmbmSample.v
NmbmKeep.v
NmbmRounds.v
NmbmPower.v
NmbmMap.v
NmbmLoad.v
Nvram.v
NvramImage.v
NvramCli.v
