(* ===== verification/Prelude.v ===== *)
(** * Programs of the NeonWrt distribution

    NeonWrt is an OpenWrt derivative in which systemd starts the services. Most of
    its tree are recipes, patches and vendor drivers; this development models the
    C programs that are its own or that the tree carries in source, and proves what
    makes them correct. The parts and the files that model them:

    - neon-uci (src/package/system/neon-uci/src/neon-uci.c), which runs translators
      when UCI packages change. UciManifest: manifests and their checks, the
      translator directory. UciApply: package lists, handlers, systemctl, the
      one-shot commands. UciWatch: the inotify loop as a step relation, and main.
    - neon-procd (src/package/system/neon-procd/src/neon-procd.c), the procd command
      line on top of systemd. ProcdWorld: registry files and processes. ProcdStart:
      unit names and systemd-run command lines. ReadAll: reading standard input.
      ProcdTrigger: the trigger evaluator. ProcdCmd: the registry, the commands.
    - neon-procd-ubus (neon-procd-ubus.c, same directory), the ubus daemon.
      UbusRelease: os-release files. UbusSystem: the system object. UbusDaemon:
      service methods, the event bridge, registration and readiness. It calls the
      neon-procd command through the class [NeonProcd], of which the model of that
      command is an instance.
    - micrond (src/package/utils/micrond/src/micrond.c), the cron daemon: Micrond.
    - mtk_bmt (src/target/linux/generic/files/drivers/mtd/nand/), the kernel layer
      that hides bad NAND blocks. BmtFlash: the driver below (class [NandChip]),
      geometry, mtk_bmt.h. BmtCore: mtk_bmt.c over any scheme (class [BmtOps]).
      BmtBbt: the bad block table scheme, mtk_bmt_bbt.c. BmtV2: mtk_bmt_v2.c.
      NmbmTable, NmbmFlash, NmbmUpdate and NmbmAttach: mtk_bmt_nmbm.c, from the
      structures to the instance of [BmtOps]; NmbmCache, NmbmLocal, NmbmMgmt,
      NmbmKeep, NmbmRounds, NmbmPower, NmbmMap and NmbmLoad: its theorems;
      NmbmSample: a small chip to run it on.
    - nvram (src/package/utils/nvram/src/), the variable store of Broadcom boards.
      Nvram: nvram.c and crc.c. NvramImage: the theorems on the image. NvramCli:
      cli.c, the flash partition and the staging file.

    Prelude, CStr, CNum, Bytes and Json hold what several parts share: machine
    integers as [Z] with their wrap-around ([u8] to [u64], [to_i32]), programs that
    may exit or be undefined ([outcome], [prog]), C strings, number parsing, bytes
    and words, JSON documents and the interface of json-c ([JsonC]).

    ** How code becomes definitions

    A C function is a definition of the same name; its loops and the parts it
    shares with others are definitions of their own, named for what they do. State
    that is changed is passed and returned; in neon-procd and nvram a command is a
    [prog] over a world, in the daemons a step over a state. An error path returns
    the value the code returns. Undefined behaviour is [Crash], where a program can
    reach it. Integers that can wrap are wrapped where the code does. What the code
    calls and the tree does not contain (libuci, json-c, libubus, the NAND driver,
    [crc32_le], system calls) is a parameter, a record of functions or a class; its
    documented behaviour is a named hypothesis or a class law, and every theorem
    that has one comes with a witness, an instance in which it holds.

    ** What is proved

    - neon-uci: an accepted manifest is safe to run, the loading order does not
      depend on the directory, the history and the result of [apply_translators]
      are those of an abstract account of handlers and systemctl calls, and the
      daemon loses no package while it keeps its invariant. Package lists are sets
      as long as they are below 2048 bytes, the size [csv_contains] can search;
      what longer lists do is stated with it.
    - neon-procd: what a unit name consists of and which instances share one, the
      command line has the words of the instance, triggers run exactly their
      denotation, an event runs the triggers of the documents that are registered
      when their turn comes, registering and listing agree, standard input is read
      whole.
    - neon-procd-ubus: status and events reach neon-procd whole, with the event's
      own attributes, READY is sent only when everything is registered, the
      precedence of release files, quoting round trips, sizes without overflow.
    - micrond: a crontab line is due exactly at the times its fields select; which
      rounds a run of the clock has, and that there is one in every minute while
      the clock is not set.
    - mtk_bmt: over any scheme that maps blocks apart ([TableMapping],
      [maps_blocks]) the device is a memory; the bad block table scheme is a
      permutation; the v2 scheme keeps its invariant. NMBM: an update of the tables
      ends, touches the management area only, leaves the tables of the layout whole
      or protects the instance, keeps both tables while no block goes bad, and has
      a whole table on the chip whenever the power goes; a table that lies in
      consecutive good blocks is loaded as it was generated; remapping a block
      touches the spare area only, and keeps the blocks apart while the highest
      free spare block is good.
    - nvram: the hash table is a finite map, an image is read back as it was
      committed, with the variables that fit, and set, commit and get agree across
      processes.

    Where the code does something other than it means to, a theorem or an example
    shows the case: [relocated_table_is_lost], [map_block_doubles],
    [overlong_batch_ignored], [delete_pattern_overreach], [unit_name_safe],
    [pool_area_overruns_buffer], [bbt_no_range_identity], [full_image_is_readonly],
    [set_then_commit], [set_status_lost].

    ** Fuel

    A loop whose end is not structural has a number of rounds: the bytes or blocks
    that are left where a round handles at least one, the length of the text in the
    parsers, the entries of a schedule where system calls decide. The bounds are
    shown to be enough: [loop_fuel_enough] and [parse_times_fuel] in Micrond,
    [parse_all_text] in NvramImage, [read_stdin_all_whole] in ReadAll,
    [update_terminates] for the update loop of NMBM (a round for every block and one
    more). The loops of mtk_bmt.c take their fuel as an argument; [bmt_write_read]
    says how much gives the result, and [iterate_mono] that more changes nothing.

    ** Not modelled

    Messages and logs, memory exhaustion, fsync, and the freeing of memory. Among
    the parts of the tree: vendor drivers on registers that the sources do not
    describe, boot loaders, third-party code, recipes, scripts and LuCI. Candidates
    for an extension, in this order: the partition splitters and the EcoNet bad
    block table of target/linux on the flash model of BmtFlash, the image tools of
    package/utils, mtd, and the address arithmetic of luci-lib-ip. *)
From stdpp Require Export base list strings gmap sorting.
From Stdlib Require Export ZArith Lia.
From Stdlib Require Import Ascii.

Declare Scope neon_scope.
Delimit Scope neon_scope with neon.

(** * Machine integers: values of Z with the wrap-around written out *)

Definition u8 (z : Z) : Z := z mod 2 ^ 8.
Definition u16 (z : Z) : Z := z mod 2 ^ 16.
Definition u32 (z : Z) : Z := z mod 2 ^ 32.
Definition u64 (z : Z) : Z := z mod 2 ^ 64.

Lemma u8_range z : (0 <= u8 z < 256)%Z.
Proof. apply Z.mod_pos_bound. lia. Qed.
Lemma u16_range z : (0 <= u16 z < 65536)%Z.
Proof. apply Z.mod_pos_bound. lia. Qed.
Lemma u32_range z : (0 <= u32 z < 2 ^ 32)%Z.
Proof. apply Z.mod_pos_bound. lia. Qed.
Lemma u64_range z : (0 <= u64 z < 2 ^ 64)%Z.
Proof. apply Z.mod_pos_bound. lia. Qed.
Lemma u16_small z : (0 <= z < 65536)%Z -> u16 z = z.
Proof. apply Z.mod_small. Qed.
Lemma u32_small z : (0 <= z < 2 ^ 32)%Z -> u32 z = z.
Proof. apply Z.mod_small. Qed.
Lemma u64_small z : (0 <= z < 2 ^ 64)%Z -> u64 z = z.
Proof. apply Z.mod_small. Qed.

(** * Outcomes of code that may leave the process

    [Exit] is a call of exit(3) or _exit(2); [Crash] stands for undefined
    behaviour, such as passing a null pointer to strdup(3). *)

Inductive outcome (A : Type) : Type :=
  | Ok (a : A)
  | Exit (code : Z)
  | Crash.
Arguments Ok {A} a.
Arguments Exit {A} code.
Arguments Crash {A}.

(** A program over a state [W]: it returns an outcome and the new state, which
    is kept when the process leaves (effects are not undone). *)
Definition prog (W A : Type) : Type := W -> outcome A * W.

Definition pret {W A} (a : A) : prog W A := fun w => (Ok a, w).
Definition pexit {W A} (code : Z) : prog W A := fun w => (Exit code, w).
Definition pcrash {W A} : prog W A := fun w => (Crash, w).
Definition pbind {W A B} (m : prog W A) (k : A -> prog W B) : prog W B :=
  fun w =>
    match m w with
    | (Ok a, w') => k a w'
    | (Exit c, w') => (Exit c, w')
    | (Crash, w') => (Crash, w')
    end.

Notation "x <-- m ;; k" := (pbind m (fun x => k))
  (at level 100, m at next level, right associativity) : neon_scope.
Notation "m ;;; k" := (pbind m (fun _ => k))
  (at level 100, right associativity) : neon_scope.

Fixpoint pfold {W A} (f : A -> prog W unit) (l : list A) : prog W unit :=
  match l with
  | [] => pret tt
  | x :: r => fun w =>
      match f x w with
      | (Ok _, w') => pfold f r w'
      | (Exit c, w') => (Exit c, w')
      | (Crash, w') => (Crash, w')
      end
  end.

Lemma pbind_ok {W A B} (m : prog W A) (k : A -> prog W B) w b w' :
  pbind m k w = (Ok b, w') ->
  exists a w1, m w = (Ok a, w1) /\ k a w1 = (Ok b, w').
Proof.
  unfold pbind. destruct (m w) as [[a|c|] w1]; intros H; try discriminate.
  eauto.
Qed.

Lemma pfold_app {W A} (f : A -> prog W unit) l1 l2 w :
  pfold f (l1 ++ l2) w = pbind (pfold f l1) (fun _ => pfold f l2) w.
Proof.
  revert w. induction l1 as [|x l1 IH]; intros w; [done|]. cbn [pfold app]. unfold pbind.
  destruct (f x w) as [[u|c|] w1]; [|done|done]. rewrite IH. unfold pbind. done.
Qed.

(** An invariant of the state that every element's program keeps is kept by
    the whole loop. *)
Lemma pfold_inv {W A} (P : W -> Prop) (f : A -> prog W unit) (l : list A) w :
  (forall x w0, P w0 -> P (snd (f x w0))) -> P w -> P (snd (pfold f l w)).
Proof.
  intros Hf. revert w. induction l as [|x r IH]; simpl; intros w Hw; [done|].
  specialize (Hf x w Hw). destruct (f x w) as [[u|c|] w']; simpl in *; auto.
Qed.

(** * Tactics *)

(** Case analysis on every boolean test of the goal, keeping equations. *)
Ltac case_if :=
  match goal with
  | |- context [if ?b then _ else _] => let E := fresh "E" in destruct b eqn:E
  end.
Ltac case_if_in H :=
  match type of H with
  | context [if ?b then _ else _] => let E := fresh "E" in destruct b eqn:E
  end.

(** Turn boolean facts into propositions. *)
Ltac bprop :=
  cbv beta in *;
  repeat match goal with
  | H : _ && _ = true |- _ => apply andb_true_iff in H; destruct H
  | H : _ && _ = false |- _ => apply andb_false_iff in H
  | H : _ || _ = false |- _ => apply orb_false_iff in H; destruct H
  | H : _ || _ = true |- _ => apply orb_true_iff in H
  | H : negb _ = true |- _ => apply negb_true_iff in H
  | H : negb _ = false |- _ => apply negb_false_iff in H
  | H : bool_decide _ = true |- _ => apply bool_decide_eq_true in H
  | H : bool_decide _ = false |- _ => apply bool_decide_eq_false in H
  | H : (_ <=? _)%Z = true |- _ => apply Z.leb_le in H
  | H : (_ <=? _)%Z = false |- _ => apply Z.leb_gt in H
  | H : (_ <? _)%Z = true |- _ => apply Z.ltb_lt in H
  | H : (_ <? _)%Z = false |- _ => apply Z.ltb_ge in H
  | H : (_ =? _)%Z = true |- _ => apply Z.eqb_eq in H
  | H : (_ =? _)%Z = false |- _ => apply Z.eqb_neq in H
  | H : (_ <=? _)%nat = true |- _ => apply Nat.leb_le in H
  | H : (_ <=? _)%nat = false |- _ => apply Nat.leb_gt in H
  | H : (_ <? _)%nat = true |- _ => apply Nat.ltb_lt in H
  | H : (_ <? _)%nat = false |- _ => apply Nat.ltb_ge in H
  | H : (_ =? _)%nat = true |- _ => apply Nat.eqb_eq in H
  | H : (_ =? _)%nat = false |- _ => apply Nat.eqb_neq in H
  end.

(** How a child process ended, as fork and waitpid tell. *)
Inductive wait_result :=
  | ForkFailed
  | WaitFailed
  | Exited (code : Z)
  | Signaled (sig : Z)
  | OtherStatus.
#[export] Instance wait_result_eq_dec : EqDecision wait_result.
Proof. solve_decision. Defined.

Create HintDb neon discriminated.
#[export] Hint Resolve u8_range u16_range u32_range u64_range : neon.
