(* ===== verification/CStr.v ===== *)
(** C strings and the functions of the C library the programs use on them
    (ctype.h and string.h in the C locale, [fgets], [snprintf] with "%s",
    [strtok_r]). A C string is a [string]: the bytes before the terminating
    NUL. A buffer read from a file may hold NULs; [cstr] gives the C string
    such a buffer is seen as. *)
From S2P Require Import Prelude.
From Stdlib Require Import Ascii.
Open Scope string_scope.
Open Scope list_scope.
#[global] Arguments String.append : simpl nomatch.

(** * ctype.h *)

Definition byte (c : ascii) : N := N_of_ascii c.
Definition in_range (lo hi : N) (c : ascii) : bool :=
  (lo <=? byte c)%N && (byte c <=? hi)%N.
Definition isspace (c : ascii) : bool := in_range 9 13 c || in_range 32 32 c.
Definition isdigit (c : ascii) : bool := in_range 48 57 c.
Definition isupper (c : ascii) : bool := in_range 65 90 c.
Definition islower (c : ascii) : bool := in_range 97 122 c.
Definition isalnum (c : ascii) : bool := isdigit c || isupper c || islower c.
Definition tolower (c : ascii) : ascii :=
  if isupper c then ascii_of_N (byte c + 32) else c.
Definition ceq (a b : ascii) : bool := Ascii.eqb a b.

Definition NUL : ascii := "000".
Definition LF : ascii := "010".
Definition CR : ascii := "013".
Definition TAB : ascii := "009".

Lemma ceq_true a b : ceq a b = true <-> a = b.
Proof. apply Ascii.eqb_eq. Qed.
Lemma ceq_false a b : ceq a b = false <-> a <> b.
Proof. apply Ascii.eqb_neq. Qed.
Lemma ceq_refl a : ceq a a = true.
Proof. by apply ceq_true. Qed.

(** * Traversals *)

Fixpoint sall (p : ascii -> bool) (s : string) : bool :=
  match s with
  | "" => true
  | String c r => p c && sall p r
  end.

Fixpoint smap (f : ascii -> ascii) (s : string) : string :=
  match s with
  | "" => ""
  | String c r => String (f c) (smap f r)
  end.

Fixpoint stake (n : nat) (s : string) : string :=
  match n, s with
  | S n', String c r => String c (stake n' r)
  | _, _ => ""
  end.

Fixpoint sdrop (n : nat) (s : string) : string :=
  match n, s with
  | S n', String _ r => sdrop n' r
  | _, _ => s
  end.

Definition nonempty (s : string) : bool :=
  match s with "" => false | _ => true end.

Definition strcmp_eq (a b : string) : bool := String.eqb a b.

(** The C string in a buffer: everything before the first NUL. *)
Fixpoint cstr (s : string) : string :=
  match s with
  | "" => ""
  | String c r => if ceq c NUL then "" else String c (cstr r)
  end.

(** [snprintf(dst, size, "%s", s)]: at most [size - 1] bytes are kept. *)
Definition strn (size : nat) (s : string) : string := stake (size - 1) s.

Definition strcaseeq (a b : string) : bool :=
  String.eqb (smap tolower a) (smap tolower b).

(** [strchr]: the text before and after the first [c]. *)
Fixpoint strchr (c : ascii) (s : string) : option (string * string) :=
  match s with
  | "" => None
  | String d r =>
      if ceq d c then Some ("", r)
      else match strchr c r with
           | Some (a, b) => Some (String d a, b)
           | None => None
           end
  end.

(** The tokens repeated calls of [strtok_r] return. *)
Fixpoint strtok (sep : ascii -> bool) (s : string) : list string :=
  match s with
  | "" => []
  | String c r =>
      if sep c then strtok sep r
      else match r with
           | "" => [String c ""]
           | String d _ =>
               if sep d then String c "" :: strtok sep r
               else match strtok sep r with
                    | t :: ts => String c t :: ts
                    | [] => [String c ""]
                    end
           end
  end.

Fixpoint ltrim (p : ascii -> bool) (s : string) : string :=
  match s with
  | "" => ""
  | String c r => if p c then ltrim p r else s
  end.

Fixpoint rtrim (p : ascii -> bool) (s : string) : string :=
  match s with
  | "" => ""
  | String c r =>
      match rtrim p r with
      | "" => if p c then "" else String c ""
      | r' => String c r'
      end
  end.

(** The lines successive [fgets(line, cap + 1, f)] calls return; [left] is the
    room left in the line being read. Each line keeps its newline. *)
Fixpoint fgets_go (cap left : nat) (s : string) : list string :=
  match s with
  | "" => []
  | String c r =>
      if ceq c LF || (left <=? 1)%nat then String c "" :: fgets_go cap cap r
      else match fgets_go cap (left - 1) r with
           | [] => [String c ""]
           | l :: ls => String c l :: ls
           end
  end.
(** [while (fgets(line, size, f))], each line as the C string it is. *)
Definition fgets_lines (size : nat) (content : string) : list string :=
  map cstr (fgets_go (size - 1) (size - 1) content).

Definition has_suffix (suf s : string) : bool :=
  (String.length suf <=? String.length s)%nat
  && String.eqb (sdrop (String.length s - String.length suf) s) suf.

(** * Lemmas *)

Lemma strcmp_eq_true a b : strcmp_eq a b = true <-> a = b.
Proof. apply String.eqb_eq. Qed.
Lemma strcmp_eq_false a b : strcmp_eq a b = false <-> a <> b.
Proof. apply String.eqb_neq. Qed.
Lemma strcmp_eq_refl a : strcmp_eq a a = true.
Proof. apply String.eqb_refl. Qed.

Lemma slen_app a b : String.length (a +:+ b) = (String.length a + String.length b)%nat.
Proof. induction a as [|c a IH]; simpl; [done|]. by rewrite IH. Qed.

Lemma sapp_nil_r a : a +:+ "" = a.
Proof. induction a as [|c a IH]; simpl; [done|]. by rewrite IH. Qed.
Lemma sapp_assoc a b c : (a +:+ b) +:+ c = a +:+ (b +:+ c).
Proof. induction a as [|x a IH]; simpl; [done|]. by rewrite IH. Qed.

Lemma sapp_assoc_char a c b : (a +:+ String c "") +:+ b = a +:+ String c b.
Proof. by rewrite sapp_assoc. Qed.

Lemma sall_app p a b : sall p (a +:+ b) = sall p a && sall p b.
Proof. induction a as [|c a IH]; simpl; [done|]. by rewrite IH, andb_assoc. Qed.

Lemma sall_impl (p q : ascii -> bool) s :
  (forall c, p c = true -> q c = true) -> sall p s = true -> sall q s = true.
Proof.
  intros Hpq. induction s as [|c r IH]; simpl; [done|]. intros H. bprop.
  rewrite Hpq by done. auto.
Qed.

Lemma stake_length n s : (String.length (stake n s) <= n)%nat.
Proof.
  revert s. induction n as [|n IH]; intros [|c s]; simpl; try lia.
  specialize (IH s). lia.
Qed.
Lemma stake_length_le n s : (String.length (stake n s) <= String.length s)%nat.
Proof.
  revert s. induction n as [|n IH]; intros [|c s]; simpl; try lia.
  specialize (IH s). lia.
Qed.
Lemma stake_id n s : (String.length s <= n)%nat -> stake n s = s.
Proof.
  revert s. induction n as [|n IH]; intros [|c s]; simpl; intros H; try done; try lia.
  rewrite IH by lia. done.
Qed.
Lemma sall_stake p n s : sall p s = true -> sall p (stake n s) = true.
Proof.
  revert s. induction n as [|n IH]; intros [|c s]; simpl; intros H; try done.
  bprop. rewrite H. simpl. auto.
Qed.
Lemma strn_length size s : (0 < size)%nat -> (String.length (strn size s) < size)%nat.
Proof. intros H. unfold strn. pose proof (stake_length (size - 1) s). lia. Qed.
Lemma strn_id size s : (String.length s < size)%nat -> strn size s = s.
Proof. intros H. apply stake_id. lia. Qed.
Lemma strn_nonempty size s :
  (1 < size)%nat -> nonempty s = true -> nonempty (strn size s) = true.
Proof. unfold strn. destruct size as [|[|n]]; try lia. destruct s; done. Qed.
Lemma stake_app_drop n s : stake n s +:+ sdrop n s = s.
Proof.
  revert s. induction n as [|n IH]; intros [|c s]; simpl; try done. by rewrite IH.
Qed.

Lemma stake_app a b : stake (String.length a) (a +:+ b) = a.
Proof. induction a as [|c a IH]; simpl; [by destruct b|]. by rewrite IH. Qed.

Lemma sdrop_app a b : sdrop (String.length a) (a +:+ b) = b.
Proof. induction a as [|c a IH]; simpl; [by destruct b|done]. Qed.

Lemma ltrim_length p s : (String.length (ltrim p s) <= String.length s)%nat.
Proof. induction s as [|c r IH]; simpl; [lia|]. destruct (p c); simpl; lia. Qed.
Lemma rtrim_length p s : (String.length (rtrim p s) <= String.length s)%nat.
Proof.
  induction s as [|c r IH]; simpl; [lia|].
  destruct (rtrim p r); [destruct (p c)|]; simpl in *; lia.
Qed.
Lemma ltrim_head p s c r : ltrim p s = String c r -> p c = false.
Proof.
  induction s as [|d s IH]; simpl; [done|].
  destruct (p d) eqn:E; [auto|]. intros [= <- <-]. done.
Qed.
Lemma ltrim_id p s : (forall c r, s = String c r -> p c = false) -> ltrim p s = s.
Proof. destruct s as [|c r]; simpl; [done|]. intros H. by rewrite (H c r). Qed.
Lemma ltrim_idem p s : ltrim p (ltrim p s) = ltrim p s.
Proof. apply ltrim_id. apply ltrim_head. Qed.
Lemma rtrim_idem p s : rtrim p (rtrim p s) = rtrim p s.
Proof.
  induction s as [|c r IH]; simpl; [done|].
  destruct (rtrim p r) as [|d t] eqn:E.
  - destruct (p c) eqn:Ec; simpl; [done|]. by rewrite Ec.
  - change (rtrim p (String c (String d t)))
      with (match rtrim p (String d t) with
            | "" => if p c then "" else String c "" | r' => String c r' end).
    by rewrite IH.
Qed.
Lemma rtrim_head p s c r : rtrim p s = String c r -> exists r', s = String c r'.
Proof.
  destruct s as [|d s]; simpl; [done|].
  destruct (rtrim p s); [destruct (p d); [done|]|]; intros [= -> _]; eauto.
Qed.
Lemma ltrim_rtrim_ltrim p q s : ltrim p (rtrim q (ltrim p s)) = rtrim q (ltrim p s).
Proof.
  apply ltrim_id. intros c r E. apply rtrim_head in E as (r' & E). by eapply ltrim_head.
Qed.
Lemma sall_ltrim p q s : sall q s = true -> sall q (ltrim p s) = true.
Proof.
  induction s as [|c r IH]; simpl; [done|]. intros H. bprop.
  destruct (p c); simpl; [auto|]. by rewrite H, H0.
Qed.
Lemma sall_rtrim p q s : sall q s = true -> sall q (rtrim p s) = true.
Proof.
  induction s as [|c r IH]; simpl; [done|]. intros H. bprop. specialize (IH H0).
  destruct (rtrim p r); [destruct (p c)|]; simpl in *; rewrite ?H; auto.
Qed.
Lemma ltrim_none p s : sall (fun c => negb (p c)) s = true -> ltrim p s = s.
Proof. destruct s; simpl; [done|]. intros H. bprop. by rewrite H. Qed.
Lemma rtrim_none p s : sall (fun c => negb (p c)) s = true -> rtrim p s = s.
Proof.
  induction s as [|c r IH]; simpl; [done|]. intros H. bprop.
  rewrite IH by done. rewrite H. by destruct r.
Qed.

Lemma strchr_some c s a b :
  strchr c s = Some (a, b) -> s = a +:+ String c b /\ sall (fun d => negb (ceq d c)) a = true.
Proof.
  revert a b. induction s as [|d r IH]; simpl; intros a b H; [done|].
  destruct (ceq d c) eqn:E.
  - injection H as <- <-. apply ceq_true in E. by subst.
  - destruct (strchr c r) as [[a' b']|]; [|done]. injection H as <- <-.
    destruct (IH a' b') as [-> Hall]; [done|]. simpl. rewrite E. done.
Qed.
Lemma strchr_none c s : strchr c s = None <-> sall (fun d => negb (ceq d c)) s = true.
Proof.
  induction s as [|d r IH]; simpl; [done|]. destruct (ceq d c); simpl; [done|].
  destruct (strchr c r) as [[a b]|]; rewrite <- IH; done.
Qed.
Lemma strchr_app c a b :
  sall (fun d => negb (ceq d c)) a = true -> strchr c (a +:+ String c b) = Some (a, b).
Proof.
  induction a as [|d r IH]; simpl; intros H; [by rewrite ceq_refl|].
  bprop. rewrite H. by rewrite IH.
Qed.

(** ** Tokens *)

Section tokens.
Context (sep : ascii -> bool).

Lemma strtok_cons_sep c r : sep c = true -> strtok sep (String c r) = strtok sep r.
Proof. intros H. simpl. by rewrite H. Qed.

Lemma strtok_single s :
  s <> "" -> sall (fun c => negb (sep c)) s = true -> strtok sep s = [s].
Proof.
  induction s as [|c r IH]; intros Hne H; [done|]. cbn [strtok sall] in *. bprop.
  rewrite H. destruct r as [|d r']; [done|].
  assert (sep d = false) as ->. { cbn in H0. bprop. done. }
  rewrite IH by done. done.
Qed.

Lemma strtok_app c a b :
  sep c = true -> strtok sep (a +:+ String c b) = (strtok sep a ++ strtok sep b)%list.
Proof.
  intros Hc. induction a as [|x a IH]; simpl; [by rewrite Hc|].
  destruct (sep x); [done|]. destruct a as [|y a'].
  - simpl in *. rewrite Hc. done.
  - simpl. simpl in IH. destruct (sep y) eqn:Ey; [by rewrite IH|].
    rewrite IH.
    destruct (match a' with "" => _ | _ => _ end) as [|t ts] eqn:E; [|done].
    exfalso. destruct a' as [|z a'']; [done|].
    destruct (sep z); [done|]. by destruct (strtok sep (String z a'')).
Qed.

Lemma strtok_tokens s t :
  t ∈ strtok sep s -> t <> "" /\ sall (fun c => negb (sep c)) t = true.
Proof.
  revert t. induction s as [|c r IH]; cbn [strtok]; intros t Ht; [by inversion Ht|].
  destruct (sep c) eqn:Ec; [by apply IH|].
  assert (forall u, sall (fun c => negb (sep c)) u = true ->
    sall (fun c => negb (sep c)) (String c u) = true) as Hs.
  { intros u Hu. simpl. by rewrite Ec. }
  destruct r as [|d r'].
  - apply list_elem_of_singleton in Ht. subst. split; [done|]. by apply Hs.
  - destruct (sep d) eqn:Ed.
    + apply elem_of_cons in Ht as [->|Ht]; [|by apply IH].
      split; [done|]. by apply Hs.
    + destruct (strtok sep (String d r')) as [|u us] eqn:E.
      * apply list_elem_of_singleton in Ht. subst. split; [done|]. by apply Hs.
      * apply elem_of_cons in Ht as [->|Ht].
        -- split; [done|]. apply Hs. apply IH. by left.
        -- apply IH. by right.
Qed.
End tokens.

Lemma sall_cstr p s : sall p s = true -> sall p (cstr s) = true.
Proof.
  induction s as [|c r IH]; simpl; [done|]. intros H. bprop.
  destruct (ceq c NUL); [done|]. simpl. rewrite H. auto.
Qed.
Lemma cstr_id s : sall (fun c => negb (ceq c NUL)) s = true -> cstr s = s.
Proof.
  induction s as [|c r IH]; simpl; [done|]. intros H. bprop. rewrite H. by rewrite IH.
Qed.

(** ** Lines *)

Lemma fgets_go_concat cap left s :
  (0 < left)%nat -> (0 < cap)%nat ->
  foldr String.append "" (fgets_go cap left s) = s.
Proof.
  revert left. induction s as [|c r IH]; intros left Hl Hc; cbn [fgets_go]; [done|].
  destruct (ceq c LF || (left <=? 1)%nat) eqn:E.
  - simpl. by rewrite IH.
  - bprop. specialize (IH (left - 1)%nat ltac:(lia) Hc).
    destruct (fgets_go cap (left - 1) r) as [|l ls]; simpl in *; by rewrite <- IH.
Qed.
Lemma fgets_go_bound cap left s l :
  (0 < cap)%nat -> (0 < left <= cap)%nat ->
  l ∈ fgets_go cap left s -> (String.length l <= cap)%nat.
Proof.
  intros Hc Hl. assert (match fgets_go cap left s with [] => True
    | x :: xs => (String.length x <= left)%nat /\
       forall y, y ∈ xs -> (String.length y <= cap)%nat end) as H.
  { revert left Hl. induction s as [|c r IH]; intros left Hl; cbn [fgets_go]; [done|].
    destruct (ceq c LF || (left <=? 1)%nat) eqn:E.
    - split; [simpl; lia|]. specialize (IH cap ltac:(lia)). intros y Hy.
      destruct (fgets_go cap cap r) as [|x xs]; [by inversion Hy|].
      destruct IH as [H1 H2]. apply elem_of_cons in Hy as [->|Hy]; [lia|auto].
    - bprop. specialize (IH (left - 1)%nat ltac:(lia)).
      destruct (fgets_go cap (left - 1) r) as [|x xs]; simpl.
      + split; [lia|]. intros y Hy. by inversion Hy.
      + destruct IH as [H1 H2]. split; [lia|done]. }
  intros Hin. destruct (fgets_go cap left s) as [|x xs]; [by inversion Hin|].
  destruct H as [H1 H2]. apply elem_of_cons in Hin as [->|Hin]; [lia|auto].
Qed.

Lemma fgets_go_line cap left l rest :
  sall (fun c => negb (ceq c LF)) l = true -> (String.length l < left)%nat ->
  fgets_go cap left (l +:+ String LF rest) = (l +:+ String LF "") :: fgets_go cap cap rest.
Proof.
  revert left. induction l as [|c l IH]; intros left H Hl; cbn [fgets_go].
  - simpl. done.
  - simpl in H, Hl. bprop. cbn [String.append fgets_go]. rewrite H. simpl.
    assert ((left <=? 1)%nat = false) as -> by (apply Nat.leb_gt; lia).
    rewrite IH by (done || lia). done.
Qed.

(** A text of newline-terminated lines. *)
Definition unlines (ls : list string) : string :=
  foldr (fun l acc => l +:+ String LF acc) "" ls.

Definition line_char (c : ascii) : bool := negb (ceq c LF) && negb (ceq c NUL).

Lemma fgets_lines_unlines size ls :
  Forall (fun l => sall line_char l = true /\ (String.length l + 1 < size)%nat) ls ->
  fgets_lines size (unlines ls) = map (fun l => l +:+ String LF "") ls.
Proof.
  unfold fgets_lines. induction 1 as [|l ls [Hl Hs] _ IH]; [done|]. simpl.
  rewrite fgets_go_line.
  - simpl. rewrite IH. f_equal. apply cstr_id. rewrite sall_app. simpl.
    rewrite andb_true_r. eapply sall_impl; [|done]. intros c Hc.
    unfold line_char in Hc. bprop. by rewrite H0.
  - eapply sall_impl; [|done]. intros c Hc. unfold line_char in Hc. bprop. by rewrite H.
  - lia.
Qed.

Lemma rtrim_snoc p s c :
  p c = true -> sall (fun d => negb (p d)) s = true -> rtrim p (s +:+ String c "") = s.
Proof.
  intros Hc. induction s as [|d s IH]; simpl; intros H; [by rewrite Hc|].
  bprop. rewrite IH by done. destruct s; by rewrite ?H.
Qed.

#[export] Hint Resolve strcmp_eq_refl ceq_refl stake_length stake_length_le
  ltrim_length rtrim_length : neon.
