(* ===== verification/CNum.v ===== *)
(** Numbers of the C library: strtoul(3), strtol(3) in base 0, 10 and 16, and
    the printf(3) conversions %lu, %d and %0nX. The width of [long] is an
    argument where the programs run on 32-bit and 64-bit machines. *)
From S2P Require Import Prelude CStr.
From stdpp Require Import pretty.
From Stdlib Require Import Ascii.
Open Scope string_scope.
Open Scope list_scope.

Definition to_i32 (z : Z) : Z := (((z + 2 ^ 31) mod 2 ^ 32) - 2 ^ 31)%Z.

Definition digit_val (c : ascii) : option Z :=
  if isdigit c then Some (Z.of_N (byte c) - 48)%Z
  else if isupper c then Some (Z.of_N (byte c) - 55)%Z
  else if islower c then Some (Z.of_N (byte c) - 87)%Z
  else None.

(** A digit of the base. *)
Definition base_digit (base : Z) (c : ascii) : option Z :=
  match digit_val c with
  | Some d => if (d <? base)%Z then Some d else None
  | None => None
  end.

(** The longest prefix of digits, and the text after it. *)
Fixpoint digits (base acc : Z) (s : string) : Z * string :=
  match s with
  | "" => (acc, "")
  | String c r =>
      match base_digit base c with
      | Some d => digits base (acc * base + d) r
      | None => (acc, s)
      end
  end.

Definition starts_digit (base : Z) (s : string) : bool :=
  match s with String c _ => bool_decide (is_Some (base_digit base c)) | "" => false end.

(** The text after an optional sign, and whether it is a minus. *)
Definition sign (s : string) : bool * string :=
  match s with
  | String c r => if ceq c "-" then (true, r) else if ceq c "+" then (false, r) else (false, s)
  | "" => (false, "")
  end.

(** A prefix 0x counts when a hexadecimal digit follows. *)
Definition hex_prefix (s : string) : option string :=
  match s with
  | String "0" (String c r) =>
      if (ceq c "x" || ceq c "X") && starts_digit 16 r then Some r else None
  | _ => None
  end.

Definition number_base (base : Z) (s : string) : Z * string :=
  if (base =? 10)%Z then (10%Z, s)
  else match hex_prefix s with
       | Some r => (16%Z, r)
       | None =>
           if (base =? 16)%Z then (16%Z, s)
           else match s with String "0" _ => (8%Z, s) | _ => (10%Z, s) end
       end.

(** Sign, magnitude, and the text that follows; the whole text when there is no
    number. *)
Definition strto (base : Z) (s : string) : bool * Z * string :=
  let '(neg, t) := sign (ltrim isspace s) in
  let '(b, u) := number_base base t in
  if starts_digit b u then let '(m, rest) := digits b 0 u in (neg, m, rest)
  else (false, 0%Z, s).

(** [strtoul] where [unsigned long] has [w] bits. *)
Definition strtoul (w base : Z) (s : string) : Z :=
  let '(neg, m, _) := strto base s in
  if (2 ^ w <=? m)%Z then (2 ^ w - 1)%Z
  else if neg then ((- m) mod 2 ^ w)%Z else m.

(** [strtol] where [long] has [w] bits: the value and the text at [*end]. *)
Definition strtol (w base : Z) (s : string) : Z * string :=
  let '(neg, m, rest) := strto base s in
  (Z.max (- 2 ^ (w - 1)) (Z.min (2 ^ (w - 1) - 1) (if neg then - m else m))%Z, rest).

Definition hex_digit (d : Z) : ascii :=
  ascii_of_N (Z.to_N (if (d <? 10)%Z then d + 48 else d + 55)).

(** [%0nX] of a value of at most [n] digits. *)
Fixpoint hex_fixed (n : nat) (z : Z) : string :=
  match n with
  | O => ""
  | S n' => hex_fixed n' (z / 16) +:+ String (hex_digit (z mod 16)) ""
  end.

(** * Lemmas *)

Lemma to_i32_small z : (- 2 ^ 31 <= z < 2 ^ 31)%Z -> to_i32 z = z.
Proof. unfold to_i32. intros H. rewrite Z.mod_small; lia. Qed.

Lemma digit_val_range c d : digit_val c = Some d -> (0 <= d < 36)%Z.
Proof. destruct c as [[] [] [] [] [] [] [] []]; vm_compute; intros E; by simplify_eq. Qed.

Lemma strtoul_range w base s : (0 < w)%Z -> (0 <= strtoul w base s < 2 ^ w)%Z.
Proof.
  intros Hw. unfold strtoul. destruct (strto base s) as [[neg m] rest] eqn:E.
  assert (0 < 2 ^ w)%Z by lia.
  case_if; [lia|]. destruct neg; [apply Z.mod_pos_bound; lia|]. bprop.
  assert (forall b acc t, (0 <= acc)%Z -> (0 <= b)%Z -> (0 <= fst (digits b acc t))%Z) as Hd.
  { intros b acc t. revert acc. induction t as [|c t IH]; simpl; intros acc Ha Hb; [done|].
    unfold base_digit. destruct (digit_val c) as [d|] eqn:Ed; [|done].
    apply digit_val_range in Ed. case_if; [apply IH; nia|done]. }
  unfold strto in E. destruct (sign (ltrim isspace s)) as [neg' t].
  destruct (number_base base t) as [b u] eqn:Eb.
  assert (0 <= b)%Z as Hb.
  { unfold number_base in Eb. repeat (case_match; simplify_eq; try lia). }
  destruct (starts_digit b u); [|simplify_eq; lia].
  specialize (Hd b 0%Z u ltac:(lia) Hb). destruct (digits b 0 u) as [m' r'].
  simplify_eq. simpl in Hd. lia.
Qed.

Lemma hex_fixed_length n z : String.length (hex_fixed n z) = n.
Proof.
  revert z. induction n as [|n IH]; intros z; [done|]. cbn [hex_fixed].
  rewrite slen_app, IH. simpl. lia.
Qed.

Lemma sall_hex_fixed p n z :
  (forall d, (0 <= d < 16)%Z -> p (hex_digit d) = true) -> sall p (hex_fixed n z) = true.
Proof.
  intros Hp. revert z. induction n as [|n IH]; intros z; [done|]. cbn [hex_fixed].
  rewrite sall_app, IH. simpl. rewrite Hp; [done|]. apply Z.mod_pos_bound. lia.
Qed.

Lemma hex_digit_val d : (0 <= d < 16)%Z -> base_digit 16 (hex_digit d) = Some d.
Proof.
  intros Hd. assert (exists n, (n < 16)%nat /\ d = Z.of_nat n) as (n & Hn & ->).
  { exists (Z.to_nat d). lia. }
  do 16 (destruct n as [|n]; [reflexivity|]). lia.
Qed.

Lemma digits_app_hex n z acc rest :
  (0 <= z < 16 ^ Z.of_nat n)%Z ->
  digits 16 acc (hex_fixed n z +:+ rest) = digits 16 (acc * 16 ^ Z.of_nat n + z) rest.
Proof.
  revert z acc rest. induction n as [|n IH]; intros z acc rest Hz.
  - simpl hex_fixed. simpl in Hz. f_equal. simpl. lia.
  - cbn [hex_fixed]. rewrite sapp_assoc.
    assert (Z.of_nat (S n) = Z.of_nat n + 1)%Z as En by lia.
    rewrite En, Z.pow_add_r in * by lia. change (16 ^ 1)%Z with 16%Z in *.
    rewrite IH by (split; [apply Z.div_pos; lia|apply Z.div_lt_upper_bound; lia]).
    simpl. rewrite hex_digit_val by (apply Z.mod_pos_bound; lia). f_equal.
    pose proof (Z.div_mod z 16). lia.
Qed.

(** What [0x%0nX] prints, strtoul reads back in base 0. *)
Lemma strtoul_hex w n z :
  (0 < n)%nat -> (0 <= z < 16 ^ Z.of_nat n)%Z -> (z < 2 ^ w)%Z ->
  strtoul w 0 ("0x" +:+ hex_fixed n z) = z.
Proof.
  intros Hn Hz Hw.
  assert (starts_digit 16 (hex_fixed n z) = true) as Hs.
  { assert (exists d r, (0 <= d < 16)%Z /\ hex_fixed n z = String (hex_digit d) r)
      as (d & r & Hd & ->).
    { clear - Hn. revert z Hn. induction n as [|n IH]; intros z Hn; [lia|].
      destruct n as [|n].
      - exists (z mod 16)%Z, "". split; [apply Z.mod_pos_bound; lia|done].
      - destruct (IH (z / 16)%Z) as (d & r & Hd & E); [lia|].
        exists d, (r +:+ String (hex_digit (z mod 16)) ""). split; [done|].
        change (hex_fixed (S (S n)) z) with
          (hex_fixed (S n) (z / 16) +:+ String (hex_digit (z mod 16)) "").
        by rewrite E. }
    simpl. rewrite hex_digit_val by done. reflexivity. }
  unfold strtoul, strto. cbn [ltrim String.append]. change (isspace "0") with false. cbn [sign].
  unfold number_base. change (ceq "0" "-") with false. change (ceq "0" "+") with false.
  change (0 =? 10)%Z with false. cbn [hex_prefix]. rewrite Hs.
  change (ceq "x" "x" || ceq "x" "X") with true. cbn [andb]. rewrite Hs.
  pose proof (digits_app_hex n z 0 "" Hz) as Hd. rewrite sapp_nil_r in Hd. rewrite Hd.
  cbn [digits]. rewrite Z.mul_0_l, Z.add_0_l.
  destruct (Z.leb_spec (2 ^ w) z); [lia|done].
Qed.

Example strtol_examples :
  strtol 64 10 " -12x" = ((-12)%Z, "x") /\ strtol 64 10 "" = (0%Z, "") /\
  strtoul 32 0 "0x1F" = 31%Z /\ strtoul 32 0 "017" = 15%Z /\ strtoul 32 16 "fg" = 15%Z /\
  strtoul 32 10 "-1" = (2 ^ 32 - 1)%Z /\ strtoul 32 10 "99999999999" = (2 ^ 32 - 1)%Z.
Proof. repeat split; vm_compute; reflexivity. Qed.
