(* ===== verification/UciManifest.v ===== *)
(** neon-uci: token checks, manifest parsing and the loading of the translator
    directory (src/package/system/neon-uci/src/neon-uci.c, [trim] to
    [load_translators]). *)
From S2P Require Import Prelude CStr.
From Stdlib Require Import Ascii.
Open Scope string_scope.
Open Scope list_scope.

Definition PATH_MAX : nat := 4096.
Definition MAX_LINE : nat := 2048.
Definition MAX_TRANSLATORS : nat := 128.

(** * Token checks *)

(** [trim]: the first character is never dropped by the second loop, whose
    guard is [end > s]. *)
Definition trim (s : string) : string :=
  match ltrim isspace s with
  | "" => ""
  | String c r => String c (rtrim isspace r)
  end.

Definition parse_bool (s : string) (def : bool) : bool :=
  if negb (nonempty s) then def
  else if strcaseeq s "1" || strcaseeq s "yes" || strcaseeq s "true" || strcaseeq s "on"
  then true
  else if strcaseeq s "0" || strcaseeq s "no" || strcaseeq s "false" || strcaseeq s "off"
  then false
  else def.

Definition token_char (c : ascii) : bool :=
  isalnum c || ceq c "_" || ceq c "-" || ceq c "." || ceq c "@".
Definition safe_token (s : string) : bool := nonempty s && sall token_char s.

Definition package_char (c : ascii) : bool := isalnum c || ceq c "_" || ceq c "-".
Definition package_name_valid (s : string) : bool := nonempty s && sall package_char s.

Definition actions : list string :=
  ["none"; "reload"; "restart"; "try-reload-or-restart"; "reload-or-restart";
   "daemon-reload"].
Definition action_valid (s : string) : bool := existsb (strcmp_eq s) actions.

(** * Manifests *)

Record translator := mk_translator {
  manifest_path : string;
  name : string;
  packages : string;
  command : string;
  units : string;
  action : string;
  enabled : bool;
  unit_optional : bool
}.

#[export] Instance translator_eq_dec : EqDecision translator.
Proof. solve_decision. Defined.

(** The chain of [strcmp(key, ...)] tests; each buffer truncates its value. *)
Definition set_key (t : translator) (key val : string) : translator :=
  let 'mk_translator mp n p c u a e o := t in
  if strcmp_eq key "name" then mk_translator mp (strn 128 val) p c u a e o
  else if strcmp_eq key "packages" then mk_translator mp n (strn 1024 val) c u a e o
  else if strcmp_eq key "command" then mk_translator mp n p (strn PATH_MAX val) u a e o
  else if strcmp_eq key "units" then mk_translator mp n p c (strn 1024 val) a e o
  else if strcmp_eq key "action" then mk_translator mp n p c u (strn 64 val) e o
  else if strcmp_eq key "enabled" then mk_translator mp n p c u a (parse_bool val true) o
  else if strcmp_eq key "unit_optional"
       then mk_translator mp n p c u a e (parse_bool val true)
  else t.

(** One iteration of the [fgets] loop; the boolean is [in_translator]. *)
Definition manifest_line (st : translator * bool) (line : string) : translator * bool :=
  let '(t, in_translator) := st in
  let p := trim line in
  match p with
  | "" => st
  | String c _ =>
      if ceq c "#" || ceq c ";" then st
      else if ceq c "[" then (t, strcmp_eq p "[translator]")
      else if negb in_translator then st
      else match strchr "=" p with
           | None => st
           | Some (k, v) => (set_key t (trim k) (trim v), in_translator)
           end
  end.

Definition manifest_init (path : string) : translator :=
  mk_translator (strn PATH_MAX path) "" "" "" "" (strn 64 "none") true true.

(** The checks after the loop. *)
Definition manifest_check (t : translator) : bool :=
  (nonempty t.(name) && safe_token t.(name))
  && nonempty t.(packages)
  && match t.(command) with String c _ => ceq c "/" | "" => false end
  && action_valid t.(action).

(** [parse_manifest]: [None] is the return value -1; [content] is [None] when
    the file cannot be opened. *)
Definition parse_manifest (path : string) (content : option string) : option translator :=
  match content with
  | None => None
  | Some text =>
      let t := fst (fold_left manifest_line (fgets_lines MAX_LINE text)
                              (manifest_init path, false)) in
      if manifest_check t then Some t else None
  end.

(** * The translator directory *)

(** [strcmp(ta->manifest_path, tb->manifest_path) <= 0]. *)
Definition translator_cmp (a b : translator) : Prop :=
  String.le a.(manifest_path) b.(manifest_path).
#[export] Instance translator_cmp_dec : RelDecision translator_cmp.
Proof. unfold translator_cmp. intros a b. apply _. Defined.

Definition conf_entry (d_name : string) : bool :=
  negb (match d_name with String c _ => ceq c "." | "" => false end)
  && negb ((String.length d_name <? 6)%nat || negb (has_suffix ".conf" d_name)).

Section load.
(** [g_translator_dir] and the files below it. *)
Variable translator_dir : string.
Variable file : string -> option string.

Definition manifest_of (d_name : string) : string := translator_dir +:+ "/" +:+ d_name.

(** The [readdir] loop, [ts] being the array filled so far. *)
Fixpoint read_entries (entries : list string) (ts : list translator)
    : option (list translator) :=
  match entries with
  | [] => Some ts
  | d :: rest =>
      if negb (conf_entry d) then read_entries rest ts
      else if (MAX_TRANSLATORS <=? length ts)%nat then None
      else if (PATH_MAX <=? String.length (manifest_of d))%nat then read_entries rest ts
      else match parse_manifest (manifest_of d) (file (manifest_of d)) with
           | Some t => read_entries rest (ts ++ [t])
           | None => None
           end
  end.

(** [load_translators]; [entries] is what [readdir] returns, [None] when
    [opendir] fails. [qsort] is a sort by [translator_cmp]. *)
Definition load_translators (entries : option (list string)) : option (list translator) :=
  match entries with
  | None => None
  | Some es =>
      match read_entries es [] with
      | Some l => Some (merge_sort translator_cmp l)
      | None => None
      end
  end.
End load.

(** * Lemmas on tokens *)

Lemma trim_nospace s : sall (fun c => negb (isspace c)) s = true -> trim s = s.
Proof.
  intros H. unfold trim. rewrite ltrim_none by done. destruct s; [done|].
  simpl in H. bprop. by rewrite rtrim_none.
Qed.

Lemma package_char_not c : package_char c = true -> isspace c = false /\ ceq c "," = false.
Proof. destruct c as [[] [] [] [] [] [] [] []]; by vm_compute. Qed.

Lemma package_trim s : package_name_valid s = true -> trim s = s.
Proof.
  intros H. unfold package_name_valid in H. bprop. apply trim_nospace.
  eapply sall_impl; [|done]. intros c Hc. apply package_char_not in Hc as [-> _]. done.
Qed.

Lemma package_no_comma s :
  package_name_valid s = true -> sall (fun c => negb (ceq c ",")) s = true.
Proof.
  intros H. unfold package_name_valid in H. bprop.
  eapply sall_impl; [|done]. intros c Hc. apply package_char_not in Hc as [_ ->]. done.
Qed.

Lemma package_ne s : package_name_valid s = true -> s <> "".
Proof. by intros H ->. Qed.

(** * Manifest invariant *)

Definition fields_fit (t : translator) : Prop :=
  (String.length t.(manifest_path) < PATH_MAX)%nat /\
  (String.length t.(name) < 128)%nat /\ (String.length t.(packages) < 1024)%nat /\
  (String.length t.(command) < PATH_MAX)%nat /\ (String.length t.(units) < 1024)%nat /\
  (String.length t.(action) < 64)%nat.

Lemma set_key_fits t k v : fields_fit t -> fields_fit (set_key t k v).
Proof.
  destruct t as [mp n p c u a e o]. unfold fields_fit, set_key. simpl.
  intros (? & ? & ? & ? & ? & ?).
  repeat case_if; simpl; repeat split; auto; apply strn_length; unfold PATH_MAX; lia.
Qed.

Lemma manifest_line_fits st l : fields_fit (fst st) -> fields_fit (fst (manifest_line st l)).
Proof.
  destruct st as [t i]. unfold manifest_line. simpl. intros H.
  destruct (trim l) as [|c r]; [done|]. repeat case_if; auto.
  destruct (strchr "=" (String c r)) as [[k v]|]; simpl; auto using set_key_fits.
Qed.

Lemma manifest_lines_fit ls st :
  fields_fit (fst st) -> fields_fit (fst (fold_left manifest_line ls st)).
Proof.
  revert st. induction ls as [|l ls IH]; simpl; intros st H; [done|].
  apply IH. by apply manifest_line_fits.
Qed.

Lemma manifest_init_fits path : fields_fit (manifest_init path).
Proof.
  unfold fields_fit, manifest_init. simpl.
  repeat split; try (apply strn_length); unfold PATH_MAX; lia.
Qed.

Lemma manifest_line_path st l :
  manifest_path (fst (manifest_line st l)) = manifest_path (fst st).
Proof.
  destruct st as [t i]. unfold manifest_line. simpl.
  destruct (trim l) as [|c r]; [done|]. repeat case_if; auto.
  destruct (strchr "=" (String c r)) as [[k v]|]; simpl; [|done].
  destruct t. unfold set_key. by repeat case_if.
Qed.

Lemma parse_manifest_path path c t :
  parse_manifest path c = Some t -> manifest_path t = strn PATH_MAX path.
Proof.
  unfold parse_manifest. destruct c as [text|]; [|done]. case_if; [|done].
  intros [= <-]. clear E. change (strn PATH_MAX path)
    with (manifest_path (fst (manifest_init path, false))).
  generalize (manifest_init path, false). generalize (fgets_lines MAX_LINE text).
  intros ls. induction ls as [|l ls IH]; intros st; [done|].
  cbn [fold_left]. by rewrite IH, manifest_line_path.
Qed.

(** * Loading: the sorted list does not depend on the order of readdir *)

Section load_facts.
Variable translator_dir : string.
Variable file : string -> option string.
#[local] Abbreviation manifest_of := (manifest_of translator_dir).
#[local] Abbreviation read_entries := (read_entries translator_dir file).

Definition entry_ok (d : string) : Prop :=
  (String.length (manifest_of d) < PATH_MAX)%nat.
Definition load_one (d : string) : option translator :=
  parse_manifest (manifest_of d) (file (manifest_of d)).
Definition eligible (es : list string) : list string :=
  List.filter conf_entry es.

(** What the loop computes: every eligible manifest must parse, and there is
    room for at most [MAX_TRANSLATORS] of them. *)
Lemma read_entries_spec es acc :
  Forall entry_ok es -> (length acc <= MAX_TRANSLATORS)%nat ->
  read_entries es acc =
    match mapM load_one (eligible es) with
    | Some l => if (length (acc ++ l) <=? MAX_TRANSLATORS)%nat then Some (acc ++ l) else None
    | None => None
    end.
Proof.
  intros Hok. revert acc. induction Hok as [|d es Hd Hes IH]; intros acc Hacc.
  - simpl. rewrite app_nil_r. case_if; [done|]. bprop. lia.
  - cbn [UciManifest.read_entries eligible List.filter].
    destruct (conf_entry d) eqn:Ed; cbn [negb]; [|by apply IH].
    cbn [mapM]. change (parse_manifest _ _) with (load_one d).
    assert ((PATH_MAX <=? String.length (manifest_of d))%nat = false) as ->.
    { apply Nat.leb_gt. exact Hd. }
    destruct (MAX_TRANSLATORS <=? length acc)%nat eqn:El.
    + bprop. destruct (load_one d) as [t|]; simpl; [|done].
      fold (eligible es). destruct (mapM load_one (eligible es)) as [l|]; simpl; [|done].
      rewrite length_app. simpl. case_if; [|done]. bprop. lia.
    + bprop. destruct (load_one d) as [t|]; simpl; [|done].
      rewrite IH by (rewrite length_app; simpl; lia).
      fold (eligible es). destruct (mapM load_one (eligible es)) as [l|]; simpl; [|done].
      by rewrite <- app_assoc.
Qed.

Lemma eligible_perm es es' : es ≡ₚ es' -> eligible es ≡ₚ eligible es'.
Proof.
  induction 1; simpl; repeat case_if; eauto using Permutation, perm_swap.
Qed.

Lemma mapM_perm es es' :
  es ≡ₚ es' ->
  match mapM load_one es, mapM load_one es' with
  | Some l, Some l' => l ≡ₚ l'
  | None, None => True
  | _, _ => False
  end.
Proof.
  induction 1 as [|d es es' _ IH|d d' es|es es' es'' _ IH1 _ IH2]; simpl; [done| | |].
  - destruct (load_one d); simpl; [|done].
    destruct (mapM load_one es), (mapM load_one es'); simpl; auto.
  - destruct (load_one d), (load_one d'); simpl; try done;
      destruct (mapM load_one es); simpl; try done. apply perm_swap.
  - destruct (mapM load_one es), (mapM load_one es'), (mapM load_one es'');
      try done. by etrans.
Qed.

Lemma mapM_paths es l :
  Forall entry_ok es -> mapM load_one es = Some l -> map manifest_path l = map manifest_of es.
Proof.
  revert l. induction es as [|d es IH]; simpl; intros l Hok Hl; [by injection Hl as <-|].
  apply Forall_cons in Hok as [Hd Hok].
  destruct (load_one d) as [t|] eqn:Et; simpl in Hl; [|done].
  destruct (mapM load_one es) as [l'|]; simpl in Hl; [|done]. injection Hl as <-. simpl.
  rewrite (IH l') by done. apply parse_manifest_path in Et. rewrite Et.
  by rewrite strn_id.
Qed.
End load_facts.

#[export] Instance translator_cmp_trans : Transitive translator_cmp.
Proof. unfold translator_cmp. intros a b c. apply transitivity. Qed.
#[export] Instance translator_cmp_total : Total translator_cmp.
Proof. unfold translator_cmp. intros a b. apply total, _. Qed.

(** Sorting by distinct paths has one result. *)
Lemma sort_unique l l' :
  l ≡ₚ l' -> NoDup (map manifest_path l) ->
  merge_sort translator_cmp l = merge_sort translator_cmp l'.
Proof.
  intros Hp Hnd.
  apply (StronglySorted_unique_strong translator_cmp).
  - intros a b Ha Hb Hab Hba.
    rewrite merge_sort_Permutation in Ha. rewrite merge_sort_Permutation in Hb.
    assert (manifest_path a = manifest_path b) as Heq.
    { unfold translator_cmp in *. by apply (anti_symm String.le). }
    rewrite <- Hp in Hb. clear Hp Hab Hba.
    apply list_elem_of_lookup in Ha as [i Hi]. apply list_elem_of_lookup in Hb as [j Hj].
    assert (i = j) as ->; [|congruence].
    eapply (NoDup_lookup (map manifest_path l)); [done| |].
    + change (map manifest_path l) with (manifest_path <$> l).
      rewrite list_lookup_fmap, Hi. done.
    + change (map manifest_path l) with (manifest_path <$> l).
      rewrite list_lookup_fmap, Hj. simpl. by rewrite Heq.
  - apply StronglySorted_merge_sort; apply _.
  - apply StronglySorted_merge_sort; apply _.
  - by rewrite !merge_sort_Permutation.
Qed.

(** * Rendering a manifest, as the README shows one *)

Definition plain (s : string) : bool :=
  sall (fun c => negb (isspace c) && negb (ceq c NUL)) s.

Definition yes_no (b : bool) : string := if b then "yes" else "no".
Definition key_line (kv : string * string) : string := fst kv +:+ String "=" (snd kv).
Definition manifest_fields (t : translator) : list (string * string) :=
  [("name", name t); ("packages", packages t); ("command", command t);
   ("units", units t); ("action", action t);
   ("unit_optional", yes_no (unit_optional t)); ("enabled", yes_no (enabled t))].
Definition render_manifest (t : translator) : string :=
  unlines ("[translator]" :: map key_line (manifest_fields t)).

Definition renderable (t : translator) : Prop :=
  Forall (fun kv => plain (snd kv) = true /\ (String.length (snd kv) < 2000)%nat)
    (manifest_fields t)
  /\ fields_fit t /\ manifest_check t = true.

Definition key_char (c : ascii) : bool := islower c || ceq c "_".

Lemma key_char_not c :
  key_char c = true ->
  isspace c = false /\ ceq c NUL = false /\ ceq c LF = false /\ ceq c "=" = false /\
  ceq c "#" || ceq c ";" = false /\ ceq c "[" = false.
Proof. destruct c as [[] [] [] [] [] [] [] []]; vm_compute; intros; by repeat split. Qed.

Lemma trim_line s :
  s <> "" -> sall (fun c => negb (isspace c)) s = true -> trim (s +:+ String LF "") = s.
Proof.
  destruct s as [|c r]; [done|]. intros _ H. simpl in H. bprop.
  unfold trim. cbn [String.append ltrim]. rewrite H. by rewrite rtrim_snoc.
Qed.

Lemma manifest_key_line t k v :
  k <> "" -> sall key_char k = true -> plain v = true ->
  manifest_line (t, true) (key_line (k, v) +:+ String LF "") = (set_key t k v, true).
Proof.
  intros Hne Hk Hv. unfold manifest_line.
  assert (forall p, (forall c, key_char c = true -> p c = true) -> sall p k = true) as Hkp.
  { intros p Hp. by eapply sall_impl. }
  assert (sall (fun c => negb (isspace c)) v = true) as Hv'.
  { eapply sall_impl; [|exact Hv]. intros c Hc. bprop. by rewrite H. }
  assert (sall (fun c => negb (isspace c)) k = true) as Hk'.
  { apply Hkp. intros c Hc. by apply key_char_not in Hc as [-> _]. }
  rewrite trim_line.
  - unfold key_line. simpl fst. simpl snd.
    rewrite strchr_app.
    + rewrite !trim_nospace by done. destruct k as [|c r]; [done|]. simpl in Hk. bprop.
      cbn [String.append].
      apply key_char_not in H as (_ & _ & _ & _ & -> & ->). done.
    + apply Hkp. intros c Hc. by apply key_char_not in Hc as (_ & _ & _ & -> & _).
  - unfold key_line. by destruct k.
  - unfold key_line. simpl. rewrite sall_app. simpl. by rewrite Hk', Hv'.
Qed.

Lemma key_line_short t :
  renderable t ->
  Forall (fun l => sall line_char l = true /\ (String.length l + 1 < MAX_LINE)%nat)
    ("[translator]" :: map key_line (manifest_fields t)).
Proof.
  intros (Hf & _ & _). constructor; [by vm_compute; split; [|lia]|].
  assert (Forall (fun kv => sall key_char (fst kv) = true /\
    (String.length (fst kv) < 20)%nat) (manifest_fields t)) as Hk.
  { unfold manifest_fields. repeat constructor; vm_compute; lia. }
  apply List.Forall_map. generalize (conj Hf Hk). rewrite <- Forall_and. intros Hb. eapply Forall_impl; [exact Hb|].
  intros [k v] [[Hv Hlv] [Hk1 Hlk]]. unfold key_line. simpl in *. split.
  - rewrite sall_app. simpl. apply andb_true_iff. split.
    + eapply sall_impl; [|exact Hk1]. intros c Hc. unfold line_char.
      apply key_char_not in Hc as (_ & -> & -> & _). done.
    + eapply sall_impl; [|exact Hv]. intros c Hc. bprop. unfold line_char. rewrite H0.
      rewrite andb_true_r. destruct (ceq c LF) eqn:E; [|done].
      apply ceq_true in E. subst. done.
  - rewrite slen_app. simpl. unfold MAX_LINE. lia.
Qed.

Lemma parse_bool_yes_no b : parse_bool (yes_no b) true = b.
Proof. by destruct b. Qed.

Lemma fold_fields t0 fs :
  Forall (fun kv => fst kv <> "" /\ sall key_char (fst kv) = true /\ plain (snd kv) = true) fs ->
  fold_left manifest_line (map (fun l => l +:+ String LF "") (map key_line fs)) (t0, true)
  = (fold_left (fun t kv => set_key t (fst kv) (snd kv)) fs t0, true).
Proof.
  intros H. revert t0. induction H as [|[k v] fs (H1 & H2 & H3) _ IH]; intros t0; [done|].
  cbn [map fold_left]. rewrite manifest_key_line by done. by rewrite IH.
Qed.

Lemma set_fields t :
  fields_fit t ->
  fold_left (fun t kv => set_key t (fst kv) (snd kv)) (manifest_fields t)
    (manifest_init (manifest_path t)) = t.
Proof.
  destruct t as [mp n p c u a e o]. unfold fields_fit. simpl.
  intros (H1 & H2 & H3 & H4 & H5 & H6). unfold manifest_init.
  cbn -[strn PATH_MAX parse_bool yes_no].
  rewrite !parse_bool_yes_no. by rewrite !strn_id.
Qed.

Lemma parse_render t :
  renderable t -> parse_manifest (manifest_path t) (Some (render_manifest t)) = Some t.
Proof.
  intros H. unfold parse_manifest, render_manifest.
  rewrite fgets_lines_unlines by (by apply key_line_short). cbn [map fold_left].
  change (manifest_line _ _) with (manifest_init (manifest_path t), true).
  destruct H as (Hf & Hfit & Hc). rewrite fold_fields.
  - pose proof (set_fields t Hfit) as Hs. cbv beta in Hs.
    cbn [fst]. rewrite Hs. by rewrite Hc.
  - unfold manifest_fields in *.
    repeat (apply Forall_cons in Hf as [[? _] Hf]; constructor;
            [by repeat split|]). constructor.
Qed.

(** * Properties *)

(** C2: a manifest that is accepted is well formed: its name is a safe token,
    it declares packages, its command is an absolute path, its action is one of
    the documented ones, and every field fits its buffer. *)
Theorem parse_manifest_sound path content t (H : parse_manifest path content = Some t) :
  safe_token (name t) = true /\ packages t <> "" /\ (exists r, command t = String "/" r) /\
  action t ∈ actions /\ fields_fit t.
Proof.
  unfold parse_manifest in H. destruct content as [text|]; [|done].
  case_if_in H; [|done]. injection H as <-.
  pose proof (manifest_lines_fit (fgets_lines MAX_LINE text) (manifest_init path, false)
                (manifest_init_fits path)) as Hfit.
  destruct (fold_left _ _ _) as [t i]. cbn [fst] in *. unfold manifest_check in E. bprop.
  split; [done|]. split; [by intros Hp; rewrite Hp in H2|]. split.
  { destruct (command t) as [|c r]; [done|]. apply ceq_true in H1 as ->. by exists r. }
  split; [|done]. unfold action_valid in H0. apply existsb_exists in H0 as (a & Hin & Ha).
  apply strcmp_eq_true in Ha as ->. by apply list_elem_of_In.
Qed.

(** C3: the translators are applied in the lexical order of their manifests,
    whatever the order readdir returns the entries in: two listings of the same
    distinct entries load to the same result, error included. *)
Theorem load_order_independent dir file es es'
    (Hp : es ≡ₚ es') (Hnd : NoDup es) (Hok : Forall (entry_ok dir) es) :
  load_translators dir file (Some es) = load_translators dir file (Some es').
Proof.
  assert (Forall (entry_ok dir) es') as Hok' by by rewrite <- Hp.
  assert (length (@nil translator) <= MAX_TRANSLATORS)%nat as H0 by (simpl; lia).
  unfold load_translators. rewrite !read_entries_spec by done.
  pose proof (mapM_perm dir file _ _ (eligible_perm _ _ Hp)) as Hm.
  destruct (mapM (load_one dir file) (eligible es)) as [l|] eqn:El;
    destruct (mapM (load_one dir file) (eligible es')) as [l'|]; try done.
  cbn [app]. rewrite (Permutation_length Hm). case_if; [|done]. f_equal.
  apply sort_unique; [done|].
  rewrite (mapM_paths dir file (eligible es) l).
  - apply NoDup_fmap_2.
    + intros a b Hab. unfold manifest_of in Hab. by apply (inj (String.append _)),
        (inj (String.append "/")) in Hab.
    + by apply NoDup_ListNoDup, List.NoDup_filter, NoDup_ListNoDup.
  - apply Forall_forall. intros d Hd. unfold eligible in Hd.
    apply list_elem_of_In, filter_In in Hd as [Hd _]. apply list_elem_of_In in Hd.
    by eapply Forall_forall in Hok.
  - done.
Qed.

(** C8: parsing a rendered manifest gives back the translator it was rendered
    from, all eight fields included. *)
Theorem manifest_round_trip t (H : renderable t) :
  parse_manifest (manifest_path t) (Some (render_manifest t)) = Some t.
Proof. by apply parse_render. Qed.

(** * Examples *)

Definition demo_timesyncd : translator :=
  mk_translator "/etc/neon-uci.d/20-timesyncd.conf" "timesyncd" "system"
    "/usr/libexec/neon-uci/translate-timesyncd" "systemd-timesyncd.service"
    "try-reload-or-restart" true true.

Lemma demo_timesyncd_renderable : renderable demo_timesyncd.
Proof.
  split; [|split; [|reflexivity]].
  - repeat apply Forall_cons_2; try apply Forall_nil_2;
      (split; [vm_compute; reflexivity|apply Nat.ltb_lt; vm_compute; reflexivity]).
  - unfold fields_fit, PATH_MAX. simpl. lia.
Qed.

Lemma manifest_round_trip_witness :
  parse_manifest "/etc/neon-uci.d/20-timesyncd.conf" (Some (render_manifest demo_timesyncd))
  = Some demo_timesyncd.
Proof. apply (manifest_round_trip demo_timesyncd). exact demo_timesyncd_renderable. Defined.

Lemma parse_manifest_sound_witness : safe_token (name demo_timesyncd) = true.
Proof.
  apply (parse_manifest_sound "/etc/neon-uci.d/20-timesyncd.conf"
           (Some (render_manifest demo_timesyncd)) demo_timesyncd).
  vm_compute. reflexivity.
Defined.

Definition demo_file20 (path : string) : option string :=
  if strcmp_eq path "/d/a.conf" then Some (render_manifest demo_timesyncd)
  else if strcmp_eq path "/d/b.conf" then Some (render_manifest demo_timesyncd) else None.

Lemma load_order_independent_witness :
  load_translators "/d" demo_file20 (Some ["b.conf"; "x"; "a.conf"]) =
  load_translators "/d" demo_file20 (Some ["a.conf"; "b.conf"; "x"]) /\
  option_map (map manifest_path)
    (load_translators "/d" demo_file20 (Some ["b.conf"; "x"; "a.conf"])) =
  Some ["/d/a.conf"; "/d/b.conf"].
Proof.
  split; [|vm_compute; reflexivity].
  apply (load_order_independent "/d" demo_file20).
  - exact (Permutation_app_comm ["b.conf"; "x"] ["a.conf"]).
  - apply (bool_decide_unpack _). vm_compute. exact I.
  - repeat apply Forall_cons_2; try apply Forall_nil_2; apply Nat.ltb_lt; vm_compute; reflexivity.
Defined.
