(* ===== verification/UciApply.v ===== *)
(** neon-uci: package lists, the running of translators and of systemctl, the
    configuration check and the one-shot commands
    (src/package/system/neon-uci/src/neon-uci.c, [csv_contains] to
    [csv_add_unique], [check_configuration] to [set_kernel_hostname]).

    The operating system is a record of functions of the history: what a
    process returns may depend on everything run before it. The history is the
    list of the processes started, oldest first. Messages on standard error are
    not modelled; [g_verbose], which only selects messages, is not either. *)
From S2P Require Import Prelude CStr UciManifest.
From Stdlib Require Import Ascii.
Open Scope string_scope.
Open Scope list_scope.

Definition MAX_CSV : nat := 4096.
Definition CSV_BUF : nat := 2048.

(** * Comma-separated package lists *)

Definition is_comma (c : ascii) : bool := ceq c ",".

Definition csv_contains (csv needle : string) : bool :=
  if (CSV_BUF <=? String.length csv)%nat then false
  else existsb (fun tok => strcmp_eq (trim tok) needle) (strtok is_comma csv).

Definition translator_matches_packages (t : translator) (changed_csv : string) : bool :=
  if negb (nonempty changed_csv) || strcmp_eq changed_csv "*" then true
  else if (CSV_BUF <=? String.length t.(packages))%nat then false
  else existsb (fun tok => csv_contains changed_csv (trim tok))
         (strtok is_comma t.(packages)).

(** [csv_add_unique]: the return value and the buffer afterwards. *)
Definition csv_add_unique (csv : string) (size : nat) (value : string) : bool * string :=
  if negb (package_name_valid value) then (false, csv)
  else if csv_contains csv value then (true, csv)
  else
    let used := String.length csv in
    let need := (String.length value + (if (0 <? used)%nat then 1 else 0) + 1)%nat in
    if (size <? used + need)%nat then (false, csv)
    else (true, (if (0 <? used)%nat then csv +:+ "," else csv) +:+ value).

(** * The operating system *)

(** A process started: its argument vector, and the entry [run_handler] adds to
    the environment. *)
Inductive event :=
  | Spawn (argv : list string) (extra_env : option string)
  | SetHostname (name : string).
Definition trace : Type := list event.

#[export] Instance event_eq_dec : EqDecision event.
Proof. solve_decision. Defined.

(** What [unit_exists] sees of the process it reads from. *)
Inductive show_result :=
  | ShowPipeFailed
  | ShowForkFailed
  | ShowRan (out : option string) (status : wait_result).

Record uci_os := mk_uci_os {
  os_readdir : trace -> option (list string);
  os_file : trace -> string -> option string;
  os_access_x : trace -> string -> bool;
  os_calloc : trace -> bool;
  os_spawn : trace -> list string -> option string -> wait_result;
  os_show : trace -> list string -> show_result;
  os_sethostname : trace -> string -> bool
}.

Section apply.
Variable os : uci_os.
(** [g_translator_dir] and [g_systemctl] *)
Variable translator_dir : string.
Variable systemctl : string.

Definition spawn_wait (argv : list string) (env : option string) (tr : trace) : Z * trace :=
  (match os.(os_spawn) tr argv env with
   | ForkFailed => -1
   | WaitFailed => -1
   | Exited code => code
   | Signaled sig => 128 + sig
   | OtherStatus => -1
   end%Z, tr ++ [Spawn argv env]).

Definition changed_env (changed_csv : string) : string :=
  strn (MAX_CSV + 64)
    ("NEON_UCI_CHANGED_PACKAGES=" +:+ (if nonempty changed_csv then changed_csv else "*")).

Definition run_handler (t : translator) (changed_csv : string) (tr : trace) : Z * trace :=
  if negb (os.(os_access_x) tr t.(command)) then (-1, tr)%Z
  else if negb (os.(os_calloc) tr) then (-1, tr)%Z
  else
    let '(rc, tr') := spawn_wait [t.(command); "apply"] (Some (changed_env changed_csv)) tr in
    if (rc =? 0)%Z then (0, tr')%Z else (-1, tr')%Z.

(** [unit_exists]; a failing [waitpid] leaves [status] zero. *)
Definition unit_exists (unit : string) (tr : trace) : bool * trace :=
  let argv := [systemctl; "show"; "--property=LoadState"; "--value"; unit] in
  match os.(os_show) tr argv with
  | ShowPipeFailed => (false, tr)
  | ShowForkFailed => (false, tr)
  | ShowRan out status =>
      let tr' := tr ++ [Spawn argv None] in
      let exited_zero := match status with
                         | Exited code => (code =? 0)%Z
                         | WaitFailed => true
                         | _ => false
                         end in
      match out with
      | None => (false, tr')
      | Some text =>
          if negb (nonempty text) || negb exited_zero then (false, tr')
          else
            let p := trim (cstr (stake 63 text)) in
            (negb (strcmp_eq p "not-found") && nonempty p, tr')
      end
  end.

(** The loop over the units; the first component counts the failures. *)
Fixpoint systemctl_units (t : translator) (units : list string) (failures : nat)
    (tr : trace) : nat * trace :=
  match units with
  | [] => (failures, tr)
  | u :: rest =>
      let unit := trim u in
      if negb (safe_token unit) then systemctl_units t rest (failures + 1)%nat tr
      else
        let '(skip, tr1) :=
          if t.(unit_optional)
          then let '(e, tr1) := unit_exists unit tr in (negb e, tr1)
          else (false, tr) in
        if skip then systemctl_units t rest failures tr1
        else
          let '(rc, tr2) := spawn_wait [systemctl; t.(action); unit] None tr1 in
          systemctl_units t rest
            (if negb (rc =? 0)%Z then failures + 1 else failures)%nat tr2
  end.

Definition run_systemctl_action (t : translator) (tr : trace) : Z * trace :=
  if strcmp_eq t.(action) "none" then (0, tr)%Z
  else if strcmp_eq t.(action) "daemon-reload" then
    let '(rc, tr') := spawn_wait [systemctl; "daemon-reload"] None tr in
    ((if (rc =? 0)%Z then 0 else -1)%Z, tr')
  else if negb (nonempty t.(units)) then (-1, tr)%Z
  else if (2048 <=? String.length t.(units))%nat then (-1, tr)%Z
  else
    let '(failures, tr') := systemctl_units t (strtok is_comma t.(units)) 0 tr in
    ((if (failures =? 0)%nat then 0 else -1)%Z, tr').

(** The body of the loop of [apply_translators]: [true] counts a failure. *)
Definition apply_one (changed_csv : string) (t : translator) (tr : trace) : bool * trace :=
  if negb t.(enabled) then (false, tr)
  else if negb (translator_matches_packages t changed_csv) then (false, tr)
  else
    let '(rc, tr1) := run_handler t changed_csv tr in
    if negb (rc =? 0)%Z then (true, tr1)
    else
      let '(rc2, tr2) := run_systemctl_action t tr1 in
      (negb (rc2 =? 0)%Z, tr2).

Fixpoint apply_all (changed_csv : string) (ts : list translator) (failures : nat)
    (tr : trace) : nat * trace :=
  match ts with
  | [] => (failures, tr)
  | t :: rest =>
      let '(failed, tr') := apply_one changed_csv t tr in
      apply_all changed_csv rest (if failed then failures + 1 else failures)%nat tr'
  end.

Definition load_now (tr : trace) : option (list translator) :=
  load_translators translator_dir (os.(os_file) tr) (os.(os_readdir) tr).

Definition apply_translators (changed_csv : string) (tr : trace) : Z * trace :=
  match load_now tr with
  | None => (-1, tr)%Z
  | Some ts =>
      let '(failures, tr') := apply_all changed_csv ts 0 tr in
      ((if (failures =? 0)%nat then 0 else -1)%Z, tr')
  end.

(** * The other commands *)

Definition check_one (t : translator) (tr : trace) : nat :=
  if negb t.(enabled) then 0
  else
    let f := if negb (os.(os_access_x) tr t.(command)) then 1 else 0 in
    if (2048 <=? String.length t.(packages))%nat then f + 1
    else f + length (List.filter (fun p => negb (package_name_valid (trim p)))
                       (strtok is_comma t.(packages))).

Definition check_configuration (tr : trace) : Z :=
  match load_now tr with
  | None => 1
  | Some ts =>
      let failures := foldr (fun t n => check_one t tr + n)%nat 0%nat ts in
      if (failures =? 0)%nat then 0 else 1
  end.

Definition hostname_char (c : ascii) : bool := isalnum c || ceq c "." || ceq c "-".

(** [sysconf_max] is the value of [sysconf(_SC_HOST_NAME_MAX)]. *)
Definition hostname_value_valid (sysconf_max : Z) (s : string) : bool :=
  match s with
  | "" => false
  | String c0 _ =>
      let max := if (sysconf_max <=? 0)%Z then 64%Z else sysconf_max in
      if (max <? Z.of_nat (String.length s))%Z then false
      else if ceq c0 "." || ceq c0 "-"
              || match String.get (String.length s - 1) s with
                 | Some l => ceq l "-" | None => false end
      then false
      else sall hostname_char s
  end.

Definition set_kernel_hostname (sysconf_max : Z) (name : string) (tr : trace) : Z * trace :=
  if negb (hostname_value_valid sysconf_max name) then (2, tr)%Z
  else ((if os.(os_sethostname) tr name then 0 else 1)%Z, tr ++ [SetHostname name]).

(** The package list of "--apply", after [strlen(apply) < sizeof(copy)]. *)
Definition apply_command (apply : string) (tr : trace) : Z * trace :=
  if (MAX_CSV <=? String.length apply)%nat then (2, tr)%Z
  else if existsb (fun p => negb (package_name_valid (trim p))) (strtok is_comma apply)
  then (2, tr)%Z
  else let '(rc, tr') := apply_translators apply tr in
       ((if (rc =? 0)%Z then 0 else 1)%Z, tr').
End apply.

(** * Looking up a UCI option: libuci is a parameter *)

Inductive uci_value :=
  | UciString (v : option string)
  | UciList (l : list (option string))
  | UciOther.

Section query.
(** [uci_alloc_context] and [strdup] succeed; the outcome of [uci_lookup_ptr]
    for a tuple, [None] when it fails or finds no option. *)
Variable alloc_context dup_ok : bool.
Variable lookup : string -> option uci_value.

Fixpoint join_elements (sep : string) (first : bool) (l : list (option string)) : string :=
  match l with
  | [] => ""
  | e :: r => (if first then "" else sep) +:+ default "" e +:+ join_elements sep false r
  end.

(** The exit status and what is written on standard output. *)
Definition uci_query (tuple : string) (separator : option string) : Z * string :=
  if negb alloc_context then (2, "")%Z
  else if negb dup_ok then (1, "")%Z
  else match lookup tuple with
       | None => (1, "")%Z
       | Some (UciString v) => (0%Z, default "" v +:+ String LF "")
       | Some (UciList l) =>
           (0%Z, join_elements (default " " separator) true l +:+ String LF "")
       | Some UciOther => (1, "")%Z
       end.
End query.

(** * Package lists as lists of names *)

Fixpoint csv_join (ps : list string) : string :=
  match ps with
  | [] => ""
  | [p] => p
  | p :: r => p +:+ String "," (csv_join r)
  end.

Definition valid_names (ps : list string) : Prop :=
  Forall (fun p => package_name_valid p = true) ps.

Lemma csv_join_cons p ps :
  ps <> [] -> csv_join (p :: ps) = p +:+ String "," (csv_join ps).
Proof. by destruct ps. Qed.

Lemma csv_join_snoc ps v :
  csv_join (ps ++ [v]) = (if nonempty (csv_join ps) || negb (bool_decide (ps = []))
                          then csv_join ps +:+ String "," v else v).
Proof.
  induction ps as [|p ps IH]; [done|].
  assert (bool_decide (p :: ps = []) = false) as -> by (by apply bool_decide_eq_false).
  rewrite orb_true_r. destruct ps as [|q ps]; [done|].
  change ((p :: q :: ps) ++ [v]) with (p :: ((q :: ps) ++ [v])).
  rewrite csv_join_cons by by destruct ps. rewrite IH, (csv_join_cons p (q :: ps)) by done.
  assert (bool_decide (q :: ps = []) = false) as -> by (by apply bool_decide_eq_false).
  rewrite orb_true_r. rewrite sapp_assoc. done.
Qed.

Lemma csv_join_nonempty p ps : p <> "" -> nonempty (csv_join (p :: ps)) = true.
Proof. destruct ps, p; done. Qed.

Lemma csv_tokens ps : valid_names ps -> strtok is_comma (csv_join ps) = ps.
Proof.
  induction 1 as [|p ps Hp Hps IH]; [done|].
  destruct ps as [|q ps].
  - simpl. apply strtok_single; [by apply package_ne|by apply package_no_comma].
  - rewrite csv_join_cons, strtok_app by done. rewrite IH.
    rewrite strtok_single; [done|by apply package_ne|by apply package_no_comma].
Qed.

Lemma existsb_elem (ps : list string) n :
  valid_names ps -> existsb (fun tok => strcmp_eq (trim tok) n) ps = bool_decide (n ∈ ps).
Proof.
  induction 1 as [|p ps Hp _ IH]; simpl; [done|].
  rewrite IH, package_trim by done. unfold strcmp_eq.
  destruct (String.eqb_spec p n) as [->|Hne]; simpl.
  - symmetry. apply bool_decide_eq_true. by left.
  - apply bool_decide_ext. rewrite elem_of_cons. naive_solver.
Qed.

Lemma csv_contains_decide ps n :
  valid_names ps ->
  csv_contains (csv_join ps) n =
  bool_decide ((String.length (csv_join ps) < CSV_BUF)%nat /\ n ∈ ps).
Proof.
  intros Hv. unfold csv_contains.
  destruct (CSV_BUF <=? String.length (csv_join ps))%nat eqn:E; bprop.
  - symmetry. apply bool_decide_eq_false. lia.
  - rewrite csv_tokens, existsb_elem by done. apply bool_decide_ext. naive_solver.
Qed.

Lemma csv_contains_join ps n :
  valid_names ps -> (String.length (csv_join ps) < CSV_BUF)%nat ->
  csv_contains (csv_join ps) n = bool_decide (n ∈ ps).
Proof.
  intros Hv Hl. rewrite csv_contains_decide by done. apply bool_decide_ext. naive_solver.
Qed.

Lemma csv_contains_long csv n :
  (CSV_BUF <= String.length csv)%nat -> csv_contains csv n = false.
Proof. intros H. unfold csv_contains. apply Nat.leb_le in H. by rewrite H. Qed.

Lemma csv_join_star ps : valid_names ps -> strcmp_eq (csv_join ps) "*" = false.
Proof.
  intros H. apply strcmp_eq_false. intros E.
  assert (strtok is_comma "*" = ps) as Hs by (by rewrite <- E, csv_tokens).
  cbn in Hs. subst. inversion H as [|? ? Hx]. by vm_compute in Hx.
Qed.

Lemma csv_add_result csv size v ok csv' :
  csv_add_unique csv size v = (ok, csv') ->
  csv' = csv \/
  package_name_valid v = true /\ (String.length csv' < size)%nat /\
  csv' = (if nonempty csv then csv +:+ String "," v else v).
Proof.
  unfold csv_add_unique. destruct (package_name_valid v); simpl; [|intros [= _ <-]; by left].
  destruct (csv_contains csv v); [intros [= _ <-]; by left|].
  destruct csv as [|c r]; cbn [String.length nonempty].
  - change (0 <? 0)%nat with false. cbv iota.
    case_if; intros [= _ <-]; [by left|]. bprop. right. repeat split; auto. simpl. lia.
  - change (0 <? S (String.length r))%nat with true. cbv iota. case_if; intros [= _ <-]; [by left|]. bprop. right. repeat split; auto.
    { simpl. rewrite !slen_app. simpl in *. lia. }
    simpl. by rewrite sapp_assoc.
Qed.

(** The buffer stays the list of valid names it was, with at most one appended. *)
Lemma csv_add_names ps size v ok csv' :
  valid_names ps -> csv_add_unique (csv_join ps) size v = (ok, csv') ->
  exists ps', csv' = csv_join ps' /\ valid_names ps' /\
    (ps' = ps \/ ps' = ps ++ [v]) /\ (ps' = ps \/ (String.length csv' < size)%nat).
Proof.
  intros Hv H. apply csv_add_result in H as [->|(Hn & Hl & ->)].
  - exists ps. auto.
  - exists (ps ++ [v]). split.
    + rewrite csv_join_snoc. destruct (nonempty (csv_join ps)) eqn:E; [done|].
      destruct ps as [|p ps]; [done|]. rewrite csv_join_nonempty in E; [done|]. 
      apply package_ne. by inversion Hv.
    + split; [|auto]. apply Forall_app. split; [done|]. by constructor.
Qed.

Lemma csv_contains_spec csv n :
  csv_contains csv n = true <->
  (String.length csv < CSV_BUF)%nat /\ exists ch, ch ∈ strtok is_comma csv /\ trim ch = n.
Proof.
  unfold csv_contains. destruct (CSV_BUF <=? String.length csv)%nat eqn:E; bprop.
  { split; [done|]. intros [? _]. lia. }
  rewrite existsb_exists. setoid_rewrite <- list_elem_of_In.
  setoid_rewrite strcmp_eq_true. naive_solver.
Qed.

(** * What applying does: an abstract account of the history *)

(** The translator declares a package that the list names; the list "" or "*"
    names them all, and a list of [CSV_BUF] bytes or more names none. *)
Definition concerns (t : translator) (csv : string) : Prop :=
  csv = "" \/ csv = "*" \/
  (String.length csv < CSV_BUF)%nat /\ (String.length (packages t) < CSV_BUF)%nat /\
  exists tok ch, tok ∈ strtok is_comma (packages t) /\ ch ∈ strtok is_comma csv /\
    trim ch = trim tok.

Lemma matches_concerns t csv : translator_matches_packages t csv = true <-> concerns t csv.
Proof.
  unfold translator_matches_packages, concerns.
  destruct csv as [|c r]; [naive_solver|]. cbn [nonempty negb orb].
  destruct (strcmp_eq (String c r) "*") eqn:E.
  { apply strcmp_eq_true in E. naive_solver. }
  apply strcmp_eq_false in E.
  destruct (CSV_BUF <=? String.length (packages t))%nat eqn:El; bprop.
  { split; [done|]. intros [?|[?|(_ & ? & _)]]; [done|done|lia]. }
  rewrite existsb_exists. setoid_rewrite csv_contains_spec.
  setoid_rewrite <- list_elem_of_In. naive_solver.
Qed.

Lemma matches_not_concerns t csv :
  translator_matches_packages t csv = false <-> ~ concerns t csv.
Proof. rewrite <- matches_concerns. by destruct (translator_matches_packages t csv). Qed.

Section spec.
Variable os : uci_os.
Variable translator_dir systemctl : string.

Definition selected (csv : string) (t : translator) : Prop :=
  enabled t = true /\ concerns t csv.

Definition handler_event (t : translator) (csv : string) : event :=
  Spawn [command t; "apply"] (Some (changed_env csv)).

(** The process, started after the history [tr], counts as successful: it exits
    with status 0. (128 + sig is 0 for no signal number there is.) *)
Definition succeeded (argv : list string) (env : option string) (tr : trace) : Prop :=
  match os_spawn os tr argv env with
  | Exited code => code = 0%Z
  | Signaled sig => (128 + sig = 0)%Z
  | _ => False
  end.

Definition show_argv (unit : string) : list string :=
  [systemctl; "show"; "--property=LoadState"; "--value"; unit].

(** systemctl's answer says that the unit exists. *)
Definition answers_found (out : option string) (st : wait_result) : Prop :=
  exists text, out = Some text /\ text <> "" /\ (st = Exited 0 \/ st = WaitFailed) /\
    trim (cstr (stake 63 text)) <> "not-found" /\ trim (cstr (stake 63 text)) <> "".

(** Asking systemctl for a unit: the process started, if any, and the answer. *)
Inductive asks (unit : string) (tr : trace) : trace -> bool -> Prop :=
  | asks_not_started :
      os_show os tr (show_argv unit) = ShowPipeFailed \/
      os_show os tr (show_argv unit) = ShowForkFailed ->
      asks unit tr [] false
  | asks_found out st :
      os_show os tr (show_argv unit) = ShowRan out st -> answers_found out st ->
      asks unit tr [Spawn (show_argv unit) None] true
  | asks_missing out st :
      os_show os tr (show_argv unit) = ShowRan out st -> ~ answers_found out st ->
      asks unit tr [Spawn (show_argv unit) None] false.

(** One unit of a translator: what is started and whether it failed. *)
Inductive unit_run (t : translator) (u : string) (tr : trace) : trace -> bool -> Prop :=
  | unit_malformed : safe_token u = false -> unit_run t u tr [] true
  | unit_missing q :
      safe_token u = true -> unit_optional t = true -> asks u tr q false ->
      unit_run t u tr q false
  | unit_acted q failed :
      safe_token u = true ->
      (unit_optional t = true /\ asks u tr q true \/ unit_optional t = false /\ q = []) ->
      (failed = false <-> succeeded [systemctl; action t; u] None (tr ++ q)) ->
      unit_run t u tr (q ++ [Spawn [systemctl; action t; u] None]) failed.

Inductive units_run (t : translator) : list string -> trace -> trace -> bool -> Prop :=
  | units_nil tr : units_run t [] tr [] false
  | units_cons u us tr seg f segs fs :
      unit_run t (trim u) tr seg f -> units_run t us (tr ++ seg) segs fs ->
      units_run t (u :: us) tr (seg ++ segs) (f || fs).

(** The systemctl part of a translator. *)
Inductive systemctl_run (t : translator) (tr : trace) : trace -> bool -> Prop :=
  | ctl_none : action t = "none" -> systemctl_run t tr [] false
  | ctl_reload failed :
      action t = "daemon-reload" ->
      (failed = false <-> succeeded [systemctl; "daemon-reload"] None tr) ->
      systemctl_run t tr [Spawn [systemctl; "daemon-reload"] None] failed
  | ctl_bad_units :
      action t <> "none" -> action t <> "daemon-reload" ->
      units t = "" \/ (2048 <= String.length (units t))%nat ->
      systemctl_run t tr [] true
  | ctl_units seg failed :
      action t <> "none" -> action t <> "daemon-reload" ->
      units t <> "" -> (String.length (units t) < 2048)%nat ->
      units_run t (strtok is_comma (units t)) tr seg failed ->
      systemctl_run t tr seg failed.

(** The processes one translator starts, and whether it counts as a failure. *)
Inductive segment (csv : string) (t : translator) (tr : trace) : trace -> bool -> Prop :=
  | seg_not_selected : ~ selected csv t -> segment csv t tr [] false
  | seg_not_started :
      selected csv t ->
      os_access_x os tr (command t) = false \/ os_calloc os tr = false ->
      segment csv t tr [] true
  | seg_handler_failed :
      selected csv t -> os_access_x os tr (command t) = true -> os_calloc os tr = true ->
      ~ succeeded [command t; "apply"] (Some (changed_env csv)) tr ->
      segment csv t tr [handler_event t csv] true
  | seg_handler_succeeded rest failed :
      selected csv t -> os_access_x os tr (command t) = true -> os_calloc os tr = true ->
      succeeded [command t; "apply"] (Some (changed_env csv)) tr ->
      systemctl_run t (tr ++ [handler_event t csv]) rest failed ->
      segment csv t tr (handler_event t csv :: rest) failed.

Inductive apply_run (csv : string) : list translator -> trace -> trace -> nat -> Prop :=
  | run_nil tr : apply_run csv [] tr tr 0
  | run_cons t ts tr seg failed tr' n :
      segment csv t tr seg failed -> apply_run csv ts (tr ++ seg) tr' n ->
      apply_run csv (t :: ts) tr tr' (if failed then S n else n).

Lemma spawn_wait_succeeded argv env tr :
  (fst (spawn_wait os argv env tr) =? 0)%Z = true <-> succeeded argv env tr.
Proof.
  unfold spawn_wait, succeeded. cbn [fst].
  destruct (os_spawn os tr argv env); rewrite Z.eqb_eq; try done; split; (done || lia).
Qed.

Lemma spawn_wait_failed argv env tr :
  negb (fst (spawn_wait os argv env tr) =? 0)%Z = false <-> succeeded argv env tr.
Proof. rewrite negb_false_iff. apply spawn_wait_succeeded. Qed.

Lemma unit_exists_asks u tr :
  let '(e, tr') := unit_exists os systemctl u tr in
  exists q, tr' = tr ++ q /\ asks u tr q e.
Proof.
  unfold unit_exists. fold (show_argv u). destruct (os_show os tr (show_argv u)) as [| |out st] eqn:E.
  1,2: exists []; rewrite app_nil_r; split; [done|]; constructor; auto.
  assert (forall b, (b = true <-> answers_found out st) ->
    exists q, tr ++ [Spawn (show_argv u) None] = tr ++ q /\ asks u tr q b) as K.
  { intros b Hb. eexists. split; [done|]. destruct b.
    - eapply asks_found; [done|]. by apply Hb.
    - eapply asks_missing; [done|]. intros Ha. by apply Hb in Ha. }
  unfold answers_found in K. destruct out as [text|]; [|apply K; naive_solver].
  destruct text as [|c r]; cbn [nonempty negb orb]; [apply K; naive_solver|].
  destruct st as [| |code| |]; cbn [negb].
  all: try (apply K; split; [done|]; intros (? & ? & _ & [?|?] & _); congruence).
  2: destruct (code =? 0)%Z eqn:Ec; bprop; subst; cbn [negb];
     [|apply K; split; [done|]; intros (? & ? & _ & [?|?] & _); congruence].
  all: apply K; rewrite andb_true_iff, negb_true_iff, strcmp_eq_false; split.
  1,3: intros [Hn Hp]; eexists; repeat split; auto;
    intros Hnil; rewrite Hnil in Hp; discriminate.
  all: intros (text & [= <-] & _ & _ & Hn & Hp); split; [done|];
    by destruct (trim _).
Qed.

Lemma systemctl_units_run t us f tr :
  let '(f', tr') := systemctl_units os systemctl t us f tr in
  exists seg failed, tr' = tr ++ seg /\ units_run t us tr seg failed /\
    (f <= f')%nat /\ ((f' =? f)%nat = negb failed).
Proof.
  revert f tr. induction us as [|u us IH]; intros f tr; cbn [systemctl_units].
  { exists [], false. rewrite app_nil_r, Nat.eqb_refl. repeat split; auto. constructor. }
  assert (forall seg fd f1 tr1, unit_run t (trim u) tr seg fd -> tr1 = tr ++ seg ->
    f1 = (if fd then f + 1 else f)%nat ->
    let '(f', tr') := systemctl_units os systemctl t us f1 tr1 in
    exists seg failed, tr' = tr ++ seg /\ units_run t (u :: us) tr seg failed /\
      (f <= f')%nat /\ ((f' =? f)%nat = negb failed)) as K.
  { intros seg fd f1 tr1 Hu -> ->. specialize (IH (if fd then f + 1 else f)%nat (tr ++ seg)).
    destruct (systemctl_units _ _ _ _ _ _) as [f' tr']. destruct IH as (s2 & fs & -> & Hr & Hle & He).
    exists (seg ++ s2), (fd || fs). rewrite app_assoc. split; [done|].
    split; [by econstructor|]. destruct fd; cbn [orb negb]; [|auto].
    split; [lia|]. apply Nat.eqb_neq. lia. }
  destruct (safe_token (trim u)) eqn:Eu; cbn [negb].
  2:{ eapply K; [by apply unit_malformed|by rewrite app_nil_r|done]. }
  destruct (unit_optional t) eqn:Eo.
  - pose proof (unit_exists_asks (trim u) tr) as Hq.
    destruct (unit_exists os systemctl (trim u) tr) as [e tr1]. destruct Hq as (q & -> & Hq).
    destruct e; cbn [negb].
    + eapply K; [eapply (unit_acted _ _ _ q); [done|by left|apply spawn_wait_failed]
        |by rewrite app_assoc|reflexivity].
    + eapply K; [by eapply unit_missing|done|done].
  - eapply K; [eapply (unit_acted _ _ _ []); [done|by right|];
      rewrite app_nil_r; apply spawn_wait_failed|done|reflexivity].
Qed.

Lemma run_systemctl_run t tr :
  let '(rc, tr') := run_systemctl_action os systemctl t tr in
  exists seg, tr' = tr ++ seg /\ systemctl_run t tr seg (negb (rc =? 0)%Z).
Proof.
  unfold run_systemctl_action. destruct (strcmp_eq (action t) "none") eqn:E1.
  { apply strcmp_eq_true in E1. exists []. rewrite app_nil_r. split; [done|]. by constructor. }
  apply strcmp_eq_false in E1.
  destruct (strcmp_eq (action t) "daemon-reload") eqn:E2.
  { apply strcmp_eq_true in E2.
    pose proof (spawn_wait_failed [systemctl; "daemon-reload"] None tr) as Hs. cbn [spawn_wait fst] in Hs.
    cbn [spawn_wait]. eexists. split; [done|]. apply ctl_reload; [done|].
    rewrite <- Hs. case_if; by rewrite ?Z.eqb_refl. }
  apply strcmp_eq_false in E2.
  destruct (units t) as [|c r] eqn:Eu; cbn [nonempty negb].
  { exists []. rewrite app_nil_r. split; [done|]. apply ctl_bad_units; auto. }
  rewrite <- Eu. destruct (2048 <=? String.length (units t))%nat eqn:E3; bprop.
  { exists []. rewrite app_nil_r. split; [done|]. apply ctl_bad_units; auto. }
  pose proof (systemctl_units_run t (strtok is_comma (units t)) 0 tr) as Hr.
  destruct (systemctl_units _ _ _ _ _ _) as [f tr2]. destruct Hr as (seg & fd & -> & Hr & _ & He).
  exists seg. split; [done|]. rewrite He.
  replace (negb _) with fd by by destruct fd. apply ctl_units; auto. congruence.
Qed.

Lemma apply_one_segment csv t tr :
  let '(failed, tr') := apply_one os systemctl csv t tr in
  exists seg, tr' = tr ++ seg /\ segment csv t tr seg failed.
Proof.
  unfold apply_one. destruct (enabled t) eqn:E1; cbn [negb].
  2:{ exists []. rewrite app_nil_r. split; [done|]. apply seg_not_selected.
      intros [? _]. congruence. }
  destruct (translator_matches_packages t csv) eqn:E2; cbn [negb].
  2:{ exists []. rewrite app_nil_r. split; [done|]. apply seg_not_selected.
      intros [_ ?]. by apply matches_not_concerns in E2. }
  assert (selected csv t) as Hs by (split; [done|by apply matches_concerns]).
  unfold run_handler. destruct (os_access_x os tr (command t)) eqn:E3; cbn [negb].
  2:{ exists []. rewrite app_nil_r. split; [done|]. apply seg_not_started; auto. }
  destruct (os_calloc os tr) eqn:E4; cbn [negb].
  2:{ exists []. rewrite app_nil_r. split; [done|]. apply seg_not_started; auto. }
  pose proof (spawn_wait_succeeded [command t; "apply"] (Some (changed_env csv)) tr) as Hw.
  destruct (spawn_wait os _ _ tr) as [rc tr1] eqn:Es. cbn [fst] in Hw.
  assert (tr1 = tr ++ [handler_event t csv]) as -> by by injection Es.
  destruct (rc =? 0)%Z; cbn [negb Z.eqb].
  - pose proof (run_systemctl_run t (tr ++ [handler_event t csv])) as Hr.
    destruct (run_systemctl_action os systemctl t _) as [rc2 tr2].
    destruct Hr as (rest & -> & Hr). exists (handler_event t csv :: rest).
    rewrite <- app_assoc. split; [done|]. apply seg_handler_succeeded; auto. by apply Hw.
  - eexists. split; [done|]. apply seg_handler_failed; auto. intros H. by apply Hw in H.
Qed.

Lemma apply_all_run csv ts f tr n tr' :
  apply_all os systemctl csv ts f tr = (n, tr') ->
  exists k, n = (f + k)%nat /\ apply_run csv ts tr tr' k.
Proof.
  revert f tr. induction ts as [|t ts IH]; cbn [apply_all]; intros f tr H.
  - injection H as <- <-. exists 0%nat. split; [lia|constructor].
  - pose proof (apply_one_segment csv t tr) as Hs.
    destruct (apply_one os systemctl csv t tr) as [failed tr1].
    destruct Hs as (seg & -> & Hseg).
    apply IH in H as (k & -> & Hk).
    exists (if failed then S k else k). split; [destruct failed; lia|].
    econstructor; eauto.
Qed.

Lemma systemctl_units_all t us f tr :
  unit_optional t = false -> Forall (fun u => safe_token (trim u) = true) us ->
  snd (systemctl_units os systemctl t us f tr)
  = tr ++ map (fun u => Spawn [systemctl; action t; trim u] None) us.
Proof.
  intros Ho Hus. revert f tr. induction Hus as [|u us Hu _ IH]; intros f tr.
  - simpl. by rewrite app_nil_r.
  - cbn [systemctl_units]. rewrite Hu, Ho. cbn. rewrite IH. by rewrite <- app_assoc.
Qed.
End spec.

Lemma matches_long csv t :
  (CSV_BUF <= String.length csv)%nat -> translator_matches_packages t csv = false.
Proof.
  intros H. unfold translator_matches_packages.
  destruct csv as [|c r]; [vm_compute in H; lia|]. cbn [nonempty negb orb].
  destruct (strcmp_eq (String c r) "*") eqn:E.
  { apply strcmp_eq_true in E. rewrite E in H. vm_compute in H. lia. }
  case_if; [done|].
  induction (strtok is_comma (packages t)) as [|tok toks IH]; [done|].
  simpl. rewrite csv_contains_long by done. exact IH.
Qed.

Lemma apply_all_unmatched os systemctl csv ts f tr :
  Forall (fun t => translator_matches_packages t csv = false) ts ->
  apply_all os systemctl csv ts f tr = (f, tr).
Proof.
  induction 1 as [|t ts Ht _ IH]; cbn [apply_all]; [done|].
  unfold apply_one. rewrite Ht. destruct (enabled t); cbn [negb]; exact IH.
Qed.

(** * Properties *)

(** C1: what [apply_translators] runs and returns, in full. Its history is,
    translator by translator in the loaded order, the segment the abstract
    account prescribes: nothing for a translator that is disabled or not
    concerned; a failure without a process when its command is not executable
    (or its environment cannot be allocated); otherwise its handler, then, only
    when the handler exits with 0, the systemctl calls of its action, of which
    each one's exit status counts, malformed units fail, and optional units
    that systemctl does not know are passed over. The call returns 0 exactly
    when the directory loads and no translator failed. *)
Theorem apply_translators_refines os dir systemctl csv tr :
  let '(rc, tr') := apply_translators os dir systemctl csv tr in
  match load_now os dir tr with
  | None => rc = (-1)%Z /\ tr' = tr
  | Some ts =>
      exists failures, apply_run os systemctl csv ts tr tr' failures /\
        rc = (if (failures =? 0)%nat then 0 else -1)%Z
  end.
Proof.
  unfold apply_translators. destruct (load_now os dir tr) as [ts|]; [|done].
  destruct (apply_all os systemctl csv ts 0 tr) as [n tr'] eqn:E.
  apply apply_all_run in E as (k & -> & Hk). by exists k.
Qed.

(** C6: [csv_add_unique] on every list of names and every buffer size: an
    invalid name is refused; a name found in the list changes nothing, where
    the list is searched only when it is below 2048 bytes; any other name is
    appended when it fits in the buffer, and refused without a change when it
    does not. (So a name of a list of 2048 bytes or more is appended again.) *)
Theorem csv_add_unique_inserts ps size v (Hv : valid_names ps) :
  csv_add_unique (csv_join ps) size v =
    if negb (package_name_valid v) then (false, csv_join ps)
    else if bool_decide ((String.length (csv_join ps) < CSV_BUF)%nat /\ v ∈ ps)
         then (true, csv_join ps)
    else if (String.length (csv_join (ps ++ [v])) <? size)%nat
         then (true, csv_join (ps ++ [v])) else (false, csv_join ps).
Proof.
  destruct (csv_add_unique (csv_join ps) size v) as [ok csv'] eqn:E.
  revert E. unfold csv_add_unique. rewrite csv_contains_decide by done.
  destruct (package_name_valid v) eqn:Ev; cbn [negb]; [|by intros [= <- <-]].
  case_bool_decide; [by intros [= <- <-]|].
  rewrite csv_join_snoc. destruct ps as [|p ps].
  - rewrite bool_decide_eq_true_2 by done. cbn [csv_join nonempty orb negb String.length].
    change (0 <? 0)%nat with false. cbv iota zeta.
    intros <-. case_if; case_if; bprop; try done; lia.
  - assert (nonempty (csv_join (p :: ps)) = true) as Hn.
    { apply csv_join_nonempty, package_ne. by inversion Hv. }
    rewrite Hn. cbn [orb]. destruct (csv_join (p :: ps)) as [|c r] eqn:Ej; [done|].
    cbn [String.length]. change (0 <? S (String.length r))%nat with true. cbv iota.
    rewrite slen_app. cbn [String.length].
    rewrite sapp_assoc_char. intros <-. case_if; case_if; bprop; try done; lia.
Qed.

(** C7: which translators a batch of package names selects, exactly: the empty
    batch selects all; another batch selects those with a trimmed package token
    in the batch, provided that both the batch, written as a list, and the
    translator's packages are below 2048 bytes; a batch of 2048 bytes or more
    selects none. *)
Theorem matches_iff_declared t ps (Hv : valid_names ps) :
  translator_matches_packages t (csv_join ps) = true <->
  ps = [] \/
  ((String.length (csv_join ps) < CSV_BUF)%nat /\
   (String.length (packages t) < CSV_BUF)%nat /\
   exists tok, tok ∈ strtok is_comma (packages t) /\ trim tok ∈ ps).
Proof.
  rewrite matches_concerns. unfold concerns. rewrite csv_tokens by done.
  pose proof (csv_join_star ps Hv) as Hs. apply strcmp_eq_false in Hs.
  destruct ps as [|p ps]; [naive_solver|].
  pose proof (csv_join_nonempty p ps ltac:(apply package_ne; by inversion Hv)) as Hn.
  assert (csv_join (p :: ps) <> "") as Hne by (intros E; by rewrite E in Hn).
  assert (forall tok, (exists ch, ch ∈ p :: ps /\ trim ch = trim tok) <-> trim tok ∈ p :: ps)
    as Ht.
  { intros tok. split.
    - intros (ch & Hin & E). rewrite <- E, package_trim; [done|].
      unfold valid_names in Hv. rewrite Forall_forall in Hv. by apply Hv.
    - intros Hin. exists (trim tok). split; [done|]. apply package_trim.
      unfold valid_names in Hv. rewrite Forall_forall in Hv. by apply Hv. }
  split.
  - intros [?|[?|(? & ? & tok & ch & ? & ? & ?)]]; [done|done|].
    right. repeat split; [done..|]. exists tok. split; [done|]. apply Ht. eauto.
  - intros [?|(? & ? & tok & ? & H)]; [done|]. apply Ht in H as (ch & ? & ?).
    right; right. repeat split; [done..|]. by exists tok, ch.
Qed.

(** a batch of 2048 bytes or more starts no process at all, whatever the
    translators declare, and still reports success when the directory loads;
    the pending buffer of the daemon and the "--apply" argument may both be
    that long. *)
Theorem overlong_batch_ignored os dir systemctl csv tr
    (Hlen : (CSV_BUF <= String.length csv)%nat) :
  apply_translators os dir systemctl csv tr =
  (if bool_decide (load_now os dir tr = None) then -1 else 0, tr)%Z.
Proof.
  unfold apply_translators. destruct (load_now os dir tr) as [ts|]; [|done].
  rewrite apply_all_unmatched; [done|].
  apply Forall_forall. intros t _. by apply matches_long.
Qed.

(** every mandatory unit is acted on: when [unit_optional] is off and the
    unit tokens are well formed, systemctl is called once per unit, in order,
    even when some of the calls fail. *)
Theorem mandatory_units_all_attempted os systemctl t tr
    (Ho : unit_optional t = false) (Ha : action t <> "none")
    (Hd : action t <> "daemon-reload") (Hf : fields_fit t) (Hu : units t <> "")
    (Hs : Forall (fun u => safe_token (trim u) = true) (strtok is_comma (units t))) :
  snd (run_systemctl_action os systemctl t tr) =
  tr ++ map (fun u => Spawn [systemctl; action t; trim u] None) (strtok is_comma (units t)).
Proof.
  unfold run_systemctl_action.
  apply strcmp_eq_false in Ha as ->. apply strcmp_eq_false in Hd as ->.
  assert (nonempty (units t) = true) as -> by by destruct (units t).
  assert ((2048 <=? String.length (units t))%nat = false) as ->.
  { apply Nat.leb_gt. unfold fields_fit in *. lia. }
  cbn [negb].
  destruct (systemctl_units _ _ _ _ _ _) as [n tr'] eqn:E. cbn [snd].
  change tr' with (snd (n, tr')). rewrite <- E. by apply systemctl_units_all.
Qed.

(** The option "--apply" with a malformed list is refused before anything runs, and
    with a well-formed list its exit status is 0 or 1 as the translation
    succeeds; the exit statuses are only ever 0, 1 and 2. *)
Theorem apply_command_status os dir systemctl arg tr :
  let '(rc, tr') := apply_command os dir systemctl arg tr in
  (rc = 2%Z /\ tr' = tr /\
     ((MAX_CSV <= String.length arg)%nat \/
      exists p, p ∈ strtok is_comma arg /\ package_name_valid (trim p) = false)) \/
  ((String.length arg < MAX_CSV)%nat /\
   Forall (fun p => package_name_valid (trim p) = true) (strtok is_comma arg) /\
   exists r, apply_translators os dir systemctl arg tr = (r, tr') /\
     rc = (if (r =? 0)%Z then 0 else 1)%Z).
Proof.
  unfold apply_command. destruct (MAX_CSV <=? String.length arg)%nat eqn:El; bprop.
  { left. auto. }
  destruct (existsb _ _) eqn:Ee.
  - left. split; [done|]. split; [done|]. right.
    apply existsb_exists in Ee as (p & Hin & Hp). exists p. rewrite list_elem_of_In.
    bprop. auto.
  - destruct (apply_translators os dir systemctl arg tr) as [r tr'].
    right. split; [done|]. split; [|by exists r].
    apply Forall_forall. intros p Hp. apply list_elem_of_In in Hp.
    rewrite <- not_true_iff_false, existsb_exists in Ee.
    destruct (package_name_valid (trim p)) eqn:E; [done|].
    exfalso. apply Ee. exists p. by rewrite E.
Qed.

(** * Examples *)

Definition demo_hostname : string :=
  unlines ["[translator]"; "name=hostname"; "packages=system";
    "command=/usr/libexec/neon-uci/translate-hostname"; "action=none"; "enabled=yes"].
Definition demo_journald : string :=
  unlines ["[translator]"; "name=journald"; "packages=neon_systemd";
    "command=/usr/libexec/neon-uci/translate-journald"; "units=systemd-journald.service";
    "action=try-reload-or-restart"; "unit_optional=no"; "enabled=yes"].
Definition demo_dir : string := "/etc/neon-uci.d".

Definition demo_file (path : string) : option string :=
  if strcmp_eq path "/etc/neon-uci.d/10-hostname.conf" then Some demo_hostname
  else if strcmp_eq path "/etc/neon-uci.d/30-journald.conf" then Some demo_journald
  else None.

(** Every process exits with [code]. *)
Definition demo_os (code : Z) : uci_os :=
  mk_uci_os (fun _ => Some ["30-journald.conf"; "."; "10-hostname.conf"; "README"])
    (fun _ => demo_file) (fun _ _ => true) (fun _ => true) (fun _ _ _ => Exited code)
    (fun _ _ => ShowRan (Some "loaded") (Exited 0)) (fun _ _ => true).

Definition demo_journald_translator : translator :=
  mk_translator "/etc/neon-uci.d/30-journald.conf" "journald" "neon_systemd"
    "/usr/libexec/neon-uci/translate-journald" "systemd-journald.service"
    "try-reload-or-restart" true false.

Example demo_apply :
  apply_translators (demo_os 0) demo_dir "/usr/bin/systemctl" "neon_systemd" [] =
  (0%Z, [Spawn ["/usr/libexec/neon-uci/translate-journald"; "apply"]
           (Some "NEON_UCI_CHANGED_PACKAGES=neon_systemd");
         Spawn ["/usr/bin/systemctl"; "try-reload-or-restart"; "systemd-journald.service"]
           None]).
Proof. vm_compute. reflexivity. Qed.

(** A failing handler keeps systemctl from being called. *)
Example demo_apply_failure :
  apply_translators (demo_os 1) demo_dir "/usr/bin/systemctl" "neon_systemd" [] =
  (-1, [Spawn ["/usr/libexec/neon-uci/translate-journald"; "apply"]
         (Some "NEON_UCI_CHANGED_PACKAGES=neon_systemd")])%Z.
Proof. vm_compute. reflexivity. Qed.

Lemma demo_journald_fits : fields_fit demo_journald_translator.
Proof. unfold fields_fit, PATH_MAX. simpl. lia. Qed.

(** 257 packages of seven characters. *)
Definition demo_packages : list string := replicate 257 "package".
Definition demo_long : string := csv_join demo_packages.

Lemma demo_packages_valid : valid_names demo_packages.
Proof. by apply Forall_replicate. Qed.

(** A new name, one that is there, one too many for a small buffer, and one that
    is there in a list that is too long to be searched. *)
Lemma csv_add_unique_inserts_witness :
  csv_add_unique (csv_join ["network"; "system"]) MAX_CSV "firewall" =
    (true, "network,system,firewall") /\
  csv_add_unique (csv_join ["network"; "system"]) MAX_CSV "system" = (true, "network,system") /\
  csv_add_unique (csv_join ["network"; "system"]) 20 "firewall" = (false, "network,system") /\
  csv_add_unique demo_long MAX_CSV "package" = (true, demo_long +:+ ",package").
Proof.
  unfold demo_long.
  rewrite !csv_add_unique_inserts; try exact demo_packages_valid; try (by repeat constructor).
Defined.

(** A batch with a declared package, one without, and one that is too long. *)
Lemma matches_iff_declared_witness :
  translator_matches_packages demo_journald_translator (csv_join ["system"; "neon_systemd"])
    = true /\
  translator_matches_packages demo_journald_translator (csv_join ["system"]) <> true /\
  translator_matches_packages demo_journald_translator
    (csv_join (replicate 257 "neon_systemd")) <> true.
Proof.
  rewrite !matches_iff_declared; try (by repeat constructor).
  split; [|split].
  - right. split; [vm_compute; lia|]. split; [vm_compute; lia|].
    exists "neon_systemd". split; vm_compute; repeat constructor.
  - intros [H|(_ & _ & tok & Hin & Hp)]; [done|].
    vm_compute in Hin. apply list_elem_of_singleton in Hin as ->.
    by apply list_elem_of_singleton in Hp.
  - intros [H|(H & _)]; [done|]. vm_compute in H. lia.
Defined.

Lemma overlong_batch_ignored_witness :
  apply_translators (demo_os 0) demo_dir "/usr/bin/systemctl" demo_long [] = (0%Z, []).
Proof.
  rewrite (overlong_batch_ignored (demo_os 0) demo_dir "/usr/bin/systemctl" demo_long []).
  - vm_compute. reflexivity.
  - vm_compute. lia.
Defined.

Lemma mandatory_units_all_attempted_witness :
  snd (run_systemctl_action (demo_os 1) "/usr/bin/systemctl" demo_journald_translator []) =
  [Spawn ["/usr/bin/systemctl"; "try-reload-or-restart"; "systemd-journald.service"] None].
Proof.
  rewrite (mandatory_units_all_attempted (demo_os 1) "/usr/bin/systemctl"
             demo_journald_translator []).
  - vm_compute. reflexivity.
  - reflexivity.
  - discriminate.
  - discriminate.
  - exact demo_journald_fits.
  - discriminate.
  - vm_compute. repeat constructor.
Defined.
