(* ===== verification/UciWatch.v ===== *)
(** neon-uci: the inotify loop of the daemon as a step relation, and the
    command line (src/package/system/neon-uci/src/neon-uci.c, [on_signal],
    [watch_loop], [main]). *)
From S2P Require Import Prelude CStr UciManifest UciApply.
From Stdlib Require Import Ascii.
Open Scope string_scope.
Open Scope list_scope.

(** * One iteration of the loop *)

(** An inotify event: whether its mask has IN_DELETE_SELF, IN_MOVE_SELF or
    IN_IGNORED, and its name when [ev->len] is not zero. *)
Record inotify_event := mk_event { ev_self : bool; ev_name : option string }.

Inductive poll_result :=
  | PollError (eintr : bool)
  | PollTimeout
  | PollReady (pollin : bool).

Inductive read_result :=
  | ReadError (again : bool)
  | ReadEvents (evs : list inotify_event).

(** What the system calls of one iteration return. *)
Record iter_input := mk_iter {
  in_init : bool;
  in_add_watch : bool;
  in_poll : poll_result;
  in_read : read_result
}.

(** [fd >= 0], [pending], the two signal flags, and the processes started. *)
Record wstate := mk_wstate {
  w_open : bool;
  w_pending : string;
  w_stop : bool;
  w_reload : bool;
  w_tr : trace
}.

Definition event_package (ev : inotify_event) : option string :=
  match ev_name ev with
  | None => None
  | Some n =>
      if negb (match n with String c _ => ceq c "." | "" => false end) && package_name_valid n
      then Some n else None
  end.

(** The loop over the bytes [read] returned: whether the watch stays open, and
    the pending list. *)
Fixpoint handle_events (evs : list inotify_event) (pending : string) : bool * string :=
  match evs with
  | [] => (true, pending)
  | ev :: rest =>
      if ev_self ev then (false, pending)
      else handle_events rest
             (match event_package ev with
              | Some n => snd (csv_add_unique pending MAX_CSV n)
              | None => pending
              end)
  end.

Definition on_signal (sighup : bool) (st : wstate) : wstate :=
  let 'mk_wstate o p s r tr := st in
  if sighup then mk_wstate o p s true tr else mk_wstate o p true r tr.

Section watch.
Variable os : uci_os.
Variable translator_dir systemctl : string.
#[local] Abbreviation apply := (apply_translators os translator_dir systemctl).

(** The body of [while (!g_stop)]; also returned: the lists
    [apply_translators] is called with. *)
Definition watch_iter (i : iter_input) (st : wstate) : wstate * list string :=
  let 'mk_wstate o pending stop reload tr := st in
  if negb o && (negb (in_init i) || negb (in_add_watch i)) then (st, [])
  else
    let '(calls, tr) :=
      if reload then (["*"], snd (apply "*" tr)) else ([], tr) in
    match in_poll i with
    | PollError true => (mk_wstate true pending stop false tr, calls)
    | PollError false => (mk_wstate false pending stop false tr, calls)
    | PollTimeout =>
        if nonempty pending then
          let batch := strn MAX_CSV pending in
          (mk_wstate true "" stop false (snd (apply batch tr)), calls ++ [batch])
        else (mk_wstate true pending stop false tr, calls)
    | PollReady false => (mk_wstate true pending stop false tr, calls)
    | PollReady true =>
        match in_read i with
        | ReadError true => (mk_wstate true pending stop false tr, calls)
        | ReadError false => (mk_wstate false pending stop false tr, calls)
        | ReadEvents evs =>
            let '(o', pending') := handle_events evs pending in
            (mk_wstate o' pending' stop false tr, calls)
        end
    end.

(** A signal may arrive between any two iterations. *)
Inductive input := Signal (sighup : bool) | Iter (i : iter_input).

Fixpoint watch_loop (ins : list input) (st : wstate) : wstate * list string :=
  match ins with
  | [] => (st, [])
  | Signal hup :: rest => watch_loop rest (on_signal hup st)
  | Iter i :: rest =>
      if w_stop st then (st, [])
      else
        let '(st1, calls1) := watch_iter i st in
        let '(st2, calls2) := watch_loop rest st1 in
        (st2, calls1 ++ calls2)
  end.

(** [main] without a command: everything is translated once, then watched. *)
Definition daemon (ins : list input) (tr : trace) : wstate * list string :=
  let tr1 := snd (apply "*" tr) in
  let '(st, calls) := watch_loop ins (mk_wstate false "" false false tr1) in
  (st, "*" :: calls).

(** The same as a step relation. *)
Inductive wstep : wstate -> list string -> wstate -> Prop :=
  | step_signal hup st : wstep st [] (on_signal hup st)
  | step_iter i st st' calls :
      w_stop st = false -> watch_iter i st = (st', calls) -> wstep st calls st'.

Inductive wrun : wstate -> list string -> wstate -> Prop :=
  | wrun_refl st : wrun st [] st
  | wrun_step st1 calls1 st2 calls2 st3 :
      wstep st1 calls1 st2 -> wrun st2 calls2 st3 -> wrun st1 (calls1 ++ calls2) st3.

Lemma watch_loop_run ins st st' calls :
  watch_loop ins st = (st', calls) -> wrun st calls st'.
Proof.
  revert st calls. induction ins as [|[hup|i] ins IH]; cbn [watch_loop]; intros st calls H.
  - injection H as -> <-. constructor.
  - change calls with ([] ++ calls). econstructor; [constructor|eauto].
  - destruct (w_stop st) eqn:Es; [injection H as -> <-; constructor|].
    destruct (watch_iter i st) as [st1 c1] eqn:E1.
    destruct (watch_loop ins st1) as [st2 c2] eqn:E2.
    injection H as -> <-. econstructor; [by econstructor|eauto].
Qed.
End watch.

(** * The command line *)

Record options := mk_options {
  opt_verbose : bool;
  opt_config_dir : string;
  opt_translator_dir : string;
  opt_systemctl : string;
  opt_once : bool;
  opt_check : bool;
  opt_apply : option string
}.

Definition default_options : options :=
  mk_options false "/etc/config" "/etc/neon-uci.d" "/usr/bin/systemctl" false false None.

(** [usage(stdout)]; the text [usage(stderr)] writes is not observed. *)
Definition usage : string :=
  unlines
    ["neon-uci 0.1.1"; "Usage:";
     "  neon-uci [--verbose] [--config-dir DIR] [--translator-dir DIR]";
     "  neon-uci --once";
     "  neon-uci --apply PACKAGE[,PACKAGE...]";
     "  neon-uci --check";
     "  neon-uci get UCI.TUPLE";
     "  neon-uci list UCI.TUPLE [SEPARATOR]";
     "  neon-uci set-hostname NAME";
     "  neon-uci --version"].

(** What the argument loop decides. *)
Inductive mode :=
  | ModeUsage
  | ModeVersion
  | ModeHelp
  | ModeQuery (o : options) (tuple : string) (separator : option string)
  | ModeSetHostname (o : options) (name : string)
  | ModeRun (o : options).

Definition is_arg (a : string) (names : list string) : bool := existsb (strcmp_eq a) names.

(** The [for] loop of [main] over argv[1..]; an option that needs a value and
    has none falls through to the last branch. *)
Fixpoint parse_args (args : list string) (o : options) : mode :=
  let 'mk_options v c t s once check ap := o in
  match args with
  | [] => ModeRun o
  | a :: rest =>
      if is_arg a ["--verbose"; "-v"] then parse_args rest (mk_options true c t s once check ap)
      else
        match rest with
        | x :: rest' =>
            if is_arg a ["--config-dir"] then parse_args rest' (mk_options v x t s once check ap)
            else if is_arg a ["--translator-dir"]
            then parse_args rest' (mk_options v c x s once check ap)
            else if is_arg a ["--systemctl"]
            then parse_args rest' (mk_options v c t x once check ap)
            else if is_arg a ["--once"] then parse_args rest (mk_options v c t s true check ap)
            else if is_arg a ["--apply"]
            then parse_args rest' (mk_options v c t s once check (Some x))
            else if is_arg a ["--check"] then parse_args rest (mk_options v c t s once true ap)
            else if is_arg a ["--version"] then ModeVersion
            else if is_arg a ["--help"; "-h"] then ModeHelp
            else if is_arg a ["get"] then ModeQuery o x None
            else if is_arg a ["list"]
            then ModeQuery o x (Some (match rest' with y :: _ => y | [] => " " end))
            else if is_arg a ["set-hostname"]
            then match rest' with [] => ModeSetHostname o x | _ => ModeUsage end
            else ModeUsage
        | [] =>
            if is_arg a ["--once"] then ModeRun (mk_options v c t s true check ap)
            else if is_arg a ["--check"] then ModeRun (mk_options v c t s once true ap)
            else if is_arg a ["--version"] then ModeVersion
            else if is_arg a ["--help"; "-h"] then ModeHelp
            else ModeUsage
        end
  end.

(** [main] up to the daemon: [inl] is the exit status of a command that ends,
    [inr] the state of the daemon, which runs over the inputs [ins]. *)
Definition main (os : uci_os) (sysconf_max : Z) (alloc_context dup_ok : bool)
    (lookup : string -> string -> option uci_value) (args : list string) (ins : list input)
    (tr : trace) : (Z * string * trace) + (wstate * list string) :=
  match parse_args args default_options with
  | ModeUsage => inl (2%Z, "", tr)
  | ModeVersion => inl (0%Z, "0.1.1" +:+ String LF "", tr)
  | ModeHelp => inl (0%Z, usage, tr)
  | ModeQuery o tuple sep =>
      inl (uci_query alloc_context dup_ok (lookup (opt_config_dir o)) tuple sep, tr)
  | ModeSetHostname o n =>
      let '(rc, tr') := set_kernel_hostname os sysconf_max n tr in inl (rc, "", tr')
  | ModeRun o =>
      if opt_check o then inl (check_configuration os (opt_translator_dir o) tr, "", tr)
      else if opt_once o then
        let '(rc, tr') := apply_translators os (opt_translator_dir o) (opt_systemctl o) "*" tr in
        inl ((if (rc =? 0)%Z then 0 else 1)%Z, "", tr')
      else match opt_apply o with
           | Some a =>
               let '(rc, tr') := apply_command os (opt_translator_dir o) (opt_systemctl o) a tr in
               inl (rc, "", tr')
           | None => inr (daemon os (opt_translator_dir o) (opt_systemctl o) ins tr)
           end
  end.

(** * The invariant of the pending list *)

(** The pending buffer holds a list of valid package names, terminated within
    its 4096 bytes; as long as it stays within the 2048 bytes the duplicate
    check looks at, the names are distinct. *)
Definition pending_ok (pending : string) (ps : list string) : Prop :=
  pending = csv_join ps /\ valid_names ps /\ (String.length pending < MAX_CSV)%nat /\
  ((String.length pending < CSV_BUF)%nat -> NoDup ps).

Lemma pending_nil : pending_ok "" [].
Proof.
  split; [done|]. split; [constructor|]. split; [simpl; unfold MAX_CSV; lia|].
  intros _. constructor.
Qed.

Lemma csv_join_snoc_length ps v :
  (String.length (csv_join ps) <= String.length (csv_join (ps ++ [v])))%nat.
Proof.
  rewrite csv_join_snoc. case_if; [rewrite slen_app; lia|].
  bprop. destruct (csv_join ps); [simpl; lia|done].
Qed.

Lemma pending_add pending ps n :
  pending_ok pending ps ->
  exists ps', pending_ok (snd (csv_add_unique pending MAX_CSV n)) ps' /\
    (ps' = ps \/ ps' = ps ++ [n]).
Proof.
  intros (-> & Hv & Hl & Hnd).
  destruct (csv_add_unique (csv_join ps) MAX_CSV n) as [ok p'] eqn:E. cbn [snd].
  pose proof (csv_add_names _ _ _ _ _ Hv E) as (ps' & -> & Hv' & Hps & Hlen).
  destruct Hps as [->| ->]; [exists ps; unfold pending_ok; auto|].
  destruct (decide (ps ++ [n] = ps)) as [Heq|Hne].
  { exists ps. rewrite Heq. unfold pending_ok. auto. }
  destruct Hlen as [|Hlen]; [done|].
  exists (ps ++ [n]). split; [|auto]. split; [done|]. split; [done|]. split; [done|].
  intros Hs. pose proof (csv_join_snoc_length ps n) as Hmono.
  apply NoDup_app. split; [apply Hnd; lia|]. split; [|apply NoDup_singleton].
  intros x Hx Hxn. apply list_elem_of_singleton in Hxn as ->.
  unfold csv_add_unique in E. rewrite csv_contains_join in E by (done || lia).
  rewrite bool_decide_eq_true_2 in E by done.
  assert (csv_join ps = csv_join (ps ++ [n])) as Ej.
  { by destruct (package_name_valid n); cbn [negb] in E; injection E. }
  apply Hne. pose proof (csv_tokens ps Hv). pose proof (csv_tokens (ps ++ [n]) Hv'). congruence.
Qed.

Lemma handle_events_ok evs pending ps :
  pending_ok pending ps ->
  exists more, pending_ok (snd (handle_events evs pending)) (ps ++ more).
Proof.
  revert pending ps. induction evs as [|ev evs IH]; intros pending ps H.
  - exists []. by rewrite app_nil_r.
  - cbn [handle_events]. destruct (ev_self ev); [exists []; by rewrite app_nil_r|].
    destruct (event_package ev) as [n|]; [|by apply IH].
    destruct (pending_add _ _ n H) as (ps' & H' & [->| ->]); [by apply IH|].
    destruct (IH _ _ H') as (more & Hm). exists (n :: more).
    by rewrite <- app_assoc in Hm.
Qed.

Section watch_facts.
Variable os : uci_os.
Variable translator_dir systemctl : string.
#[local] Abbreviation watch_iter := (watch_iter os translator_dir systemctl).
#[local] Abbreviation wstep := (wstep os translator_dir systemctl).
#[local] Abbreviation wrun := (wrun os translator_dir systemctl).

(** What one iteration does to the pending list: it grows, or it is handed
    over whole to [apply_translators]. *)
Lemma watch_iter_pending i st st' calls ps :
  pending_ok (w_pending st) ps -> watch_iter i st = (st', calls) ->
  (exists more, pending_ok (w_pending st') (ps ++ more)) \/
  (w_pending st' = "" /\ w_pending st ∈ calls).
Proof.
  destruct st as [o p s r tr]. cbn [w_pending]. intros Hok.
  assert (exists more, pending_ok p (ps ++ more)) as Hsame.
  { exists []. by rewrite app_nil_r. }
  unfold UciWatch.watch_iter. case_if; [intros [= <- <-]; by left|].
  destruct (if r then _ else _) as [c tr1].
  destruct (in_poll i) as [[]| |[]]; try (intros [= <- <-]; by left).
  - destruct (nonempty p); intros [= <- <-]; [|by left]. right. split; [done|].
    apply elem_of_app. right. apply list_elem_of_singleton.
    symmetry. apply strn_id. by destruct Hok as (_ & _ & ? & _).
  - destruct (in_read i) as [[]|evs]; try (intros [= <- <-]; by left).
    destruct (handle_events evs p) as [o' p'] eqn:Eh. intros [= <- <-]. left.
    destruct (handle_events_ok evs _ _ Hok) as (more & Hm). exists more. by rewrite Eh in Hm.
Qed.

Lemma wstep_pending st calls st' ps :
  pending_ok (w_pending st) ps -> wstep st calls st' ->
  (exists more, pending_ok (w_pending st') (ps ++ more)) \/
  (pending_ok (w_pending st') [] /\ w_pending st ∈ calls).
Proof.
  intros Hok Hs. destruct Hs as [hup st|i st st' calls _ Hi].
  - left. exists []. rewrite app_nil_r. by destruct st, hup.
  - apply (watch_iter_pending _ _ _ _ ps) in Hi as [?|[Hp Hin]]; [by left| |done].
    right. rewrite Hp. split; [apply pending_nil|done].
Qed.

Lemma wrun_pending st calls st' ps :
  pending_ok (w_pending st) ps -> wrun st calls st' ->
  exists ps', pending_ok (w_pending st') ps' /\
    forall n, n ∈ ps -> n ∈ ps' \/ exists c, c ∈ calls /\ n ∈ strtok is_comma c.
Proof.
  intros Hok Hr. revert ps Hok.
  induction Hr as [st|st1 c1 st2 c2 st3 Hs Hr IH]; intros ps Hok; [exists ps; auto|].
  destruct (wstep_pending _ _ _ _ Hok Hs) as [(more & Hm)|(Hm & Hin)].
  - destruct (IH _ Hm) as (ps' & Hps' & Hn). exists ps'. split; [done|].
    intros n Hin. destruct (Hn n) as [|(c & Hc & Hnc)]; [by apply elem_of_app; left|by left|].
    right. exists c. rewrite elem_of_app. auto.
  - destruct (IH _ Hm) as (ps' & Hps' & _). exists ps'. split; [done|].
    intros n Hn. right. exists (w_pending st1). rewrite elem_of_app. split; [auto|].
    destruct Hok as (-> & Hv & _). by rewrite csv_tokens.
Qed.
End watch_facts.

(** * Properties *)

(** C5: in every state the daemon reaches, after any sequence of signals,
    inotify events and system call failures, the pending buffer is a
    comma-separated list of valid package names within its bounds, without
    duplicates as long as it is shorter than 2048 bytes. *)
Theorem daemon_pending_invariant os dir systemctl ins tr :
  let '(st, _) := daemon os dir systemctl ins tr in
  exists ps, pending_ok (w_pending st) ps.
Proof.
  unfold daemon. destruct (watch_loop _ _ _ ins _) as [st calls] eqn:E.
  apply watch_loop_run in E.
  edestruct (wrun_pending os dir systemctl) as (ps & Hps & _); [|exact E|].
  { exact pending_nil. }
  by exists ps.
Qed.

(** C4: no queued change is lost: a package that is pending is, after any
    further run of the daemon, still pending or was in the list of a call of
    [apply_translators]. *)
Theorem queued_until_applied os dir systemctl st st' calls ps n
    (Hok : pending_ok (w_pending st) ps) (Hn : n ∈ ps)
    (Hrun : wrun os dir systemctl st calls st') :
  n ∈ strtok is_comma (w_pending st') \/
  exists c, c ∈ calls /\ n ∈ strtok is_comma c.
Proof.
  destruct (wrun_pending os dir systemctl _ _ _ _ Hok Hrun) as (ps' & (-> & Hv & _) & H).
  rewrite csv_tokens by done. by apply H.
Qed.

(** the debounce: when the watch is open and nothing arrives before the
    timeout, an iteration hands over exactly the pending list, once, empties
    it, and runs its translators; an idle iteration does nothing. *)
Theorem timeout_flushes os dir systemctl i st ps
    (Hok : pending_ok (w_pending st) ps) (Ho : w_open st = true)
    (Hr : w_reload st = false) (Hp : in_poll i = PollTimeout) :
  watch_iter os dir systemctl i st =
    if nonempty (w_pending st)
    then (mk_wstate true "" (w_stop st) false
            (snd (apply_translators os dir systemctl (w_pending st) (w_tr st))),
          [w_pending st])
    else (st, []).
Proof.
  destruct Hok as (Hj & _ & Hlen & _). clear Hj. destruct st as [o p s r tr].
  cbn [w_open w_reload w_pending w_stop w_tr] in *. subst. unfold watch_iter. rewrite Hp.
  cbn [negb andb]. destruct (nonempty p); [|done]. rewrite strn_id by done. done.
Qed.

(** * Examples *)

Definition demo_iter (p : poll_result) (evs : list inotify_event) : input :=
  Iter (mk_iter true true p (ReadEvents evs)).
Definition demo_changed (n : string) : inotify_event := mk_event false (Some n).

Definition demo_inputs : list input :=
  [demo_iter (PollReady true) [demo_changed "neon_systemd"; demo_changed ".uci-tmp";
                               demo_changed "neon_systemd"];
   demo_iter PollTimeout []; Signal false; demo_iter PollTimeout []].

(** Two notifications of one package are applied as one batch. *)
Example demo_daemon :
  snd (daemon (demo_os 0) demo_dir "/usr/bin/systemctl" demo_inputs []) =
  ["*"; "neon_systemd"].
Proof. vm_compute. reflexivity. Qed.

Definition demo_pending : wstate := mk_wstate true "neon_systemd" false false [].

Lemma demo_pending_ok : pending_ok (w_pending demo_pending) ["neon_systemd"].
Proof.
  split; [done|]. split; [repeat constructor|]. split; [vm_compute; lia|].
  intros _. apply NoDup_singleton.
Qed.

Definition demo_flush : wstate * list string :=
  watch_loop (demo_os 0) demo_dir "/usr/bin/systemctl" [demo_iter PollTimeout []]
    demo_pending.

Lemma queued_until_applied_witness :
  snd demo_flush = ["neon_systemd"] /\
  ("neon_systemd" ∈ strtok is_comma (w_pending (fst demo_flush)) \/
   exists c, c ∈ snd demo_flush /\ "neon_systemd" ∈ strtok is_comma c).
Proof.
  split; [vm_compute; reflexivity|].
  apply (queued_until_applied (demo_os 0) demo_dir "/usr/bin/systemctl" demo_pending
    (fst demo_flush) (snd demo_flush) ["neon_systemd"] "neon_systemd").
  - exact demo_pending_ok.
  - by left.
  - apply (watch_loop_run _ _ _ [demo_iter PollTimeout []]). apply surjective_pairing.
Defined.

Lemma timeout_flushes_witness :
  snd (watch_iter (demo_os 0) demo_dir "/usr/bin/systemctl"
         (mk_iter true true PollTimeout (ReadEvents [])) demo_pending) = ["neon_systemd"].
Proof.
  rewrite (timeout_flushes (demo_os 0) demo_dir "/usr/bin/systemctl"
             (mk_iter true true PollTimeout (ReadEvents [])) demo_pending ["neon_systemd"]).
  - vm_compute. reflexivity.
  - exact demo_pending_ok.
  - reflexivity.
  - reflexivity.
  - reflexivity.
Defined.
