(* ===== verification/Bytes.v ===== *)
(** Bytes as integers in lists: little-endian words of any number of bytes, arrays
    of 32-bit words, and pieces of a buffer that are read or replaced. *)
From S2P Require Import Prelude CNum.
Open Scope Z_scope.
Open Scope list_scope.

(** * Little-endian words *)

Fixpoint le_split (n : nat) (z : Z) : list Z :=
  match n with
  | O => []
  | S n => z mod 256 :: le_split n (z / 256)
  end.
Fixpoint le_combine (l : list Z) : Z :=
  match l with
  | [] => 0
  | b :: r => b + 256 * le_combine r
  end.

(** The u32 at an offset of a buffer; the bytes from an offset on replaced. *)
Definition buf_get32 (l : list Z) (off : nat) : Z := le_combine (take 4 (drop off l)).
Definition splice (l : list Z) (off : nat) (bytes : list Z) : list Z :=
  take off l ++ bytes ++ drop (off + length bytes) l.

(** An array of u32 or int32 as bytes, and back. *)
Definition words_bytes (l : list Z) : list Z := flat_map (fun w => le_split 4 (u32 w)) l.
Fixpoint bytes_words (k : nat) (l : list Z) : list Z :=
  match k with
  | O => []
  | S k => le_combine (take 4 l) :: bytes_words k (drop 4 l)
  end.

(** * Lemmas *)

Lemma le_split_length n z : length (le_split n z) = n.
Proof. revert z. induction n as [|n IH]; intros z; [done|]. simpl. by rewrite IH. Qed.

Lemma le_combine_split n z : 0 <= z < 256 ^ Z.of_nat n -> le_combine (le_split n z) = z.
Proof.
  revert z. induction n as [|n IH]; intros z Hz.
  - simpl in *. lia.
  - rewrite Nat2Z.inj_succ, Z.pow_succ_r in Hz by lia. cbn [le_split le_combine].
    rewrite IH; [pose proof (Z.div_mod z 256); lia|].
    split; [apply Z.div_pos; lia|apply Z.div_lt_upper_bound; lia].
Qed.

Lemma le32_get z rest : 0 <= z < 2 ^ 32 -> le_combine (take 4 (le_split 4 z ++ rest)) = z.
Proof.
  intros Hz. rewrite take_app_length' by by rewrite le_split_length. by apply le_combine_split.
Qed.

Lemma words_bytes_length l : length (words_bytes l) = (4 * length l)%nat.
Proof.
  induction l as [|w l IH]; [done|]. cbn [words_bytes flat_map]. rewrite length_app, le_split_length.
  fold (words_bytes l). rewrite IH. simpl. lia.
Qed.
Lemma bytes_words_length k l : length (bytes_words k l) = k.
Proof. revert l. induction k as [|k IH]; intros l; [done|]. simpl. by rewrite IH. Qed.

Lemma bytes_words_bytes l rest : bytes_words (length l) (words_bytes l ++ rest) = map u32 l.
Proof.
  induction l as [|w l IH]; [done|]. cbn [length bytes_words words_bytes flat_map map].
  rewrite <- app_assoc, le32_get by apply u32_range. f_equal.
  rewrite drop_app_length' by by rewrite le_split_length. apply IH.
Qed.

Lemma splice_length l off bytes :
  (off + length bytes <= length l)%nat -> length (splice l off bytes) = length l.
Proof.
  intros H. unfold splice. rewrite !length_app, length_take, length_drop. lia.
Qed.

(** What was put at an offset is there, and the rest is as it was. *)
Lemma splice_at l off bytes :
  (off <= length l)%nat -> take (length bytes) (drop off (splice l off bytes)) = bytes.
Proof.
  intros H. unfold splice. rewrite drop_app_length' by (rewrite length_take; lia).
  by rewrite take_app_length.
Qed.
Lemma splice_before l off bytes a n :
  (a + n <= off)%nat -> (off <= length l)%nat ->
  take n (drop a (splice l off bytes)) = take n (drop a l).
Proof.
  intros H Hl. unfold splice. rewrite drop_app_le by (rewrite length_take; lia).
  rewrite take_app_le by (rewrite length_drop, length_take; lia).
  rewrite skipn_firstn_comm, take_take. f_equal. lia.
Qed.
Lemma splice_after l off bytes a :
  (off + length bytes <= a)%nat -> (off <= length l)%nat ->
  drop a (splice l off bytes) = drop a l.
Proof.
  intros H Hl. unfold splice. rewrite app_assoc.
  assert (length (take off l ++ bytes) = off + length bytes)%nat as E
    by (rewrite length_app, length_take; lia).
  rewrite drop_app_ge by lia. rewrite E, drop_drop. f_equal. lia.
Qed.

Lemma splice_get32 l off z :
  (off <= length l)%nat -> 0 <= z < 2 ^ 32 -> buf_get32 (splice l off (le_split 4 z)) off = z.
Proof.
  intros Hl Hz. unfold buf_get32.
  pose proof (splice_at l off (le_split 4 z) Hl) as E. rewrite le_split_length in E. rewrite E.
  by apply le_combine_split.
Qed.
Lemma splice_get32_before l off bytes a :
  (a + 4 <= off)%nat -> (off <= length l)%nat ->
  buf_get32 (splice l off bytes) a = buf_get32 l a.
Proof. intros H Hl. unfold buf_get32. by rewrite splice_before. Qed.

Lemma bytes_words_take k l l' :
  take (4 * k) l = take (4 * k) l' -> bytes_words k l = bytes_words k l'.
Proof.
  revert l l'. induction k as [|k IH]; intros l l' E; [done|]. cbn [bytes_words].
  replace (4 * S k)%nat with (4 + 4 * k)%nat in E by lia. f_equal.
  - apply (f_equal (take 4)) in E. rewrite !take_take in E.
    replace (Nat.min 4 (4 + 4 * k)) with 4%nat in E by lia. by rewrite E.
  - apply IH. apply (f_equal (drop 4)) in E. rewrite !skipn_firstn_comm in E.
    by replace (4 + 4 * k - 4)%nat with (4 * k)%nat in E by lia.
Qed.
