(* ===== verification/Json.v ===== *)
(** JSON documents, and the interface of json-c the neon-procd programs rely on.

    A document is a tree; a null [json_object] pointer is [JNull], as json-c
    represents the JSON null. Members and elements are looked up in the tree.
    What json-c computes from a document (conversions, printing, parsing) is a
    parameter: the class [JsonC], with the documented laws the programs use. *)
From S2P Require Import Prelude CStr.
From stdpp Require Import pretty.
From Stdlib Require Import Ascii.
#[local] Set Warnings "-register-all".
Open Scope string_scope.
Open Scope list_scope.

Inductive json :=
  | JNull
  | JBool (b : bool)
  | JInt (z : Z)
  | JDouble (repr : string)
  | JString (s : string)
  | JArray (l : list json)
  | JObject (l : list (string * json)).

Definition is_array (j : json) : bool := match j with JArray _ => true | _ => false end.
Definition is_object (j : json) : bool := match j with JObject _ => true | _ => false end.
Definition is_null (j : json) : bool := match j with JNull => true | _ => false end.

Fixpoint member (key : string) (l : list (string * json)) : option json :=
  match l with
  | [] => None
  | (k, v) :: r => if String.eqb k key then Some v else member key r
  end.

(** [json_object_object_get_ex]: [None] when the object has no such member, or
    is not an object. *)
Definition get_ex (o : json) (key : string) : option json :=
  match o with JObject l => member key l | _ => None end.

(** [json_object_array_get_idx] *)
Definition get_idx (a : json) (i : nat) : json :=
  match a with JArray l => default JNull (l !! i) | _ => JNull end.
Definition array_length (a : json) : nat :=
  match a with JArray l => length l | _ => 0%nat end.

(** [json_object_object_add]: the value of an existing key is replaced. *)
Fixpoint member_set (key : string) (v : json) (l : list (string * json))
    : list (string * json) :=
  match l with
  | [] => [(key, v)]
  | (k, w) :: r => if String.eqb k key then (k, v) :: r else (k, w) :: member_set key v r
  end.

Class JsonC := {
  (** [json_object_get_string]: [None] is the null pointer *)
  get_string : json -> option string;
  get_boolean : json -> bool;
  get_int : json -> Z;
  (** [json_object_to_json_string_ext(o, JSON_C_TO_STRING_PRETTY)] *)
  print_pretty : json -> string;
  (** [json_object_to_json_string] *)
  print_plain : json -> string;
  (** [json_tokener_parse] *)
  parse : string -> option json;

  get_string_string : forall s, get_string (JString s) = Some s;
  get_string_null : get_string JNull = None;
  get_string_other : forall j, j <> JNull -> is_Some (get_string j);
  get_int_int : forall z, (- 2 ^ 31 <= z < 2 ^ 31)%Z -> get_int (JInt z) = z;
  (** the printer writes no NUL byte *)
  print_pretty_cstr : forall j, cstr (print_pretty j +:+ String LF "") = print_pretty j +:+ String LF "";
}.

(** [json_tokener_parse] reads back what the printer wrote, for the documents a
    program holds: stated where it is used, for the document at hand. *)
Definition prints_back `{JsonC} (j : json) : Prop :=
  parse (print_pretty j +:+ String LF "") = Some j.

Lemma member_set_eq key v l : member key (member_set key v l) = Some v.
Proof.
  induction l as [|[k w] l IH]; simpl; [by rewrite String.eqb_refl|].
  destruct (String.eqb k key) eqn:E; simpl; rewrite E; done.
Qed.
Lemma member_set_ne key key' v l :
  key <> key' -> member key' (member_set key v l) = member key' l.
Proof.
  intros Hne. induction l as [|[k w] l IH]; simpl.
  - destruct (String.eqb_spec key key'); done.
  - destruct (String.eqb_spec k key) as [->|]; simpl.
    + destruct (String.eqb_spec key key'); done.
    + by rewrite IH.
Qed.
Lemma member_in key v l : member key l = Some v -> (key, v) ∈ l.
Proof.
  induction l as [|[k w] l IH]; simpl; [done|].
  destruct (String.eqb_spec k key) as [->|]; [intros [= ->]; by left|right; auto].
Qed.

(** [jstr] and [jbool] are in both programs' style: a member of a given type. *)
Section access.
Context `{JsonC}.

Definition jstr (o : json) (key : string) : option string :=
  match get_ex o key with
  | Some (JString s) => get_string (JString s)
  | _ => None
  end.

Definition jbool (o : json) (key : string) : bool :=
  match get_ex o key with
  | None => false
  | Some JNull => false
  | Some v => get_boolean v
  end.
End access.

(** * An instance, for concrete inputs

    A small printer, and a parser that knows the documents it is given by their
    text: the laws are satisfiable, and the examples compute. *)
Definition demo_get_string (j : json) : option string :=
  match j with
  | JNull => None
  | JString s => Some s
  | JBool b => Some (if b then "true" else "false")
  | JInt z => Some (pretty.pretty z)
  | JDouble r => Some r
  | JArray _ => Some "[ ]"
  | JObject _ => Some "{ }"
  end.

Fixpoint demo_text (j : json) : string :=
  match j with
  | JNull => "null"
  | JBool b => if b then "true" else "false"
  | JInt z => pretty.pretty z
  | JDouble r => r
  | JString s => "'" +:+ s +:+ "'"
  | JArray l => "[" +:+ foldr (fun x acc => demo_text x +:+ "," +:+ acc) "]" l
  | JObject l =>
      "{" +:+ foldr (fun kv acc => fst kv +:+ ":" +:+ demo_text (snd kv) +:+ "," +:+ acc) "}" l
  end.
Definition no_nul (c : ascii) : ascii := if ceq c NUL then "?"%char else c.
Definition demo_print (j : json) : string := smap no_nul (demo_text j).

Lemma smap_no_nul s : sall (fun c => negb (ceq c NUL)) (smap no_nul s) = true.
Proof.
  induction s as [|c s IH]; simpl; [done|]. rewrite IH, andb_true_r. unfold no_nul.
  destruct (ceq c NUL) eqn:E; [done|by rewrite E].
Qed.

Lemma demo_print_cstr j :
  cstr (demo_print j +:+ String LF "") = demo_print j +:+ String LF "".
Proof.
  apply cstr_id. rewrite sall_app. unfold demo_print. rewrite smap_no_nul. done.
Qed.

Fixpoint demo_parse (docs : list json) (text : string) : option json :=
  match docs with
  | [] => None
  | j :: r =>
      if String.eqb (demo_print j) text || String.eqb (demo_print j +:+ String LF "") text
      then Some j else demo_parse r text
  end.

Lemma demo_other j : j <> JNull -> is_Some (demo_get_string j).
Proof. destruct j; simpl; eauto; done. Qed.

Definition demo_jsonc (docs : list json) : JsonC := {|
  get_string := demo_get_string;
  get_boolean := fun j => match j with
                          | JBool b => b
                          | JInt z => negb (z =? 0)%Z
                          | JString s => nonempty s
                          | _ => false
                          end;
  get_int := fun j => match j with JInt z => z | _ => 0%Z end;
  print_pretty := demo_print;
  print_plain := demo_print;
  parse := demo_parse docs;
  get_string_string := fun s => eq_refl;
  get_string_null := eq_refl;
  get_string_other := demo_other;
  get_int_int := fun z _ => eq_refl;
  print_pretty_cstr := demo_print_cstr
|}.
