(* ===== verification/ProcdWorld.v ===== *)
(** neon-procd: the world its commands act on: the files of the registry
    directory, the processes run and the standard output
    (src/package/system/neon-procd/src/neon-procd.c, [runv],
    [systemctl_unit]). A process may change the registry: scripts run by a
    trigger register instances again. The outcome of every system call is a
    function of the world it is made in. *)
From S2P Require Import Prelude CStr.
Open Scope string_scope.
Open Scope list_scope.
Open Scope neon_scope.

Record pworld := mk_pworld {
  pw_files : gmap string string;
  pw_runs : list (list string);
  pw_out : string
}.

Record procd_os := mk_procd_os {
  (** how the process ends, and the files afterwards *)
  po_run : pworld -> list string -> wait_result * gmap string string;
  po_fopen_w : pworld -> string -> bool;
  po_fclose : pworld -> string -> bool;
  po_rename : pworld -> string -> bool;
  po_opendir : pworld -> bool;
  po_readdir : pworld -> list string
}.

(** [runv]; an argument vector is run with or without its output. [pw_runs]
    also keeps the vectors whose fork failed. When waitpid fails for another reason than EINTR the status is read uninitialised. *)
Definition runv (os : procd_os) (argv : list string) : prog pworld Z :=
  fun w =>
    let '(r, files) := os.(po_run) w argv in
    let w' := mk_pworld files (pw_runs w ++ [argv]) (pw_out w) in
    match r with
    | ForkFailed => (Ok (-1)%Z, w')
    | WaitFailed => (Crash, w')
    | Exited code => (Ok code, w')
    | Signaled sig => (Ok (128 + sig)%Z, w')
    | OtherStatus => (Ok 255%Z, w')
    end.

Definition systemctl_unit (os : procd_os) (verb unit : string) : prog pworld Z :=
  runv os ["systemctl"; verb; unit].

(** waitpid returns the status of the child it is asked for. *)
Definition os_waits (os : procd_os) : Prop :=
  forall w argv, fst (os.(po_run) w argv) <> WaitFailed.

Lemma runv_ok os argv w :
  os_waits os -> exists rc, runv os argv w =
    (Ok rc, mk_pworld (snd (po_run os w argv)) (pw_runs w ++ [argv]) (pw_out w)).
Proof.
  intros Hw. specialize (Hw w argv). unfold runv.
  destruct (po_run os w argv) as [[| |c|s|] files]; simpl in *; try done; eauto.
Qed.

Lemma runv_runs os argv w r w' :
  runv os argv w = (r, w') -> pw_runs w' = pw_runs w ++ [argv] /\ pw_out w' = pw_out w.
Proof.
  unfold runv. destruct (po_run os w argv) as [[| |c|s|] files]; by intros [= _ <-].
Qed.

(** A world where every process ends with status [code] and changes no file. *)
Definition quiet_os (code : Z) (listing : pworld -> list string) : procd_os :=
  mk_procd_os (fun w _ => (Exited code, pw_files w)) (fun _ _ => true) (fun _ _ => true)
    (fun _ _ => true) (fun _ => true) listing.
Definition empty_world : pworld := mk_pworld ∅ [] "".

Lemma quiet_waits code listing : os_waits (quiet_os code listing).
Proof. done. Qed.
