(* ===== verification/ProcdStart.v ===== *)
(** neon-procd: unit names, resource limits, and the systemd-run command line an
    instance is started with (src/package/system/neon-procd/src/neon-procd.c,
    [sanitize] to [start_instance]). Memory exhaustion is not modelled. *)
From S2P Require Import Prelude CStr Json ProcdWorld.
From Stdlib Require Import Ascii.
Open Scope string_scope.
Open Scope list_scope.
Open Scope neon_scope.

Definition MAX_ARGS : nat := 512.
Definition UNIT_PREFIX : string := "neon-procd-".

(** * Names *)

Definition unit_char (c : ascii) : bool :=
  isalnum c || ceq c "_" || ceq c "-" || ceq c ".".

(** [sanitize]: [None] is the null pointer. *)
Definition sanitize (inp : option string) (outsz : nat) : string :=
  let s := match inp with None | Some "" => "unnamed" | Some s => s end in
  stake (outsz - 1) (smap (fun c => if unit_char c then c else "-"%char) s).

Definition unit_name (service instance : option string) (outsz : nat) : string :=
  let s := sanitize service 128 in
  let i := sanitize instance 128 in
  strn outsz (UNIT_PREFIX +:+ s +:+ "-" +:+ i +:+ ".service").

(** The pattern the commands on a whole service pass to systemctl. *)
Definition unit_pattern (service : option string) : string :=
  strn 256 (UNIT_PREFIX +:+ sanitize service 128 +:+ "-*.service").

(** * Resource limits *)

Definition limit_maps : list (string * string) :=
  [("cpu", "LimitCPU"); ("fsize", "LimitFSIZE"); ("data", "LimitDATA");
   ("stack", "LimitSTACK"); ("core", "LimitCORE"); ("rss", "LimitRSS");
   ("nofile", "LimitNOFILE"); ("as", "LimitAS"); ("nproc", "LimitNPROC");
   ("memlock", "LimitMEMLOCK"); ("locks", "LimitLOCKS");
   ("sigpending", "LimitSIGPENDING"); ("msgqueue", "LimitMSGQUEUE");
   ("nice", "LimitNICE"); ("rtprio", "LimitRTPRIO"); ("rttime", "LimitRTTIME")].

Definition limit_property (name : string) : option string :=
  snd <$> List.find (fun p => strcmp_eq name (fst p)) limit_maps.

Definition normalize_limit_token (inp : string) (outsz : nat) : string :=
  if negb (nonempty inp) then strn outsz "infinity"
  else if strcaseeq inp "unlimited" || strcaseeq inp "infinity" then strn outsz "infinity"
  else strn outsz inp.

Definition limit_sep (c : ascii) : bool := ceq c " " || ceq c TAB || ceq c ":".

(** [strpbrk(p, " \t:")], and the text on both sides of the character found. *)
Fixpoint split_at (p : ascii -> bool) (s : string) : option (string * string) :=
  match s with
  | "" => None
  | String c r =>
      if p c then Some ("", r)
      else match split_at p r with
           | Some (a, b) => Some (String c a, b)
           | None => None
           end
  end.

Definition normalize_limit_value (value : option string) (outsz : nat) : string :=
  let buf := strn 256 (default "" value) in
  let p := rtrim isspace (ltrim isspace buf) in
  match split_at limit_sep p with
  | None => normalize_limit_token p outsz
  | Some (a, b) =>
      let sep := rtrim isspace (ltrim (fun c => isspace c || ceq c ":") b) in
      let soft := normalize_limit_token a 128 in
      let hard := normalize_limit_token (if nonempty sep then sep else a) 128 in
      strn outsz (soft +:+ ":" +:+ hard)
  end.

(** * The argument vector

    The state is the arguments added so far; [argv] is NULL-terminated and has
    room for [MAX_ARGS - 1] of them. *)

Definition argv_prog := prog (list string).

Definition add_arg (s : option string) : argv_prog unit :=
  fun argv =>
    if (MAX_ARGS - 1 <=? length argv)%nat then (Exit 1, argv)
    else match s with
         | None => (Crash, argv)
         | Some s => (Ok tt, argv ++ [s])
         end.

(** The argument is an allocated string: pushed without a copy. *)
Definition push (s : string) : argv_prog unit :=
  fun argv =>
    if (MAX_ARGS - 1 <=? length argv)%nat then (Exit 1, argv) else (Ok tt, argv ++ [s]).

Definition add_prop (key : string) (value : option string) : argv_prog unit :=
  match value with
  | None => pcrash
  | Some v => add_arg (Some "--property") ;;; push (key +:+ "=" +:+ v)
  end.

Section start.
Context `{JsonC}.

Definition add_limit (kv : string * json) : argv_prog unit :=
  match limit_property (fst kv) with
  | None => pret tt
  | Some prop => add_prop prop (Some (normalize_limit_value (get_string (snd kv)) 256))
  end.

Definition add_limits (limits : json) : argv_prog unit :=
  match limits with
  | JObject l => pfold add_limit l
  | _ => pret tt
  end.

Definition add_respawn (inst : json) : argv_prog unit :=
  match get_ex inst "respawn" with
  | None => add_prop "Restart" (Some "no")
  | Some respawn =>
      add_prop "Restart" (Some "always") ;;;
      add_prop "RestartSec"
        (if is_array respawn && (2 <=? array_length respawn)%nat
         then get_string (get_idx respawn 1) else Some "5") ;;;
      if is_array respawn && (3 <=? array_length respawn)%nat then
        add_prop "StartLimitIntervalSec" (get_string (get_idx respawn 0)) ;;;
        add_prop "StartLimitBurst" (get_string (get_idx respawn 2))
      else pret tt
  end.

Definition add_nonempty (key : string) (value : option string) : argv_prog unit :=
  match value with
  | Some v => if nonempty v then add_prop key (Some v) else pret tt
  | None => pret tt
  end.

Definition add_env (kv : string * json) : argv_prog unit :=
  match get_string (snd kv) with
  | None => pcrash
  | Some v => add_arg (Some "--setenv") ;;; push (fst kv +:+ "=" +:+ v)
  end.

Definition default_path : string := "PATH=/usr/sbin:/usr/bin:/sbin:/bin".

Definition env_members (inst : json) : list (string * json) :=
  match get_ex inst "env" with Some (JObject l) => l | _ => [] end.
Definition have_path (inst : json) : bool :=
  existsb (fun kv => strcmp_eq (fst kv) "PATH") (env_members inst).

Definition command_of (inst : json) : option (list json) :=
  match get_ex inst "command" with
  | Some (JArray (c :: cs)) => Some (c :: cs)
  | _ => None
  end.

(** The argument vector up to and including the separator. *)
Definition build_options (service uname : string) (inst : json) : argv_prog unit :=
  add_arg (Some "systemd-run") ;;;
  add_arg (Some "--unit") ;;;
  add_arg (Some uname) ;;;
  add_arg (Some "--collect") ;;;
  add_arg (Some "--service-type=simple") ;;;
  add_prop "Description" (Some service) ;;;
  add_respawn inst ;;;
  add_nonempty "User" (jstr inst "user") ;;;
  add_nonempty "Group" (jstr inst "group") ;;;
  match get_ex inst "nice" with
  | Some nice => add_prop "Nice" (get_string nice)
  | None => pret tt
  end ;;;
  (if jbool inst "no_new_privs" then add_prop "NoNewPrivileges" (Some "yes") else pret tt) ;;;
  add_prop "StandardOutput" (Some "journal") ;;;
  add_prop "StandardError" (Some "journal") ;;;
  match get_ex inst "limits" with
  | Some limits => add_limits limits
  | None => pret tt
  end ;;;
  pfold add_env (env_members inst) ;;;
  (if have_path inst then pret tt
   else add_arg (Some "--setenv") ;;; add_arg (Some default_path)).

Definition build_argv (service uname : string) (inst : json) (cmd : list json)
    : argv_prog unit :=
  build_options service uname inst ;;;
  add_arg (Some "--") ;;;
  pfold (fun c => add_arg (get_string c)) cmd.

(** The vector built from nothing, in any other program. *)
Definition built {W} (m : argv_prog unit) : prog W (list string) :=
  fun w =>
    match m [] with
    | (Ok _, argv) => (Ok argv, w)
    | (Exit c, _) => (Exit c, w)
    | (Crash, _) => (Crash, w)
    end.

Definition start_instance (os : procd_os) (service iname : string) (inst : json)
    : prog pworld Z :=
  match command_of inst with
  | None => pret 0%Z
  | Some cmd =>
      let uname := unit_name (Some service) (Some iname) 320 in
      systemctl_unit os "stop" uname ;;;
      systemctl_unit os "reset-failed" uname ;;;
      argv <-- built (build_argv service uname inst cmd) ;;
      runv os argv
  end.
End start.

(** * Lemmas on names *)

Lemma smap_length f s : String.length (smap f s) = String.length s.
Proof. induction s as [|c s IH]; simpl; congruence. Qed.

Lemma unit_char_dash : unit_char "-" = true.
Proof. reflexivity. Qed.

Lemma sall_sanitized s :
  sall unit_char (smap (fun c => if unit_char c then c else "-"%char) s) = true.
Proof.
  induction s as [|c s IH]; simpl; [done|]. rewrite IH.
  destruct (unit_char c) eqn:E; [by rewrite E|done].
Qed.

Lemma sanitize_chars i n : sall unit_char (sanitize i n) = true.
Proof. unfold sanitize. apply sall_stake, sall_sanitized. Qed.

Lemma sanitize_length i n : (String.length (sanitize i n) <= n - 1)%nat.
Proof. unfold sanitize. apply stake_length. Qed.

Lemma smap_id f s : sall (fun c => ceq (f c) c) s = true -> smap f s = s.
Proof.
  induction s as [|c s IH]; simpl; [done|]. intros E. bprop.
  apply ceq_true in H as ->. by rewrite IH.
Qed.

(** A name that is already safe and short is kept. *)
Lemma sanitize_id s n :
  s <> "" -> sall unit_char s = true -> (String.length s < n)%nat ->
  sanitize (Some s) n = s.
Proof.
  intros Hne Hs Hl. unfold sanitize. destruct s as [|c r]; [done|].
  rewrite smap_id.
  - apply stake_id. lia.
  - eapply sall_impl; [|exact Hs]. intros d Hd. by rewrite Hd, ceq_refl.
Qed.

Lemma sanitize_nonempty i n : (1 < n)%nat -> sanitize i n <> "".
Proof.
  intros Hn. unfold sanitize. destruct n as [|[|n]]; [lia|lia|].
  destruct i as [[|c r]|]; done.
Qed.

Lemma unit_name_fits service instance :
  unit_name service instance 320 =
  UNIT_PREFIX +:+ sanitize service 128 +:+ "-" +:+ sanitize instance 128 +:+ ".service".
Proof.
  unfold unit_name. apply strn_id. rewrite !slen_app.
  pose proof (sanitize_length service 128). pose proof (sanitize_length instance 128).
  simpl in *. lia.
Qed.

(** The name a null or empty pointer stands for. *)
Definition named (inp : option string) : string :=
  match inp with None | Some "" => "unnamed" | Some s => s end.

(** Two names that no unit name tells apart: up to the first [n] characters they
    differ only between characters that are '-' or not safe. *)
Definition dashed (c : ascii) : bool := negb (unit_char c) || ceq c "-".
Fixpoint look_alike (n : nat) (a b : string) : Prop :=
  match n, a, b with
  | O, _, _ => True
  | S n, "", "" => True
  | S n, String c a, String d b =>
      (c = d \/ dashed c = true /\ dashed d = true) /\ look_alike n a b
  | _, _, _ => False
  end.

Lemma sanitize_char_eq c d :
  (if unit_char c then c else "-"%char) = (if unit_char d then d else "-"%char) <->
  c = d \/ dashed c = true /\ dashed d = true.
Proof.
  unfold dashed. split.
  - destruct (unit_char c), (unit_char d); cbn [negb orb]; auto.
    + intros ->. auto.
    + intros <-. auto.
  - intros [-> |[Hc Hd]]; [done|].
    destruct (unit_char c), (unit_char d); cbn [negb orb] in *; try done;
      repeat match goal with H : ceq _ _ = true |- _ => apply ceq_true in H end; congruence.
Qed.

Lemma sanitize_look_alike n i1 i2 :
  sanitize i1 (S n) = sanitize i2 (S n) <-> look_alike n (named i1) (named i2).
Proof.
  unfold sanitize. rewrite Nat.sub_1_r. cbn [Nat.pred]. fold (named i1) (named i2).
  generalize (named i1) (named i2). clear i1 i2. induction n as [|n IH]; intros a b.
  { by destruct a, b. }
  destruct a as [|c a], b as [|d b]; cbn [smap stake look_alike]; try done.
  rewrite <- IH, <- sanitize_char_eq. split; [by intros [= -> ->]|by intros [-> ->]].
Qed.

Lemma unit_pattern_fits service :
  unit_pattern service = UNIT_PREFIX +:+ sanitize service 128 +:+ "-*.service".
Proof.
  unfold unit_pattern. apply strn_id. rewrite !slen_app.
  pose proof (sanitize_length service 128). simpl in *. lia.
Qed.

(** * Lemmas on the argument vector *)

(** What a successful part of the construction appends satisfies [Q], and the
    vector stays within its bound. *)
Definition adds (Q : string -> Prop) (m : argv_prog unit) : Prop :=
  forall argv argv', m argv = (Ok tt, argv') ->
    exists xs, argv' = argv ++ xs /\ Forall Q xs /\
      ((length argv < MAX_ARGS)%nat -> (length argv' < MAX_ARGS)%nat).

Lemma adds_ret Q : adds Q (pret tt).
Proof. intros a a' [= <-]. exists []. by rewrite app_nil_r. Qed.
Lemma adds_crash Q : adds Q pcrash.
Proof. by intros a a'. Qed.
Lemma adds_bind Q m k : adds Q m -> adds Q k -> adds Q (m ;;; k).
Proof.
  intros Hm Hk a a' E. apply pbind_ok in E as ([] & a1 & E1 & E2).
  destruct (Hm _ _ E1) as (xs & -> & Hx & Hl1).
  destruct (Hk _ _ E2) as (ys & -> & Hy & Hl2).
  exists (xs ++ ys). rewrite app_assoc. split; [done|]. split; [by apply Forall_app|auto].
Qed.
Lemma adds_push (Q : string -> Prop) s : Q s -> adds Q (push s).
Proof.
  intros Hs a a'. unfold push. case_if; [done|]. intros [= <-]. exists [s].
  split; [done|]. split; [by constructor|]. intros _. bprop. rewrite length_app. simpl.
  unfold MAX_ARGS in *. lia.
Qed.
Lemma adds_arg (Q : string -> Prop) s : Q s -> adds Q (add_arg (Some s)).
Proof. intros Hs. by apply (adds_push Q s Hs). Qed.
Lemma adds_pfold {A} Q (f : A -> argv_prog unit) l : (forall x, adds Q (f x)) -> adds Q (pfold f l).
Proof.
  intros Hf. induction l as [|x l IH]; [apply adds_ret|].
  change (pfold f (x :: l)) with
    (fun w => match f x w with (Ok _, w') => pfold f l w' | (Exit c, w') => (Exit c, w')
              | (Crash, w') => (Crash, w') end).
  exact (adds_bind Q (f x) (pfold f l) (Hf x) IH).
Qed.

Definition not_separator (s : string) : Prop := s <> "--".

Lemma assignment_not_separator k v : not_separator (k +:+ "=" +:+ v).
Proof.
  unfold not_separator. intros E.
  assert (sall (fun c => negb (ceq c "=")) (k +:+ "=" +:+ v) = true) as Hs by by rewrite E.
  rewrite sall_app in Hs. bprop. simpl in *. done.
Qed.

Lemma adds_prop k v : adds not_separator (add_prop k v).
Proof.
  destruct v as [v|]; [|apply adds_crash]. apply adds_bind; [by apply adds_arg|].
  apply adds_push, assignment_not_separator.
Qed.
Lemma adds_nonempty k v : adds not_separator (add_nonempty k v).
Proof.
  destruct v as [v|]; [|apply adds_ret]. unfold add_nonempty.
  destruct (nonempty v); [apply adds_prop|apply adds_ret].
Qed.
Lemma adds_limits `{JsonC} l : adds not_separator (add_limits l).
Proof.
  destruct l; try apply adds_ret. apply adds_pfold. intros [k v]. unfold add_limit.
  destruct (limit_property _); [apply adds_prop|apply adds_ret].
Qed.
Lemma adds_env `{JsonC} kv : adds not_separator (add_env kv).
Proof.
  unfold add_env. destruct (get_string _); [|apply adds_crash].
  apply adds_bind; [by apply adds_arg|]. apply adds_push, assignment_not_separator.
Qed.

(** Follow the text of a construction. *)
Ltac adds_tac :=
  repeat lazymatch goal with
  | |- adds _ (pbind _ _) => apply adds_bind
  | |- adds _ (pret _) => apply adds_ret
  | |- adds _ (add_prop _ _) => apply adds_prop
  | |- adds _ (add_nonempty _ _) => apply adds_nonempty
  | |- adds _ (add_limits _) => apply adds_limits
  | |- adds _ (add_arg (Some _)) => apply adds_arg; try done
  | |- adds _ (pfold add_env _) => apply adds_pfold, adds_env
  | |- adds _ (if ?b then _ else _) => destruct b
  | |- adds _ (match ?x with _ => _ end) => destruct x
  end.

Section argv_facts.
Context `{JsonC}.

Lemma adds_respawn i : adds not_separator (add_respawn i).
Proof. unfold add_respawn. adds_tac. Qed.

(** Everything after the program name. *)
Lemma adds_options service uname inst argv :
  not_separator uname -> build_options service uname inst [] = (Ok tt, argv) ->
  exists rest, argv = "systemd-run" :: rest /\ ("--" ∉ argv) /\ (length argv < MAX_ARGS)%nat.
Proof.
  intros Hu. unfold build_options. intros E. apply pbind_ok in E as ([] & a1 & E1 & E2).
  injection E1 as <-.
  match type of E2 with ?m _ = _ => assert (adds not_separator m) as Hadds end.
  { adds_tac. apply adds_respawn. }
  destruct (Hadds _ _ E2) as (xs & -> & Hxs & Hl). exists xs.
  split; [done|]. split; [|apply Hl; simpl; unfold MAX_ARGS; lia].
  apply not_elem_of_cons. split; [done|]. intros Hin.
  rewrite Forall_forall in Hxs. by apply (Hxs _ Hin).
Qed.

Lemma push_words cmd argv argv' :
  pfold (fun c => add_arg (get_string c)) cmd argv = (Ok tt, argv') ->
  exists words, argv' = argv ++ words /\ Forall2 (fun c w => get_string c = Some w) cmd words /\
    ((length argv < MAX_ARGS)%nat -> (length argv' < MAX_ARGS)%nat).
Proof.
  revert argv. induction cmd as [|c cmd IH]; intros argv E.
  - injection E as <-. exists []. rewrite app_nil_r. auto.
  - cbn [pfold] in E. destruct (add_arg (get_string c) argv) as [[[]| |] a1] eqn:E1; try done.
    destruct (get_string c) as [w|] eqn:Ew; [|unfold add_arg in E1; by case_if_in E1].
    destruct (adds_arg (fun _ => True) w I _ _ E1) as (xs & -> & _ & Hl).
    assert (xs = [w]) as ->.
    { unfold add_arg in E1. case_if_in E1; [done|]. injection E1 as E1.
      by apply app_inv_head in E1. }
    destruct (IH _ E) as (ws & -> & Hws & Hl2). exists (w :: ws).
    rewrite <- app_assoc. split; [done|]. split; [by constructor|]. rewrite <- app_assoc in Hl2.
    auto.
Qed.

End argv_facts.

(** * Lemmas on limits *)

Lemma strcaseeq_refl s : strcaseeq s s = true.
Proof. apply String.eqb_refl. Qed.

Lemma token_cases s n :
  (9 <= n)%nat -> (String.length s < n)%nat ->
  normalize_limit_token s n = "infinity" \/
  (normalize_limit_token s n = s /\ s <> "" /\
   strcaseeq s "unlimited" || strcaseeq s "infinity" = false).
Proof.
  intros Hn Hs. unfold normalize_limit_token.
  rewrite !strn_id by (simpl; lia).
  destruct s as [|c r]; [by left|]. cbn [nonempty negb].
  destruct (_ || _) eqn:E; [by left|by right].
Qed.

Lemma token_idem s n :
  (9 <= n)%nat -> (String.length s < n)%nat ->
  normalize_limit_token (normalize_limit_token s n) n = normalize_limit_token s n.
Proof.
  intros Hn Hs. destruct (token_cases s n Hn Hs) as [->|(E & _ & _)]; [|by rewrite !E].
  unfold normalize_limit_token. simpl. by rewrite strn_id by (simpl; lia).
Qed.

Lemma split_at_none p s : split_at p s = None <-> sall (fun c => negb (p c)) s = true.
Proof.
  induction s as [|c r IH]; simpl; [done|]. destruct (p c); simpl; [done|].
  rewrite <- IH. destruct (split_at p r) as [[a b]|]; done.
Qed.
Lemma split_at_some p s a b :
  split_at p s = Some (a, b) ->
  exists c, s = a +:+ String c b /\ p c = true /\ sall (fun c => negb (p c)) a = true.
Proof.
  revert a b. induction s as [|c r IH]; simpl; intros a b E; [done|].
  destruct (p c) eqn:Ec; [injection E as <- <-; by exists c|].
  destruct (split_at p r) as [[a' b']|]; [|done]. injection E as <- <-.
  destruct (IH a' b' eq_refl) as (d & -> & Hd & Ha). exists d. simpl. by rewrite Ec.
Qed.
Lemma split_at_app p a c b :
  sall (fun c => negb (p c)) a = true -> p c = true ->
  split_at p (a +:+ String c b) = Some (a, b).
Proof.
  intros Ha Hc. induction a as [|d r IH]; simpl in *; [by rewrite Hc|].
  bprop. rewrite H. by rewrite IH.
Qed.
Lemma rtrim_app p a b : b <> "" -> rtrim p b = b -> rtrim p (a +:+ b) = a +:+ b.
Proof.
  intros Hne Hb. induction a as [|c r IH]; simpl; [done|]. rewrite IH.
  destruct (r +:+ b) eqn:E; [|done]. destruct r; [|done]. simpl in E. by subst.
Qed.

(** * Where construction cannot crash *)

Definition settles (m : argv_prog unit) : Prop :=
  forall argv, fst (m argv) = Ok tt \/ fst (m argv) = Exit 1.

Lemma settles_ret : settles (pret tt).
Proof. intros a. by left. Qed.
Lemma settles_bind m k : settles m -> settles k -> settles (m ;;; k).
Proof.
  intros Hm Hk a. unfold pbind. destruct (Hm a) as [E|E]; destruct (m a) as [[[]|c|] a'];
    simpl in E; try done;
    try (right; simpl; congruence); apply Hk.
Qed.
Lemma settles_push s : settles (push s).
Proof. intros a. unfold push. case_if; auto. Qed.
Lemma settles_arg s : s <> None -> settles (add_arg s).
Proof. intros Hs a. unfold add_arg. destruct s; [|done]. case_if; auto. Qed.
Lemma settles_prop k v : v <> None -> settles (add_prop k v).
Proof.
  intros Hv. destruct v; [|done]. apply settles_bind; [by apply settles_arg|apply settles_push].
Qed.
Lemma settles_pfold {A} (f : A -> argv_prog unit) l :
  Forall (fun x => settles (f x)) l -> settles (pfold f l).
Proof.
  induction 1 as [|x l Hx _ IH]; [apply settles_ret|]. exact (settles_bind _ _ Hx IH).
Qed.

Ltac settles_tac :=
  repeat lazymatch goal with
  | |- settles (pbind _ _) => apply settles_bind
  | |- settles (pret _) => apply settles_ret
  | |- settles (add_prop _ _) => apply settles_prop; try done
  | |- settles (add_arg _) => apply settles_arg; try done
  | |- settles (push _) => apply settles_push
  | |- settles (if ?b then _ else _) => let E := fresh "E" in destruct b eqn:E
  end.

Section settle_facts.
Context `{JsonC}.

Lemma not_null j : is_null j = false -> get_string j <> None.
Proof.
  intros E. assert (j <> JNull) as Hj by by intros ->.
  apply get_string_other in Hj as [s ->]. done.
Qed.

(** An instance without JSON nulls where the code prints or copies a string. *)
Definition null_free (inst : json) : bool :=
  match get_ex inst "command" with
  | Some (JArray l) => forallb (fun j => negb (is_null j)) l | _ => true end &&
  match get_ex inst "respawn" with
  | Some (JArray l) => forallb (fun j => negb (is_null j)) l | _ => true end &&
  match get_ex inst "nice" with Some j => negb (is_null j) | None => true end &&
  forallb (fun kv => negb (is_null (snd kv))) (env_members inst).

Lemma get_idx_not_null l i :
  forallb (fun j => negb (is_null j)) l = true -> (i < length l)%nat ->
  is_null (get_idx (JArray l) i) = false.
Proof.
  intros Hl Hi. unfold get_idx. destruct (l !! i) as [j|] eqn:E.
  - simpl. apply list_elem_of_lookup_2, list_elem_of_In in E.
    rewrite forallb_forall in Hl. specialize (Hl _ E). by bprop.
  - apply lookup_ge_None in E. lia.
Qed.

Lemma settles_respawn inst : null_free inst = true -> settles (add_respawn inst).
Proof.
  intros Hn. unfold null_free in Hn. bprop. unfold add_respawn.
  destruct (get_ex inst "respawn") as [r|]; [|settles_tac].
  settles_tac.
  - case_if; [|done]. destruct r as [| | | | |l|]; try done. bprop.
    apply not_null, get_idx_not_null; [done|]. simpl in *. lia.
  - destruct r as [| | | | |l|]; try done. bprop.
    apply not_null, get_idx_not_null; [done|]. simpl in *. lia.
  - destruct r as [| | | | |l|]; try done. bprop.
    apply not_null, get_idx_not_null; [done|]. simpl in *. lia.
Qed.

Lemma settles_argv service uname inst cmd :
  null_free inst = true -> command_of inst = Some cmd ->
  settles (build_argv service uname inst cmd).
Proof.
  intros Hn Hc. pose proof (settles_respawn inst Hn) as Hr. unfold null_free in Hn. bprop.
  unfold build_argv, build_options. settles_tac; try done.
  - destruct (jstr inst "user") as [v|]; simpl; [|settles_tac].
    destruct (nonempty v); settles_tac.
  - destruct (jstr inst "group") as [v|]; simpl; [|settles_tac].
    destruct (nonempty v); settles_tac.
  - destruct (get_ex inst "nice") as [j|]; settles_tac. bprop. by apply not_null.
  - destruct (get_ex inst "limits") as [lim|]; [|settles_tac].
    destruct lim; try apply settles_ret. apply settles_pfold.
    apply Forall_forall. intros kv _. unfold add_limit.
    destruct (limit_property _); settles_tac.
  - apply settles_pfold, Forall_forall. intros kv Hin. unfold add_env.
    rewrite forallb_forall in H1. apply list_elem_of_In in Hin. specialize (H1 _ Hin).
    bprop. apply not_null in H1. destruct (get_string (snd kv)); [settles_tac|done].
  - apply settles_pfold, Forall_forall. intros c Hin. settles_tac.
    apply not_null. unfold command_of in Hc.
    destruct (get_ex inst "command") as [[| | | | |[|c0 cs]|]|]; try done.
    injection Hc as <-. rewrite forallb_forall in H0. apply list_elem_of_In in Hin.
    specialize (H0 _ Hin). by bprop.
Qed.
End settle_facts.

(** * More lemmas on limits *)

(** A limit as configuration files write it: the only white space is blanks and
    tabs, and it is shorter than the buffer of one half. *)
Definition limit_text (s : string) : Prop :=
  sall (fun c => negb (isspace c) || ceq c " " || ceq c TAB) s = true /\
  (String.length s < 128)%nat.

Lemma no_sep_char c :
  negb (isspace c) || ceq c " " || ceq c TAB = true -> negb (limit_sep c) = true ->
  negb (isspace c) = true.
Proof. destruct c as [[] [] [] [] [] [] [] []]; by vm_compute. Qed.

Lemma no_sep_no_space a :
  sall (fun c => negb (isspace c) || ceq c " " || ceq c TAB) a = true ->
  sall (fun c => negb (limit_sep c)) a = true ->
  sall (fun c => negb (isspace c)) a = true.
Proof.
  induction a as [|c a IH]; simpl; [done|]. intros H1 H2.
  apply andb_true_iff in H1 as [? ?], H2 as [? ?].
  by rewrite no_sep_char, IH.
Qed.

Lemma token_nonempty s n : (9 <= n)%nat -> (String.length s < n)%nat ->
  normalize_limit_token s n <> "".
Proof. intros Hn Hs. destruct (token_cases s n Hn Hs) as [->|(-> & ? & _)]; done. Qed.

(** The result of the pair branch is a fixed point. *)
Lemma normalize_pair_fixed soft hard :
  sall (fun c => negb (isspace c)) soft = true ->
  sall (fun c => negb (limit_sep c)) soft = true ->
  soft <> "" -> hard <> "" ->
  ltrim (fun c => isspace c || ceq c ":") hard = hard -> rtrim isspace hard = hard ->
  (String.length soft < 128)%nat -> (String.length hard < 128)%nat ->
  normalize_limit_token soft 128 = soft -> normalize_limit_token hard 128 = hard ->
  normalize_limit_value (Some (soft +:+ ":" +:+ hard)) 256 = soft +:+ ":" +:+ hard.
Proof.
  intros Hs1 Hs2 Hne1 Hne2 Hl Hr Hlen1 Hlen2 Ht1 Ht2. unfold normalize_limit_value. cbn [from_option id].
  assert (String.length (soft +:+ ":" +:+ hard) < 256)%nat as Hlen
    by (rewrite !slen_app; simpl; lia).
  rewrite (strn_id 256 (soft +:+ ":" +:+ hard)) by done.
  assert (ltrim isspace (soft +:+ ":" +:+ hard) = soft +:+ ":" +:+ hard) as ->.
  { apply ltrim_id. intros c r E. destruct soft as [|d s]; [done|].
    simpl in E, Hs1. injection E as -> _. by bprop. }
  assert (rtrim isspace (soft +:+ ":" +:+ hard) = soft +:+ ":" +:+ hard) as ->.
  { apply rtrim_app; [done|]. change (":" +:+ hard) with (String ":" hard). simpl.
    rewrite Hr. by destruct hard. }
  change (soft +:+ ":" +:+ hard) with (soft +:+ String ":" hard) at 1.
  rewrite split_at_app by done. cbv zeta. rewrite Hl, Hr.
  assert (nonempty hard = true) as -> by by destruct hard.
  rewrite Ht1, Ht2. by apply strn_id.
Qed.

Lemma token_length s n : (9 <= n)%nat -> (String.length s < n)%nat ->
  (String.length (normalize_limit_token s n) < n)%nat.
Proof. intros Hn Hs. destruct (token_cases s n Hn Hs) as [->|(-> & _)]; simpl; lia. Qed.

(** A property of the token and of "infinity" holds of the normalized token. *)
Lemma token_prop (P : string -> Prop) s n :
  (9 <= n)%nat -> (String.length s < n)%nat -> P "infinity" -> (s <> "" -> P s) ->
  P (normalize_limit_token s n).
Proof. intros Hn Hs Hi HP. destruct (token_cases s n Hn Hs) as [->|(-> & ? & _)]; auto. Qed.

(** A value without separators is only normalized as a token. *)
Lemma normalize_single p :
  sall (fun c => negb (isspace c)) p = true -> sall (fun c => negb (limit_sep c)) p = true ->
  (String.length p < 256)%nat ->
  normalize_limit_value (Some p) 256 = normalize_limit_token p 256.
Proof.
  intros H1 H2 Hl. unfold normalize_limit_value. cbn [from_option id]. rewrite strn_id by done.
  rewrite ltrim_none, rtrim_none by done. apply split_at_none in H2 as ->. done.
Qed.

(** The two halves of a pair are fit for [normalize_pair_fixed]. *)
Lemma normalize_pair_half a x :
  sall (fun c => negb (isspace c)) a = true -> sall (fun c => negb (limit_sep c)) a = true ->
  ltrim (fun c => isspace c || ceq c ":") x = x -> rtrim isspace x = x ->
  (String.length a < 128)%nat -> (String.length x < 128)%nat ->
  let soft := normalize_limit_token a 128 in
  let hard := normalize_limit_token x 128 in
  normalize_limit_value (Some (strn 256 (soft +:+ ":" +:+ hard))) 256 =
  strn 256 (soft +:+ ":" +:+ hard).
Proof.
  intros H1 H2 H3 H4 La Lx soft hard.
  pose proof (token_length a 128 ltac:(lia) La). pose proof (token_length x 128 ltac:(lia) Lx).
  rewrite strn_id by (rewrite !slen_app; simpl; unfold soft, hard in *; lia).
  apply normalize_pair_fixed; try done; unfold soft, hard;
    try (apply token_nonempty; lia); try (apply token_idem; lia);
    by apply token_prop; [lia..|vm_compute|].
Qed.

(** * Properties *)

(** * Properties *)

(** C10: starting an instance stops and resets the unit of that name and then
    runs systemd-run once; everything before the first "--" is an option built
    by neon-procd, so no configured value can end the options early, and what
    follows is exactly the configured command; the vector never exceeds the
    511 arguments there is room for. *)
Theorem start_instance_runs `{JsonC} os service iname inst w rc w'
    (Hrun : start_instance os service iname inst w = (Ok rc, w')) :
  match command_of inst with
  | None => rc = 0%Z /\ w' = w
  | Some cmd =>
      let u := unit_name (Some service) (Some iname) 320 in
      exists opts words,
        pw_runs w' = pw_runs w ++ [["systemctl"; "stop"; u]; ["systemctl"; "reset-failed"; u];
                                   "systemd-run" :: opts ++ "--" :: words] /\
        ("--" ∉ opts) /\ Forall2 (fun c s => get_string c = Some s) cmd words /\
        (length opts + length words < 510)%nat
  end.
Proof.
  unfold start_instance in Hrun. destruct (command_of inst) as [cmd|] eqn:Ec;
    [|by injection Hrun as <- <-].
  apply pbind_ok in Hrun as (r1 & w1 & E1 & Hrun). apply pbind_ok in Hrun as (r2 & w2 & E2 & Hrun).
  apply pbind_ok in Hrun as (argv & w3 & E3 & E4).
  apply runv_runs in E1 as [E1 _]. apply runv_runs in E2 as [E2 _].
  apply runv_runs in E4 as [E4 _]. unfold built in E3.
  destruct (build_argv _ _ _ _ []) as [[[]|c|] a] eqn:E5; try done. injection E3 as -> <-.
  unfold build_argv in E5. apply pbind_ok in E5 as ([] & a1 & E5 & E6).
  apply adds_options in E5 as (rest & -> & Hsep & Hl); [|by rewrite unit_name_fits].
  apply pbind_ok in E6 as ([] & a2 & E6 & E7).
  pose proof (adds_arg (fun x => x = "--") "--" eq_refl _ _ E6) as (_ & _ & _ & Hl2).
  unfold add_arg in E6. case_if_in E6; [done|]. injection E6 as <-.
  apply push_words in E7 as (words & -> & Hw & Hl3).
  apply not_elem_of_cons in Hsep as [_ Hsep].
  specialize (Hl3 (Hl2 Hl)). exists rest, words.
  split_and!; [|done|done|].
  - rewrite E4, E2, E1, <- !app_assoc. cbn [app]. by rewrite <- app_assoc.
  - cbn [app length] in Hl3. rewrite !length_app in Hl3. simpl in Hl3.
    unfold MAX_ARGS in Hl3. lia.
Qed.

(** an instance without JSON nulls in its command, environment, respawn and
    nice members never makes neon-procd crash: it is started or skipped, or
    the process leaves with status 1 because there are too many arguments. *)
Theorem start_instance_no_crash `{JsonC} os service iname inst w
    (Hw : os_waits os) (Hn : null_free inst = true) :
  match fst (start_instance os service iname inst w) with
  | Ok _ => True
  | Exit c => c = 1%Z
  | Crash => False
  end.
Proof.
  unfold start_instance. destruct (command_of inst) as [cmd|] eqn:Ec; [|done].
  unfold systemctl_unit. set (u := unit_name _ _ _).
  destruct (runv_ok os ["systemctl"; "stop"; u] w Hw) as (r1 & E1).
  unfold pbind at 1. rewrite E1.
  match goal with |- context [pbind (runv os ?a) _ ?w1] =>
    destruct (runv_ok os a w1 Hw) as (r2 & E2) end.
  unfold pbind at 1. rewrite E2. unfold pbind, built.
  destruct (settles_argv service u inst cmd Hn Ec []) as [E|E];
    destruct (build_argv service u inst cmd []) as [[[]|c|] argv]; simpl in E; try done.
  - match goal with |- context [runv os ?a ?w1] =>
      destruct (runv_ok os a w1 Hw) as (r3 & ->) end. done.
  - by injection E as ->.
Qed.

(** C14: what a unit name is and what it tells apart. Whatever the service and
    instance are called, it consists of letters, digits, '_', '-' and '.', and
    is not truncated by its 320-byte buffer. Two instances of one service share
    a unit exactly when their names look alike: they differ only after the first
    127 characters, or between characters that are '-' or not safe. Instances of
    different services can share a unit, too: the '-' between service and
    instance may as well be part of either name. *)
Theorem unit_name_safe service i1 i2 :
  sall unit_char (unit_name service i1 320) = true /\
  (String.length (unit_name service i1 320) < 320)%nat /\
  (unit_name service i1 320 = unit_name service i2 320 <->
   look_alike 127 (named i1) (named i2)) /\
  (forall s m t, s <> "" -> t <> "" ->
     sall unit_char (s +:+ "-" +:+ m +:+ "-" +:+ t) = true ->
     (String.length (s +:+ "-" +:+ m +:+ "-" +:+ t) < 128)%nat ->
     unit_name (Some s) (Some (m +:+ "-" +:+ t)) 320 =
     unit_name (Some (s +:+ "-" +:+ m)) (Some t) 320).
Proof.
  split; [|split; [|split]].
  - rewrite unit_name_fits, !sall_app, !sanitize_chars. done.
  - apply strn_length. lia.
  - rewrite <- sanitize_look_alike, !unit_name_fits. split; [|by intros ->].
    intros E. do 3 apply (inj (String.append _)) in E.
    rewrite <- (stake_app (sanitize i1 128) ".service"), <- (stake_app (sanitize i2 128) ".service"), E.
    f_equal. apply (f_equal String.length) in E. rewrite !slen_app in E. lia.
  - intros s m t Hs Ht Hc Hl. rewrite !unit_name_fits.
    rewrite !sall_app in Hc. rewrite !slen_app in Hl. simpl in Hl. bprop.
    repeat match goal with H : _ /\ _ |- _ => destruct H end.
    rewrite !sanitize_id; rewrite ?sall_app, ?slen_app, ?sapp_assoc; simpl; try done; try lia;
      try (by destruct s); try (by destruct m);
      repeat (apply andb_true_iff; split); done.
Qed.

(** the pattern "delete SERVICE" stops matches more than the units of
    SERVICE: the unit of any instance of a service whose name extends SERVICE
    with '-' also starts and ends as the pattern does. *)
Theorem delete_pattern_overreach s t i
    (Hs : s <> "") (Cs : sall unit_char s = true)
    (Ct : sall unit_char t = true) (Hl : (String.length s + String.length t + 1 < 128)%nat) :
  exists pre suf mid,
    unit_pattern (Some s) = pre +:+ "*" +:+ suf /\
    unit_name (Some (s +:+ "-" +:+ t)) i 320 = pre +:+ mid +:+ suf.
Proof.
  exists (UNIT_PREFIX +:+ s +:+ "-"), ".service", (t +:+ "-" +:+ sanitize i 128).
  rewrite unit_pattern_fits, unit_name_fits.
  rewrite (sanitize_id s), (sanitize_id (s +:+ "-" +:+ t)); try done; try lia.
  - by rewrite !sapp_assoc.
  - by destruct s.
  - by rewrite !sall_app, Cs, Ct.
  - rewrite !slen_app. simpl. lia.
Qed.

(** A normalized limit is a fixed point of the normalization, so limits read
    back from systemd's own spelling are kept as they are. *)
Theorem normalize_limit_idempotent v (Hv : limit_text v) :
  normalize_limit_value (Some (normalize_limit_value (Some v) 256)) 256 =
  normalize_limit_value (Some v) 256.
Proof.
  destruct Hv as [Hc Hlen].
  set (sp := fun c => negb (isspace c) || ceq c " " || ceq c TAB) in *.
  unfold normalize_limit_value at 2 3. cbn [from_option id]. rewrite (strn_id 256 v) by lia.
  set (p := rtrim isspace (ltrim isspace v)).
  assert (sall sp p = true) as Hp by (by apply sall_rtrim, sall_ltrim).
  assert (String.length p < 128)%nat as Hpl.
  { unfold p. pose proof (rtrim_length isspace (ltrim isspace v)).
    pose proof (ltrim_length isspace v). lia. }
  destruct (split_at limit_sep p) as [[a b]|] eqn:Es.
  - apply split_at_some in Es as (c & Ep & Hsep & Ha).
    rewrite Ep, sall_app in Hp. simpl in Hp. bprop.
    rewrite Ep, slen_app in Hpl. simpl in Hpl.
    pose proof (no_sep_no_space a H Ha) as Hsp.
    set (q := fun c => isspace c || ceq c ":").
    pose proof (ltrim_length q b) as L1. pose proof (rtrim_length isspace (ltrim q b)) as L2.
    assert (ltrim q a = a) as Hqa.
    { apply ltrim_id. intros d r ->. simpl in Ha, Hsp. unfold limit_sep in Ha.
      apply andb_true_iff in Hsp as [Hd _], Ha as [Hd' _]. unfold q.
      destruct (isspace d); [done|]. destruct (ceq d ":"); [|done].
      by rewrite orb_true_r in Hd'. }
    assert (rtrim isspace a = a) as Hra by by apply rtrim_none.
    fold q. destruct (nonempty (rtrim isspace (ltrim q b))).
    + apply normalize_pair_half; try done; try lia.
      * apply ltrim_rtrim_ltrim.
      * apply rtrim_idem.
    + apply normalize_pair_half; try done; lia.
  - apply split_at_none in Es. pose proof (no_sep_no_space p Hp Es) as Hsp.
    rewrite <- (normalize_single p) by (done || lia).
    destruct (token_cases p 256) as [E|(E & _)]; [lia..| |];
      rewrite !(normalize_single p) by (done || lia); rewrite E.
    + reflexivity.
    + by rewrite normalize_single by (done || lia).
Qed.

(** * Examples *)

Definition demo_instance : json :=
  JObject [("command", JArray [JString "/usr/sbin/minidlnad"; JString "--"; JString "-S"]);
           ("respawn", JArray [JString "3600"; JString "7"; JString "5"]);
           ("user", JString "media"); ("env", JObject [("LANG", JString "C")]);
           ("limits", JObject [("nofile", JString "1024 unlimited"); ("bogus", JString "1")])].


#[local] Instance start_demo_jsonc : JsonC := demo_jsonc [].

Definition demo_start : outcome Z * pworld :=
  start_instance (quiet_os 0 (fun _ => [])) "minidlna" "instance1" demo_instance empty_world.

Example demo_start_argv :
  pw_runs (snd demo_start) !! 2 =
  Some ["systemd-run"; "--unit"; "neon-procd-minidlna-instance1.service"; "--collect";
        "--service-type=simple"; "--property"; "Description=minidlna";
        "--property"; "Restart=always"; "--property"; "RestartSec=7";
        "--property"; "StartLimitIntervalSec=3600"; "--property"; "StartLimitBurst=5";
        "--property"; "User=media"; "--property"; "StandardOutput=journal";
        "--property"; "StandardError=journal"; "--property"; "LimitNOFILE=1024:infinity";
        "--setenv"; "LANG=C"; "--setenv"; "PATH=/usr/sbin:/usr/bin:/sbin:/bin";
        "--"; "/usr/sbin/minidlnad"; "--"; "-S"].
Proof. vm_compute. reflexivity. Qed.

Lemma start_instance_runs_witness :
  let u := unit_name (Some "minidlna") (Some "instance1") 320 in
  exists opts words,
    pw_runs (snd demo_start) = [["systemctl"; "stop"; u]; ["systemctl"; "reset-failed"; u];
                                "systemd-run" :: opts ++ "--" :: words] /\
    ("--" ∉ opts).
Proof.
  destruct (start_instance_runs (quiet_os 0 (fun _ => [])) "minidlna" "instance1" demo_instance
              empty_world 0 (snd demo_start)) as (opts & words & Hr & Hs & _).
  - vm_compute. reflexivity.
  - exists opts, words. split; [exact Hr|exact Hs].
Defined.

Lemma start_instance_no_crash_witness :
  match fst demo_start with Ok _ => True | Exit c => c = 1%Z | Crash => False end.
Proof.
  apply (start_instance_no_crash (quiet_os 0 (fun _ => [])) "minidlna" "instance1"
           demo_instance empty_world).
  - apply quiet_waits.
  - reflexivity.
Defined.

Lemma unit_name_safe_witness :
  unit_name (Some "dnsmasq") (Some "cfg01") 320 <> unit_name (Some "dnsmasq") (Some "cfg02") 320 /\
  unit_name (Some "web") (Some "a/b") 320 = unit_name (Some "web") (Some "a-b") 320 /\
  unit_name (Some "a") (Some "b-c") 320 = unit_name (Some "a-b") (Some "c") 320.
Proof.
  split; [|split].
  - intros E. apply (unit_name_safe (Some "dnsmasq") (Some "cfg01") (Some "cfg02")) in E.
    simpl in E. destruct E as (_ & _ & _ & _ & [E|[E _]] & _); discriminate.
  - apply (unit_name_safe (Some "web") (Some "a/b") (Some "a-b")). simpl.
    repeat split; auto.
  - apply (unit_name_safe None None None) with (s := "a") (m := "b") (t := "c");
      try done. simpl. lia.
Defined.

Lemma delete_pattern_overreach_witness :
  exists pre suf mid,
    unit_pattern (Some "dhcp") = pre +:+ "*" +:+ suf /\
    unit_name (Some "dhcp-relay") (Some "main") 320 = pre +:+ mid +:+ suf.
Proof.
  apply (delete_pattern_overreach "dhcp" "relay" (Some "main")).
  - discriminate.
  - reflexivity.
  - reflexivity.
  - vm_compute. lia.
Defined.

Lemma normalize_limit_idempotent_witness :
  normalize_limit_value (Some "1024 Unlimited") 256 = "1024:infinity" /\
  normalize_limit_value (Some (normalize_limit_value (Some "1024 Unlimited") 256)) 256 =
  normalize_limit_value (Some "1024 Unlimited") 256.
Proof.
  split; [reflexivity|]. apply (normalize_limit_idempotent "1024 Unlimited").
  split; [reflexivity|]. vm_compute. lia.
Defined.
