(* ===== verification/ReadAll.v ===== *)
(** Reading a stream to its end into a growing buffer: [read_stdin_all] of
    src/package/system/neon-procd/src/neon-procd.c, and the same loop in
    [capture_neon] of neon-procd-ubus.c. What each read(2) does is a schedule:
    the loop has as many rounds as the schedule has entries, and [None] means it
    is still reading when the schedule ends. *)
From S2P Require Import Prelude CStr.
From Stdlib Require Import Ascii.
Open Scope string_scope.
Open Scope list_scope.

(** One call of read(2): at most [k] bytes (and at least one when there is one
    and there is room), interrupted, or failed. *)
Inductive read_step :=
  | RTake (k : nat)
  | REintr
  | RFail.

(** How the loop ends: at the end of the stream or at a failure with the
    capacity and the content of the buffer, or without memory. *)
Inductive read_end :=
  | REnd (cap : nat) (buf : string)
  | RError (buf : string)
  | RNoMem.

Section read.
Variable alloc : nat -> bool.

(** [if (len + 2048 + 1 > cap)], the buffer doubles. *)
Definition grow (cap len : nat) : option nat :=
  if (cap <? len + 2048 + 1)%nat
  then (if alloc (cap * 2) then Some (cap * 2)%nat else None)
  else Some cap.

(** What read(2) returns of [rest] when the caller asks for [count] bytes. *)
Definition read_count (k count : nat) (rest : string) : nat :=
  Nat.min (Nat.max 1 k) (Nat.min count (String.length rest)).

Fixpoint read_loop (sched : list read_step) (cap : nat) (buf rest : string)
    : option read_end :=
  match sched with
  | [] => None
  | s :: sched' =>
      match grow cap (String.length buf) with
      | None => Some RNoMem
      | Some cap =>
          match s with
          | REintr => read_loop sched' cap buf rest
          | RFail => Some (RError buf)
          | RTake k =>
              let r := read_count k (cap - String.length buf - 1) rest in
              if (r =? 0)%nat then Some (REnd cap buf)
              else read_loop sched' cap (buf +:+ stake r rest) (sdrop r rest)
          end
      end
  end.

Definition read_stdin_all (sched : list read_step) (input : string) : option (outcome string) :=
  if negb (alloc 4096) then Some (Exit 1)
  else match read_loop sched 4096 "" input with
       | None => None
       | Some (REnd _ buf) => Some (Ok buf)
       | Some (RError _) => Some (Exit 1)
       | Some RNoMem => Some (Exit 1)
       end.
End read.

(** * Lemmas *)

Definition never_fails (sched : list read_step) : Prop := RFail ∉ sched.
Definition takes (sched : list read_step) : nat :=
  length (List.filter (fun s => match s with RTake _ => true | _ => false end) sched).

Lemma grow_room alloc cap len cap' :
  (4096 <= cap)%nat -> (len < cap)%nat -> grow alloc cap len = Some cap' ->
  (cap <= cap' /\ len + 2048 < cap')%nat.
Proof.
  unfold grow. intros Hc Hl. case_if; [case_if; [|done]|]; intros [= <-]; bprop; lia.
Qed.

Lemma read_count_stop k count rest :
  (0 < count)%nat -> read_count k count rest = 0%nat <-> rest = "".
Proof.
  unfold read_count. intros Hc. split; [|intros ->; simpl; lia].
  destruct rest; [done|]. simpl String.length. lia.
Qed.

Lemma stake_exact n s : (n <= String.length s)%nat -> String.length (stake n s) = n.
Proof.
  revert s. induction n as [|n IH]; intros [|c s]; simpl; intros H; try lia.
  rewrite IH; lia.
Qed.
Lemma sdrop_length n s : String.length (sdrop n s) = (String.length s - n)%nat.
Proof. revert s. induction n as [|n IH]; intros [|c s]; simpl; auto. Qed.

(** The end of the stream is the only way out that leaves a buffer: it then
    holds the stream, and the final NUL fits. *)
Lemma read_loop_end alloc sched cap buf rest cap' out :
  (4096 <= cap)%nat -> (String.length buf < cap)%nat ->
  read_loop alloc sched cap buf rest = Some (REnd cap' out) ->
  out = buf +:+ rest /\ (String.length out < cap')%nat.
Proof.
  revert cap buf rest. induction sched as [|s sched IH]; intros cap buf rest Hc Hl; [done|].
  cbn [read_loop]. destruct (grow alloc cap (String.length buf)) as [cap1|] eqn:Eg; [|done].
  apply grow_room in Eg as [Hc1 Hr]; [|done..].
  destruct s as [k| |]; [|intros E; apply IH in E; [done|lia|lia]|done].
  set (r := read_count k (cap1 - String.length buf - 1) rest).
  case_if; bprop; intros Hrun.
  - apply read_count_stop in E as ->; [|lia]. injection Hrun as <- <-. rewrite sapp_nil_r.
    split; [done|lia].
  - assert (r <= cap1 - String.length buf - 1 /\ r <= String.length rest)%nat as [Hr1 Hr2]
      by (unfold r, read_count; lia).
    apply IH in Hrun as [-> Hl']; [|lia|rewrite slen_app, stake_exact by done; lia].
    split; [by rewrite sapp_assoc, stake_app_drop|done].
Qed.

Lemma read_loop_finishes alloc sched cap buf rest :
  (forall n, alloc n = true) -> never_fails sched ->
  (4096 <= cap)%nat -> (String.length buf < cap)%nat -> (String.length rest < takes sched)%nat ->
  exists cap' out, read_loop alloc sched cap buf rest = Some (REnd cap' out).
Proof.
  intros Ha. revert cap buf rest.
  induction sched as [|s sched IH]; intros cap buf rest Hf Hc Hl Ht; [by apply Nat.nlt_0_r in Ht|].
  apply not_elem_of_cons in Hf as [Hs Hf]. cbn [read_loop].
  destruct (grow alloc cap (String.length buf)) as [cap1|] eqn:Eg.
  2:{ unfold grow in Eg. rewrite Ha in Eg. by case_if_in Eg. }
  apply grow_room in Eg as [Hc1 Hr]; [|done..].
  destruct s as [k| |]; [|apply IH; auto; lia|done].
  case_if; bprop; [by eauto|].
  set (r := read_count k (cap1 - String.length buf - 1) rest) in *.
  assert (r <= cap1 - String.length buf - 1 /\ r <= String.length rest)%nat as [Hr1 Hr2]
    by (unfold r, read_count; lia).
  unfold takes in *. simpl in Ht.
  apply IH; [done|lia|rewrite slen_app, stake_exact by done; lia|rewrite sdrop_length; lia].
Qed.

(** * Properties *)

(** C15: reading standard input never returns a part of it: a result is the
    whole input, whatever sizes the reads return; and with memory and without a
    failing read, one read per byte and one for the end suffice, interruptions
    not counted. *)
Theorem read_stdin_all_whole alloc sched input :
  (forall buf, read_stdin_all alloc sched input = Some (Ok buf) -> buf = input) /\
  ((forall n, alloc n = true) -> never_fails sched -> (String.length input < takes sched)%nat ->
   read_stdin_all alloc sched input = Some (Ok input)).
Proof.
  assert (forall buf, read_stdin_all alloc sched input = Some (Ok buf) -> buf = input) as Hend.
  { intros buf. unfold read_stdin_all. destruct (alloc 4096); cbn [negb]; [|done].
    destruct (read_loop alloc sched 4096 "" input) as [[cap out| |]|] eqn:E; try done.
    intros [= <-]. by apply read_loop_end in E as [-> _]; simpl; try lia. }
  split; [exact Hend|]. intros Ha Hf Ht.
  destruct (read_loop_finishes alloc sched 4096 "" input) as (cap & out & E); simpl; auto; try lia.
  assert (read_stdin_all alloc sched input = Some (Ok out)) as Er.
  { unfold read_stdin_all. by rewrite Ha, E. }
  by rewrite Er, (Hend out Er).
Qed.

(** * Examples *)

Definition demo_sched : list read_step := [RTake 3; REintr; RTake 1; RTake 100; RTake 100; RTake 1].

Lemma read_stdin_all_whole_witness :
  read_stdin_all (fun _ => true) demo_sched "{ }" = Some (Ok "{ }").
Proof.
  apply (proj2 (read_stdin_all_whole (fun _ => true) demo_sched "{ }")).
  - done.
  - unfold never_fails, demo_sched. intros Hin. repeat (apply elem_of_cons in Hin as [?|Hin]; [done|]).
    by inversion Hin.
  - vm_compute. lia.
Defined.
