(* ===== verification/ProcdTrigger.v ===== *)
(** neon-procd: trigger expressions and their evaluation
    (src/package/system/neon-procd/src/neon-procd.c, [execute_argv_slice] to
    [inspect_trigger]), and a small language of conditions and actions whose
    encoding the evaluator implements. *)
From S2P Require Import Prelude CStr Json ProcdWorld ProcdStart.
Open Scope string_scope.
Open Scope list_scope.
Open Scope neon_scope.

Section trigger.
Context `{JsonC}.
Variable os : procd_os.

(** The strings of the elements, [None] when one of them is the null pointer. *)
Fixpoint slice_strings (l : list json) : option (list string) :=
  match l with
  | [] => Some []
  | j :: r =>
      match get_string j, slice_strings r with
      | Some s, Some ss => Some (s :: ss)
      | _, _ => None
      end
  end.

Definition execute_argv_slice (a : json) (start : Z) : prog pworld unit :=
  match a with
  | JArray l =>
      let n := Z.of_nat (length l) in
      if (start <? 0)%Z || (n <=? start)%Z || (Z.of_nat MAX_ARGS <=? n - start)%Z then pret tt
      else match slice_strings (drop (Z.to_nat start) l) with
           | None => pret tt
           | Some argv =>
               if (0 <? length argv)%nat then runv os argv ;;; pret tt else pret tt
           end
  | _ => pret tt
  end.

Definition event_data_value (data : option json) (key : option string) : option string :=
  match data, key with
  | Some (JObject l), Some k =>
      match member k l with
      | None | Some JNull => None
      | Some v => get_string v
      end
  | _, _ => None
  end.

(** [got && want && !strcmp(got, want)] *)
Definition both_equal (got want : option string) : bool :=
  match got, want with Some g, Some v => strcmp_eq g v | _, _ => false end.

Fixpoint eval_condition (cond : json) (data : option json) : bool :=
  match cond with
  | JArray l =>
      match l with
      | [] => false
      | c0 :: rest =>
          match get_string c0 with
          | None => false
          | Some op =>
              if (strcmp_eq op "eq" || strcmp_eq op "ne") && (3 <=? length l)%nat then
                let key := get_string (get_idx cond 1) in
                let want := get_string (get_idx cond 2) in
                let equal := both_equal (event_data_value data key) want in
                if strcmp_eq op "eq" then equal else negb equal
              else if strcmp_eq op "and" then forallb (fun c => eval_condition c data) rest
              else if strcmp_eq op "or" then existsb (fun c => eval_condition c data) rest
              else if strcmp_eq op "not" && (2 <=? length l)%nat then
                match rest with c :: _ => negb (eval_condition c data) | [] => false end
              else false
          end
      end
  | _ => false
  end.

Fixpoint execute_trigger_expr (expr : json) (data : option json) : prog pworld unit :=
  match expr with
  | JArray l =>
      match l with
      | [] => pret tt
      | JArray _ :: _ => pfold (fun e => execute_trigger_expr e data) l
      | first :: rest =>
          match get_string first with
          | None => pret tt
          | Some op =>
              if strcmp_eq op "run_script" then execute_argv_slice expr 1
              else if strcmp_eq op "if" && (3 <=? length l)%nat then
                match rest with
                | cond :: action :: _ =>
                    if eval_condition cond data then execute_trigger_expr action data
                    else pret tt
                | _ => pret tt
                end
              else pret tt
          end
      end
  | _ => pret tt
  end.

(** [fnmatch(pattern, string, 0) == 0], of the C library. *)
Variable fnmatch : string -> string -> bool.

Definition inspect_trigger (tr : json) (etype : string) (data : option json)
    : prog pworld unit :=
  match tr with
  | JArray l =>
      if (length l <? 2)%nat then pret tt
      else match get_string (get_idx tr 0) with
           | None => pret tt
           | Some pattern =>
               if negb (fnmatch pattern etype) then pret tt
               else execute_trigger_expr (get_idx tr 1) data
           end
  | _ => pret tt
  end.

(** The loop over the triggers of one service. *)
Definition inspect_triggers (root : json) (etype : string) (data : option json)
    : prog pworld unit :=
  match get_ex root "triggers" with
  | Some (JArray l) => pfold (fun tr => inspect_trigger tr etype data) l
  | _ => pret tt
  end.
End trigger.

(** * The trigger language *)

Inductive cond :=
  | CEq (key want : string)
  | CNe (key want : string)
  | CAnd (cs : list cond)
  | COr (cs : list cond)
  | CNot (c : cond).

Inductive action :=
  | ARun (argv : list string)
  | AIf (c : cond) (a : action)
  | ASeq (acts : list action).

(** The shapes procd.sh generates. *)
Fixpoint encode_cond (c : cond) : json :=
  match c with
  | CEq k v => JArray [JString "eq"; JString k; JString v]
  | CNe k v => JArray [JString "ne"; JString k; JString v]
  | CAnd cs => JArray (JString "and" :: map encode_cond cs)
  | COr cs => JArray (JString "or" :: map encode_cond cs)
  | CNot c => JArray [JString "not"; encode_cond c]
  end.

Fixpoint encode_action (a : action) : json :=
  match a with
  | ARun argv => JArray (JString "run_script" :: map JString argv)
  | AIf c a => JArray [JString "if"; encode_cond c; encode_action a]
  | ASeq acts => JArray (map encode_action acts)
  end.

(** The data of an event: its string members. *)
Definition encode_data (data : list (string * string)) : json :=
  JObject (map (fun kv => (fst kv, JString (snd kv))) data).

Fixpoint lookup_data (key : string) (data : list (string * string)) : option string :=
  match data with
  | [] => None
  | (k, v) :: r => if String.eqb k key then Some v else lookup_data key r
  end.

(** The data of an event as the conditions see it: the text json-c gives for each
    member that is not null. *)
Definition data_means `{JsonC} (data : option json) (texts : list (string * string)) : Prop :=
  forall key, event_data_value data (Some key) = lookup_data key texts.

Definition texts_of `{JsonC} (l : list (string * json)) : list (string * string) :=
  omap (fun kv => (fun s => (fst kv, s)) <$> get_string (snd kv)) l.

Fixpoint holds (data : list (string * string)) (c : cond) : bool :=
  match c with
  | CEq k v => bool_decide (lookup_data k data = Some v)
  | CNe k v => negb (bool_decide (lookup_data k data = Some v))
  | CAnd cs => forallb (holds data) cs
  | COr cs => existsb (holds data) cs
  | CNot c => negb (holds data c)
  end.

(** The command lines an action runs, in order. *)
Fixpoint runs_of (data : list (string * string)) (a : action) : list (list string) :=
  match a with
  | ARun argv => [argv]
  | AIf c a => if holds data c then runs_of data a else []
  | ASeq acts => concat (map (runs_of data) acts)
  end.

(** A command line fits in the 512-entry vector. *)
Fixpoint runnable (a : action) : bool :=
  match a with
  | ARun argv => (0 <? length argv)%nat && (length argv <? MAX_ARGS)%nat
  | AIf _ a => runnable a
  | ASeq acts => forallb runnable acts
  end.

Definition run_all (os : procd_os) (argvs : list (list string)) : prog pworld unit :=
  pfold (fun argv => runv os argv ;;; pret tt) argvs.

(** ** Induction over nested lists *)

Section inductions.
Variable P : cond -> Prop.
Hypothesis Heq : forall k v, P (CEq k v).
Hypothesis Hne : forall k v, P (CNe k v).
Hypothesis Hand : forall cs, Forall P cs -> P (CAnd cs).
Hypothesis Hor : forall cs, Forall P cs -> P (COr cs).
Hypothesis Hnot : forall c, P c -> P (CNot c).

Fixpoint cond_induction (c : cond) : P c :=
  let go := fix go cs : Forall P cs :=
    match cs with
    | [] => @List.Forall_nil _ P
    | c :: r => @List.Forall_cons _ P c r (cond_induction c) (go r)
    end in
  match c with
  | CEq k v => Heq k v
  | CNe k v => Hne k v
  | CAnd cs => Hand cs (go cs)
  | COr cs => Hor cs (go cs)
  | CNot c => Hnot c (cond_induction c)
  end.

Variable Q : action -> Prop.
Hypothesis Qrun : forall argv, Q (ARun argv).
Hypothesis Qif : forall c a, Q a -> Q (AIf c a).
Hypothesis Qseq : forall acts, Forall Q acts -> Q (ASeq acts).

Fixpoint action_induction (a : action) : Q a :=
  match a with
  | ARun argv => Qrun argv
  | AIf c a => Qif c a (action_induction a)
  | ASeq acts =>
      Qseq acts ((fix go acts : Forall Q acts :=
        match acts with
        | [] => @List.Forall_nil _ Q
        | a :: r => @List.Forall_cons _ Q a r (action_induction a) (go r)
        end) acts)
  end.
End inductions.

Section trigger_facts.
Context `{JsonC}.
Variable os : procd_os.

Lemma data_means_encode data : data_means (Some (encode_data data)) data.
Proof.
  intros key. unfold event_data_value, encode_data.
  induction data as [|[k v] data IH]; simpl; [done|].
  destruct (String.eqb k key); [apply get_string_string|exact IH].
Qed.

Lemma data_means_none : data_means None [].
Proof. done. Qed.

Lemma lookup_texts_absent key l : key ∉ map fst l -> lookup_data key (texts_of l) = None.
Proof.
  induction l as [|[k v] l IH]; [done|]. cbn [map fst]. intros [Hne Hn]%not_elem_of_cons.
  unfold texts_of in *. simpl. destruct (get_string v); simpl; [|by apply IH].
  destruct (String.eqb_spec k key); [congruence|]. by apply IH.
Qed.

(** The members of an object whose keys are distinct, as those of json-c are. *)
Lemma data_means_object l : NoDup (map fst l) -> data_means (Some (JObject l)) (texts_of l).
Proof.
  intros Hnd key. unfold event_data_value. induction l as [|[k v] l IH]; [done|].
  apply NoDup_cons in Hnd as [Hk Hnd]. specialize (IH Hnd). cbn [member].
  destruct (String.eqb_spec k key) as [->|Hne].
  - destruct v; unfold texts_of; simpl.
    1: rewrite get_string_null; symmetry; by apply lookup_texts_absent.
    all: match goal with |- context [get_string ?j] =>
           destruct (get_string_other j ltac:(done)) as [t ->] end;
      simpl; by rewrite String.eqb_refl.
  - rewrite IH. unfold texts_of. simpl. destruct (get_string v); simpl; [|done].
    apply String.eqb_neq in Hne. by rewrite Hne.
Qed.

Lemma both_equal_decide got want :
  both_equal got (Some want) = bool_decide (got = Some want).
Proof.
  destruct got as [g|]; simpl; [|done]. unfold strcmp_eq.
  destruct (String.eqb_spec g want) as [->|Hne]; symmetry.
  - by apply bool_decide_eq_true.
  - apply bool_decide_eq_false. congruence.
Qed.

Lemma eval_encode jdata data c :
  data_means jdata data -> eval_condition (encode_cond c) jdata = holds data c.
Proof.
  intros Hd.
  induction c as [k v|k v|cs IH|cs IH|c IH] using cond_induction;
    cbn [encode_cond eval_condition holds]; rewrite get_string_string.
  - change (get_idx _ 1) with (JString k). change (get_idx _ 2) with (JString v).
    rewrite !get_string_string, !Hd. apply both_equal_decide.
  - change (get_idx _ 1) with (JString k). change (get_idx _ 2) with (JString v).
    rewrite !get_string_string, !Hd. exact (f_equal negb (both_equal_decide _ _)).
  - change (forallb (fun c => eval_condition c jdata) (map encode_cond cs)
            = forallb (holds data) cs).
    induction IH as [|c cs Hc _ IHcs]; simpl; [done|]. by rewrite Hc, IHcs.
  - change (existsb (fun c => eval_condition c jdata) (map encode_cond cs)
            = existsb (holds data) cs).
    induction IH as [|c cs Hc _ IHcs]; simpl; [done|]. by rewrite Hc, IHcs.
  - exact (f_equal negb IH).
Qed.

Lemma slice_map argv : slice_strings (map JString argv) = Some argv.
Proof.
  induction argv as [|s argv IH]; simpl; [done|]. by rewrite get_string_string, IH.
Qed.

Lemma execute_encode jdata data a w :
  data_means jdata data -> runnable a = true ->
  execute_trigger_expr os (encode_action a) jdata w = run_all os (runs_of data a) w.
Proof.
  intros Hd. revert w. induction a as [argv|c a IH|acts IH] using action_induction; intros w Hr.
  - cbn [encode_action execute_trigger_expr]. rewrite get_string_string. cbn [strcmp_eq].
    change (strcmp_eq "run_script" "run_script") with true. cbv iota.
    unfold execute_argv_slice. cbn [length]. rewrite length_map.
    simpl in Hr. bprop.
    assert ((1 <? 0)%Z || (Z.of_nat (S (length argv)) <=? 1)%Z
            || (Z.of_nat MAX_ARGS <=? Z.of_nat (S (length argv)) - 1)%Z = false) as ->.
    { rewrite !orb_false_iff, Z.leb_gt, Z.leb_gt. change (1 <? 0)%Z with false.
      split_and!; [done|lia|lia]. }
    change (drop (Z.to_nat 1) (JString "run_script" :: map JString argv)) with (map JString argv).
    rewrite slice_map. apply Nat.ltb_lt in H0. rewrite H0.
    cbn [runs_of run_all]. unfold run_all. cbn [pfold]. unfold pbind, pret.
    destruct (runv os argv w) as [[|c|] w']; done.
  - cbn [encode_action execute_trigger_expr]. rewrite get_string_string.
    change (strcmp_eq "if" "run_script") with false.
    change (strcmp_eq "if" "if" && _) with true. cbv iota. rewrite (eval_encode _ data) by done.
    cbn [runs_of]. destruct (holds data c); [by apply IH|done].
  - cbn [runs_of]. simpl in Hr.
    assert (execute_trigger_expr os (encode_action (ASeq acts)) jdata w =
            pfold (fun e => execute_trigger_expr os e jdata)
              (map encode_action acts) w) as ->.
    { destruct acts as [|[] acts]; done. }
    revert w. induction IH as [|a acts Ha _ IHacts]; intros w; [done|].
    simpl in Hr. bprop. cbn [map concat]. unfold run_all. rewrite pfold_app.
    cbn [pfold map]. rewrite Ha by done. unfold run_all, pbind.
    destruct (pfold _ (runs_of data a) w) as [[[]|c|] w']; [|done|done]. by apply IHacts.
Qed.
End trigger_facts.

(** * Properties *)

(** C12: a trigger as procd.sh writes it runs the command lines its action
    denotes, in order, when the event matches its pattern, and nothing
    otherwise: equality and inequality tests on the event data, conjunction,
    disjunction, negation, conditionals and sequences are all interpreted as
    the trigger language means them. *)
Theorem trigger_runs_denotation `{JsonC} os fnmatch pattern etype data a rest w
    (Ha : runnable a = true) :
  inspect_trigger os fnmatch (JArray (JString pattern :: encode_action a :: rest)) etype
    (Some (encode_data data)) w =
  (if fnmatch pattern etype then run_all os (runs_of data a) else pret tt) w.
Proof.
  unfold inspect_trigger. cbn [length Nat.ltb Nat.leb].
  change (get_idx _ 0) with (JString pattern).
  change (get_idx _ 1) with (encode_action a). rewrite get_string_string.
  destruct (fnmatch pattern etype); [|done]. apply execute_encode; [|done]. apply data_means_encode.
Qed.

(** * Examples *)

#[local] Instance trigger_demo_jsonc : JsonC := demo_jsonc [].

(** procd_add_config_trigger "config.change" "firewall" /etc/init.d/firewall reload *)
Definition demo_action : action :=
  AIf (CEq "package" "firewall") (ARun ["/etc/init.d/firewall"; "reload"]).

Lemma trigger_runs_denotation_witness :
  pw_runs (snd (inspect_trigger (quiet_os 0 (fun _ => [])) String.eqb
    (JArray [JString "config.change"; encode_action demo_action; JInt 1000])
    "config.change" (Some (encode_data [("package", "firewall")])) empty_world)) =
  [["/etc/init.d/firewall"; "reload"]].
Proof.
  rewrite (trigger_runs_denotation (quiet_os 0 (fun _ => [])) String.eqb "config.change"
    "config.change" [("package", "firewall")] demo_action [JInt 1000] empty_world).
  - vm_compute. reflexivity.
  - reflexivity.
Defined.
