(* ===== verification/ProcdCmd.v ===== *)
(** neon-procd: the registry of services and the commands
    (src/package/system/neon-procd/src/neon-procd.c, [ensure_registry] to
    [cmd_signal_json], [cmd_event], [main]). A command is a program over the
    world; its value is the exit status. The listing of a directory is the one
    at the time it is opened. *)
From S2P Require Import Prelude CStr Json ProcdWorld ProcdStart ProcdTrigger.
From stdpp Require Import pretty.
Open Scope string_scope.
Open Scope list_scope.
Open Scope neon_scope.

Definition REGISTRY_DIR : string := "/run/neon-procd/services".

Definition registry_path (service : option string) : string :=
  strn 384 (REGISTRY_DIR +:+ "/" +:+ sanitize service 128 +:+ ".json").

Definition set_files (w : pworld) (files : gmap string string) : pworld :=
  mk_pworld files (pw_runs w) (pw_out w).

(** [len < 6 || strcmp(name + len - 5, ".json")] is false. *)
Definition json_entry (d_name : string) : bool :=
  negb ((String.length d_name <? 6)%nat || negb (has_suffix ".json" d_name)).
Definition entry_path (d_name : string) : string :=
  strn 512 (REGISTRY_DIR +:+ "/" +:+ d_name).

Section commands.
Context `{JsonC}.
Variable os : procd_os.
Variable fnmatch : string -> string -> bool.

(** What [fputs(...); fputc('\n')] write. *)
Definition registry_text (root : json) : string := print_pretty root +:+ String LF "".

Definition save_registry (service : string) (root : json) : prog pworld Z :=
  fun w =>
    let path := registry_path (Some service) in
    let tmp := strn 400 (path +:+ ".tmp") in
    if negb (po_fopen_w os w tmp) then (Ok (-1)%Z, w)
    else
      let w1 := set_files w (<[tmp := registry_text root]> (pw_files w)) in
      if negb (po_fclose os w1 tmp) then (Ok (-1)%Z, w1)
      else if negb (po_rename os w1 tmp) then (Ok (-1)%Z, w1)
      else (Ok 0%Z, set_files w1 (<[path := registry_text root]> (delete tmp (pw_files w1)))).

Definition read_json_file (w : pworld) (path : string) : option json :=
  match pw_files w !! path with
  | None => None
  | Some text => parse (cstr text)
  end.

Definition parse_input (text : string) : option json :=
  match parse (cstr text) with
  | None | Some JNull => None
  | Some j => Some j
  end.

(** The loop over the instances; the first failing status is kept. *)
Fixpoint set_instances (service : string) (l : list (string * json)) (rc : Z) : prog pworld Z :=
  match l with
  | [] => pret rc
  | (iname, inst) :: rest =>
      r <-- start_instance os service iname inst ;;
      set_instances service rest (if (rc =? 0)%Z then r else rc)
  end.

Definition cmd_set (text : string) : prog pworld Z :=
  match parse_input text with
  | None => pexit 1
  | Some root =>
      match jstr root "name" with
      | None => pexit 1
      | Some service =>
          save_registry service root ;;;
          match get_ex root "instances" with
          | Some (JObject l) => set_instances service l 0
          | _ => pret 0%Z
          end
      end
  end.

(** [instance && *instance] *)
Definition given (instance : option string) : bool :=
  match instance with Some s => nonempty s | None => false end.

(** The unit an operation concerns: of one instance, or a pattern. *)
Definition target_unit (service instance : option string) : string :=
  if given instance then unit_name service instance 320 else unit_pattern service.

Definition cmd_delete (service instance : option string) : prog pworld Z :=
  if given instance
  then systemctl_unit os "stop" (unit_name service instance 320)
  else runv os ["systemctl"; "stop"; unit_pattern service].

Definition cmd_running (service instance : option string) : prog pworld Z :=
  runv os ["systemctl"; "is-active"; "--quiet"; target_unit service instance].

Definition cmd_status (service instance : option string) : prog pworld Z :=
  runv os ["systemctl"; "status"; "--no-pager"; target_unit service instance].

Definition active_unit (service instance : string) : prog pworld bool :=
  rc <-- runv os ["systemctl"; "is-active"; "--quiet";
                  unit_name (Some service) (Some instance) 320] ;;
  pret (rc =? 0)%Z.

(** The "instances" object of one service of the listing. *)
Fixpoint list_instances (svc : string) (l : list (string * json)) (io : list (string * json))
    : prog pworld (list (string * json)) :=
  match l with
  | [] => pret io
  | (iname, _) :: rest =>
      running <-- active_unit svc iname ;;
      list_instances svc rest (member_set iname (JObject [("running", JBool running)]) io)
  end.

Definition instance_members (root : json) : list (string * json) :=
  match get_ex root "instances" with Some (JObject l) => l | _ => [] end.

(** The service an entry of the directory adds to the listing. *)
Definition listed_root (wanted : option string) (w : pworld) (d_name : string)
    : option (string * json) :=
  if negb (json_entry d_name) then None
  else match read_json_file w (entry_path d_name) with
       | None => None
       | Some root =>
           match jstr root "name" with
           | None => None
           | Some svc =>
               if given wanted && negb (both_equal wanted (Some svc)) then None
               else Some (svc, root)
           end
       end.

Fixpoint list_entries (wanted : option string) (names : list string)
    (out : list (string * json)) : prog pworld (list (string * json)) :=
  match names with
  | [] => pret out
  | d :: rest => fun w =>
      match listed_root wanted w d with
      | None => list_entries wanted rest out w
      | Some (svc, root) =>
          (io <-- list_instances svc (instance_members root) [] ;;
           list_entries wanted rest
             (member_set svc (JObject [("instances", JObject io)]) out)) w
      end
  end.

Definition puts (s : string) : prog pworld unit :=
  fun w => (Ok tt, mk_pworld (pw_files w) (pw_runs w) (pw_out w +:+ s +:+ String LF "")).

Definition cmd_list_json (text : string) : prog pworld Z :=
  fun w =>
    let wanted := match parse_input text with Some f => jstr f "name" | None => None end in
    if negb (po_opendir os w) then (puts "{}" ;;; pret 0%Z) w
    else
      (out <-- list_entries wanted (po_readdir os w) [] ;;
       puts (print_plain (JObject out)) ;;; pret 0%Z) w.

Definition unlink (path : string) : prog pworld unit :=
  fun w => (Ok tt, set_files w (delete path (pw_files w))).

Definition cmd_delete_json (text : string) : prog pworld Z :=
  match parse_input text with
  | None => pret 1%Z
  | Some o =>
      match jstr o "name" with
      | None => pret 1%Z
      | Some svc =>
          let inst := jstr o "instance" in
          rc <-- cmd_delete (Some svc) inst ;;
          (if given inst then pret tt else unlink (registry_path (Some svc))) ;;;
          pret rc
      end
  end.

Definition signal_arg (o : json) : string :=
  let signo := match get_ex o "signal" with Some s => get_int s | None => 15%Z end in
  strn 32 ("--signal=" +:+ pretty signo).

Definition cmd_signal_json (text : string) : prog pworld Z :=
  match parse_input text with
  | None => pret 1%Z
  | Some o =>
      match jstr o "name" with
      | None => pret 1%Z
      | Some svc =>
          runv os ["systemctl"; "kill"; signal_arg o; target_unit (Some svc) (jstr o "instance")]
      end
  end.

(** The loop over the registry: the triggers of each service in turn. *)
Definition event_entry (etype : string) (data : option json) (d_name : string)
    : prog pworld unit :=
  fun w =>
    if negb (json_entry d_name) then (Ok tt, w)
    else match read_json_file w (entry_path d_name) with
         | None => (Ok tt, w)
         | Some root => inspect_triggers os fnmatch root etype data w
         end.

Definition cmd_event (text : string) : prog pworld Z :=
  match parse_input text with
  | None => pret 1%Z
  | Some ev =>
      match jstr ev "type" with
      | None => pret 1%Z
      | Some etype =>
          let data := match get_ex ev "data" with Some (JObject l) => Some (JObject l)
                      | _ => None end in
          fun w =>
            if negb (po_opendir os w) then (Ok 0%Z, w)
            else (pfold (event_entry etype data) (po_readdir os w) ;;; pret 0%Z) w
      end
  end.

(** [main] over argv[1..]; [stdin] is what [read_stdin_all] returns. *)
Definition main (args : list string) (stdin : string) : prog pworld Z :=
  match args with
  | [] => pret 2%Z
  | c :: rest =>
      if strcmp_eq c "set" then cmd_set stdin
      else if strcmp_eq c "list-json" then cmd_list_json stdin
      else if strcmp_eq c "delete-json" then cmd_delete_json stdin
      else if strcmp_eq c "signal-json" then cmd_signal_json stdin
      else if strcmp_eq c "event" then cmd_event stdin
      else match rest with
           | s :: rest' =>
               if strcmp_eq c "delete" then cmd_delete (Some s) (head rest')
               else if strcmp_eq c "running" then cmd_running (Some s) (head rest')
               else if strcmp_eq c "status" then cmd_status (Some s) (head rest')
               else pret 2%Z
           | [] => pret 2%Z
           end
  end.
End commands.

(** * Programs that leave the registry alone *)

Definition keeps_files (os : procd_os) : Prop :=
  forall w argv, snd (po_run os w argv) = pw_files w.

Definition files_kept {A} (m : prog pworld A) : Prop :=
  forall w, pw_files (snd (m w)) = pw_files w.

Lemma kept_ret {A} (a : A) : files_kept (pret a).
Proof. done. Qed.
Lemma kept_bind {A B} (m : prog pworld A) (k : A -> prog pworld B) :
  files_kept m -> (forall a, files_kept (k a)) -> files_kept (pbind m k).
Proof.
  intros Hm Hk w. unfold pbind. specialize (Hm w). destruct (m w) as [[a|c|] w1]; simpl in *.
  - by rewrite Hk.
  - done.
  - done.
Qed.
Lemma kept_runv os argv : keeps_files os -> files_kept (runv os argv).
Proof.
  intros Hk w. specialize (Hk w argv). unfold runv.
  destruct (po_run os w argv) as [[| |c|s|] files]; done.
Qed.
Lemma kept_built (m : argv_prog unit) : files_kept (built m).
Proof. intros w. unfold built. by destruct (m []) as [[[]|c|] a]. Qed.

Section kept.
Context `{JsonC}.
Variable os : procd_os.
Hypothesis Hk : keeps_files os.

Lemma kept_start service iname inst : files_kept (start_instance os service iname inst).
Proof.
  unfold start_instance. destruct (command_of inst); [|apply kept_ret].
  repeat (apply kept_bind; [|intros ?]); try apply kept_built; by apply kept_runv.
Qed.
Lemma kept_instances service l rc : files_kept (set_instances os service l rc).
Proof.
  revert rc. induction l as [|[iname inst] l IH]; intros rc; [apply kept_ret|].
  cbn [set_instances]. apply kept_bind; [apply kept_start|]. intros r. apply IH.
Qed.
End kept.

(** * The documents of the registry *)

(** The names of the directory that are read. *)
Definition json_name (d_name : string) : Prop :=
  exists base, base <> "" /\ d_name = base +:+ ".json".

Lemma json_entry_name d : json_entry d = true <-> json_name d.
Proof.
  unfold json_entry, json_name, has_suffix. split.
  - intros H. bprop.
    match goal with E : String.eqb _ _ = true |- _ => apply String.eqb_eq in E; rename E into Hs end.
    cbn [String.length] in Hs. pose proof (stake_app_drop (String.length d - 5) d) as Hd.
    rewrite Hs in Hd. exists (stake (String.length d - 5) d). split; [|done].
    intros E. rewrite E in Hd. subst d. simpl in *. lia.
  - intros (base & Hb & ->). rewrite slen_app. cbn [String.length].
    assert (String.length base <> 0)%nat as Hl by by destruct base.
    assert ((String.length base + 5 <? 6)%nat = false) as -> by (apply Nat.ltb_ge; lia).
    assert ((5 <=? String.length base + 5)%nat = true) as -> by (apply Nat.leb_le; lia).
    replace (String.length base + 5 - 5)%nat with (String.length base) by lia.
    by rewrite sdrop_app.
Qed.

Lemma json_entry_not_name d : json_entry d = false <-> ~ json_name d.
Proof. rewrite <- json_entry_name. by destruct (json_entry d). Qed.

(** * Events: an abstract account *)

Section events.
Context `{JsonC}.
Variable os : procd_os.
Variable fnmatch : string -> string -> bool.

(** The world after the processes ran one by one, each to its end: whatever
    they do to the registry stays. *)
Definition after (w : pworld) (argv : list string) : pworld :=
  mk_pworld (snd (po_run os w argv)) (pw_runs w ++ [argv]) (pw_out w).
Definition ran (argvs : list (list string)) (w : pworld) : pworld := fold_left after argvs w.

Lemma ran_runs argvs w : pw_runs (ran argvs w) = pw_runs w ++ argvs.
Proof.
  revert w. induction argvs as [|argv argvs IH]; intros w; [by rewrite app_nil_r|].
  unfold ran in *. cbn [fold_left]. rewrite IH. simpl. by rewrite <- app_assoc.
Qed.

Lemma run_all_ran argvs w : os_waits os -> run_all os argvs w = (Ok tt, ran argvs w).
Proof.
  intros Hw. revert w. induction argvs as [|argv argvs IH]; intros w; [done|].
  unfold run_all in *. cbn [pfold]. destruct (runv_ok os argv w Hw) as (rc & E).
  unfold pbind, pret. by rewrite E, IH.
Qed.

(** What an element of a "triggers" array means: a pattern and an action as
    procd.sh writes them, whatever follows; anything that is no trigger means
    nothing. *)
Inductive trigger_means : json -> option (string * action) -> Prop :=
  | tm_trigger jp p a rest :
      get_string jp = Some p -> runnable a = true ->
      trigger_means (JArray (jp :: encode_action a :: rest)) (Some (p, a))
  | tm_not_array j : is_array j = false -> trigger_means j None
  | tm_short l : (length l < 2)%nat -> trigger_means (JArray l) None
  | tm_no_pattern l : get_string (get_idx (JArray l) 0) = None -> trigger_means (JArray l) None.

Definition triggers_mean (root : json) (trs : list (option (string * action))) : Prop :=
  match get_ex root "triggers" with
  | Some (JArray l) => Forall2 trigger_means l trs
  | _ => trs = []
  end.

(** The command lines a trigger runs on an event, and those of a service. *)
Definition trigger_run (etype : string) (texts : list (string * string))
    (t : option (string * action)) : list (list string) :=
  match t with
  | Some (p, a) => if fnmatch p etype then runs_of texts a else []
  | None => []
  end.
Definition trigger_runs (etype : string) (texts : list (string * string))
    (trs : list (option (string * action))) : list (list string) :=
  concat (map (trigger_run etype texts) trs).

(** The worlds an event goes through: entry by entry of the listing, the
    document is read from the registry as the processes started so far left
    it, and the command lines of its triggers are run. *)
Inductive event_effect (etype : string) (texts : list (string * string))
    : list string -> pworld -> pworld -> Prop :=
  | ev_done w : event_effect etype texts [] w w
  | ev_skip d names w w' :
      ~ json_name d \/ read_json_file w (entry_path d) = None ->
      event_effect etype texts names w w' -> event_effect etype texts (d :: names) w w'
  | ev_service d names w w' root trs :
      json_name d -> read_json_file w (entry_path d) = Some root -> triggers_mean root trs ->
      event_effect etype texts names (ran (trigger_runs etype texts trs) w) w' ->
      event_effect etype texts (d :: names) w w'.

(** The attributes of an event: those of its "data" object, if it has one. *)
Definition event_texts (ev : json) (texts : list (string * string)) : Prop :=
  match get_ex ev "data" with
  | Some (JObject l) => NoDup (map fst l) /\ texts = texts_of l
  | _ => texts = []
  end.

Lemma event_texts_means ev texts :
  event_texts ev texts ->
  data_means (match get_ex ev "data" with Some (JObject l) => Some (JObject l) | _ => None end)
    texts.
Proof.
  unfold event_texts. destruct (get_ex ev "data") as [[]|]; intros Ht; subst;
    try apply data_means_none.
  destruct Ht as [Hnd ->]. by apply data_means_object.
Qed.

Hypothesis Hw : os_waits os.

Lemma inspect_trigger_ran tr t etype data texts w :
  data_means data texts -> trigger_means tr t ->
  inspect_trigger os fnmatch tr etype data w = (Ok tt, ran (trigger_run etype texts t) w).
Proof.
  intros Hd Ht. destruct Ht as [jp p a rest Hp Ha|j Hj|l Hl|l Hp]; unfold inspect_trigger.
  - cbn [length Nat.ltb Nat.leb]. change (get_idx _ 0) with jp.
    change (get_idx _ 1) with (encode_action a). rewrite Hp. cbn [trigger_run].
    destruct (fnmatch p etype); cbn [negb]; [|done].
    by rewrite (execute_encode os data texts), run_all_ran.
  - by destruct j.
  - apply Nat.ltb_lt in Hl. by rewrite Hl.
  - rewrite Hp. by case_if.
Qed.

Lemma inspect_triggers_ran root trs etype data texts w :
  data_means data texts -> triggers_mean root trs ->
  inspect_triggers os fnmatch root etype data w = (Ok tt, ran (trigger_runs etype texts trs) w).
Proof.
  intros Hd. unfold triggers_mean, inspect_triggers.
  destruct (get_ex root "triggers") as [[]|]; try by intros ->.
  intros Hl. revert w. induction Hl as [|tr t l trs Ht _ IH]; intros w; [done|].
  cbn [pfold]. rewrite (inspect_trigger_ran tr t etype data texts) by done.
  rewrite IH. unfold trigger_runs, ran. cbn [map concat]. by rewrite fold_left_app.
Qed.

Lemma event_entries_effect etype data texts names w w' :
  data_means data texts -> event_effect etype texts names w w' ->
  pfold (event_entry os fnmatch etype data) names w = (Ok tt, w').
Proof.
  intros Hd. induction 1 as [w|d names w w' Hs _ IH|d names w w' root trs Hj Hr Ht _ IH];
    [done|..]; cbn [pfold]; unfold event_entry at 1.
  - destruct Hs as [Hs| ->].
    + apply json_entry_not_name in Hs as ->. exact IH.
    + case_if; exact IH.
  - apply json_entry_name in Hj as ->. rewrite Hr. cbn [negb].
    by rewrite (inspect_triggers_ran root trs etype data texts).
Qed.

Lemma cmd_event_effect text ev etype texts w w' :
  parse_input text = Some ev -> jstr ev "type" = Some etype -> event_texts ev texts ->
  po_opendir os w = true -> event_effect etype texts (po_readdir os w) w w' ->
  cmd_event os fnmatch text w = (Ok 0%Z, w').
Proof.
  intros Hp Ht Hd Ho He. unfold cmd_event. rewrite Hp, Ht, Ho. cbn [negb]. unfold pbind.
  by rewrite (event_entries_effect etype _ texts _ w w' (event_texts_means ev texts Hd) He).
Qed.
End events.

(** * Lemmas on listings *)

Section listing.
Context `{JsonC}.
Variable os : procd_os.
Variable active : string -> bool.

(** systemctl tells which units are active, and changes nothing. *)
Definition answers (os : procd_os) (active : string -> bool) : Prop :=
  forall w u, po_run os w ["systemctl"; "is-active"; "--quiet"; u] =
              (Exited (if active u then 0 else 3), pw_files w).
Hypothesis Ha : answers os active.

Definition running_state (svc : string) (kv : string * json) : string * json :=
  (fst kv, JObject [("running",
     JBool (active (unit_name (Some svc) (Some (fst kv)) 320)))]).

(** The "instances" object, key by key. *)
Definition instances_listing (svc : string) (l io : list (string * json))
    : list (string * json) :=
  fold_left (fun io kv => let r := running_state svc kv in member_set (fst r) (snd r) io) l io.

Lemma list_instances_world svc l io w :
  exists w', list_instances os svc l io w = (Ok (instances_listing svc l io), w') /\
    pw_files w' = pw_files w /\ pw_out w' = pw_out w.
Proof.
  revert io w. induction l as [|[n v] l IH]; intros io w; [by exists w|].
  cbn [list_instances]. unfold active_unit, pbind, runv, pret. rewrite Ha.
  destruct (IH (member_set n (snd (running_state svc (n, v))) io)
    (mk_pworld (pw_files w) (pw_runs w ++ [["systemctl"; "is-active"; "--quiet";
       unit_name (Some svc) (Some n) 320]]) (pw_out w))) as (w' & E & Hf & Ho).
  exists w'. split; [|done]. etrans; [|exact E]. unfold running_state. simpl.
  by destruct (active (unit_name (Some svc) (Some n) 320)).
Qed.

Definition service_listing (svc : string) (root : json) : json :=
  JObject [("instances", JObject (instances_listing svc (instance_members root) []))].

Fixpoint entries_listing (wanted : option string) (w : pworld) (names : list string)
    (out : list (string * json)) : list (string * json) :=
  match names with
  | [] => out
  | d :: rest =>
      entries_listing wanted w rest
        (match listed_root wanted w d with
         | Some (svc, root) => member_set svc (service_listing svc root) out
         | None => out
         end)
  end.

Lemma listed_root_files wanted w w' d :
  pw_files w = pw_files w' -> listed_root wanted w d = listed_root wanted w' d.
Proof. intros Hf. unfold listed_root, read_json_file. by rewrite Hf. Qed.

Lemma list_entries_world wanted names out w0 w :
  pw_files w0 = pw_files w ->
  exists w', list_entries os wanted names out w0 =
      (Ok (entries_listing wanted w names out), w') /\
    pw_files w' = pw_files w /\ pw_out w' = pw_out w0.
Proof.
  revert out w0. induction names as [|d names IH]; intros out w0 Hf; [by exists w0|].
  cbn [list_entries entries_listing]. rewrite (listed_root_files wanted w0 w d Hf).
  destruct (listed_root wanted w d) as [[svc root]|]; [|by apply IH].
  unfold pbind.
  destruct (list_instances_world svc (instance_members root) [] w0) as (w1 & -> & Hf1 & Ho1).
  destruct (IH (member_set svc (service_listing svc root) out) w1) as (w2 & E & Hf2 & Ho2);
    [congruence|].
  exists w2. rewrite Ho2, Ho1. split; [exact E|done].
Qed.

(** The last entry that is listed under a name determines what is listed. *)
Lemma entries_listing_member wanted w names out svc :
  (exists pre d post root, names = pre ++ d :: post /\
     listed_root wanted w d = Some (svc, root) /\
     (forall d' root', d' ∈ post -> listed_root wanted w d' <> Some (svc, root')) /\
     member svc (entries_listing wanted w names out) = Some (service_listing svc root)) \/
  ((forall d root, d ∈ names -> listed_root wanted w d <> Some (svc, root)) /\
   member svc (entries_listing wanted w names out) = member svc out).
Proof.
  revert out. induction names as [|d names IH]; intros out; cbn [entries_listing].
  { right. split; [|done]. intros d root Hd. by inversion Hd. }
  match goal with |- context [entries_listing wanted w names ?o] =>
    destruct (IH o) as [(pre & d' & post & root & -> & Hl & Hp & Hm)|[Hno Hm]] end.
  { left. exists (d :: pre), d', post, root. by repeat split. }
  destruct (listed_root wanted w d) as [[svc' root']|] eqn:El.
  - destruct (decide (svc' = svc)) as [->|Hne].
    + left. exists [], d, names, root'. rewrite Hm, member_set_eq. by repeat split.
    + right. rewrite Hm, member_set_ne by done. split; [|done].
      intros d' root [->|Hd]%elem_of_cons; [congruence|by apply Hno].
  - right. split; [|done]. intros d' root [->|Hd]%elem_of_cons; [congruence|by apply Hno].
Qed.

(** Every instance is listed, with its own state, and nothing else. *)
Lemma instances_listing_member svc l io n :
  member n (instances_listing svc l io) =
  if bool_decide (n ∈ map fst l) then Some (snd (running_state svc (n, JNull)))
  else member n io.
Proof.
  revert io. induction l as [|[m u] l IH]; intros io.
  { rewrite bool_decide_eq_false_2; [done|]. intros Hn. inversion Hn. }
  unfold instances_listing in *. cbn [fold_left map fst]. rewrite IH. clear IH.
  destruct (bool_decide (n ∈ map fst l)) eqn:E1; bprop.
  { rewrite bool_decide_eq_true_2; [done|]. by right. }
  cbn [running_state fst snd]. destruct (decide (m = n)) as [->|Hne].
  - rewrite member_set_eq, bool_decide_eq_true_2; [done|by left].
  - rewrite member_set_ne by done. rewrite bool_decide_eq_false_2; [done|].
    intros [?|?]%elem_of_cons; [congruence|done].
Qed.

(** The entry [d] of the directory is a readable document of the service. *)
Definition registered (w : pworld) (d svc : string) (root : json) : Prop :=
  json_name d /\ read_json_file w (entry_path d) = Some root /\ jstr root "name" = Some svc.

(** The filter of the request: no name, or an empty one, passes every service. *)
Definition passes (wanted : option string) (svc : string) : Prop :=
  wanted = None \/ wanted = Some "" \/ wanted = Some svc.

Lemma filter_passes wanted svc :
  given wanted && negb (both_equal wanted (Some svc)) = false <-> passes wanted svc.
Proof.
  unfold passes, both_equal. destruct wanted as [[|c n]|]; cbn [given nonempty andb];
    [split; auto| |split; auto].
  rewrite negb_false_iff, strcmp_eq_true. split; [intros ->; auto|].
  by intros [?|[?|[= ->]]].
Qed.

Lemma passes_decidable wanted svc : passes wanted svc \/ ~ passes wanted svc.
Proof. rewrite <- filter_passes. destruct (_ && _); auto. Qed.

Lemma listed_root_registered wanted w d svc root :
  listed_root wanted w d = Some (svc, root) <-> registered w d svc root /\ passes wanted svc.
Proof.
  unfold listed_root, registered. rewrite <- json_entry_name, <- filter_passes.
  destruct (json_entry d); cbn [negb]; [|split; [done|]; by intros [(? & ? & ?) _]].
  destruct (read_json_file w (entry_path d)) as [r|];
    [|split; [done|]; by intros [(? & ? & ?) _]].
  destruct (jstr r "name") as [s|] eqn:En;
    [|split; [done|]; intros [(_ & [= ->] & ?) _]; congruence].
  destruct (given wanted && negb (both_equal wanted (Some s))) eqn:E; split; try done.
  - intros [(_ & [= Er] & Hn) Hp]. congruence.
  - intros [= <- <-]. by rewrite En.
  - intros [(_ & [= Er] & Hn) _]. congruence.
Qed.
End listing.

(** * Properties *)

(** C11: "set" registers the service: when the registry can be written, the
    definition is under the service's path afterwards whatever becomes of the
    instances, it reads back as the same document, the temporary file is gone,
    and no other service is touched. *)
Theorem set_registers `{JsonC} os text w rc w' root svc
    (Hk : keeps_files os)
    (Hio : forall w p, po_fopen_w os w p = true /\ po_fclose os w p = true /\
                       po_rename os w p = true)
    (Hp : parse_input text = Some root) (Hn : jstr root "name" = Some svc)
    (Hrun : cmd_set os text w = (Ok rc, w')) :
  let path := registry_path (Some svc) in
  pw_files w' !! path = Some (registry_text root) /\
  (prints_back root -> read_json_file w' path = Some root) /\
  pw_files w' !! (path +:+ ".tmp") = None /\
  (forall p, p <> path -> p <> path +:+ ".tmp" -> pw_files w' !! p = pw_files w !! p).
Proof.
  intros path. unfold cmd_set in Hrun. rewrite Hp, Hn in Hrun.
  apply pbind_ok in Hrun as (r & w1 & Hs & Hrun).
  assert (pw_files w' = pw_files w1) as Hf.
  { change w' with (snd (Ok rc, w')). rewrite <- Hrun.
    destruct (get_ex root "instances") as [[]|]; try apply kept_ret. by apply kept_instances. }
  assert (registry_path (Some svc) = REGISTRY_DIR +:+ "/" +:+ sanitize (Some svc) 128 +:+ ".json")
    as Epath.
  { apply strn_id. rewrite !slen_app. pose proof (sanitize_length (Some svc) 128). simpl in *. lia. }
  assert (strn 400 (path +:+ ".tmp") = path +:+ ".tmp") as Etmp.
  { apply strn_id. unfold path. rewrite Epath, !slen_app.
    pose proof (sanitize_length (Some svc) 128). simpl in *. lia. }
  assert (path <> path +:+ ".tmp") as Hne.
  { intros E. apply (f_equal String.length) in E. rewrite slen_app in E. simpl in E. lia. }
  unfold save_registry in Hs. fold path in Hs. rewrite Etmp in Hs.
  repeat match type of Hs with context [negb (?f os ?a ?b)] =>
    let E := fresh in destruct (Hio a b) as (E1 & E2 & E3);
    first [rewrite E1 in Hs | rewrite E2 in Hs | rewrite E3 in Hs]; clear E1 E2 E3;
    cbn [negb] in Hs end.
  injection Hs as _ <-. unfold set_files in Hf. simpl in Hf. rewrite delete_insert_eq in Hf.
  split; [by rewrite Hf, lookup_insert_eq|]. split.
  { intros Hb. unfold read_json_file. rewrite Hf, lookup_insert_eq.
    unfold registry_text. by rewrite print_pretty_cstr. }
  split; [by rewrite Hf, lookup_insert_ne, lookup_delete_eq|].
  intros p Hp1 Hp2. by rewrite Hf, lookup_insert_ne, lookup_delete_ne.
Qed.

(** C13: what "list" prints, for every service: nothing when the filter excludes
    it or no entry of the registry is its readable document; otherwise an object
    whose instances are exactly those of its document (of the last one in listing
    order, should there be several), each with "running" as systemctl answers for
    its unit. The request's filter is a name; no name or an empty one passes all. *)
Theorem list_reports_registered `{JsonC} os active text w
    (Ha : answers os active) (Ho : po_opendir os w = true)
    (wanted := match parse_input text with Some f => jstr f "name" | None => None end) :
  exists w' out,
    cmd_list_json os text w = (Ok 0%Z, w') /\
    pw_files w' = pw_files w /\
    pw_out w' = pw_out w +:+ print_plain (JObject out) +:+ String LF "" /\
    forall svc,
      match member svc out with
      | None =>
          ~ passes wanted svc \/ forall d root, d ∈ po_readdir os w -> ~ registered w d svc root
      | Some listed =>
          passes wanted svc /\
          exists pre d post root io,
            po_readdir os w = pre ++ d :: post /\ registered w d svc root /\
            (forall d' root', d' ∈ post -> ~ registered w d' svc root') /\
            listed = JObject [("instances", JObject io)] /\
            forall n, member n io =
              if bool_decide (n ∈ map fst (instance_members root))
              then Some (JObject [("running",
                     JBool (active (unit_name (Some svc) (Some n) 320)))])
              else None
      end.
Proof.
  unfold cmd_list_json. fold wanted. rewrite Ho. cbn [negb]. unfold pbind.
  destruct (list_entries_world os active Ha wanted (po_readdir os w) [] w w eq_refl)
    as (w1 & -> & Hf & Hout).
  eexists _, _. split; [reflexivity|]. simpl. rewrite Hf, Hout.
  split; [done|]. split; [done|]. intros svc.
  destruct (entries_listing_member active wanted w (po_readdir os w) [] svc)
    as [(pre & d & post & root & -> & Hl & Hp & ->)|[Hno ->]].
  - apply listed_root_registered in Hl as [Hr Hpass]. split; [done|].
    exists pre, d, post, root, (instances_listing active svc (instance_members root) []).
    repeat (split; [done|]). split; [|split; [done|]].
    + intros d' root' Hd Hr'. apply (Hp d' root' Hd). by apply listed_root_registered.
    + intros n. by rewrite instances_listing_member.
  - cbn [member].
    destruct (passes_decidable wanted svc) as [Hpass|Hpass]; [right|by left].
    intros d root Hd Hr. apply (Hno d root Hd). by apply listed_root_registered.
Qed.

(** "delete" of a whole service stops the units of its pattern and forgets
    the service; of one instance it stops that unit and keeps the definition.
    A request without a service name changes nothing and returns 1. *)
Theorem delete_json_effect `{JsonC} os text w
    (Hk : keeps_files os) (Hw : os_waits os) :
  match parse_input text ≫= (fun o => jstr o "name") with
  | None => cmd_delete_json os text w = (Ok 1%Z, w)
  | Some svc =>
      let inst := parse_input text ≫= (fun o => jstr o "instance") in
      exists rc, cmd_delete_json os text w =
        (Ok rc, mk_pworld
           (if given inst then pw_files w else delete (registry_path (Some svc)) (pw_files w))
           (pw_runs w ++ [["systemctl"; "stop"; target_unit (Some svc) inst]]) (pw_out w))
  end.
Proof.
  unfold cmd_delete_json. destruct (parse_input text) as [o|]; simpl; [|done].
  destruct (jstr o "name") as [svc|]; [|done].
  unfold cmd_delete, systemctl_unit, target_unit, pbind.
  destruct (given (jstr o "instance")).
  - destruct (runv_ok os ["systemctl"; "stop"; unit_name (Some svc) (jstr o "instance") 320] w Hw)
      as (rc & ->). exists rc. by rewrite Hk.
  - destruct (runv_ok os ["systemctl"; "stop"; unit_pattern (Some svc)] w Hw) as (rc & ->).
    exists rc. unfold unlink, pret. simpl. by rewrite Hk.
Qed.

(** C9: an event runs the triggers of the registered services and nothing else:
    entry by entry in the order of the listing, the service's document is read
    from the registry as the processes started so far have left it, and the
    command lines that its triggers denote for the event are run to their ends,
    in order. The started processes may change the registry. The listing is the
    one at the time the directory is opened, and the triggers met are of the
    language procd.sh writes, or no triggers at all. *)
Theorem event_runs_triggers `{JsonC} os fnmatch text w w' etype texts ev
    (Hw : os_waits os) (Ho : po_opendir os w = true)
    (Hp : parse_input text = Some ev) (Ht : jstr ev "type" = Some etype)
    (Hd : event_texts ev texts)
    (He : event_effect os fnmatch etype texts (po_readdir os w) w w') :
  cmd_event os fnmatch text w = (Ok 0%Z, w').
Proof. by apply (cmd_event_effect os fnmatch Hw text ev etype texts). Qed.

(** * Examples *)

(** A trigger as procd.sh writes it. *)
Definition encode_trigger (t : string * action) : json :=
  JArray [JString (fst t); encode_action (snd t)].
Definition demo_root : json :=
  JObject [("name", JString "firewall");
           ("instances", JObject [("main", JObject [])]);
           ("triggers", JArray [encode_trigger ("config.change", demo_action);
                                encode_trigger ("interface.up", demo_action)])].
Definition demo_event : json :=
  JObject [("type", JString "config.change");
           ("data", encode_data [("package", "firewall")])].
Definition demo_request : json := JObject [("name", JString "firewall")].

Definition demo_other_request : json := JObject [("name", JString "dns")].
(** A service whose triggers are a null and one with a delay after the action. *)
Definition demo_late : json :=
  JObject [("name", JString "late");
           ("triggers", JArray [JNull; JArray [JString "config.change";
              encode_action (ARun ["/bin/late"]); JInt 1000]])].

#[local] Instance cmd_demo_jsonc : JsonC :=
  demo_jsonc [demo_root; demo_event; demo_request; demo_other_request; demo_late].

Definition demo_listing (w : pworld) : list string := [".."; "firewall.json"; "x.json.tmp"].
Definition demo_procd (code : Z) : procd_os := quiet_os code demo_listing.
Definition demo_set : outcome Z * pworld :=
  cmd_set (demo_procd 0) (demo_print demo_root) empty_world.

Lemma demo_keeps code : keeps_files (demo_procd code).
Proof. done. Qed.

Example demo_set_registered :
  read_json_file (snd demo_set) "/run/neon-procd/services/firewall.json" = Some demo_root.
Proof. vm_compute. reflexivity. Qed.

Lemma demo_registered : registered (snd demo_set) "firewall.json" "firewall" demo_root.
Proof.
  split; [by exists "firewall"|]. split; [vm_compute; reflexivity|reflexivity].
Qed.

Lemma demo_not_registered d root :
  d ∈ demo_listing empty_world -> ~ registered (snd demo_set) d "dns" root.
Proof.
  intros Hd (_ & Hr & Hn). unfold demo_listing in Hd.
  repeat (apply elem_of_cons in Hd as [->|Hd];
    [vm_compute in Hr; try done; injection Hr as <-; done|]). inversion Hd.
Qed.

Lemma set_registers_witness :
  fst demo_set = Ok 0%Z /\
  pw_files (snd demo_set) !! registry_path (Some "firewall") = Some (registry_text demo_root).
Proof.
  split; [vm_compute; reflexivity|].
  apply (set_registers (demo_procd 0) (demo_print demo_root) empty_world 0 (snd demo_set)
           demo_root "firewall").
  - apply demo_keeps.
  - done.
  - vm_compute. reflexivity.
  - reflexivity.
  - vm_compute. reflexivity.
Defined.

(** A listing of the one registered service, without a filter and with the name of
    another one. *)
Lemma list_reports_registered_witness :
  (exists w' out, cmd_list_json (demo_procd 0) "" (snd demo_set) = (Ok 0%Z, w') /\
     pw_out w' = print_plain (JObject out) +:+ String LF "" /\
     (exists io, member "firewall" out = Some (JObject [("instances", JObject io)])) /\
     member "dns" out = None) /\
  (exists w' out, cmd_list_json (demo_procd 0) (demo_print demo_other_request) (snd demo_set)
       = (Ok 0%Z, w') /\
     pw_out w' = print_plain (JObject out) +:+ String LF "" /\
     member "firewall" out = None).
Proof.
  split.
  - destruct (list_reports_registered (demo_procd 0) (fun _ => true) "" (snd demo_set))
      as (w' & out & H1 & _ & H2 & H3); [done|reflexivity|].
    exists w', out. split; [exact H1|]. split; [exact H2|]. split.
    + specialize (H3 "firewall"). destruct (member "firewall" out) as [v|].
      * destruct H3 as (_ & pre & d & post & root & io & _ & _ & _ & -> & _). by exists io.
      * exfalso. destruct H3 as [H3|H3]; [apply H3; by left|].
        apply (H3 "firewall.json" demo_root); [right; left|]. apply demo_registered.
    + specialize (H3 "dns"). destruct (member "dns" out) as [v|]; [exfalso|done].
      destruct H3 as (_ & pre & d & post & root & io & E & Hr & _).
      assert (d ∈ demo_listing empty_world) as Hd
        by (change (demo_listing empty_world) with (po_readdir (demo_procd 0) (snd demo_set));
            rewrite E; apply elem_of_app; right; left).
      by apply (demo_not_registered d root Hd).
  - destruct (list_reports_registered (demo_procd 0) (fun _ => true)
      (demo_print demo_other_request) (snd demo_set)) as (w' & out & H1 & _ & H2 & H3);
      [done|reflexivity|].
    exists w', out. split; [exact H1|]. split; [exact H2|].
    specialize (H3 "firewall"). destruct (member "firewall" out); [exfalso|done].
    destruct H3 as ([H3|[H3|H3]] & _); vm_compute in H3; discriminate.
Defined.

Lemma delete_json_effect_witness :
  exists rc, cmd_delete_json (demo_procd 0) (demo_print demo_request) (snd demo_set) =
    (Ok rc, mk_pworld (delete (registry_path (Some "firewall")) (pw_files (snd demo_set)))
       (pw_runs (snd demo_set) ++ [["systemctl"; "stop"; "neon-procd-firewall-*.service"]]) "").
Proof.
  exact (delete_json_effect (demo_procd 0) (demo_print demo_request) (snd demo_set)
           (demo_keeps 0) (quiet_waits 0 demo_listing)).
Defined.

(** An event whose trigger registers another service, later in the listing: the
    new service's trigger runs, too. *)
Definition demo_run (w : pworld) (argv : list string) : wait_result * gmap string string :=
  (Exited 0,
   if decide (argv = ["/etc/init.d/firewall"; "reload"])
   then <["/run/neon-procd/services/late.json" := registry_text demo_late]> (pw_files w)
   else pw_files w).
Definition demo_changing : procd_os :=
  mk_procd_os demo_run (fun _ _ => true) (fun _ _ => true) (fun _ _ => true) (fun _ => true)
    (fun _ => ["firewall.json"; "late.json"]).

Lemma event_runs_triggers_witness :
  exists w', cmd_event demo_changing String.eqb (demo_print demo_event) (snd demo_set)
             = (Ok 0%Z, w') /\
    pw_runs w' = pw_runs (snd demo_set) ++ [["/etc/init.d/firewall"; "reload"];
                                           ["/bin/late"]].
Proof.
  eexists. split.
  - eapply (event_runs_triggers demo_changing String.eqb (demo_print demo_event) (snd demo_set) _
      "config.change" [("package", "firewall")] demo_event).
    + done.
    + reflexivity.
    + vm_compute. reflexivity.
    + reflexivity.
    + split; [apply NoDup_singleton|reflexivity].
    + eapply (ev_service _ _ _ _ "firewall.json" ["late.json"] _ _ demo_root
        [Some ("config.change", demo_action); Some ("interface.up", demo_action)]).
      { by exists "firewall". }
      { vm_compute. reflexivity. }
      { repeat constructor. }
      eapply (ev_service _ _ _ _ "late.json" [] _ _ demo_late
        [None; Some ("config.change", ARun ["/bin/late"])]).
      { by exists "late". }
      { vm_compute. reflexivity. }
      { repeat constructor. }
      apply ev_done.
  - vm_compute. reflexivity.
Defined.
