(* ===== verification/UbusRelease.v ===== *)
(** neon-procd-ubus: release information
    (src/package/system/neon-procd/src/neon-procd-ubus.c, [trim_ws] to
    [add_release_table]): the values of os-release files, their precedence, and
    the "release" table of the "system board" reply. *)
From S2P Require Import Prelude CStr.
From Stdlib Require Import Ascii.
Open Scope string_scope.
Open Scope list_scope.

(** Attributes of a blob message, in the order they are added. *)
Inductive blob :=
  | BString (s : string)
  | BU32 (z : Z)
  | BU64 (z : Z)
  | BArray (l : list blob)
  | BTable (l : list (string * blob)).

(** * Strings *)

Definition blank (c : ascii) : bool := ceq c " " || ceq c TAB || ceq c CR || ceq c LF.
Definition trim_ws (s : string) : string := rtrim blank (ltrim blank s).

(** [copy_string]: what the buffer of [dstsz] bytes at [dst] holds afterwards. *)
Definition copy_string (dst : string) (dstsz : nat) (src : option string) : string :=
  if (dstsz =? 0)%nat then dst else strn dstsz (default "" src).

Definition QUOTE : ascii := "034".
Definition APOS : ascii := "039".
Definition BACKSLASH : ascii := "092".

(** The loop over [src] and [dst]: a backslash before another character goes. *)
Fixpoint unescape (s : string) : string :=
  match s with
  | "" => ""
  | String c r =>
      match r with
      | String d r' =>
          if ceq c BACKSLASH then String d (unescape r') else String c (unescape r)
      | "" => String c ""
      end
  end.

Definition first_char (s : string) : ascii := match s with String c _ => c | "" => NUL end.
Definition last_char (s : string) : ascii := first_char (sdrop (String.length s - 1) s).

(** The value without the quotes that enclose it. *)
Definition strip_quotes (value : string) : string :=
  let len := String.length value in
  if (2 <=? len)%nat && (ceq (first_char value) APOS || ceq (first_char value) QUOTE)
     && ceq (last_char value) (first_char value)
  then sdrop 1 (stake (len - 1) value)
  else value.

(** [unquote_value]: the string at [value] afterwards; leading blanks are skipped
    by a local pointer and stay. *)
Definition unquote_value (value : string) : string :=
  stake (String.length value - String.length (ltrim blank value)) value
  +:+ unescape (strip_quotes (trim_ws value)).

(** * The release information *)

Record release_info := mk_release_info {
  ri_distribution : string;
  ri_version : string;
  ri_revision : string;
  ri_codename : string;
  ri_target : string;
  ri_description : string;
  ri_builddate : string;
  ri_firmware_url : string
}.
Definition release_zero : release_info := mk_release_info "" "" "" "" "" "" "" "".

(** The member [dst] points to. *)
Inductive release_field :=
  | FDistribution | FVersion | FRevision | FCodename
  | FTarget | FDescription | FBuilddate | FFirmwareUrl.
#[export] Instance release_field_eq_dec : EqDecision release_field.
Proof. solve_decision. Defined.

Definition field_size (f : release_field) : nat :=
  match f with FDescription | FFirmwareUrl => 256 | FBuilddate => 64 | _ => 128 end.

Definition get_field (ri : release_info) (f : release_field) : string :=
  match f with
  | FDistribution => ri_distribution ri
  | FVersion => ri_version ri
  | FRevision => ri_revision ri
  | FCodename => ri_codename ri
  | FTarget => ri_target ri
  | FDescription => ri_description ri
  | FBuilddate => ri_builddate ri
  | FFirmwareUrl => ri_firmware_url ri
  end.

Definition set_field (ri : release_info) (f : release_field) (v : string) : release_info :=
  let get g := if decide (f = g) then v else get_field ri g in
  mk_release_info (get FDistribution) (get FVersion) (get FRevision) (get FCodename)
    (get FTarget) (get FDescription) (get FBuilddate) (get FFirmwareUrl).

(** The chain of comparisons of [release_assign]. *)
Definition field_of (key : string) : option release_field :=
  if strcaseeq key "NAME" || strcaseeq key "DISTRIB_ID" then Some FDistribution
  else if strcaseeq key "VERSION" || strcaseeq key "DISTRIB_RELEASE" then Some FVersion
  else if strcaseeq key "BUILD_ID" || strcaseeq key "DISTRIB_REVISION" then Some FRevision
  else if strcaseeq key "VERSION_CODENAME" || strcaseeq key "DISTRIB_CODENAME" then Some FCodename
  else if strcaseeq key "OPENWRT_BOARD" || strcaseeq key "DISTRIB_TARGET" then Some FTarget
  else if strcaseeq key "OPENWRT_RELEASE" || strcaseeq key "DISTRIB_DESCRIPTION"
       then Some FDescription
  else if strcaseeq key "OPENWRT_BUILD_DATE" then Some FBuilddate
  else if strcaseeq key "FIRMWARE_URL" then Some FFirmwareUrl
  else None.

Definition release_assign (ri : release_info) (key value : string) (only_if_empty : bool)
    : release_info :=
  match field_of key with
  | None => ri
  | Some f =>
      if only_if_empty && nonempty (get_field ri f) then ri
      else set_field ri f (copy_string (get_field ri f) (field_size f) (Some value))
  end.

(** The key and value of a line, when it has them. *)
Definition release_pair (line : string) : option (string * string) :=
  let key := trim_ws line in
  if negb (nonempty key) || ceq (first_char key) "#" then None
  else match strchr "=" key with
       | None => None
       | Some (k, v) => Some (trim_ws k, unquote_value (trim_ws v))
       end.

Definition release_line (only_if_empty : bool) (ri : release_info) (line : string)
    : release_info :=
  match release_pair line with
  | None => ri
  | Some (key, value) => release_assign ri key value only_if_empty
  end.

Section files.
(** The content of a file that can be opened, and access(path, R_OK). *)
Variable file : string -> option string.
Variable access : string -> bool.

Definition parse_release_file (ri : release_info) (path : string) (only_if_empty : bool)
    : release_info :=
  match file path with
  | None => ri
  | Some content => fold_left (release_line only_if_empty) (fgets_lines 512 content) ri
  end.

(** The first part of [add_release_table]. *)
Definition release_now : release_info :=
  let ri := parse_release_file release_zero "/usr/lib/os-release" false in
  let ri := if negb (nonempty (ri_distribution ri)) && access "/etc/os-release"
            then parse_release_file ri "/etc/os-release" true else ri in
  let ri := parse_release_file ri "/etc/openwrt_release" true in
  if negb (nonempty (ri_distribution ri))
  then set_field ri FDistribution
         (copy_string (ri_distribution ri) (field_size FDistribution) (Some "NeonWrt"))
  else ri.

Definition release_names : list (release_field * string) :=
  [(FDistribution, "distribution"); (FVersion, "version"); (FRevision, "revision");
   (FCodename, "codename"); (FTarget, "target"); (FDescription, "description");
   (FBuilddate, "builddate"); (FFirmwareUrl, "firmware_url")].

Definition add_release_table : list (string * blob) :=
  let ri := release_now in
  [("release",
    BTable (omap (fun '(f, name) =>
              if nonempty (get_field ri f) then Some (name, BString (get_field ri f)) else None)
            release_names))].
End files.

(** * Lemmas *)

Lemma get_set_eq ri f v : get_field (set_field ri f v) f = v.
Proof. by destruct f. Qed.
Lemma get_set_ne ri f g v : f <> g -> get_field (set_field ri f v) g = get_field ri g.
Proof. intros H. by destruct f, g. Qed.

Definition quote_char (c : ascii) : bool := ceq c BACKSLASH || ceq c QUOTE.

(** A value as shells and systemd quote it. *)
Fixpoint escape (s : string) : string :=
  match s with
  | "" => ""
  | String c r =>
      if quote_char c then String BACKSLASH (String c (escape r)) else String c (escape r)
  end.
Definition quoted (s : string) : string :=
  String QUOTE (escape s +:+ String QUOTE "").

Lemma unescape_cons c s :
  ceq c BACKSLASH = false -> unescape (String c s) = String c (unescape s).
Proof. intros H. cbn [unescape]. destruct s; by rewrite ?H. Qed.

Lemma unescape_escape s : unescape (escape s) = s.
Proof.
  induction s as [|c r IH]; [done|]. cbn [escape]. unfold quote_char.
  destruct (ceq c BACKSLASH) eqn:E1; cbn [orb].
  - cbn [unescape]. rewrite ceq_refl. by rewrite IH.
  - destruct (ceq c QUOTE).
    + cbn [unescape]. rewrite ceq_refl. by rewrite IH.
    + by rewrite unescape_cons, IH.
Qed.

Lemma last_char_snoc a c : last_char (a +:+ String c "") = c.
Proof.
  unfold last_char. rewrite slen_app. cbn [String.length].
  replace (String.length a + 1 - 1)%nat with (String.length a) by lia. by rewrite sdrop_app.
Qed.

Lemma strip_quoted s : strip_quotes (quoted s) = escape s.
Proof.
  unfold strip_quotes. cbv zeta.
  assert (String.length (quoted s) = S (S (String.length (escape s)))) as ->.
  { unfold quoted. cbn [String.length]. rewrite slen_app. simpl. lia. }
  change (first_char (quoted s)) with QUOTE.
  assert (last_char (quoted s) = QUOTE) as ->.
  { exact (last_char_snoc (String QUOTE (escape s)) QUOTE). }
  change (ceq QUOTE APOS || ceq QUOTE QUOTE) with true. rewrite ceq_refl.
  cbn [Nat.leb andb Nat.sub]. unfold quoted. cbn [stake sdrop]. apply stake_app.
Qed.

Lemma rtrim_keep p s c : p c = false -> rtrim p (s +:+ String c "") = s +:+ String c "".
Proof.
  intros Hc. induction s as [|d s IH]; simpl; [by rewrite Hc|].
  rewrite IH. by destruct s.
Qed.

Lemma rtrim_keep_tail p s c t :
  p c = false -> sall p t = true -> rtrim p (s +:+ String c t) = s +:+ String c "".
Proof.
  intros Hc Ht. assert (rtrim p t = "") as Et.
  { induction t as [|d t IH]; [done|]. cbn [sall] in Ht. bprop. cbn [rtrim].
    by rewrite IH, H. }
  induction s as [|d s IH]; cbn [String.append rtrim].
  - by rewrite Et, Hc.
  - rewrite IH. by destruct s.
Qed.

Lemma trim_quoted s : trim_ws (quoted s) = quoted s.
Proof.
  unfold trim_ws, quoted. cbn [ltrim]. change (blank QUOTE) with false. cbv iota.
  change (String QUOTE (escape s +:+ String QUOTE "")) with
    (String QUOTE (escape s) +:+ String QUOTE "").
  by apply rtrim_keep.
Qed.

Lemma unquote_quoted s : unquote_value (quoted s) = s.
Proof.
  unfold unquote_value. rewrite trim_quoted, strip_quoted, unescape_escape.
  assert (ltrim blank (quoted s) = quoted s) as -> by done.
  by rewrite Nat.sub_diag.
Qed.

(** The values a text assigns to a field, in order and truncated. *)
Definition assigned_by (f : release_field) (line : string) : option string :=
  match release_pair line with
  | Some (key, value) =>
      match field_of key with
      | Some g => if decide (g = f) then Some (strn (field_size f) value) else None
      | None => None
      end
  | None => None
  end.
Definition assigned (f : release_field) (content : option string) : list string :=
  match content with Some text => omap (assigned_by f) (fgets_lines 512 text) | None => [] end.

Definition first_nonempty (l : list string) : string :=
  default "" (head (List.filter nonempty l)).

Lemma release_line_field b ri line f :
  get_field (release_line b ri line) f =
  match assigned_by f line with
  | Some v => if b && nonempty (get_field ri f) then get_field ri f else v
  | None => get_field ri f
  end.
Proof.
  unfold release_line, assigned_by. destruct (release_pair line) as [[key value]|]; [|done].
  unfold release_assign. destruct (field_of key) as [g|]; [|done].
  destruct (decide (g = f)) as [->|Hne].
  - case_if; [done|]. rewrite get_set_eq. by destruct f.
  - case_if; [done|]. by apply get_set_ne.
Qed.

Lemma fold_release_over lines ri f :
  get_field (fold_left (release_line false) lines ri) f =
  default (get_field ri f) (last (omap (assigned_by f) lines)).
Proof.
  revert ri. induction lines as [|l lines IH]; intros ri; [done|]. cbn [fold_left].
  rewrite IH, release_line_field. cbn [omap list_omap].
  destruct (assigned_by f l) as [v|]; [|done]. rewrite last_cons. by destruct (last _).
Qed.

Lemma fold_release_gap lines ri f :
  get_field (fold_left (release_line true) lines ri) f =
  first_nonempty (get_field ri f :: omap (assigned_by f) lines).
Proof.
  revert ri. induction lines as [|l lines IH]; intros ri.
  - unfold first_nonempty. simpl. by destruct (get_field ri f).
  - cbn [fold_left]. rewrite IH, release_line_field. unfold first_nonempty. simpl.
    destruct (assigned_by f l) as [v|]; simpl; [|done].
    destruct (nonempty (get_field ri f)) eqn:E; simpl; [by rewrite E|].
    by destruct (nonempty v).
Qed.

Lemma first_nonempty_app a l :
  first_nonempty (first_nonempty a :: l) = first_nonempty (a ++ l).
Proof.
  unfold first_nonempty. induction a as [|x a IH]; [done|]. simpl.
  destruct (nonempty x) eqn:E; simpl; [by rewrite E|]. apply IH.
Qed.

Section parse.
Variable file : string -> option string.

Lemma parse_over ri path f :
  get_field (parse_release_file file ri path false) f =
  default (get_field ri f) (last (assigned f (file path))).
Proof.
  unfold parse_release_file, assigned. destruct (file path); [|done]. apply fold_release_over.
Qed.
Lemma parse_gap ri path f :
  get_field (parse_release_file file ri path true) f =
  first_nonempty (get_field ri f :: assigned f (file path)).
Proof.
  unfold parse_release_file, assigned. destruct (file path); [apply fold_release_gap|].
  unfold first_nonempty. simpl. by destruct (get_field ri f).
Qed.
End parse.

(** * Properties *)

(** C19: every field of the release table has the precedence the comment gives:
    the last assignment of /usr/lib/os-release, then, for what is still empty,
    /etc/os-release when the distribution is unknown and that file readable, then
    /etc/openwrt_release, first assignment first; and the distribution is NeonWrt
    when no file names one. *)
Theorem release_precedence file access f :
  let usr := default "" (last (assigned f (file "/usr/lib/os-release"))) in
  let known := nonempty (default "" (last (assigned FDistribution (file "/usr/lib/os-release")))) in
  let etc := if negb known && access "/etc/os-release"
             then assigned f (file "/etc/os-release") else [] in
  let fallback := match f with FDistribution => "NeonWrt" | _ => "" end in
  get_field (release_now file access) f =
  first_nonempty (usr :: etc ++ assigned f (file "/etc/openwrt_release") ++ [fallback]).
Proof.
  intros usr known etc fallback. unfold release_now.
  set (ri1 := parse_release_file file release_zero "/usr/lib/os-release" false).
  assert (forall g, get_field ri1 g = default "" (last (assigned g (file "/usr/lib/os-release"))))
    as E1 by (intros g; unfold ri1; rewrite parse_over; by destruct g).
  change (ri_distribution ri1) with (get_field ri1 FDistribution).
  rewrite (E1 FDistribution). fold known.
  set (ri2 := if negb known && access "/etc/os-release" then _ else ri1).
  assert (get_field ri2 f = first_nonempty (usr :: etc)) as E2.
  { unfold ri2, etc. destruct (negb known && access "/etc/os-release").
    - by rewrite parse_gap, E1.
    - rewrite E1. fold usr. unfold first_nonempty. simpl. by destruct usr. }
  set (ri3 := parse_release_file file ri2 "/etc/openwrt_release" true).
  assert (get_field ri3 f =
    first_nonempty (usr :: etc ++ assigned f (file "/etc/openwrt_release"))) as E3.
  { unfold ri3. rewrite parse_gap, E2. apply (first_nonempty_app (usr :: etc)). }
  change (usr :: etc ++ assigned f (file "/etc/openwrt_release") ++ [fallback])
    with ((usr :: etc) ++ assigned f (file "/etc/openwrt_release") ++ [fallback]).
  rewrite app_assoc, <- first_nonempty_app.
  change ((usr :: etc) ++ assigned f (file "/etc/openwrt_release"))
    with (usr :: etc ++ assigned f (file "/etc/openwrt_release")). rewrite <- E3.
  change (ri_distribution ri3) with (get_field ri3 FDistribution).
  unfold first_nonempty. destruct (decide (f = FDistribution)) as [->|Hne].
  - destruct (get_field ri3 FDistribution) eqn:E; cbn [nonempty negb];
      [by rewrite get_set_eq|by rewrite E].
  - assert (fallback = "") as -> by by destruct f.
    case_if; [rewrite get_set_ne by done|]; simpl; by destruct (get_field ri3 f).
Qed.

(** C20: a quoted value is read back: a file of lines KEY="value", with
    backslashes and quotes of the value escaped, assigns to the fields exactly
    the values that were quoted. *)
Theorem quoted_values_read_back file path ri b (l : list (string * string))
    (Hf : file path = Some (unlines (map (fun kv => fst kv +:+ "=" +:+ quoted (snd kv)) l)))
    (Hk : Forall (fun kv => is_Some (field_of (fst kv)) /\
            sall (fun c => negb (blank c) && negb (ceq c "=") && negb (ceq c NUL)) (fst kv) = true /\
            ceq (first_char (fst kv)) "#" = false) l)
    (Hv : Forall (fun kv => sall line_char (snd kv) = true /\
            (String.length (fst kv) + 2 * String.length (snd kv) + 4 < 512)%nat) l) :
  parse_release_file file ri path b =
  fold_left (fun ri kv => release_assign ri (fst kv) (snd kv) b) l ri.
Proof.
  assert (forall s, (String.length (escape s) <= 2 * String.length s)%nat) as Hel.
  { induction s as [|c s IH]; simpl; [lia|]. destruct (quote_char c); simpl; lia. }
  assert (forall s, sall line_char s = true -> sall line_char (escape s) = true) as Hes.
  { induction s as [|c s IH]; cbn [sall escape]; intros Hs; [done|]. bprop.
    destruct (quote_char c); cbn [sall]; rewrite H, IH by done; done. }
  unfold parse_release_file. rewrite Hf. rewrite fgets_lines_unlines.
  - clear Hf. revert ri. induction l as [|[k v] l IH]; intros ri; [done|].
    apply Forall_cons in Hk as [(Hfk & Hck & Hhash) Hk]. apply Forall_cons in Hv as [_ Hv].
    cbn [map fold_left fst snd] in *. rewrite IH by done. f_equal.
    assert (nonempty k = true) as Hne by (destruct k; [by destruct Hfk as [? [=]]|done]).
    assert (trim_ws k = k) as Etk.
    { unfold trim_ws. rewrite ltrim_none, rtrim_none; [done| |];
        (eapply sall_impl; [|exact Hck]; intros c; cbv beta; by destruct (blank c)). }
    unfold release_line, release_pair.
    assert (trim_ws ((k +:+ "=" +:+ quoted v) +:+ String LF "") = k +:+ "=" +:+ quoted v) as ->.
    { unfold trim_ws, quoted. rewrite ltrim_id.
      - rewrite !sapp_assoc. cbn [String.append]. rewrite sapp_assoc.
        change (String "=" (String QUOTE (escape v +:+ (String QUOTE "" +:+ String LF ""))))
          with (String "=" (String QUOTE (escape v)) +:+ String QUOTE (String LF "")).
        rewrite <- sapp_assoc, rtrim_keep_tail by done. by rewrite sapp_assoc.
      - destruct k as [|c k]; [done|]. cbn [sall] in Hck. bprop.
        by intros c' r [= <- _]. }
    assert (nonempty (k +:+ "=" +:+ quoted v) = true) as -> by by destruct k.
    assert (first_char (k +:+ "=" +:+ quoted v) = first_char k) as -> by by destruct k.
    rewrite Hhash. cbn [negb orb]. cbn [String.append]. rewrite strchr_app.
    + by rewrite Etk, trim_quoted, unquote_quoted.
    + eapply sall_impl; [|exact Hck]. intros c; cbv beta.
      by destruct (blank c), (ceq c "=").
  - clear Hf ri. induction l as [|[k v] l IH]; [constructor|].
    apply Forall_cons in Hk as [(_ & Hck & _) Hk]. apply Forall_cons in Hv as [[Hcv Hlen] Hv].
    constructor; [|by apply IH]. cbn [fst snd] in *. unfold quoted. split.
    + rewrite sall_app. cbn [String.append sall]. rewrite sall_app, Hes by done.
      assert (sall line_char k = true) as ->; [|done].
      eapply sall_impl; [|exact Hck]. intros c; cbv beta. unfold line_char, blank.
      by destruct (ceq c LF), (ceq c NUL), (ceq c " "), (ceq c TAB), (ceq c CR), (ceq c "=").
    + rewrite slen_app. cbn [String.append String.length]. rewrite slen_app.
      specialize (Hel v). simpl. lia.
Qed.

(** * Examples *)

Definition demo_release_files (path : string) : option string :=
  if strcmp_eq path "/usr/lib/os-release"
  then Some (unlines ["NAME=" +:+ quoted ("Neon " +:+ String QUOTE "Wrt"); "VERSION=''"; "# x"; "BUILD_ID=r1"])
  else if strcmp_eq path "/etc/openwrt_release" then Some (unlines ["DISTRIB_RELEASE='24.10'"])
  else None.

Example demo_release :
  add_release_table demo_release_files (fun _ => false) =
  [("release", BTable [("distribution", BString ("Neon " +:+ String QUOTE "Wrt"));
                       ("version", BString "24.10"); ("revision", BString "r1")])].
Proof. vm_compute. reflexivity. Qed.

Lemma quoted_values_read_back_witness :
  parse_release_file
    (fun _ => Some (unlines (map (fun kv => fst kv +:+ "=" +:+ quoted (snd kv)) [("NAME", "a\b")])))
    release_zero "/usr/lib/os-release" false = mk_release_info "a\b" "" "" "" "" "" "" "".
Proof.
  etrans.
  - apply (quoted_values_read_back _ "/usr/lib/os-release" release_zero false [("NAME", "a\b")]).
    + reflexivity.
    + repeat constructor. by eexists.
    + repeat constructor; simpl; lia.
  - vm_compute. reflexivity.
Defined.
