(* ===== verification/UbusSystem.v ===== *)
(** neon-procd-ubus: the "system" object
    (src/package/system/neon-procd/src/neon-procd-ubus.c, [read_text_file] to
    [system_info]): the root file system type, "system board" and "system info".
    The files, the answers of uname, sysinfo, statvfs and the clock are
    parameters. Long integers have 64 bits. *)
From S2P Require Import Prelude CStr CNum UbusRelease.
From stdpp Require Import pretty.
From Stdlib Require Import Ascii.
Open Scope string_scope.
Open Scope list_scope.

Definition UBUS_STATUS_OK : Z := 0.
Definition UBUS_STATUS_UNKNOWN_ERROR : Z := 9.

(** * The root file system type *)

Definition space (c : ascii) : bool := ceq c " ".

(** The second and third words of a line of /proc/self/mounts. *)
Definition mount_words (line : string) : option (string * string) :=
  match strtok space line with
  | _ :: mp :: type :: _ => Some (mp, type)
  | _ => None
  end.

(** Lines as getline returns them. *)
Definition getlines (content : string) : list string :=
  fgets_lines (String.length content + 2) content.

(** The while loop: [rest] are the lines after the position of the stream, [all]
    those after a rewind. [None]: the fuel is spent. *)
Fixpoint mounts_loop (fuel : nat) (all rest : list string) (mountpoint : string)
    : option string :=
  match fuel with
  | O => None
  | S fuel =>
      match rest with
      | [] => Some ""
      | line :: rest =>
          match mount_words line with
          | None => mounts_loop fuel all rest mountpoint
          | Some (mp, type) =>
              if negb (strcmp_eq mp mountpoint) then mounts_loop fuel all rest mountpoint
              else if strcmp_eq type "overlay" && negb (strcmp_eq mountpoint "/rom")
              then mounts_loop fuel all all "/rom"
              else Some (copy_string "" 32 (Some type))
          end
      end
  end.

Definition mounts_fuel (lines : list string) : nat := 2 * length lines + 2.

Section system.
Variable file : string -> option string.

(** The static [fstype] is a state: empty until the first success. *)
Definition system_rootfs_type (fstype : string) : option string * string :=
  if nonempty fstype then (Some fstype, fstype)
  else match file "/proc/self/mounts" with
       | None => (None, fstype)
       | Some content =>
           let lines := getlines content in
           let fstype := default "" (mounts_loop (mounts_fuel lines) lines lines "/") in
           (if nonempty fstype then Some fstype else None, fstype)
       end.

(** [read_text_file]: the text, when there is some. *)
Definition read_text_file (path : string) (bufsz : nat) : option string :=
  if (bufsz <? 2)%nat then None
  else match file path with
       | None => None
       | Some content =>
           let buf := stake (bufsz - 1) content in
           if (String.length buf =? 0)%nat then None
           else let s := trim_ws (cstr buf) in
                if nonempty s then Some s else None
       end.

(** * system board *)

Record utsname := mk_utsname { uts_release : string; uts_nodename : string; uts_machine : string }.

Variable uname : option utsname.
(** The preprocessor's choice. *)
Variable aarch64 : bool.

(** The key and value of a line with a colon. *)
Definition colon_pair (line : string) : option (string * string) :=
  match strchr ":" line with
  | None => None
  | Some (k, v) => Some (trim_ws k, trim_ws v)
  end.

(** The "system" value a line of /proc/cpuinfo gives. *)
Definition cpuinfo_line (line : string) : option string :=
  match colon_pair line with
  | None => None
  | Some (key, val) =>
      if aarch64 then
        if strcaseeq key "CPU revision"
        then Some (strn 128 ("ARMv8 Processor rev " +:+ pretty (strtoul 64 16 val)))
        else None
      else
        if strcaseeq key "system type" || strcaseeq key "processor" || strcaseeq key "cpu"
           || strcaseeq key "model name"
        then (if nonempty val then Some val else None)
        else None
  end.

Definition add_cpu_system_string : list (string * blob) :=
  let lines := match file "/proc/cpuinfo" with Some c => fgets_lines 256 c | None => [] end in
  match head (omap cpuinfo_line lines) with
  | Some desc => [("system", BString desc)]
  | None =>
      if aarch64 then [("system", BString "ARMv8 Processor")]
      else match uname with
           | Some uts => [("system", BString (uts_machine uts))]
           | None => []
           end
  end.

Variable access : string -> bool.

Definition dashed (c : ascii) : ascii := if ceq c "," then "-"%char else c.

(** The message sent, and the static [fstype]. *)
Definition system_board (fstype : string) : Z * list (string * blob) * string :=
  let ident := match uname with
               | Some uts => [("kernel", BString (uts_release uts));
                              ("hostname", BString (uts_nodename uts))]
               | None => [] end in
  let model := match read_text_file "/tmp/sysinfo/model" 256 with
               | Some text => [("model", BString text)]
               | None => match read_text_file "/proc/device-tree/model" 256 with
                         | Some text => [("model", BString text)]
                         | None => [] end
               end in
  let board_name :=
    match read_text_file "/tmp/sysinfo/board_name" 256 with
    | Some text => [("board_name", BString text)]
    | None => match read_text_file "/proc/device-tree/compatible" 256 with
              | Some text => [("board_name", BString (smap dashed text))]
              | None => [] end
    end in
  let '(rootfs_type, fstype) := system_rootfs_type fstype in
  let rootfs := match rootfs_type with Some t => [("rootfs_type", BString t)] | None => [] end in
  (UBUS_STATUS_OK,
   ident ++ add_cpu_system_string ++ model ++ board_name ++ rootfs ++ add_release_table file access,
   fstype).

(** * system info *)

Definition kscale_u64 (blocks block_size : Z) : Z :=
  (u64 (u64 (blocks * block_size) + 512) / 1024)%Z.

Record sysinfo_t := mk_sysinfo {
  si_uptime : Z; si_loads : Z * Z * Z; si_mem_unit : Z;
  si_totalram : Z; si_freeram : Z; si_sharedram : Z; si_bufferram : Z;
  si_totalswap : Z; si_freeswap : Z
}.
Record statvfs_t := mk_statvfs {
  f_bsize : Z; f_frsize : Z; f_blocks : Z; f_bfree : Z; f_bavail : Z
}.

Variable sysinfo : option sysinfo_t.
Variable statvfs : string -> option statvfs_t.
Variable now : Z.
(** [tm_gmtoff], when localtime_r succeeds. *)
Variable gmtoff : option Z.

Definition meminfo_line (acc : Z * Z) (line : string) : Z * Z :=
  match colon_pair line with
  | None => acc
  | Some (key, val) =>
      if strcaseeq key "MemAvailable" then (u64 (strtoul 64 10 val * 1024), snd acc)
      else if strcaseeq key "Cached" then (fst acc, u64 (strtoul 64 10 val * 1024))
      else acc
  end.

Definition fslist : list (string * string) := [("/", "root"); ("/tmp", "tmp")].

Definition fs_table (fs : string * string) : option (string * blob) :=
  match statvfs (fst fs) with
  | None => None
  | Some sv =>
      let block_size := if (f_frsize sv =? 0)%Z then f_bsize sv else f_frsize sv in
      Some (snd fs, BTable
        [("total", BU64 (kscale_u64 (f_blocks sv) block_size));
         ("free", BU64 (kscale_u64 (f_bfree sv) block_size));
         ("used", BU64 (kscale_u64 (u64 (f_blocks sv - f_bfree sv)) block_size));
         ("avail", BU64 (kscale_u64 (f_bavail sv) block_size))])
  end.

Definition system_info : Z * list (string * blob) :=
  match sysinfo, file "/proc/meminfo", gmtoff with
  | Some info, Some content, Some off =>
      let '(available, cached) := fold_left meminfo_line (fgets_lines 256 content) (0%Z, 0%Z) in
      let '(l0, l1, l2) := si_loads info in
      let mem n := BU64 (u64 (si_mem_unit info * n)) in
      (UBUS_STATUS_OK,
       [("localtime", BU32 (u32 (now + off))); ("uptime", BU32 (u32 (si_uptime info)));
        ("load", BArray [BU32 (u32 l0); BU32 (u32 l1); BU32 (u32 l2)]);
        ("memory", BTable
          [("total", mem (si_totalram info)); ("free", mem (si_freeram info));
           ("shared", mem (si_sharedram info)); ("buffered", mem (si_bufferram info));
           ("available", BU64 available); ("cached", BU64 cached)])]
       ++ omap fs_table fslist
       ++ [("swap", BTable [("total", mem (si_totalswap info));
                            ("free", mem (si_freeswap info))])])
  | _, _, _ => (UBUS_STATUS_UNKNOWN_ERROR, [])
  end.
End system.

(** * Lemmas *)

(** The type of the first mount on [mp]. *)
Definition mount_type (mp : string) (lines : list string) : option string :=
  head (omap (fun line => match mount_words line with
                          | Some (m, type) => if strcmp_eq m mp then Some type else None
                          | None => None end) lines).

Lemma mounts_loop_rom fuel all rest :
  (length rest < fuel)%nat ->
  mounts_loop fuel all rest "/rom" = Some (default "" (strn 32 <$> mount_type "/rom" rest)).
Proof.
  revert fuel. induction rest as [|line rest IH]; intros [|fuel] Hf; simpl in Hf; try lia; [done|].
  unfold mount_type in *. cbn [mounts_loop omap list_omap].
  destruct (mount_words line) as [[m type]|]; [|apply IH; lia].
  destruct (strcmp_eq m "/rom"); cbn [negb]; [|apply IH; lia].
  change (strcmp_eq "/rom" "/rom") with true. rewrite andb_false_r. done.
Qed.

Definition rootfs_of (lines : list string) : string :=
  match mount_type "/" lines with
  | None => ""
  | Some type => if strcmp_eq type "overlay"
                 then default "" (strn 32 <$> mount_type "/rom" lines) else strn 32 type
  end.

Lemma mounts_loop_root fuel all rest :
  (length rest + length all + 1 < fuel)%nat ->
  mounts_loop fuel all rest "/" =
  Some (match mount_type "/" rest with
        | None => ""
        | Some type => if strcmp_eq type "overlay"
                       then default "" (strn 32 <$> mount_type "/rom" all) else strn 32 type
        end).
Proof.
  revert fuel. induction rest as [|line rest IH]; intros [|fuel] Hf; simpl in Hf; try lia; [done|].
  unfold mount_type at 1. cbn [mounts_loop omap list_omap].
  destruct (mount_words line) as [[m type]|]; [|apply IH; lia].
  destruct (strcmp_eq m "/"); cbn [negb]; [|apply IH; lia].
  change (strcmp_eq "/" "/rom") with false. rewrite andb_true_r. cbn [head].
  destruct (strcmp_eq type "overlay"); [|done]. apply mounts_loop_rom. lia.
Qed.

Lemma kscale_small b s :
  (0 <= b * s)%Z -> (b * s + 512 < 2 ^ 64)%Z ->
  (kscale_u64 b s * 1024 <= b * s + 512 < kscale_u64 b s * 1024 + 1024)%Z.
Proof.
  intros H0 H1. unfold kscale_u64. rewrite (u64_small (b * s)), u64_small by lia.
  pose proof (Z.div_mod (b * s + 512) 1024). pose proof (Z.mod_pos_bound (b * s + 512) 1024). lia.
Qed.

(** * Properties *)

(** the root file system type is the type of the first mount on "/", or
    behind an overlay that of the first mount on "/rom"; the loop ends after
    reading the table at most twice, and an answer once given is the answer of
    every later call. *)
Theorem rootfs_type_spec file content (Hf : file "/proc/self/mounts" = Some content) :
  let lines := getlines content in
  let t := rootfs_of lines in
  is_Some (mounts_loop (mounts_fuel lines) lines lines "/") /\
  system_rootfs_type file "" = (if nonempty t then Some t else None, t) /\
  (forall file', nonempty t = true -> system_rootfs_type file' t = (Some t, t)).
Proof.
  intros lines t.
  assert (mounts_loop (mounts_fuel lines) lines lines "/" = Some t) as E.
  { unfold mounts_fuel. rewrite mounts_loop_root by lia. done. }
  split; [by rewrite E|]. split.
  - unfold system_rootfs_type. rewrite Hf. fold lines. rewrite E. done.
  - intros file' Ht. unfold system_rootfs_type. by rewrite Ht.
Qed.

(** C21: the sizes "system info" reports of a mounted file system are its byte
    counts in KiB rounded to the nearest, and they are consistent: free and used
    do not exceed the total, and add up to it within one KiB. *)
Theorem info_sizes file sysinfo statvfs now gmtoff st attrs fs sv bs
    (Hrun : system_info file sysinfo statvfs now gmtoff = (st, attrs))
    (Hok : st = UBUS_STATUS_OK)
    (Hfs : fs ∈ fslist) (Hsv : statvfs (fst fs) = Some sv)
    (Hbs : bs = if (f_frsize sv =? 0)%Z then f_bsize sv else f_frsize sv)
    (Hpos : (0 < bs)%Z) (Hfree : (0 <= f_bavail sv <= f_bfree sv)%Z)
    (Htot : (f_bfree sv <= f_blocks sv)%Z) (Hmax : (f_blocks sv * bs + 512 < 2 ^ 64)%Z) :
  exists total free used avail,
    (snd fs, BTable [("total", BU64 total); ("free", BU64 free); ("used", BU64 used);
                     ("avail", BU64 avail)]) ∈ attrs /\
    (Z.abs (1024 * total - f_blocks sv * bs) <= 512)%Z /\
    (Z.abs (1024 * free - f_bfree sv * bs) <= 512)%Z /\
    (Z.abs (1024 * used - (f_blocks sv - f_bfree sv) * bs) <= 512)%Z /\
    (Z.abs (1024 * avail - f_bavail sv * bs) <= 512)%Z /\
    (avail <= free <= total)%Z /\ (used <= total)%Z /\ (Z.abs (free + used - total) <= 1)%Z.
Proof.
  assert (forall b, (0 <= b <= f_blocks sv)%Z -> (0 <= b * bs <= f_blocks sv * bs)%Z) as Hb by nia.
  assert (f_blocks sv - f_bfree sv < 2 ^ 64)%Z as Hd by nia.
  exists (kscale_u64 (f_blocks sv) bs), (kscale_u64 (f_bfree sv) bs),
    (kscale_u64 (u64 (f_blocks sv - f_bfree sv)) bs), (kscale_u64 (f_bavail sv) bs).
  rewrite (u64_small (f_blocks sv - f_bfree sv)) by lia. split.
  - assert (fs_table statvfs fs = Some (snd fs, BTable
      [("total", BU64 (kscale_u64 (f_blocks sv) bs)); ("free", BU64 (kscale_u64 (f_bfree sv) bs));
       ("used", BU64 (kscale_u64 (f_blocks sv - f_bfree sv) bs));
       ("avail", BU64 (kscale_u64 (f_bavail sv) bs))])) as E.
    { unfold fs_table. rewrite Hsv, <- Hbs. by rewrite (u64_small (f_blocks sv - f_bfree sv)) by lia. }
    assert (Hin := proj2 (list_elem_of_omap (fs_table statvfs) fslist _) (ex_intro _ fs (conj Hfs E))).
    unfold system_info in Hrun. remember (omap (fs_table statvfs) fslist) as tables.
    destruct sysinfo as [info|]; [|injection Hrun as <- <-; done].
    destruct (file "/proc/meminfo"); [|injection Hrun as <- <-; done].
    destruct gmtoff; [|injection Hrun as <- <-; done].
    destruct (fold_left _ _ _) as [a c]. destruct (si_loads info) as [[l0 l1] l2].
    injection Hrun as _ <-. rewrite !elem_of_cons, elem_of_app. auto 10.
  - pose proof (Hb (f_blocks sv) ltac:(lia)). pose proof (Hb (f_bfree sv) ltac:(lia)).
    pose proof (Hb (f_blocks sv - f_bfree sv)%Z ltac:(lia)).
    pose proof (Hb (f_bavail sv) ltac:(lia)).
    pose proof (kscale_small (f_blocks sv) bs ltac:(lia) ltac:(lia)).
    pose proof (kscale_small (f_bfree sv) bs ltac:(lia) ltac:(lia)).
    pose proof (kscale_small (f_blocks sv - f_bfree sv) bs ltac:(lia) ltac:(lia)).
    pose proof (kscale_small (f_bavail sv) bs ltac:(lia) ltac:(lia)). nia.
Qed.

(** * Examples *)

Definition demo_mounts : string :=
  unlines ["/dev/root /rom squashfs ro 0 0"; "overlayfs:/overlay / overlay rw 0 0"].
Definition demo_system_files (path : string) : option string :=
  if strcmp_eq path "/proc/self/mounts" then Some demo_mounts
  else if strcmp_eq path "/proc/meminfo"
  then Some (unlines ["MemTotal:  200 kB"; "MemAvailable:     100 kB"; "Cached: 7 kB"])
  else if strcmp_eq path "/proc/cpuinfo" then Some (unlines ["model name : Foo CPU"])
  else None.

Lemma rootfs_type_spec_witness :
  system_rootfs_type demo_system_files "" = (Some "squashfs", "squashfs").
Proof.
  exact (proj1 (proj2 (rootfs_type_spec demo_system_files demo_mounts eq_refl))).
Defined.

Definition demo_info : sysinfo_t := mk_sysinfo 5 (1, 2, 3)%Z 1 204800 4096 0 0 0 0.
Definition demo_statvfs (path : string) : option statvfs_t :=
  if strcmp_eq path "/" then Some (mk_statvfs 4096 0 1000 500 400) else None.

Example demo_board :
  system_board demo_system_files (Some (mk_utsname "6.6" "neon" "x86_64")) false
    (fun _ => false) "" =
  (0%Z, [("kernel", BString "6.6"); ("hostname", BString "neon"); ("system", BString "Foo CPU");
         ("rootfs_type", BString "squashfs");
         ("release", BTable [("distribution", BString "NeonWrt")])], "squashfs").
Proof. vm_compute. reflexivity. Qed.

Lemma info_sizes_witness :
  exists attrs total free used avail,
    system_info demo_system_files (Some demo_info) demo_statvfs 1000 (Some 3600%Z) = (0%Z, attrs) /\
    ("root", BTable [("total", BU64 total); ("free", BU64 free); ("used", BU64 used);
                     ("avail", BU64 avail)]) ∈ attrs /\
    (Z.abs (1024 * total - 4096000) <= 512)%Z.
Proof.
  destruct (info_sizes demo_system_files (Some demo_info) demo_statvfs 1000 (Some 3600%Z)
    (fst (system_info demo_system_files (Some demo_info) demo_statvfs 1000 (Some 3600%Z)))
    (snd (system_info demo_system_files (Some demo_info) demo_statvfs 1000 (Some 3600%Z)))
    ("/", "root") (mk_statvfs 4096 0 1000 500 400) 4096)
    as (total & free & used & avail & Hin & Ht & _).
  - vm_compute. reflexivity.
  - vm_compute. reflexivity.
  - unfold fslist. left.
  - reflexivity.
  - reflexivity.
  - lia.
  - simpl. lia.
  - simpl. lia.
  - simpl. lia.
  - exists (snd (system_info demo_system_files (Some demo_info) demo_statvfs 1000 (Some 3600%Z))).
    exists total, free, used, avail. split; [vm_compute; reflexivity|]. split; [exact Hin|exact Ht].
Defined.
