(* ===== verification/UbusDaemon.v ===== *)
(** neon-procd-ubus: requests, events and the life of the daemon
    (src/package/system/neon-procd/src/neon-procd-ubus.c, [systemd_notify] to
    [feed_neon_async], the service methods, [trigger_event_cb],
    [connect_and_register] and [main]). What the daemon expects of the
    neon-procd command is the class [NeonProcd]; the model of that command is an
    instance of it. *)
From S2P Require Import Prelude CStr Json ProcdWorld ProcdStart ReadAll ProcdTrigger ProcdCmd.
From S2P Require Import UbusRelease UbusSystem.
From Stdlib Require Import Ascii.
Open Scope string_scope.
Open Scope list_scope.

(** * Writing a request *)

(** One call of write(2): at most [k] bytes and at least one, interrupted,
    nothing, or failed. *)
Inductive write_step :=
  | WTake (k : nat)
  | WEintr
  | WZero
  | WErr.

(** [write_all]: the result and the bytes written. [None]: the schedule is
    exhausted while the call still blocks. *)
Fixpoint write_all (sched : list write_step) (buf : string) : option (Z * string) :=
  match buf with
  | "" => Some (0%Z, "")
  | _ =>
      match sched with
      | [] => None
      | WEintr :: sched => write_all sched buf
      | WZero :: _ => Some ((-1)%Z, "")
      | WErr :: _ => Some ((-1)%Z, "")
      | WTake k :: sched =>
          let n := Nat.min (Nat.max 1 k) (String.length buf) in
          match write_all sched (sdrop n buf) with
          | Some (rc, out) => Some (rc, stake n buf +:+ out)
          | None => None
          end
      end
  end.

(** * The neon-procd command *)

(** What running [neon-procd VERB] on an input does: how it ends, what it
    prints, and the world afterwards. *)
Class NeonProcd (W : Type) := {
  np_exec : string -> string -> W -> wait_result * string * W
}.

(** What the system calls of one request do. *)
Record call_io := mk_call_io {
  io_pipe : bool;
  io_pipe2 : bool;
  io_fork : bool;
  io_fork2 : bool;
  io_write : list write_step;
  io_alloc : nat -> bool;
  io_read : list read_step;
  io_reap : bool
}.

(** The world, and the workers started for events and not yet run. *)
Record dstate (W : Type) := mk_dstate {
  d_world : W;
  d_jobs : list (string * string)
}.
Arguments mk_dstate {W} d_world d_jobs.
Arguments d_world {W} d.
Arguments d_jobs {W} d.

Definition exited_zero (r : wait_result) : bool :=
  match r with Exited code => (code =? 0)%Z | _ => false end.

(** [st], which is 0 unless waitpid stores a status. *)
Definition reaped (io : call_io) (r : wait_result) : wait_result :=
  if io_reap io then r else Exited 0.

(** [json && write_all(...)] *)
Definition write_json (io : call_io) (json : option string) : option (Z * string) :=
  match json with None => Some (0%Z, "") | Some s => write_all (io_write io) s end.

Section daemon.
Context {W : Type} `{NeonProcd W}.

Definition feed_neon (io : call_io) (verb : string) (json : option string) (s : dstate W)
    : option (Z * dstate W) :=
  if negb (io_pipe io) then Some (UBUS_STATUS_UNKNOWN_ERROR, s)
  else if negb (io_fork io) then Some (UBUS_STATUS_UNKNOWN_ERROR, s)
  else match write_json io json with
       | None => None
       | Some (write_rc, written) =>
           let '(r, _, w') := np_exec verb written (d_world s) in
           let s' := mk_dstate w' (d_jobs s) in
           if (write_rc <? 0)%Z then Some (UBUS_STATUS_UNKNOWN_ERROR, s')
           else Some (if exited_zero (reaped io r) then 0%Z else UBUS_STATUS_UNKNOWN_ERROR, s')
       end.

(** The worker is a grandchild: it is not waited for. *)
Definition feed_neon_async (io : call_io) (verb : string) (json : option string) (s : dstate W)
    : option (Z * dstate W) :=
  if negb (io_pipe io) then Some ((-1)%Z, s)
  else if negb (io_fork io) then Some ((-1)%Z, s)
  else match write_json io json with
       | None => None
       | Some (rc, written) =>
           let rc := if (rc <? 0)%Z then (-1)%Z else 0%Z in
           let s' := if io_fork2 io
                     then mk_dstate (d_world s) (d_jobs s ++ [(verb, written)]) else s in
           let st := reaped io (Exited (if io_fork2 io then 0 else 127)) in
           Some (if exited_zero st then rc else (-1)%Z, s')
       end.

(** A worker runs to its end. *)
Definition run_worker (i : nat) (s : dstate W) : option (dstate W) :=
  match d_jobs s !! i with
  | None => None
  | Some (verb, input) =>
      let '(_, _, w') := np_exec verb input (d_world s) in
      Some (mk_dstate w' (delete i (d_jobs s)))
  end.

Definition capture_neon (io : call_io) (verb : string) (json : option string) (s : dstate W)
    : option (Z * string * dstate W) :=
  if negb (io_pipe io) then Some ((-1)%Z, "", s)
  else if negb (io_pipe2 io) then Some ((-1)%Z, "", s)
  else if negb (io_fork io) then Some ((-1)%Z, "", s)
  else match write_json io json with
       | None => None
       | Some (write_rc, written) =>
           let '(r, out, w') := np_exec verb written (d_world s) in
           let s' := mk_dstate w' (d_jobs s) in
           if negb (io_alloc io 4096) then Some ((-1)%Z, "", s')
           else match read_loop (io_alloc io) (io_read io) 4096 "" out with
                | None => None
                | Some RNoMem => Some ((-1)%Z, "", s')
                | Some (REnd _ buf) | Some (RError buf) =>
                    if (write_rc <? 0)%Z || negb (exited_zero (reaped io r))
                    then Some ((-1)%Z, "", s')
                    else Some (0%Z, buf, s')
                end
       end.

(** * Requests *)

(** [blobmsg_format_json] and [blobmsg_add_json_from_string] of libubox. *)
Variable format_json : list (string * blob) -> option string.
Variable add_json : string -> option (list (string * blob)).

(** The common body of four methods. *)
Definition service_call (verb : string) (io : call_io) (msg : list (string * blob))
    (s : dstate W) : option (Z * dstate W) :=
  match format_json msg with
  | None => Some (UBUS_STATUS_UNKNOWN_ERROR, s)
  | Some json => feed_neon io verb (Some json) s
  end.
Definition service_set := service_call "set".
Definition service_delete := service_call "delete-json".
Definition service_signal := service_call "signal-json".
Definition service_event := service_call "event".

(** The status and the reply sent. *)
Definition service_list (io : call_io) (msg : option (list (string * blob))) (s : dstate W)
    : option (Z * option (list (string * blob)) * dstate W) :=
  match (match msg with Some m => format_json m | None => Some "{}" end) with
  | None => Some (UBUS_STATUS_UNKNOWN_ERROR, None, s)
  | Some filter =>
      match capture_neon io "list-json" (Some filter) s with
      | None => None
      | Some (rc, out, s') =>
          if negb (rc =? 0)%Z then Some (UBUS_STATUS_UNKNOWN_ERROR, None, s')
          else match add_json (cstr out) with
               | None => Some (UBUS_STATUS_UNKNOWN_ERROR, None, s')
               | Some reply => Some (0%Z, Some reply, s')
               end
      end
  end.

(** The message of an event: its type, and its attributes as "data". *)
Definition event_message (type : string) (msg : option (list (string * blob)))
    : list (string * blob) :=
  [("type", BString type); ("data", BTable (default [] msg))].

Definition trigger_event_cb (io : call_io) (type : option string)
    (msg : option (list (string * blob))) (s : dstate W) : option (dstate W) :=
  match type with
  | None | Some "" => Some s
  | Some type =>
      match format_json (event_message type msg) with
      | None => Some s
      | Some json =>
          match feed_neon_async io "event" (Some json) s with
          | None => None
          | Some (_, s') => Some s'
          end
      end
  end.
End daemon.

(** * sd_notify *)

Definition SUN_PATH_SIZE : nat := 108.
Definition SUN_PATH_OFFSET : nat := 2.

(** The bytes of [sun_path] that [salen] counts, and [salen]. *)
Definition notify_address (path : string) : option (string * nat) :=
  if ceq (first_char path) "@" then
    let n := String.length (sdrop 1 path) in
    if (SUN_PATH_SIZE <? n + 1)%nat then None
    else Some (String NUL (sdrop 1 path), (SUN_PATH_OFFSET + 1 + n)%nat)
  else
    let n := String.length path in
    if (SUN_PATH_SIZE <=? n)%nat then None
    else Some (path +:+ String NUL "", (SUN_PATH_OFFSET + n + 1)%nat).

Inductive send_step := SSent | SEintr | SErr.

(** The loop around sendto; [None]: still interrupted at the end of the schedule. *)
Fixpoint send_loop (sched : list send_step) : option bool :=
  match sched with
  | [] => None
  | SEintr :: sched => send_loop sched
  | SSent :: _ => Some true
  | SErr :: _ => Some false
  end.

Record notify_env := mk_notify_env {
  ne_socket_path : option string;   (** NOTIFY_SOCKET *)
  ne_socket : bool;                 (** socket(2) succeeds *)
  ne_send : list send_step
}.

(** [systemd_notify]: the result, and the datagram sent with its address. *)
Definition systemd_notify (env : notify_env) (message : string)
    : option (Z * option (string * nat * string)) :=
  match ne_socket_path env with
  | None | Some "" => Some (0%Z, None)
  | Some path =>
      if negb (ceq (first_char path) "/") && negb (ceq (first_char path) "@")
      then Some ((-1)%Z, None)
      else if negb (ne_socket env) then Some ((-1)%Z, None)
      else match notify_address path with
           | None => Some ((-1)%Z, None)
           | Some (addr, salen) =>
               match send_loop (ne_send env) with
               | None => None
               | Some true => Some (0%Z, Some (addr, salen, message))
               | Some false => Some ((-1)%Z, None)
               end
           end
  end.

(** * Connection and main loop *)

(** What one round of [connect_and_register] meets. *)
Record attempt := mk_attempt {
  a_connect : bool; a_service : Z; a_system : Z; a_handler : Z
}.

Inductive bus_op :=
  | BConnect (ok : bool)
  | BAddUloop
  | BAddService (rc : Z)
  | BAddSystem (rc : Z)
  | BRegister (rc : Z)
  | BFree
  | BSleep.

(** The calls of one round, and whether it ends the loop. *)
Definition attempt_ops (a : attempt) : list bus_op * bool :=
  if negb (a_connect a) then ([BConnect false; BSleep], false)
  else
    let pre := [BConnect true; BAddUloop; BAddService (a_service a)] in
    if negb (a_service a =? 0)%Z then (pre ++ [BFree; BSleep], false)
    else
      let pre := pre ++ [BAddSystem (a_system a)] in
      if negb (a_system a =? 0)%Z then (pre ++ [BFree; BSleep], false)
      else
        let pre := pre ++ [BRegister (a_handler a)] in
        if (a_handler a =? 0)%Z then (pre, true) else (pre ++ [BFree; BSleep], false).

Definition attempts : nat := 300.

Fixpoint connect_loop (n : nat) (sched : nat -> attempt) (i : nat) : Z * list bus_op :=
  match n with
  | O => ((-1)%Z, [])
  | S n =>
      let '(ops, stop) := attempt_ops (sched i) in
      if stop then (0%Z, ops)
      else let '(rc, ops') := connect_loop n sched (S i) in (rc, ops ++ ops')
  end.

Definition connect_and_register (sched : nat -> attempt) : Z * list bus_op :=
  connect_loop attempts sched 0.

Inductive daemon_op :=
  | DBus (op : bus_op)
  | DNotify (message : string)
  | DRun
  | DUloopDone.

Definition READY : string :=
  "READY=1" +:+ String LF ("STATUS=Connected to ubus; service/system objects and trigger bridge ready"
  +:+ String LF "").
Definition STOPPING : string := "STOPPING=1" +:+ String LF "".

(** [main]: the status and the calls made; [ready_rc] and [stopping_rc] are the
    results of [systemd_notify]. *)
Definition main (uloop_init_rc : Z) (sched : nat -> attempt) (ready_rc : Z) : Z * list daemon_op :=
  if negb (uloop_init_rc =? 0)%Z then (1%Z, [])
  else
    let '(rc, ops) := connect_and_register sched in
    if negb (rc =? 0)%Z then (1%Z, map DBus ops ++ [DUloopDone])
    else
      let ops := map DBus ops ++ [DNotify READY] in
      if (ready_rc <? 0)%Z then (1%Z, ops ++ [DBus BFree; DUloopDone])
      else (0%Z, ops ++ [DRun; DNotify STOPPING; DBus BFree; DUloopDone]).

(** * Lemmas *)

Definition write_never_fails (sched : list write_step) : Prop :=
  (WErr ∉ sched) /\ (WZero ∉ sched).
Definition write_takes (sched : list write_step) : nat :=
  length (List.filter (fun s => match s with WTake _ => true | _ => false end) sched).

Lemma write_all_prefix sched buf rc out :
  write_all sched buf = Some (rc, out) ->
  (rc = 0%Z /\ out = buf) \/ (rc = (-1)%Z /\ (exists c rest, buf = out +:+ String c rest)).
Proof.
  revert buf rc out. induction sched as [|s sched IH]; intros [|c buf] rc out;
    cbn [write_all]; try (intros [= <- <-]; by left); try done.
  destruct s as [k| | |].
  - set (n := Nat.min (Nat.max 1 k) (String.length (String c buf))).
    destruct (write_all sched (sdrop n (String c buf))) as [[rc' out']|] eqn:E; [|done].
    intros [= <- <-]. apply IH in E as [[-> ->]|(-> & d & rest & E)].
    + left. split; [done|]. apply stake_app_drop.
    + right. split; [done|]. exists d, rest. rewrite sapp_assoc, <- E. by rewrite stake_app_drop.
  - intros E. by apply IH in E.
  - intros [= <- <-]. right. split; [done|]. by exists c, buf.
  - intros [= <- <-]. right. split; [done|]. by exists c, buf.
Qed.

Lemma write_all_finishes sched buf :
  write_never_fails sched -> (String.length buf <= write_takes sched)%nat ->
  write_all sched buf = Some (0%Z, buf).
Proof.
  revert buf. induction sched as [|s sched IH]; intros [|c buf] [Hf1 Hf2] Ht;
    cbn [write_all]; try done.
  { by apply Nat.nle_succ_0 in Ht. }
  apply not_elem_of_cons in Hf1 as [Hs1 Hf1]. apply not_elem_of_cons in Hf2 as [Hs2 Hf2].
  destruct s as [k| | |]; try done.
  - set (n := Nat.min (Nat.max 1 k) (String.length (String c buf))).
    rewrite IH; [by rewrite stake_app_drop|done|]. rewrite sdrop_length.
    unfold write_takes in *. cbn [List.filter length String.length] in *. lia.
  - apply IH; done.
Qed.

Lemma write_json_zero io json written rc :
  write_json io (Some json) = Some (rc, written) ->
  (rc = 0%Z /\ written = json) \/ rc = (-1)%Z.
Proof. cbn [write_json]. intros E. apply write_all_prefix in E as [?|[? _]]; auto. Qed.

(** The objects registered on the connection, call by call. *)
Record bus_state := mk_bus { b_up : bool; b_service : bool; b_system : bool; b_handler : bool }.
Definition bus_down : bus_state := mk_bus false false false false.
Definition bus_step (st : bus_state) (op : bus_op) : bus_state :=
  match op with
  | BConnect ok => mk_bus ok false false false
  | BAddService rc => mk_bus (b_up st) (rc =? 0)%Z (b_system st) (b_handler st)
  | BAddSystem rc => mk_bus (b_up st) (b_service st) (rc =? 0)%Z (b_handler st)
  | BRegister rc => mk_bus (b_up st) (b_service st) (b_system st) (rc =? 0)%Z
  | BFree => bus_down
  | BAddUloop | BSleep => st
  end.
Definition bus_of (st : bus_state) (ops : list bus_op) : bus_state := fold_left bus_step ops st.
Definition daemon_bus (ops : list daemon_op) : bus_state :=
  bus_of bus_down (omap (fun op => match op with DBus b => Some b | _ => None end) ops).
Definition connects (ops : list bus_op) : nat :=
  length (List.filter (fun op => match op with BConnect _ => true | _ => false end) ops).

Lemma attempt_bus a st :
  let '(ops, stop) := attempt_ops a in
  bus_of st ops = (if stop then mk_bus true true true true else bus_down) /\
  connects ops = 1%nat.
Proof.
  unfold attempt_ops. destruct (a_connect a); [|done]. cbn [negb].
  destruct (a_service a =? 0)%Z eqn:E1; [|done]. cbn [negb].
  destruct (a_system a =? 0)%Z eqn:E2; [|done]. cbn [negb].
  destruct (a_handler a =? 0)%Z eqn:E3; [|done].
  unfold bus_of. simpl. by rewrite E1, E2, E3.
Qed.

Lemma connect_loop_bus n sched i rc ops :
  connect_loop n sched i = (rc, ops) ->
  (connects ops <= n)%nat /\
  ((rc = 0%Z /\ forall st, bus_of st ops = mk_bus true true true true) \/
   (rc = (-1)%Z /\ bus_of bus_down ops = bus_down)).
Proof.
  revert i rc ops. induction n as [|n IH]; intros i rc ops; cbn [connect_loop].
  - intros [= <- <-]. split; [done|]. by right.
  - pose proof (attempt_bus (sched i)) as Ha. destruct (attempt_ops (sched i)) as [o stop].
    destruct stop.
    + intros [= <- <-]. split; [destruct (Ha bus_down); lia|]. left. split; [done|].
      intros st. apply Ha.
    + destruct (connect_loop n sched (S i)) as [rc' ops'] eqn:E. intros [= <- <-].
      apply IH in E as [Hc E]. unfold connects in *. rewrite List.filter_app, length_app.
      split; [destruct (Ha bus_down) as [_ H1]; lia|].
      destruct E as [[-> E]|[-> E]]; [left|right]; (split; [done|]); [intros st|];
        unfold bus_of in *; rewrite fold_left_app; [apply E|].
      by rewrite (proj1 (Ha bus_down)).
Qed.

Lemma daemon_bus_map ops rest :
  daemon_bus (map DBus ops ++ rest) =
  bus_of (bus_of bus_down ops) (omap (fun op => match op with DBus b => Some b | _ => None end) rest).
Proof.
  unfold daemon_bus, bus_of. rewrite omap_app, fold_left_app. do 2 f_equal.
  induction ops as [|o ops IH]; [done|]. simpl. by f_equal.
Qed.

Lemma split_unique {A} (x : A) l1 l2 pre post :
  x ∉ l1 -> x ∉ l2 -> l1 ++ x :: l2 = pre ++ x :: post -> pre = l1.
Proof.
  revert pre. induction l1 as [|y l1 IH]; intros [|z pre] H1 H2 E; simpl in *; try done.
  - injection E as -> ->. destruct H2. apply elem_of_app. right. left.
  - injection E as -> _. destruct H1. left.
  - injection E as -> E. f_equal. apply IH; [|done|done]. intros ?; apply H1. by right.
Qed.

Lemma not_ready_bus ops : DNotify READY ∉ map DBus ops.
Proof. intros H. by apply list_elem_of_fmap in H as (o & E & _). Qed.

(** * Messages as JSON documents

    What [blobmsg_format_json] writes for a message, and json-c reads back:
    integers are written signed, at their width. *)

Definition signed_at (width z : Z) : Z :=
  if (z <? 2 ^ (width - 1))%Z then z else (z - 2 ^ width)%Z.

Fixpoint blob_document (b : blob) : json :=
  match b with
  | BString s => JString s
  | BU32 z => JInt (signed_at 32 z)
  | BU64 z => JInt (signed_at 64 z)
  | BArray l => JArray (map blob_document l)
  | BTable l => JObject (map (fun kv => (fst kv, blob_document (snd kv))) l)
  end.

(** json-c reads the text of the message back, stated for the message at hand. *)
Definition reads_back `{JsonC} (format_json : list (string * blob) -> option string)
    (m : list (string * blob)) : Prop :=
  forall text, format_json m = Some text -> parse_input text = Some (blob_document (BTable m)).

(** The attributes of an event message, as texts. *)
Definition message_texts `{JsonC} (msg : option (list (string * blob)))
    : list (string * string) :=
  texts_of (map (fun kv => (fst kv, blob_document (snd kv))) (default [] msg)).

(** * The command as neon-procd implements it *)

Section procd.
Context `{JsonC}.
Variable os : procd_os.
Variable fnmatch : string -> string -> bool.
(** How the process ends after undefined behaviour. *)
Variable crash : wait_result.

#[local] Instance procd_exec : NeonProcd pworld := {
  np_exec verb input w :=
    let '(r, w') := ProcdCmd.main os fnmatch [verb] input (mk_pworld (pw_files w) (pw_runs w) "") in
    (match r with
     | Ok rc => Exited (rc mod 256)
     | Exit rc => Exited rc
     | Crash => crash
     end, pw_out w', mk_pworld (pw_files w') (pw_runs w') (pw_out w))
}.

(** Running the command on an event runs the triggers. *)
Lemma exec_event text w w' ev etype texts :
  os_waits os -> po_opendir os (mk_pworld (pw_files w) (pw_runs w) "") = true ->
  parse_input text = Some ev -> jstr ev "type" = Some etype -> event_texts ev texts ->
  event_effect os fnmatch etype texts
    (po_readdir os (mk_pworld (pw_files w) (pw_runs w) ""))
    (mk_pworld (pw_files w) (pw_runs w) "") w' ->
  np_exec "event" text w =
  (Exited 0, pw_out w', mk_pworld (pw_files w') (pw_runs w') (pw_out w)).
Proof.
  intros Hw Ho Hp Ht Hd He. cbn [np_exec procd_exec].
  set (w0 := mk_pworld (pw_files w) (pw_runs w) "") in *.
  change (ProcdCmd.main os fnmatch ["event"] text w0) with (cmd_event os fnmatch text w0).
  by rewrite (cmd_event_effect os fnmatch Hw text ev etype texts w0 w').
Qed.
End procd.

(** * Properties *)

(** C17: a request method of the "service" object answers 0 exactly when the
    whole request reached neon-procd and that command exited with 0; the command
    then ran once, on that request; when no process could be started the world
    is as before, and no method ever starts a worker. *)
Theorem service_status `{NeonProcd W} format_json verb io msg (s s' : dstate W) rc
    (Hreap : io_reap io = true)
    (Hrun : service_call format_json verb io msg s = Some (rc, s')) :
  d_jobs s' = d_jobs s /\
  (rc = 0%Z \/ rc = UBUS_STATUS_UNKNOWN_ERROR) /\
  (rc = 0%Z <->
   exists json, format_json msg = Some json /\ io_pipe io = true /\ io_fork io = true /\
     write_all (io_write io) json = Some (0%Z, json) /\
     exited_zero (fst (fst (np_exec verb json (d_world s)))) = true) /\
  (forall json, rc = 0%Z -> format_json msg = Some json ->
     d_world s' = snd (np_exec verb json (d_world s))) /\
  (io_pipe io && io_fork io = false -> s' = s).
Proof.
  unfold service_call in Hrun. destruct (format_json msg) as [json|].
  2:{ injection Hrun as <- <-. repeat split; try done; [by right|by intros (? & ? & _)]. }
  unfold feed_neon in Hrun.
  destruct (io_pipe io); cbn [negb] in Hrun; [destruct (io_fork io); cbn [negb] in Hrun|].
  2,3: injection Hrun as <- <-; repeat split; try done; [by right|by intros (? & _ & ? & ? & _)].
  destruct (write_json io (Some json)) as [[wrc written]|] eqn:Ew; [|done].
  assert (write_all (io_write io) json = Some (wrc, written)) as Ew' by exact Ew.
  apply write_json_zero in Ew as [[-> ->]| ->]; unfold reaped in Hrun; rewrite Hreap in Hrun.
  - destruct (np_exec verb json (d_world s)) as [[r out] w'] eqn:Ex. cbn [Z.ltb Z.compare] in Hrun.
    injection Hrun as <- <-. destruct (exited_zero r) eqn:Er; repeat split; try done.
    + by left.
    + intros _. exists json. by rewrite Ex.
    + intros j _ [= <-]. by rewrite Ex.
    + by right.
    + intros (j & [= <-] & _ & _ & _ & E). rewrite Ex in E. simpl in E. congruence.
  - destruct (np_exec verb written (d_world s)) as [[r out] w'] eqn:Ex.
    injection Hrun as <- <-. repeat split; try done; [by right|].
    intros (j & [= <-] & _ & _ & E & _). congruence.
Qed.

(** Writing a request never loses or reorders a byte: what arrived is a
    prefix, all of it exactly when the result is 0; and without a failing write
    one call per byte, interruptions not counted, is enough. *)
Theorem write_all_whole sched buf :
  (forall rc out, write_all sched buf = Some (rc, out) ->
     (rc = 0%Z <-> out = buf) /\ exists rest, buf = out +:+ rest) /\
  (write_never_fails sched -> (String.length buf <= write_takes sched)%nat ->
   write_all sched buf = Some (0%Z, buf)).
Proof.
  split; [|apply write_all_finishes]. intros rc out E.
  apply write_all_prefix in E as [[-> ->]|(-> & c & rest & ->)].
  - split; [done|]. exists "". by rewrite sapp_nil_r.
  - split; [|by eexists]. split; [done|]. intros E.
    apply (f_equal String.length) in E. rewrite slen_app in E. simpl in E. lia.
Qed.

(** C16: an ubus event reaches the triggers without blocking the daemon: when the
    pipe and the two forks succeed, the callback queues a worker with the whole
    request and runs nothing; and the worker, in whatever world it runs, runs to
    their ends the command lines that the registered triggers denote for the
    event's type and its own attributes, as [event_effect] describes. The
    attributes have distinct names, and json-c reads the message back. *)
Theorem event_bridge `{JsonC} os fnmatch crash format_json io etype msg json
    (s : dstate pworld) w w' (w0 := mk_pworld (pw_files w) (pw_runs w) "")
    (Hw : os_waits os) (Ho : po_opendir os w0 = true)
    (Hio : io_pipe io = true /\ io_fork io = true /\ io_fork2 io = true)
    (Hwr : write_never_fails (io_write io) /\
           (String.length json <= write_takes (io_write io))%nat)
    (Ht : etype <> "") (Hkeys : NoDup (map fst (default [] msg)))
    (Hf : format_json (event_message etype msg) = Some json)
    (Hback : reads_back format_json (event_message etype msg))
    (He : event_effect os fnmatch etype (message_texts msg) (po_readdir os w0) w0 w') :
  trigger_event_cb format_json io (Some etype) msg s =
    Some (mk_dstate (d_world s) (d_jobs s ++ [("event", json)])) /\
  (forall jobs, run_worker (W := pworld) (H := procd_exec os fnmatch crash) 0
     (mk_dstate w (("event", json) :: jobs)) =
   Some (mk_dstate (mk_pworld (pw_files w') (pw_runs w') (pw_out w)) jobs)).
Proof.
  destruct Hio as (H1 & H2 & H3). destruct Hwr as [Hwf Hwt]. split.
  - unfold trigger_event_cb. destruct etype as [|c etype]; [done|]. rewrite Hf.
    unfold feed_neon_async, write_json. rewrite H1, H2, H3. cbn [negb].
    by rewrite write_all_finishes.
  - intros jobs. unfold run_worker. cbn [d_jobs d_world lookup list_lookup].
    assert (parse_input json = Some (JObject [("type", JString etype); ("data", JObject
      (map (fun kv => (fst kv, blob_document (snd kv))) (default [] msg)))])) as Hp
      by exact (Hback json Hf).
    rewrite (exec_event os fnmatch crash json w w' _ etype (message_texts msg) Hw Ho Hp);
      [done| |split; [by rewrite map_map|reflexivity]|exact He].
    unfold jstr. cbn [get_ex member String.eqb Ascii.eqb]. apply get_string_string.
Qed.

(** C18: systemd is told READY only while a connection with the service and
    system objects and the event handler is up; the main loop runs exactly when
    the status is 0; there are at most 300 connection attempts, and the daemon
    never ends with a connection open. *)
Theorem ready_when_registered init sched ready_rc rc ops
    (Hrun : main init sched ready_rc = (rc, ops)) :
  (forall pre post, ops = pre ++ DNotify READY :: post ->
     daemon_bus pre = mk_bus true true true true) /\
  (DRun ∈ ops <-> rc = 0%Z) /\
  (connects (omap (fun op => match op with DBus b => Some b | _ => None end) ops) <= 300)%nat /\
  daemon_bus ops = bus_down.
Proof.
  unfold main in Hrun. case_if_in Hrun.
  { injection Hrun as <- <-. split; [by intros [] ? [=]|]. split; [|by split; [vm_compute; lia|]].
    split; [by intros ?%elem_of_nil|done]. }
  destruct (connect_and_register sched) as [crc bops] eqn:Ec.
  apply connect_loop_bus in Ec as [Hn Hb].
  assert (forall rest, omap (fun op => match op with DBus b => Some b | _ => None end)
    (map DBus bops ++ rest) = bops ++ omap (fun op => match op with DBus b => Some b | _ => None end) rest)
    as Hom.
  { intros rest. rewrite omap_app. f_equal. clear. induction bops; simpl; [done|by f_equal]. }
  assert (DRun ∉ map DBus bops) as Hnr by (intros (? & ? & _)%list_elem_of_fmap; done).
  pose proof (not_ready_bus bops) as Hnn.
  destruct Hb as [[-> Hb]|[-> Hb]]; cbn [negb Z.eqb] in Hrun.
  2:{ injection Hrun as <- <-. rewrite daemon_bus_map, Hom, Hb. repeat split; try done.
      - intros pre post Epp. exfalso. assert (DNotify READY ∈ map DBus bops ++ [DUloopDone]) as Hin
          by (rewrite Epp; apply elem_of_app; right; left).
        apply elem_of_app in Hin as [?|Hin]; [done|]. by apply list_elem_of_singleton in Hin.
      - intros Hin. apply elem_of_app in Hin as [?|Hin]; [done|].
        by apply list_elem_of_singleton in Hin.
      - cbn [omap list_omap]. by rewrite app_nil_r. }
  assert (forall tail pre post, DNotify READY ∉ tail ->
    (map DBus bops ++ [DNotify READY]) ++ tail = pre ++ DNotify READY :: post ->
    daemon_bus pre = mk_bus true true true true) as Hpre.
  { intros tail pre post Ht Es. rewrite <- app_assoc in Es. apply split_unique in Es as ->; [|done..].
    pose proof (daemon_bus_map bops []) as Em. rewrite app_nil_r in Em. by rewrite Em, Hb. }
  case_if_in Hrun; injection Hrun as <- <-.
  - split.
    { intros pre post. apply Hpre. intros Hin.
      repeat (apply elem_of_cons in Hin as [Hin|Hin]; [by vm_compute in Hin|]). inversion Hin. }
    rewrite <- app_assoc, daemon_bus_map, Hom, Hb. split; [|split; [|done]].
    + split; [|done]. intros Hin. apply elem_of_app in Hin as [?|Hin]; [done|].
      by repeat (apply elem_of_cons in Hin as [?|Hin]; [done|]); inversion Hin.
    + unfold connects in *. rewrite List.filter_app, length_app. simpl. unfold attempts in Hn. lia.
  - split.
    { intros pre post. apply Hpre. intros Hin.
      repeat (apply elem_of_cons in Hin as [Hin|Hin]; [by vm_compute in Hin|]). inversion Hin. }
    rewrite <- app_assoc, daemon_bus_map, Hom, Hb. split; [|split; [|done]].
    + split; [done|]. intros _. apply elem_of_app. right. right. left.
    + unfold connects in *. rewrite List.filter_app, length_app. simpl. unfold attempts in Hn. lia.
Qed.

(** a readiness message goes to the address NOTIFY_SOCKET names: a path with
    its NUL, or an abstract name after a NUL; the address fits sockaddr_un and
    its length counts these bytes; anything else sends nothing and is an error,
    except that without NOTIFY_SOCKET there is nothing to do. *)
Theorem notify_address_spec env message rc sent
    (Hrun : systemd_notify env message = Some (rc, sent)) :
  match sent with
  | Some (addr, salen, m) =>
      rc = 0%Z /\ m = message /\ salen = (SUN_PATH_OFFSET + String.length addr)%nat /\
      (String.length addr <= SUN_PATH_SIZE)%nat /\
      exists path, ne_socket_path env = Some path /\
        ((first_char path = "/"%char /\ addr = path +:+ String NUL "") \/
         (exists name, path = String "@" name /\ addr = String NUL name))
  | None => rc = 0%Z <-> default "" (ne_socket_path env) = ""
  end.
Proof.
  unfold systemd_notify in Hrun.
  destruct (ne_socket_path env) as [[|c path]|] eqn:Ep; try (by injection Hrun as <- <-).
  case_if_in Hrun; [by injection Hrun as <- <-|].
  case_if_in Hrun; [by injection Hrun as <- <-|].
  destruct (notify_address (String c path)) as [[addr salen]|] eqn:Ea; [|by injection Hrun as <- <-].
  destruct (send_loop (ne_send env)) as [[]|]; [|by injection Hrun as <- <-|done].
  injection Hrun as <- <-. unfold notify_address in Ea. cbn [first_char] in *.
  destruct (ceq c "@") eqn:Ec; case_if_in Ea; try done; injection Ea as <- <-; bprop.
  - apply ceq_true in Ec as ->. repeat split; simpl in *; try (unfold SUN_PATH_OFFSET; lia).
    exists (String "@" path). split; [done|]. right. eauto.
  - do 2 (split; [done|]). cbn [String.length] in *. rewrite slen_app. cbn [String.length].
    split; [unfold SUN_PATH_OFFSET; lia|]. split; [lia|].
    exists (String c path). split; [done|]. left. split; [|done].
    destruct E as [E|E]; bprop; [by apply ceq_true in E|congruence].
Qed.

(** * Examples *)

(** A command that prints what it is given and ends with a status. *)
Definition demo_command (code : Z) : NeonProcd (list (string * string)) := {|
  np_exec verb input w := (Exited code, input, w ++ [(verb, input)])
|}.
Definition demo_io : call_io :=
  mk_call_io true true true true [WTake 2; WEintr; WTake 100; WTake 100; WTake 1]
    (fun _ => true) [RTake 1; REintr; RTake 100; RTake 100] true.
Definition demo_format (m : list (string * blob)) : option string := Some "{ }".

Example demo_list :
  service_list (H := demo_command 0) demo_format (fun s => Some [("text", BString s)]) demo_io
    (Some []) (mk_dstate [] []) =
  Some (0%Z, Some [("text", BString "{ }")], mk_dstate [("list-json", "{ }")] []).
Proof. vm_compute. reflexivity. Qed.

Lemma service_status_witness :
  exists s', service_call (H := demo_command 0) demo_format "set" demo_io [] (mk_dstate [] []) =
             Some (0%Z, s') /\ d_world s' = [("set", "{ }")].
Proof.
  exists (mk_dstate [("set", "{ }")] []). split; [vm_compute; reflexivity|].
  apply (proj1 (proj2 (proj2 (proj2 (service_status (H := demo_command 0) demo_format "set"
    demo_io [] (mk_dstate [] []) (mk_dstate [("set", "{ }")] []) 0 eq_refl
    ltac:(vm_compute; reflexivity))))) "{ }" eq_refl eq_refl).
Defined.

Lemma write_all_whole_witness :
  write_all (io_write demo_io) "{ }" = Some (0%Z, "{ }").
Proof.
  apply (proj2 (write_all_whole (io_write demo_io) "{ }")).
  - split; cbn [io_write demo_io]; intros Hin;
      repeat (apply elem_of_cons in Hin as [Hin|Hin]; [discriminate|]); inversion Hin.
  - vm_compute. lia.
Defined.

#[local] Instance bridge_jsonc : JsonC := demo_jsonc [demo_root; demo_event; demo_request].

Lemma never_fails_takes n : write_never_fails (replicate n (WTake 1)).
Proof. split; intros Hin; by apply elem_of_replicate in Hin as [? _]. Qed.

Definition demo_bridge_io : call_io :=
  mk_call_io true true true true (replicate 200 (WTake 1)) (fun _ => true) [] true.
Lemma demo_bridge_room :
  (String.length (demo_print demo_event) <= write_takes (io_write demo_bridge_io))%nat.
Proof. apply Nat.leb_le. vm_compute. reflexivity. Qed.

(** The triggers of a firewall, on the attributes of the message. *)
Definition demo_message : list (string * blob) := [("package", BString "firewall")].
Definition demo_bridge_format (m : list (string * blob)) : option string :=
  if decide (map fst m = ["type"; "data"]) then Some (demo_print demo_event) else None.

Lemma event_bridge_witness :
  run_worker (W := pworld) (H := procd_exec (demo_procd 0) String.eqb (Signaled 11)) 0
    (mk_dstate (snd demo_set) [("event", demo_print demo_event)]) =
  Some (mk_dstate (ran (demo_procd 0) [["/etc/init.d/firewall"; "reload"]] (snd demo_set)) []).
Proof.
  refine (proj2 (event_bridge (demo_procd 0) String.eqb (Signaled 11) demo_bridge_format
    demo_bridge_io "config.change" (Some demo_message) (demo_print demo_event)
    (mk_dstate empty_world []) (snd demo_set)
    (ran (demo_procd 0) [["/etc/init.d/firewall"; "reload"]]
       (mk_pworld (pw_files (snd demo_set)) (pw_runs (snd demo_set)) ""))
    (quiet_waits 0 demo_listing) eq_refl (conj eq_refl (conj eq_refl eq_refl))
    (conj (never_fails_takes 200) demo_bridge_room) ltac:(done) (NoDup_singleton _) eq_refl
    _ _) []).
  - intros text Ht. injection Ht as <-. vm_compute. reflexivity.
  - apply ev_skip; [left; intros H%json_entry_name; vm_compute in H; discriminate|].
    eapply ev_service with (root := demo_root)
      (trs := [Some ("config.change", demo_action); Some ("interface.up", demo_action)]).
    + by exists "firewall".
    + vm_compute. reflexivity.
    + repeat constructor.
    + apply ev_skip; [|apply ev_done]. left.
      intros H%json_entry_name. vm_compute in H. discriminate.
Defined.

Lemma ready_when_registered_witness :
  daemon_bus (snd (main 0 (fun i => mk_attempt (3 <? i)%nat 0 0 0) 0)) = bus_down.
Proof.
  apply (ready_when_registered 0 (fun i => mk_attempt (3 <? i)%nat 0 0 0) 0 0
    (snd (main 0 (fun i => mk_attempt (3 <? i)%nat 0 0 0) 0))).
  vm_compute. reflexivity.
Defined.

Lemma notify_address_spec_witness :
  exists addr, systemd_notify (mk_notify_env (Some "@notify") true [SEintr; SSent]) READY =
               Some (0%Z, Some (addr, 9%nat, READY)) /\ String.length addr = 7%nat.
Proof.
  exists (String NUL "notify"). split; [vm_compute; reflexivity|].
  pose proof (notify_address_spec (mk_notify_env (Some "@notify") true [SEintr; SSent]) READY 0
    (Some (String NUL "notify", 9%nat, READY)) ltac:(vm_compute; reflexivity))
    as (_ & _ & Hl & _).
  unfold SUN_PATH_OFFSET in Hl. lia.
Defined.
