(* ===== verification/Micrond.v ===== *)
(** micrond (src/package/utils/micrond/src/micrond.c): crontab fields as bit
    masks, crontab files, and the loop that runs the jobs of each minute. The
    clock, fork and the file system are parameters; what is logged is left out,
    and so is memory exhaustion. *)
From S2P Require Import Prelude CStr CNum.
From Stdlib Require Import Ascii.
Open Scope string_scope.
Open Scope list_scope.

Record job_t := mk_job {
  j_minutes : Z;   (** uint64_t *)
  j_hours : Z;     (** uint32_t *)
  j_doms : Z;      (** uint32_t *)
  j_months : Z;    (** uint16_t *)
  j_dows : Z;      (** uint8_t *)
  j_command : string
}.

Definition MONTHS : list string :=
  ["jan"; "feb"; "mar"; "apr"; "may"; "jun"; "jul"; "aug"; "sep"; "oct"; "nov"; "dec"].
Definition WEEKDAYS : list string := ["sun"; "mon"; "tue"; "wed"; "thu"; "fri"; "sat"].

Definition bit (b : Z) : Z := u64 (Z.shiftl 1 b).

Section micrond.
(** The number of bits of [long]. *)
Variable long : Z.

Definition strict_atoi (s : string) : Z :=
  let '(ret, rest) := strtol long 10 s in
  if nonempty rest then (-1)%Z else to_i32 ret.

(** The loop of [parse_strings], from index [i]. *)
Fixpoint parse_strings (input : string) (strings : list string) (i : Z) : Z :=
  match strings with
  | [] => 0%Z
  | s :: rest => if strcaseeq input s then bit i else parse_strings input rest (i + 1)
  end.

(** [for (i = begin-min; i <= end-min; i += step)]; the overflow of [i] is
    undefined behaviour. *)
Fixpoint times_loop (fuel : nat) (i stop step n ret : Z) : outcome Z :=
  if (stop <? i)%Z then Ok ret
  else match fuel with
       | O => Crash
       | S fuel =>
           let ret := Z.lor ret (bit (i mod n)) in
           if (2 ^ 31 <=? i + step)%Z then Crash else times_loop fuel (i + step) stop step n ret
       end.

Definition loop_fuel (i stop step : Z) : nat := Z.to_nat ((stop - i) / step + 1).

(** [parse_times] after the comma. *)
Definition parse_part (input : string) (min n ret : Z) : outcome Z :=
  let '(input, step) := match strchr "/" input with
                        | Some (a, b) => (a, strict_atoi b)
                        | None => (input, 1%Z) end in
  if (step <=? 0)%Z then Ok 0%Z
  else
    let '(begin, stop) := match strchr "-" input with
                          | Some (a, b) => (strict_atoi a, strict_atoi b)
                          | None => if strcmp_eq input "*" then (min, min + n - 1)%Z
                                    else (strict_atoi input, strict_atoi input)
                          end in
    if (begin <? min)%Z || (stop <? min)%Z then Ok 0%Z
    else times_loop (loop_fuel (begin - min) (stop - min) step) (begin - min) (stop - min) step n ret.

Fixpoint parse_times_go (fuel : nat) (input : string) (min n : Z) : outcome Z :=
  match fuel with
  | O => Crash
  | S fuel =>
      match strchr "," input with
      | None => parse_part input min n 0
      | Some (a, rest) =>
          match parse_times_go fuel rest min n with
          | Ok ret => if (ret =? 0)%Z then Ok 0%Z else parse_part a min n ret
          | r => r
          end
      end
  end.

(** Every call shortens the text. *)
Definition parse_times (input : string) (min n : Z) : outcome Z :=
  parse_times_go (S (String.length input)) input min n.

(** One %ms conversion: the word after blanks, and the rest. *)
Fixpoint take_word (s : string) : string * string :=
  match s with
  | "" => ("", "")
  | String c r => if isspace c then ("", s) else let '(w, rest) := take_word r in (String c w, rest)
  end.

(** The words of [sscanf(line, "%ms %ms %ms %ms %ms %n")], at most [n], and the text
    after them and the blanks that follow. *)
Fixpoint scan_words (n : nat) (s : string) : list string * string :=
  match n with
  | O => ([], ltrim isspace s)
  | S n =>
      let t := ltrim isspace s in
      if nonempty t then
        let '(w, rest) := take_word t in
        let '(ws, rest') := scan_words n rest in (w :: ws, rest')
      else ([], t)
  end.

(** A mask, or the jump to [end]. *)
Definition mask_or (o : outcome Z) (k : Z -> outcome (Z * option job_t)) : outcome (Z * option job_t) :=
  match o with
  | Ok m => if (m =? 0)%Z then Ok ((-1)%Z, None) else k m
  | Exit c => Exit c
  | Crash => Crash
  end.

Definition named_times (strings : list string) (input : string) (min n : Z) : outcome Z :=
  let m := parse_strings input strings 0 in
  if (m =? 0)%Z then parse_times input min n else Ok m.

(** [handle_line]: the result, and the job that is put in front of the list. *)
Definition handle_line (line : string) : outcome (Z * option job_t) :=
  match scan_words 5 line with
  | ([c0; c1; c2; c3; c4], command) =>
      mask_or (parse_times c0 0 60) (fun minutes =>
      mask_or (match parse_times c1 0 24 with Ok h => Ok (u32 h) | r => r end) (fun hours =>
      mask_or (match parse_times c2 1 31 with Ok d => Ok (u32 d) | r => r end) (fun doms =>
      mask_or (match named_times MONTHS c3 1 12 with Ok m => Ok (u16 m) | r => r end) (fun months =>
      mask_or (match named_times WEEKDAYS c4 0 7 with Ok d => Ok (u8 d) | r => r end) (fun dows =>
      Ok (0%Z, Some (mk_job minutes hours doms months dows command)))))))
  | ([], _) => Ok (0%Z, None)
  | _ => Ok ((-1)%Z, None)
  end.

(** The loop of [read_crontab]; the lines with a syntax error are only logged. *)
Fixpoint read_lines (lines : list string) (jobs : list job_t) : outcome (list job_t) :=
  match lines with
  | [] => Ok jobs
  | line :: rest =>
      let line := match strchr "#" line with Some (a, _) => a | None => line end in
      match handle_line line with
      | Ok (_, Some job) => read_lines rest (job :: jobs)
      | Ok (_, None) => read_lines rest jobs
      | Exit c => Exit c
      | Crash => Crash
      end
  end.

Variable file : string -> option string.

Definition read_crontab (name : string) (jobs : list job_t) : outcome (list job_t) :=
  match file name with
  | None => Ok jobs
  | Some content => read_lines (fgets_lines 16384 content) jobs
  end.

Definition hidden (d_name : string) : bool :=
  match d_name with String c _ => ceq c "." | "" => false end.

Fixpoint read_entries (names : list string) (jobs : list job_t) : outcome (list job_t) :=
  match names with
  | [] => Ok jobs
  | d :: rest =>
      if hidden d then read_entries rest jobs
      else match read_crontab d jobs with
           | Ok jobs' => read_entries rest jobs'
           | r => r
           end
  end.

(** [crondir]: the names of the directory, when it can be entered and read. *)
Definition read_crondir (crondir : option (list string)) : outcome (list job_t) :=
  match crondir with
  | None => Exit 1
  | Some names => read_entries names []
  end.

(** * The clock *)

Record tm := mk_tm { tm_min : Z; tm_hour : Z; tm_mday : Z; tm_mon : Z; tm_wday : Z }.

Definition has_bit (mask b : Z) : bool := negb (Z.land mask (bit b) =? 0)%Z.

(** The early returns of [check_job]; a job that is due is run. *)
Definition check_job (job : job_t) (t : tm) : bool :=
  if negb (has_bit (j_minutes job) (tm_min t)) then false
  else if negb (has_bit (j_hours job) (tm_hour t)) then false
  else if negb (has_bit (j_doms job) (tm_mday t - 1)) then false
  else if negb (has_bit (j_months job) (tm_mon t)) then false
  else if negb (has_bit (j_dows job) (tm_wday t)) then false
  else true.

Variable localtime : Z -> tm.

(** One round of [while (1)]: [t] is what time(2) returns after the sleep. The
    state is [minute]; the commands are those run_job starts. *)
Definition tick (jobs : list job_t) (minute t : Z) : Z * list string :=
  let now := localtime t in
  let minute := ((minute + 1) mod 60)%Z in
  if negb (tm_min now =? minute)%Z then (tm_min now, [])
  else (minute, map j_command (List.filter (fun job => check_job job now) jobs)).

(** The rounds for a sequence of readings of the clock. *)
Fixpoint run_clock (jobs : list job_t) (minute : Z) (times : list Z) : list (Z * string) :=
  match times with
  | [] => []
  | t :: rest =>
      let '(minute', cmds) := tick jobs minute t in
      map (fun c => (t, c)) cmds ++ run_clock jobs minute' rest
  end.

(** The time asked of sleep(3). *)
Definition sleep_time (t : Z) : Z := (60 - t mod 60)%Z.

(** [main] with the crontab directory, the first reading and the later ones. *)
Definition main (argc : Z) (crondir : option (list string)) (t0 : Z) (times : list Z)
    : outcome (list (Z * string)) :=
  if negb (argc =? 2)%Z then Exit (if (argc <? 2)%Z then 0 else 1)%Z
  else match read_crondir crondir with
       | Ok jobs => Ok (run_clock jobs (tm_min (localtime t0)) times)
       | Exit c => Exit c
       | Crash => Crash
       end.
End micrond.

(** * The language of fields *)

Inductive range :=
  | RStar
  | RNum (a : string)
  | RFromTo (a b : string).
Record item := mk_item { it_range : range; it_step : option string }.

Definition render_range (r : range) : string :=
  match r with RStar => "*" | RNum a => a | RFromTo a b => a +:+ "-" +:+ b end.
Definition render_item (it : item) : string :=
  render_range (it_range it)
  +:+ match it_step it with Some s => "/" +:+ s | None => "" end.
Fixpoint render_field (it : item) (rest : list item) : string :=
  match rest with
  | [] => render_item it
  | it' :: rest' => render_item it +:+ "," +:+ render_field it' rest'
  end.

(** A decimal numeral, and its value. *)
Definition numeral (s : string) : bool := nonempty s && sall isdigit s.
Definition num (s : string) : Z := fst (digits 10 0 s).

Definition bounds (r : range) (min n : Z) : Z * Z :=
  match r with
  | RStar => (min, min + n - 1)%Z
  | RNum a => (num a, num a)
  | RFromTo a b => (num a, num b)
  end.
Definition step_of (it : item) : Z := match it_step it with Some s => num s | None => 1%Z end.

(** Numerals of the range of int, an interval that starts at [min] or later and
    is not empty, and a step that does not leave the range of int. *)
Definition item_wf (min n : Z) (it : item) : Prop :=
  let '(b, e) := bounds (it_range it) min n in
  match it_range it with
  | RStar => True
  | RNum a => numeral a = true /\ (num a < 2 ^ 31)%Z
  | RFromTo a b => numeral a = true /\ numeral b = true /\ (num a < 2 ^ 31)%Z /\ (num b < 2 ^ 31)%Z
  end /\
  match it_step it with Some s => numeral s = true /\ (num s < 2 ^ 31)%Z | None => True end /\
  (0 < step_of it)%Z /\ (min <= b <= e)%Z /\ (e - min + step_of it < 2 ^ 31)%Z.

(** The item selects the value [min + k]. *)
Definition item_has (min n : Z) (it : item) (k : Z) : Prop :=
  let '(b, e) := bounds (it_range it) min n in
  exists j, (0 <= j)%Z /\ (b + j * step_of it <= e)%Z /\ ((b - min + j * step_of it) mod n = k)%Z.

(** * Lemmas *)

Lemma digit_base c : isdigit c = true -> exists d, base_digit 10 c = Some d /\ (0 <= d)%Z.
Proof.
  intros Hc. unfold base_digit, digit_val. rewrite Hc. unfold isdigit, in_range in Hc. bprop.
  apply N.leb_le in H, H0.
  exists (Z.of_N (byte c) - 48)%Z. destruct (Z.ltb_spec (Z.of_N (byte c) - 48) 10); [|lia].
  split; [done|lia].
Qed.

Lemma digits_numeral acc s : (0 <= acc)%Z ->
  sall isdigit s = true -> snd (digits 10 acc s) = "" /\ (0 <= fst (digits 10 acc s))%Z.
Proof.
  revert acc. induction s as [|c s IH]; intros acc Ha; [done|]. cbn [sall]. intros H. bprop.
  destruct (digit_base c H) as (d & Ed & Hd). cbn [digits]. rewrite Ed. apply IH; [lia|done].
Qed.

Lemma num_nonneg s : numeral s = true -> (0 <= num s)%Z.
Proof. unfold numeral. intros H. bprop. by apply (digits_numeral 0 s). Qed.

Lemma strict_atoi_num long s :
  (32 <= long)%Z -> numeral s = true -> (num s < 2 ^ 31)%Z -> strict_atoi long s = num s.
Proof.
  intros Hl Hs Hn. pose proof (num_nonneg s Hs) as H0.
  assert (strto 10 s = (false, num s, "")) as E.
  { unfold numeral in Hs. bprop. destruct s as [|c s]; [done|].
    pose proof (digits_numeral 0 (String c s) ltac:(lia) H1) as [Hr _]. cbn [sall] in H1. bprop.
    assert (isspace c = false /\ ceq c "-" = false /\ ceq c "+" = false) as (E1 & E2 & E3).
    { destruct c as [[] [] [] [] [] [] [] []];
        first [discriminate H1|repeat split; reflexivity]. }
    unfold strto. cbn [ltrim]. rewrite E1. cbn [sign]. rewrite E2, E3.
    unfold number_base. change (10 =? 10)%Z with true. cbv iota.
    destruct (digit_base c H1) as (d & Ed & _).
    unfold starts_digit. rewrite Ed. unfold num in *.
    destruct (digits 10 0 (String c s)) as [m r]. simpl in Hr. subst. done. }
  unfold strict_atoi, strtol. rewrite E. cbn [nonempty].
  assert (2 ^ 31 <= 2 ^ (long - 1))%Z by (apply Z.pow_le_mono_r; lia).
  rewrite to_i32_small; lia.
Qed.

Lemma bit_testbit b k : (0 <= b < 64)%Z -> (0 <= k)%Z -> Z.testbit (bit b) k = (b =? k)%Z.
Proof.
  intros Hb Hk. unfold bit. rewrite Z.shiftl_1_l, u64_small; [apply Z.pow2_bits_eqb; lia|].
  split; [lia|]. apply Z.pow_lt_mono_r; lia.
Qed.

(** Bits below [n] only: a number below [2 ^ n]. *)
Lemma low_bits_bound m n :
  (0 <= n)%Z -> (0 <= m)%Z -> (forall k, (n <= k)%Z -> Z.testbit m k = false) -> (m < 2 ^ n)%Z.
Proof.
  intros Hn Hm Hk. destruct (Z.eq_dec m 0) as [->|]; [lia|].
  apply Z.log2_lt_pow2; [lia|]. destruct (Z.lt_ge_cases (Z.log2 m) n) as [|Hle]; [done|].
  specialize (Hk _ Hle). rewrite Z.bit_log2 in Hk by lia. done.
Qed.

Lemma times_loop_bits fuel i stop step n ret :
  (0 < step)%Z -> (0 <= i)%Z -> (0 < n <= 64)%Z -> (stop + step < 2 ^ 31)%Z ->
  (0 <= ret)%Z -> (stop < i + Z.of_nat fuel * step)%Z ->
  exists m, times_loop fuel i stop step n ret = Ok m /\ (0 <= m)%Z /\
    forall k, (0 <= k)%Z ->
      (Z.testbit m k = true <->
       Z.testbit ret k = true \/
       exists j, (0 <= j)%Z /\ (i + j * step <= stop)%Z /\ ((i + j * step) mod n = k)%Z).
Proof.
  intros Hs. revert i ret. induction fuel as [|fuel IH]; intros i ret Hi Hn Hst Hr Hf.
  - exists ret. cbn [times_loop]. destruct (Z.ltb_spec stop i); [|lia].
    split; [done|]. split; [done|]. intros k Hk. split; [by left|].
    intros [?|(j & ? & ? & _)]; [done|nia].
  - cbn [times_loop]. destruct (Z.ltb_spec stop i) as [|Hle].
    + exists ret. split; [done|]. split; [done|]. intros k Hk. split; [by left|].
      intros [?|(j & ? & ? & _)]; [done|nia].
    + destruct (Z.leb_spec (2 ^ 31) (i + step)); [lia|].
      assert (0 <= bit (i mod n))%Z by apply u64_range.
      destruct (IH (i + step)%Z (Z.lor ret (bit (i mod n)))) as (m & E & Hm & Hk);
        [lia..|by apply Z.lor_nonneg|lia|].
      exists m. split; [done|]. split; [done|]. intros k Hk0. rewrite Hk by done.
      rewrite Z.lor_spec, orb_true_iff.
      rewrite bit_testbit by (try done; pose proof (Z.mod_pos_bound i n); lia).
      rewrite Z.eqb_eq. split.
      * intros [[?| <-]|(j & Hj & Hle2 & Hmod)]; [by left|right|right].
        -- exists 0%Z. rewrite Z.mul_0_l, Z.add_0_r. done.
        -- exists (j + 1)%Z. split; [lia|].
           replace (i + (j + 1) * step)%Z with (i + step + j * step)%Z by lia. done.
      * intros [?|(j & Hj & Hle2 & Hmod)]; [by left; left|].
        destruct (Z.eq_dec j 0) as [->|Hne].
        -- left. right. rewrite <- Hmod. f_equal. lia.
        -- right. exists (j - 1)%Z. split; [lia|].
           replace (i + step + (j - 1) * step)%Z with (i + j * step)%Z by lia. done.
Qed.

Lemma loop_fuel_enough i stop step :
  (0 < step)%Z -> (stop < i + Z.of_nat (loop_fuel i stop step) * step)%Z.
Proof.
  intros Hs. unfold loop_fuel. pose proof (Z.div_mod (stop - i) step).
  pose proof (Z.mod_pos_bound (stop - i) step).
  destruct (Z.le_gt_cases 0 ((stop - i) / step + 1)); [rewrite Z2Nat.id by lia; nia|].
  assert (Z.to_nat ((stop - i) / step + 1) = 0%nat) as -> by lia. nia.
Qed.

(** Characters of ranges and steps. *)
Definition range_char (c : ascii) : bool := isdigit c || ceq c "*" || ceq c "-".

Lemma numeral_chars (p : ascii -> bool) s :
  (forall c, isdigit c = true -> p c = true) -> numeral s = true -> sall p s = true.
Proof. unfold numeral. intros Hp H. bprop. by eapply sall_impl. Qed.

Lemma digit_other c d : isdigit c = true -> isdigit d = false -> negb (ceq c d) = true.
Proof.
  intros Hc Hd. destruct (ceq c d) eqn:E; [|done]. apply ceq_true in E as ->. congruence.
Qed.

Lemma render_range_chars min n it :
  item_wf min n it ->
  sall (fun c => negb (ceq c "/") && negb (ceq c ",")) (render_range (it_range it)) = true.
Proof.
  unfold item_wf. assert (forall s, numeral s = true ->
    sall (fun c => negb (ceq c "/") && negb (ceq c ",")) s = true) as Hs.
  { intros s Hs. eapply numeral_chars; [|exact Hs]. intros c Hc. cbv beta.
    rewrite (digit_other c "/" Hc eq_refl), (digit_other c "," Hc eq_refl). done. }
  destruct (it_range it) as [|a|a b]; cbn [bounds render_range]; intros [H _].
  - done.
  - apply Hs, H.
  - destruct H as (Ha & Hb & _). rewrite sall_app. cbn [String.append sall].
    by rewrite (Hs a Ha), (Hs b Hb).
Qed.

Section fields.
Variables long min n : Z.
Hypothesis Hlong : (32 <= long)%Z.
Hypothesis Hmin : (0 <= min)%Z.
Hypothesis Hn : (0 < n <= 64)%Z.

Lemma render_item_chars it :
  item_wf min n it -> sall (fun c => negb (ceq c ",")) (render_item it) = true.
Proof.
  intros Hwf. pose proof (render_range_chars min n it Hwf) as Hr. unfold render_item.
  rewrite sall_app. apply andb_true_iff. split.
  - eapply sall_impl; [|exact Hr]. intros c. cbv beta. by destruct (ceq c "/").
  - unfold item_wf in Hwf. destruct (bounds _ _ _), (it_step it) as [s|]; [|done].
    destruct Hwf as (_ & [Hs _] & _). cbn [String.append sall].
    apply (numeral_chars _ s); [|done]. intros c Hc. by apply digit_other.
Qed.

(** What the two parts of an item are read as. *)
Lemma split_step it :
  item_wf min n it ->
  (match strchr "/" (render_item it) with
   | Some (a, b) => (a, strict_atoi long b) | None => (render_item it, 1%Z) end) =
  (render_range (it_range it), step_of it).
Proof.
  intros Hwf. pose proof (render_range_chars min n it Hwf) as Hr.
  assert (sall (fun d => negb (ceq d "/")) (render_range (it_range it)) = true) as Hr'.
  { eapply sall_impl; [|exact Hr]. intros c. cbv beta. by destruct (ceq c "/"). }
  unfold render_item, step_of in *. unfold item_wf in Hwf. destruct (bounds _ _ _).
  destruct (it_step it) as [s|] eqn:Es.
  - destruct Hwf as (_ & [Hs Hs2] & _). cbn [String.append]. rewrite strchr_app by done.
    by rewrite strict_atoi_num.
  - rewrite sapp_nil_r. by rewrite (proj2 (strchr_none _ _)).
Qed.

Lemma read_range it :
  item_wf min n it ->
  (match strchr "-" (render_range (it_range it)) with
   | Some (a, b) => (strict_atoi long a, strict_atoi long b)
   | None => if strcmp_eq (render_range (it_range it)) "*" then (min, min + n - 1)%Z
             else (strict_atoi long (render_range (it_range it)),
                   strict_atoi long (render_range (it_range it)))
   end) = bounds (it_range it) min n.
Proof.
  intros Hwf. unfold item_wf in Hwf.
  assert (forall s, numeral s = true -> sall (fun c => negb (ceq c "-")) s = true) as Hs.
  { intros s Hs. eapply numeral_chars; [|exact Hs]. intros c Hc. by apply digit_other. }
  destruct (it_range it) as [|a|a b]; cbn [bounds render_range] in *.
  - done.
  - destruct Hwf as ([Ha Ha2] & _). rewrite (proj2 (strchr_none _ _)) by auto.
    assert (strcmp_eq a "*" = false) as ->.
    { apply strcmp_eq_false. by intros ->. }
    by rewrite strict_atoi_num.
  - destruct Hwf as ((Ha & Hb & Ha2 & Hb2) & _). cbn [String.append].
    rewrite strchr_app by auto. by rewrite !strict_atoi_num.
Qed.

Lemma parse_part_item it ret :
  item_wf min n it -> (0 <= ret)%Z ->
  exists m, parse_part long (render_item it) min n ret = Ok m /\ (0 <= m)%Z /\
    forall k, (0 <= k)%Z ->
      (Z.testbit m k = true <-> Z.testbit ret k = true \/ item_has min n it k).
Proof.
  intros Hwf Hr. unfold parse_part. rewrite split_step, read_range by done.
  unfold item_wf in Hwf. unfold item_has. destruct (bounds (it_range it) min n) as [b e].
  destruct Hwf as (_ & _ & Hs & Hb & Hmax).
  destruct (Z.leb_spec (step_of it) 0); [lia|].
  destruct (Z.ltb_spec b min); [lia|]. destruct (Z.ltb_spec e min); [lia|]. cbn [orb].
  destruct (times_loop_bits (loop_fuel (b - min) (e - min) (step_of it)) (b - min) (e - min)
    (step_of it) n ret) as (m & E & Hm & Hk); try lia; [by apply loop_fuel_enough|].
  exists m. split; [done|]. split; [done|]. intros k Hk0. rewrite Hk by done.
  split; (intros [?|(j & ? & ? & ?)]; [by left|right; exists j; split_and!; try done; lia]).
Qed.

Lemma item_has_some it : item_wf min n it -> exists k, (0 <= k < n)%Z /\ item_has min n it k.
Proof.
  unfold item_wf, item_has. destruct (bounds (it_range it) min n) as [b e].
  intros (_ & _ & _ & Hb & _). exists ((b - min) mod n)%Z.
  split; [apply Z.mod_pos_bound; lia|]. exists 0%Z. split; [lia|]. split; [lia|]. f_equal. lia.
Qed.

Lemma parse_times_fuel it rest fuel :
  Forall (item_wf min n) (it :: rest) -> (String.length (render_field it rest) < fuel)%nat ->
  exists m, parse_times_go long fuel (render_field it rest) min n = Ok m /\ (0 < m)%Z /\
    forall k, (0 <= k)%Z ->
      (Z.testbit m k = true <-> Exists (fun i => item_has min n i k) (it :: rest)).
Proof.
  revert it fuel. induction rest as [|it' rest IH]; intros it [|fuel] Hwf Hf; try lia;
    apply Forall_cons in Hwf as [Hit Hwf]; cbn [parse_times_go].
  - cbn [render_field]. rewrite (proj2 (strchr_none _ _)) by by apply render_item_chars.
    destruct (parse_part_item it 0 Hit ltac:(lia)) as (m & E & Hm & Hk).
    exists m. split; [done|]. destruct (item_has_some it Hit) as (k0 & Hk0 & Hhas). split.
    + destruct (Z.eq_dec m 0) as [->|]; [|lia].
      assert (Z.testbit 0 k0 = true) as Hb by (apply Hk; [lia|by right]).
      by rewrite Z.bits_0 in Hb.
    + intros k Hk1. rewrite Hk by done. rewrite Exists_cons, Exists_nil, Z.bits_0. naive_solver.
  - change (render_field it (it' :: rest)) with
      (render_item it +:+ String "," (render_field it' rest)) in *.
    rewrite strchr_app by by apply render_item_chars.
    rewrite slen_app in Hf. cbn [String.length] in Hf.
    destruct (IH it' fuel Hwf ltac:(lia)) as (r & Er & Hr & Hkr). rewrite Er.
    destruct (Z.eqb_spec r 0); [lia|].
    destruct (parse_part_item it r Hit ltac:(lia)) as (m & E & Hm & Hk).
    exists m. split; [done|]. destruct (item_has_some it Hit) as (k0 & Hk0 & Hhas). split.
    + destruct (Z.eq_dec m 0) as [->|]; [|lia].
      assert (Z.testbit 0 k0 = true) as Hb by (apply Hk; [lia|by right]).
      by rewrite Z.bits_0 in Hb.
    + intros k Hk1. rewrite Hk, Hkr by done. rewrite (Exists_cons _ it). tauto.
Qed.

Lemma item_has_range it k : item_has min n it k -> (0 <= k < n)%Z.
Proof.
  unfold item_has. destruct (bounds _ _ _). intros (j & _ & _ & <-). apply Z.mod_pos_bound. lia.
Qed.

(** A field is read as the mask of the values it selects. *)
Lemma parse_times_field it rest :
  Forall (item_wf min n) (it :: rest) ->
  exists m, parse_times long (render_field it rest) min n = Ok m /\ (0 < m < 2 ^ n)%Z /\
    forall k, (0 <= k)%Z ->
      (Z.testbit m k = true <-> Exists (fun i => item_has min n i k) (it :: rest)).
Proof.
  intros Hwf. destruct (parse_times_fuel it rest (S (String.length (render_field it rest))) Hwf)
    as (m & E & Hm & Hk); [lia|].
  exists m. split; [done|]. split; [|done]. split; [done|].
  apply low_bits_bound; [lia|lia|]. intros k Hk0. apply not_true_iff_false. intros Hb.
  apply Hk in Hb; [|lia]. apply Exists_exists in Hb as (i & _ & Hi).
  apply item_has_range in Hi. lia.
Qed.

(** The text of a field: no blank, and a first character that no name has. *)
Lemma field_text it rest :
  Forall (item_wf min n) (it :: rest) ->
  sall (fun c => negb (isspace c)) (render_field it rest) = true /\
  exists c r, render_field it rest = String c r /\ (isdigit c || ceq c "*") = true.
Proof.
  assert (forall s, numeral s = true -> sall (fun c => negb (isspace c)) s = true) as Hs.
  { intros s Hs. eapply numeral_chars; [|exact Hs]. intros c Hc.
    destruct c as [[] [] [] [] [] [] [] []]; first [discriminate Hc|reflexivity]. }
  assert (forall it, item_wf min n it ->
    sall (fun c => negb (isspace c)) (render_item it) = true /\
    exists c r, render_item it = String c r /\ (isdigit c || ceq c "*") = true) as Hi.
  { intros [r st]. unfold item_wf, render_item. cbn [it_range it_step].
    destruct (bounds r min n) as [b e]. intros (Hr & Hst & _).
    assert (sall (fun c => negb (isspace c)) (render_range r) = true /\
      exists c t, render_range r = String c t /\ (isdigit c || ceq c "*") = true) as [H1 (c & t & Et & Hc)].
    { destruct r as [|x|x y]; cbn [render_range] in *.
      - split; [done|]. by exists "*"%char, "".
      - destruct Hr as [Hx _]. split; [by apply Hs|]. unfold numeral in Hx. bprop.
        destruct x as [|c x]; [done|]. exists c, x. cbn [sall] in *. bprop. by rewrite H0.
      - destruct Hr as (Hx & Hy & _). split.
        + rewrite sall_app. cbn [String.append sall]. by rewrite (Hs x Hx), (Hs y Hy).
        + unfold numeral in Hx. bprop. destruct x as [|c x]; [done|].
          exists c, (x +:+ "-" +:+ y). cbn [sall] in *. bprop. by rewrite H0. }
    rewrite sall_app, H1. split.
    - destruct st as [s|]; [|done]. destruct Hst as [Hst _]. cbn [String.append sall].
      by rewrite (Hs s Hst).
    - rewrite Et. eauto. }
  revert it. induction rest as [|it' rest IH]; intros it Hwf; apply Forall_cons in Hwf as [Hit Hwf].
  - by apply Hi.
  - destruct (Hi it Hit) as [H1 (c & r & E & Hc)]. destruct (IH it' Hwf) as [H2 _].
    cbn [render_field]. rewrite sall_app, H1. cbn [String.append sall]. rewrite H2.
    split; [done|]. rewrite E. eauto.
Qed.
End fields.

Lemma has_bit_testbit m b : (0 <= b < 64)%Z -> has_bit m b = Z.testbit m b.
Proof.
  intros Hb. unfold has_bit.
  assert (forall k, (0 <= k)%Z -> Z.testbit (Z.land m (bit b)) k = Z.testbit m k && (b =? k)%Z) as Hk.
  { intros k Hk. by rewrite Z.land_spec, bit_testbit by done. }
  destruct (Z.testbit m b) eqn:E.
  - apply negb_true_iff, Z.eqb_neq. intros E0. specialize (Hk b ltac:(lia)).
    by rewrite E0, Z.bits_0, E, Z.eqb_refl in Hk.
  - apply negb_false_iff, Z.eqb_eq. apply Z.bits_inj'. intros k Hk0. rewrite Hk, Z.bits_0 by done.
    destruct (Z.eqb_spec b k) as [<-|]; [by rewrite E|by rewrite andb_false_r].
Qed.

Lemma take_word_app w rest :
  sall (fun c => negb (isspace c)) w = true ->
  take_word (w +:+ String " " rest) = (w, String " " rest).
Proof.
  induction w as [|c w IH]; cbn [sall]; intros H; [done|]. bprop.
  cbn [String.append take_word]. by rewrite H, IH.
Qed.

Lemma scan_word n w rest :
  w <> "" -> sall (fun c => negb (isspace c)) w = true ->
  scan_words (S n) (w +:+ String " " rest) =
  (let '(ws, r) := scan_words n (String " " rest) in (w :: ws, r)).
Proof.
  intros Hne Hw. cbn [scan_words].
  assert (ltrim isspace (w +:+ String " " rest) = w +:+ String " " rest) as ->.
  { destruct w as [|c w]; [done|]. cbn [sall] in Hw. bprop. cbn [String.append ltrim]. by rewrite H. }
  assert (nonempty (w +:+ String " " rest) = true) as -> by by destruct w.
  by rewrite take_word_app.
Qed.

Lemma scan_blank n s : scan_words n (String " " s) = scan_words n s.
Proof. by destruct n. Qed.

Lemma no_name c r strings i :
  (isdigit c || ceq c "*") = true ->
  forallb (fun s => match s with String d _ => islower d | "" => false end) strings = true ->
  parse_strings (String c r) strings i = 0%Z.
Proof.
  intros Hc. assert (tolower c = c /\ islower c = false) as [Ec Hl].
  { by destruct c as [[] [] [] [] [] [] [] []]; vm_compute in Hc |- *. }
  clear Hc. revert i. induction strings as [|s strings IH]; intros i; [done|].
  cbn [forallb parse_strings]. intros H. bprop. destruct s as [|d s]; [done|].
  assert (strcaseeq (String c r) (String d s) = false) as ->; [|by apply IH].
  unfold strcaseeq. apply String.eqb_neq. cbn [smap]. intros [= E _].
  assert (tolower d = d) as Ed.
  { clear - H. by destruct d as [[] [] [] [] [] [] [] []]; vm_compute in H |- *. }
  rewrite Ec, Ed in E. subst. congruence.
Qed.

(** * Entries of a crontab *)

Record entry := mk_entry {
  e_minute : item * list item;
  e_hour : item * list item;
  e_dom : item * list item;
  e_month : item * list item;
  e_dow : item * list item;
  e_command : string
}.

Definition text (f : item * list item) : string := render_field (fst f) (snd f).
Definition render_entry (e : entry) : string :=
  text (e_minute e) +:+ String " " (text (e_hour e) +:+ String " " (text (e_dom e)
  +:+ String " " (text (e_month e) +:+ String " " (text (e_dow e)
  +:+ String " " (e_command e))))).

Definition field_wf (min n : Z) (f : item * list item) : Prop :=
  Forall (item_wf min n) (fst f :: snd f).
Definition selects (min n : Z) (f : item * list item) (k : Z) : Prop :=
  Exists (fun i => item_has min n i k) (fst f :: snd f).

Definition entry_wf (e : entry) : Prop :=
  field_wf 0 60 (e_minute e) /\ field_wf 0 24 (e_hour e) /\ field_wf 1 31 (e_dom e) /\
  field_wf 1 12 (e_month e) /\ field_wf 0 7 (e_dow e).

Definition entry_due (e : entry) (t : tm) : Prop :=
  selects 0 60 (e_minute e) (tm_min t) /\ selects 0 24 (e_hour e) (tm_hour t) /\
  selects 1 31 (e_dom e) (tm_mday t - 1) /\ selects 1 12 (e_month e) (tm_mon t) /\
  selects 0 7 (e_dow e) (tm_wday t).

(** A time of day and date as localtime gives them. *)
Definition tm_wf (t : tm) : Prop :=
  (0 <= tm_min t < 60)%Z /\ (0 <= tm_hour t < 24)%Z /\ (1 <= tm_mday t <= 31)%Z /\
  (0 <= tm_mon t < 12)%Z /\ (0 <= tm_wday t < 7)%Z.

(** * Properties *)

(** C39: a crontab line is understood as cron documents it: a line of five fields
    of lists, ranges and steps and a command becomes a job with that command,
    and the job is due at a time exactly when every field selects the time's
    value. *)
Theorem crontab_line_due long e (Hlong : (32 <= long)%Z) (Hwf : entry_wf e) :
  exists job,
    handle_line long (render_entry e) = Ok (0%Z, Some job) /\
    j_command job = ltrim isspace (e_command e) /\
    forall t, tm_wf t -> (check_job job t = true <-> entry_due e t).
Proof.
  destruct Hwf as (W0 & W1 & W2 & W3 & W4).
  destruct (field_text 0 60 _ _ W0) as [S0 (c0 & r0 & E0 & _)].
  destruct (field_text 0 24 _ _ W1) as [S1 (c1 & r1 & E1 & _)].
  destruct (field_text 1 31 _ _ W2) as [S2 (c2 & r2 & E2 & _)].
  destruct (field_text 1 12 _ _ W3) as [S3 (c3 & r3 & E3 & N3)].
  destruct (field_text 0 7 _ _ W4) as [S4 (c4 & r4 & E4 & N4)].
  destruct (parse_times_field long 0 60 Hlong ltac:(lia) _ _ W0) as (m0 & P0 & B0 & K0).
  destruct (parse_times_field long 0 24 Hlong ltac:(lia) _ _ W1) as (m1 & P1 & B1 & K1).
  destruct (parse_times_field long 1 31 Hlong ltac:(lia) _ _ W2) as (m2 & P2 & B2 & K2).
  destruct (parse_times_field long 1 12 Hlong ltac:(lia) _ _ W3) as (m3 & P3 & B3 & K3).
  destruct (parse_times_field long 0 7 Hlong ltac:(lia) _ _ W4) as (m4 & P4 & B4 & K4).
  exists (mk_job m0 m1 m2 m3 m4 (ltrim isspace (e_command e))).
  assert (scan_words 5 (render_entry e) =
    ([text (e_minute e); text (e_hour e); text (e_dom e); text (e_month e); text (e_dow e)],
     ltrim isspace (e_command e))) as Escan.
  { unfold render_entry, text. rewrite scan_word by first [exact S0|by rewrite E0]. rewrite scan_blank.
    rewrite scan_word by first [exact S1|by rewrite E1]. rewrite scan_blank.
    rewrite scan_word by first [exact S2|by rewrite E2]. rewrite scan_blank.
    rewrite scan_word by first [exact S3|by rewrite E3]. rewrite scan_blank.
    rewrite scan_word by first [exact S4|by rewrite E4]. rewrite scan_blank. done. }
  split; [|split; [done|]].
  - unfold handle_line. rewrite Escan. unfold text in *. rewrite P0, P1, P2.
    unfold named_times. rewrite E3, no_name, E4, no_name by done. rewrite <- E3, <- E4, P3, P4.
    cbn [Z.eqb]. unfold mask_or.
    rewrite (u32_small m1), (u32_small m2), (u16_small m3) by lia.
    assert (u8 m4 = m4) as -> by (apply Z.mod_small; lia).
    repeat match goal with |- context [(?m =? 0)%Z] => destruct (Z.eqb_spec m 0); [lia|] end.
    done.
  - intros t (T0 & T1 & T2 & T3 & T4). unfold check_job, entry_due, selects. cbn.
    rewrite !has_bit_testbit by lia.
    rewrite <- K0, <- K1, <- K2, <- K3, <- K4 by lia.
    destruct (Z.testbit m0 (tm_min t)), (Z.testbit m1 (tm_hour t)),
      (Z.testbit m2 (tm_mday t - 1)), (Z.testbit m3 (tm_mon t)), (Z.testbit m4 (tm_wday t));
      cbn; intuition congruence.
Qed.

(** The readings of a clock that is not set while the daemon sleeps: each sleep
    lasts at least the time asked for, and less than a minute more. *)
Inductive wakes : Z -> list Z -> Prop :=
  | wakes_nil t : wakes t []
  | wakes_cons t t' rest :
      (t + sleep_time t <= t' < t + sleep_time t + 60)%Z -> wakes t' rest ->
      wakes t (t' :: rest).

Definition due_jobs (jobs : list job_t) (now : tm) : list string :=
  map j_command (List.filter (fun job => check_job job now) jobs).

(** The minute on the clock is the one after that of the previous reading. *)
Definition minute_follows (localtime : Z -> tm) (prev t : Z) : Prop :=
  tm_min (localtime t) = ((tm_min (localtime prev) + 1) mod 60)%Z.
#[export] Instance minute_follows_dec localtime prev t : Decision (minute_follows localtime prev t).
Proof. unfold minute_follows. apply _. Defined.

(** The jobs a round starts, after the round or start at [prev]. *)
Definition round (localtime : Z -> tm) (jobs : list job_t) (prev t : Z) : list (Z * string) :=
  if decide (minute_follows localtime prev t)
  then map (fun c => (t, c)) (due_jobs jobs (localtime t)) else [].

Lemma tick_round localtime jobs prev t :
  let '(minute, cmds) := tick localtime jobs (tm_min (localtime prev)) t in
  minute = tm_min (localtime t) /\ map (fun c => (t, c)) cmds = round localtime jobs prev t.
Proof.
  unfold tick, round. destruct (Z.eqb_spec (tm_min (localtime t))
    ((tm_min (localtime prev) + 1) mod 60)) as [E|E]; cbn [negb].
  - by rewrite decide_True.
  - by rewrite decide_False.
Qed.

Lemma run_clock_rounds localtime jobs t0 times :
  run_clock localtime jobs (tm_min (localtime t0)) times =
  concat (zip_with (round localtime jobs) (t0 :: times) times).
Proof.
  revert t0. induction times as [|t times IH]; intros t0; [done|].
  cbn [run_clock zip_with concat]. pose proof (tick_round localtime jobs t0 t) as Ht.
  destruct (tick localtime jobs (tm_min (localtime t0)) t) as [minute cmds].
  destruct Ht as [-> ->]. by rewrite IH.
Qed.

Lemma wakes_minute t t' :
  (t + sleep_time t <= t' < t + sleep_time t + 60)%Z -> (t' / 60 = t / 60 + 1)%Z.
Proof.
  unfold sleep_time. intros H. pose proof (Z.div_mod t 60).
  symmetry. apply (Z.div_unique t' 60 (t / 60 + 1) (t' - 60 * (t / 60 + 1))); lia.
Qed.

(** C40: when jobs are started. Whatever the clock reads, a round starts the jobs
    that are due at its reading, once each and in the order of the list, if the
    minute on the clock is the one after that of the previous reading, and
    nothing otherwise. (So after a change of the clock to another minute a round
    is skipped; a change by whole hours goes unnoticed, and the jobs due at the
    new time are started.) While the clock is not set, each sleep ends less than
    a minute late, and minutes on the clock follow each other, there is
    exactly one round in every minute, and no round is skipped. *)
Theorem runs_once_a_minute localtime jobs t0 times :
  run_clock localtime jobs (tm_min (localtime t0)) times =
    concat (zip_with (round localtime jobs) (t0 :: times) times) /\
  (wakes t0 times ->
   (forall t t', (t' / 60 = t / 60 + 1)%Z -> minute_follows localtime t t') ->
   map (fun t => (t / 60)%Z) times =
     map (fun i => (t0 / 60 + 1 + Z.of_nat i)%Z) (seq 0 (length times)) /\
   run_clock localtime jobs (tm_min (localtime t0)) times =
     concat (map (fun t => map (fun c => (t, c)) (due_jobs jobs (localtime t))) times)).
Proof.
  split; [apply run_clock_rounds|]. intros Hw Hz. rewrite run_clock_rounds.
  induction Hw as [t|t t' rest Ht _ IH]; [done|]. apply wakes_minute in Ht.
  destruct IH as [IH1 IH2]. split.
  - cbn [map length seq]. rewrite <- seq_shift, map_map, IH1, Ht. f_equal; [lia|].
    apply map_ext. intros i. lia.
  - cbn [zip_with map concat]. unfold round at 1. rewrite decide_True by by apply Hz.
    f_equal. exact IH2.
Qed.

(** * Examples *)

Definition demo_item (r : range) (s : option string) : item * list item := (mk_item r s, []).
Definition demo_entry : entry :=
  mk_entry (mk_item (RFromTo "10" "20") (Some "5"), [mk_item (RNum "59") None])
    (demo_item RStar (Some "2")) (demo_item RStar None) (demo_item RStar None)
    (demo_item (RFromTo "1" "7") None) "echo hi".

Example demo_line :
  render_entry demo_entry = "10-20/5,59 */2 * * 1-7 echo hi" /\
  handle_line 64 (render_entry demo_entry) =
  Ok (0%Z, Some (mk_job (2 ^ 10 + 2 ^ 15 + 2 ^ 20 + 2 ^ 59) 5592405 2147483647 4095 127 "echo hi")).
Proof. split; vm_compute; reflexivity. Qed.

Lemma crontab_line_due_witness :
  exists job, handle_line 32 (render_entry demo_entry) = Ok (0%Z, Some job) /\
              check_job job (mk_tm 15 4 31 11 0) = true.
Proof.
  destruct (crontab_line_due 32 demo_entry) as (job & E & _ & Hdue).
  - lia.
  - split_and!; repeat constructor; vm_compute; done.
  - exists job. split; [exact E|]. apply (proj2 (Hdue (mk_tm 15 4 31 11 0)
      ltac:(unfold tm_wf; simpl; lia))).
    split_and!; apply Exists_cons_hd.
    + exists 1%Z. split_and!; [lia|vm_compute; discriminate|reflexivity].
    + exists 2%Z. split_and!; [lia|vm_compute; discriminate|reflexivity].
    + exists 30%Z. split_and!; [lia|vm_compute; discriminate|reflexivity].
    + exists 11%Z. split_and!; [lia|vm_compute; discriminate|reflexivity].
    + exists 6%Z. split_and!; [lia|vm_compute; discriminate|reflexivity].
Defined.

Definition demo_localtime (t : Z) : tm := mk_tm ((t / 60) mod 60) ((t / 3600) mod 24) 1 0 4.

(** Three minutes with late wake-ups, and a change of the clock by two hours and
    by seven minutes. *)
Definition demo_jobs : list job_t := [mk_job 14 16777215 2147483647 4095 127 "x"].

Lemma runs_once_a_minute_witness :
  run_clock demo_localtime demo_jobs (tm_min (demo_localtime 50)) [61; 125; 180]%Z
    = [(61, "x"); (125, "x"); (180, "x")]%Z /\
  run_clock demo_localtime demo_jobs (tm_min (demo_localtime 50)) [7260; 7740; 7800]%Z
    = [(7260, "x")]%Z.
Proof.
  split.
  - destruct (proj2 (runs_once_a_minute demo_localtime demo_jobs 50 [61; 125; 180]%Z))
      as [_ E].
    + repeat constructor; vm_compute; done.
    + intros t t' H. unfold minute_follows, demo_localtime, tm_min. rewrite H.
      by rewrite Zplus_mod_idemp_l.
    + etrans; [exact E|]. vm_compute. reflexivity.
  - etrans; [apply (proj1 (runs_once_a_minute demo_localtime demo_jobs 50 _))|].
    vm_compute. reflexivity.
Defined.
