(* ===== verification/BmtFlash.v ===== *)
(** mtk_bmt: the NAND driver below, the geometry, and the helpers the mapping
    schemes share (src/target/linux/generic/files/drivers/mtd/nand/mtk_bmt.h and
    mtk_bmt.c, [bbt_nand_copy] and [mapping_block_in_range]). The functions of
    the NAND driver that mtk_bmt_replace_ops saves are the class [NandChip];
    bytes are integers. *)
From S2P Require Import Prelude CNum.
Open Scope Z_scope.
Open Scope list_scope.

(** What a read returns: the result, [retlen], [oobretlen], the data and the
    out-of-band bytes. *)
Record read_result := mk_read {
  rd_ret : Z; rd_retlen : Z; rd_oobretlen : Z; rd_data : list Z; rd_oob : list Z
}.

(** [_read_oob], [_write_oob], [_erase], [_block_isbad] and [_block_markbad]. *)
Class NandChip (N : Type) := {
  (** address, [len], [ooboffs], [ooblen] *)
  chip_read : N -> Z -> Z -> Z -> Z -> read_result;
  (** address, data, [ooboffs], out-of-band bytes: result, [retlen], [oobretlen] *)
  chip_write : N -> Z -> list Z -> Z -> list Z -> Z * Z * Z * N;
  chip_erase : N -> Z -> Z -> Z * N;
  chip_isbad : N -> Z -> Z;
  chip_markbad : N -> Z -> Z * N
}.

Definition EIO : Z := 5.
Definition EUCLEAN : Z := 117.
(** [mtd_is_bitflip] *)
Definition is_bitflip (ret : Z) : bool := ret =? - EUCLEAN.

(** The members of [bmt_desc] and [mtd_info] that attaching sets and nothing
    changes later. *)
Record geometry := mk_geometry {
  blk_size : Z;
  pg_size : Z;
  blk_shift : Z;
  pg_shift : Z;
  total_blks : Z;
  oob_offset : Z;
  remap_range : option (list (Z * Z));
  erasesize : Z;
  oobsize : Z;
  bitflip_threshold : Z
}.

Section flash.
Context {N : Type} `{NandChip N}.
Variable g : geometry.

Definition blk_pg (block : Z) : Z := u32 (Z.shiftl block (blk_shift g - pg_shift g)).

(** [bbt_nand_read]: the result, the data and the out-of-band bytes. *)
Definition bbt_nand_read (n : N) (page dat_len fdm_len : Z) : Z * list Z * list Z :=
  let r := chip_read n (u32 (Z.shiftl page (pg_shift g))) dat_len (oob_offset g) fdm_len in
  (if rd_ret r <? 0 then rd_ret r else 0, rd_data r, rd_oob r).

Definition bbt_nand_erase (n : N) (block : Z) : Z * N :=
  chip_erase n (Z.shiftl block (blk_shift g)) (blk_size g).

(** [write_bmt] of [bmt_pgs] pages, with the signature of the scheme. *)
Definition write_bmt (sig : list Z) (bmt_pgs : Z) (n : N) (block : Z) (dat : list Z) : Z * N :=
  let '(ret, _, _, n') :=
    chip_write n (Z.shiftl block (blk_shift g)) (take (Z.to_nat (Z.shiftl bmt_pgs (pg_shift g))) dat)
      (1 + oob_offset g) sig in
  (ret, n').

(** The loop of [bbt_nand_copy] for the [k] pages that are left. [ooblen] of the
    write is set after the call: no out-of-band bytes are written. *)
Fixpoint copy_pages (k : nat) (n : N) (dest src max_offset offset : Z) : Z * N :=
  match k with
  | O => (0, n)
  | S k =>
      if max_offset <=? offset then (0, n)
      else
        let pages := Z.shiftr (blk_size g) (pg_shift g) in
        let rd := chip_read n (src + offset) (pg_size g) 0 (Z.min (oobsize g / pages) 64) in
        if (rd_ret rd <? 0) && negb (is_bitflip (rd_ret rd)) then (rd_ret rd, n)
        else if rd_retlen rd =? 0 then (0, n)
        else
          let '(ret, _, _, n') := chip_write n (dest + offset) (rd_data rd) 0 [] in
          if ret <? 0 then (ret, n')
          else copy_pages k n' dest src max_offset (offset + rd_retlen rd)
  end.

Definition bbt_nand_copy (n : N) (dest_blk src_blk max_offset : Z) : Z * N :=
  copy_pages (Z.to_nat (Z.shiftr (blk_size g) (pg_shift g))) n
    (Z.shiftl dest_blk (blk_shift g)) (Z.shiftl src_blk (blk_shift g)) max_offset 0.

(** [mapping_block_in_range]: [start] and [end], when the block is in a range. *)
Definition mapping_block_in_range (block : Z) : option (Z * Z) :=
  let addr := u32 (Z.shiftl block (blk_shift g)) in
  match remap_range g with
  | None | Some [] => Some (0, total_blks g)
  | Some cur =>
      match List.find (fun r => negb ((addr <? fst r) || (snd r <=? addr))) cur with
      | Some (s, e) => Some (to_i32 s, to_i32 e)
      | None => None
      end
  end.
End flash.

(** The chip, the table of the scheme, and the place of the table ([bmt_blk_idx]). *)
Record bmt_state (N T : Type) := mk_bmt { st_chip : N; st_tbl : T; st_idx : Z }.
Arguments mk_bmt {N T} st_chip st_tbl st_idx.
Arguments st_chip {N T} b.
Arguments st_tbl {N T} b.
Arguments st_idx {N T} b.

(** [struct mtk_bmt_ops]: what the core asks of a mapping scheme. *)
Class BmtOps (N T : Type) := {
  op_get : bmt_state N T -> Z -> Z;
  op_remap : bmt_state N T -> Z -> Z -> Z -> bool * bmt_state N T;
  op_unmap : bmt_state N T -> Z -> bmt_state N T
}.

(** * Geometry as attach computes it for a power-of-two chip *)

Record geometry_wf (g : geometry) : Prop := {
  gw_shift : 0 <= blk_shift g < 31;
  gw_size : blk_size g = 2 ^ blk_shift g;
  gw_erase : erasesize g = blk_size g;
  gw_total : 0 < total_blks g < 65536
}.

Section geometry_facts.
Variable g : geometry.
Hypothesis Hg : geometry_wf g.

Lemma blk_size_pos : 0 < blk_size g.
Proof. rewrite (gw_size g Hg). pose proof (gw_shift g Hg). lia. Qed.

Lemma shiftl_block b : Z.shiftl b (blk_shift g) = b * blk_size g.
Proof. rewrite Z.shiftl_mul_pow2 by apply Hg. by rewrite (gw_size g Hg). Qed.
Lemma shiftr_block a : Z.shiftr a (blk_shift g) = a / blk_size g.
Proof. rewrite Z.shiftr_div_pow2 by apply Hg. by rewrite (gw_size g Hg). Qed.
Lemma land_block a : Z.land a (blk_size g - 1) = a mod blk_size g.
Proof.
  rewrite (gw_size g Hg), Z.sub_1_r, <- Z.ones_equiv. apply Z.land_ones, Hg.
Qed.
End geometry_facts.

(** * A chip whose writes and reads succeed: its bytes *)

Definition upd (f : Z -> Z) (a : Z) (l : list Z) (x : Z) : Z :=
  if (a <=? x) && (x <? a + Z.of_nat (length l)) then nth (Z.to_nat (x - a)) l 0 else f x.

(** [peek] gives the byte at an address: writes store their data and succeed,
    reads return it, without out-of-band bytes. *)
Class GoodChip {N : Type} `{NandChip N} (peek : N -> Z -> Z) : Prop := {
  good_write : forall n a l oo, exists n', chip_write n a l oo [] = (0, Z.of_nat (length l), 0, n') /\
    forall x, peek n' x = upd (peek n) a l x;
  good_read : forall n a len oo, 0 <= len -> chip_read n a len oo 0 =
    mk_read 0 len 0 (map (fun i => peek n (a + Z.of_nat i)) (seq 0 (Z.to_nat len))) []
}.
