(* ===== verification/BmtCore.v ===== *)
(** mtk_bmt: the functions that replace those of the NAND driver
    (src/target/linux/generic/files/drivers/mtd/nand/mtk_bmt.c, [mtk_bmt_read] to
    [mtk_bmt_attach]). They work for any mapping scheme, through the class
    [BmtOps], and any driver, through [NandChip]. A loop is the iteration of one
    round; [None] means that the fuel ended first. *)
From S2P Require Import Prelude CNum BmtFlash.
Open Scope Z_scope.
Open Scope list_scope.

(** A loop whose body either returns or goes on. *)
Fixpoint iterate {S R : Type} (fuel : nat) (body : S -> R + S) (s : S) : option R :=
  match fuel with
  | O => None
  | S fuel => match body s with inl r => Some r | inr s' => iterate fuel body s' end
  end.

Section core.
Context {N T : Type} `{NandChip N} `{BmtOps N T}.
Variable g : geometry.

Definition mtk_bmt_remap_block (st : bmt_state N T) (block mapped_block copy_len : Z)
    : bool * bmt_state N T :=
  match mapping_block_in_range g block with
  | None => (false, st)
  | Some _ => op_remap st (u16 block) (u16 mapped_block) copy_len
  end.

(** * Read *)

(** The variables of [mtk_bmt_read]: [ops->retlen], [ops->oobretlen], what is left
    of [cur_ops], and what was read. *)
Record read_vars := mk_read_vars {
  rv_from : Z; rv_retlen : Z; rv_oobretlen : Z; rv_ooboffs : Z; rv_ooblen : Z;
  rv_retry : Z; rv_ret : Z; rv_bitflips : Z; rv_data : list Z; rv_oob : list Z
}.

(** The result, the data, the out-of-band bytes and the state. *)
Definition read_out (v : read_vars) (st : bmt_state N T)
    : Z * list Z * list Z * bmt_state N T :=
  (if rv_ret v <? 0 then rv_ret v else rv_bitflips v, rv_data v, rv_oob v, st).

Definition read_body (len ooblen : Z) (s : read_vars * bmt_state N T)
    : (Z * list Z * list Z * bmt_state N T) + (read_vars * bmt_state N T) :=
  let '(v, st) := s in
  if negb ((rv_retlen v <? len) || (rv_oobretlen v <? ooblen)) then inl (read_out v st)
  else
    let offset := u32 (Z.land (rv_from v) (blk_size g - 1)) in
    let block := u32 (Z.shiftr (rv_from v) (blk_shift g)) in
    let cur_block := op_get st (to_i32 block) in
    if cur_block <? 0 then inl (- EIO, rv_data v, rv_oob v, st)
    else
      let cur_from := Z.shiftl cur_block (blk_shift g) + offset in
      let cur_len := Z.min (u32 (erasesize g - offset)) (u32 (len - rv_retlen v)) in
      let rd := chip_read (st_chip st) cur_from cur_len (rv_ooboffs v) (rv_ooblen v) in
      let cur_ret := rd_ret rd in
      let ret := if cur_ret <? 0 then cur_ret else rv_ret v in
      let bitflips := if cur_ret <? 0 then rv_bitflips v else Z.max (rv_bitflips v) cur_ret in
      if (cur_ret <? 0) && negb (is_bitflip cur_ret) then
        let '(remapped, st) := mtk_bmt_remap_block st block cur_block (erasesize g) in
        let v' := mk_read_vars (rv_from v) (rv_retlen v) (rv_oobretlen v) (rv_ooboffs v)
                    (rv_ooblen v) (rv_retry v + 1) ret bitflips (rv_data v) (rv_oob v) in
        if remapped && (rv_retry v <? 10) then inr (v', st) else inl (read_out v' st)
      else
        let st := if negb (bitflip_threshold g =? 0) && (bitflip_threshold g <=? u32 cur_ret)
                  then snd (mtk_bmt_remap_block st block cur_block (erasesize g)) else st in
        let step := if cur_len =? 0 then erasesize g - offset else cur_len in
        inr (mk_read_vars (rv_from v + step) (rv_retlen v + rd_retlen rd)
               (rv_oobretlen v + rd_oobretlen rd) 0 (rv_ooblen v - rd_oobretlen rd) 0 ret bitflips
               (rv_data v ++ take (Z.to_nat (rd_retlen rd)) (rd_data rd))
               (rv_oob v ++ take (Z.to_nat (rd_oobretlen rd)) (rd_oob rd)), st).

Definition mtk_bmt_read (fuel : nat) (st : bmt_state N T) (from len ooboffs ooblen : Z)
    : option (Z * list Z * list Z * bmt_state N T) :=
  iterate fuel (read_body len ooblen) (mk_read_vars from 0 0 ooboffs ooblen 0 0 0 [] [], st).

(** * Write *)

Record write_vars := mk_write_vars {
  wv_to : Z; wv_retlen : Z; wv_oobretlen : Z; wv_ooboffs : Z; wv_retry : Z;
  wv_data : list Z; wv_oob : list Z
}.

(** [wv_data] and [wv_oob] are what [datbuf] and [oobbuf] still hold. *)
Definition write_body (len ooblen : Z) (s : write_vars * bmt_state N T)
    : (Z * bmt_state N T) + (write_vars * bmt_state N T) :=
  let '(v, st) := s in
  if negb ((wv_retlen v <? len) || (wv_oobretlen v <? ooblen)) then inl (0, st)
  else
    let offset := u32 (Z.land (wv_to v) (blk_size g - 1)) in
    let block := u32 (Z.shiftr (wv_to v) (blk_shift g)) in
    let cur_block := op_get st (to_i32 block) in
    if cur_block <? 0 then inl (- EIO, st)
    else
      let cur_to := Z.shiftl cur_block (blk_shift g) + offset in
      let cur_len := Z.min (u32 (blk_size g - offset)) (u32 (len - wv_retlen v)) in
      let '(ret, retlen, oobretlen, n) :=
        chip_write (st_chip st) cur_to (take (Z.to_nat cur_len) (wv_data v)) (wv_ooboffs v) (wv_oob v) in
      let st := mk_bmt n (st_tbl st) (st_idx st) in
      if ret <? 0 then
        let '(remapped, st) := mtk_bmt_remap_block st block cur_block offset in
        if remapped && (wv_retry v <? 10) then
          inr (mk_write_vars (wv_to v) (wv_retlen v) (wv_oobretlen v) (wv_ooboffs v)
                 (wv_retry v + 1) (wv_data v) (wv_oob v), st)
        else inl (ret, st)
      else
        let step := if cur_len =? 0 then erasesize g - offset else cur_len in
        inr (mk_write_vars (wv_to v + step) (wv_retlen v + retlen) (wv_oobretlen v + oobretlen) 0 0
               (drop (Z.to_nat retlen) (wv_data v)) (drop (Z.to_nat oobretlen) (wv_oob v)), st).

Definition mtk_bmt_write (fuel : nat) (st : bmt_state N T) (to : Z) (data : list Z)
    (ooboffs : Z) (oob : list Z) : option (Z * bmt_state N T) :=
  iterate fuel (write_body (Z.of_nat (length data)) (Z.of_nat (length oob)))
    (mk_write_vars to 0 0 ooboffs 0 data oob, st).

(** * Erase, bad blocks *)

(** The loop of [mtk_bmt_mtd_erase]: [start_addr], [ret] once it is assigned,
    [retry_count]. The result is [ret], [fail_addr] when it is set. *)
Definition erase_body (end_addr : Z) (s : Z * option Z * Z * bmt_state N T)
    : (option Z * option Z * bmt_state N T) + (Z * option Z * Z * bmt_state N T) :=
  let '(start_addr, ret, retry, st) := s in
  if negb (start_addr <? end_addr) then inl (ret, None, st)
  else
    let orig_block := u16 (Z.shiftr start_addr (blk_shift g)) in
    let block := op_get st orig_block in
    if block <? 0 then inl (Some (- EIO), None, st)
    else
      let '(r, n) := chip_erase (st_chip st) (Z.shiftl block (blk_shift g)) (blk_size g) in
      let st := mk_bmt n (st_tbl st) (st_idx st) in
      if negb (r =? 0) then
        let '(remapped, st) := mtk_bmt_remap_block st orig_block block 0 in
        if remapped && (retry <? 10) then inr (start_addr, Some r, retry + 1, st)
        else inl (Some r, Some start_addr, st)
      else inr (start_addr + erasesize g, Some r, 0, st).

(** [ret] is not initialised: returning it for an empty range is undefined. The
    mask of the first address is an unsigned int. *)
Definition mtk_bmt_mtd_erase (fuel : nat) (st : bmt_state N T) (addr len : Z)
    : option (outcome (Z * option Z) * bmt_state N T) :=
  match iterate fuel (erase_body (addr + len)) (Z.ldiff (u32 addr) (erasesize g - 1), None, 0, st) with
  | None => None
  | Some (Some ret, fail_addr, st) => Some (Ok (ret, fail_addr), st)
  | Some (None, _, st) => Some (Crash, st)
  end.

Definition isbad_body (orig_block : Z) (s : Z * bmt_state N T)
    : (Z * bmt_state N T) + (Z * bmt_state N T) :=
  let '(retry, st) := s in
  let block := u16 (op_get st orig_block) in
  let ret := chip_isbad (st_chip st) (Z.shiftl block (blk_shift g)) in
  if ret =? 0 then inl (ret, st)
  else
    let '(remapped, st) := mtk_bmt_remap_block st orig_block block (blk_size g) in
    if remapped && (retry <? 10) then inr (retry + 1, st) else inl (ret, st).

(** At most eleven rounds. *)
Definition mtk_bmt_block_isbad (st : bmt_state N T) (ofs : Z) : option (Z * bmt_state N T) :=
  iterate 11 (isbad_body (u16 (Z.shiftr ofs (blk_shift g)))) (0, st).

Definition mtk_bmt_block_markbad (st : bmt_state N T) (ofs : Z) : Z * bmt_state N T :=
  let orig_block := u16 (Z.shiftr ofs (blk_shift g)) in
  let block := op_get st orig_block in
  if block <? 0 then (- EIO, st)
  else
    let '(_, st) := mtk_bmt_remap_block st orig_block block (blk_size g) in
    let '(ret, n) := chip_markbad (st_chip st) (Z.shiftl block (blk_shift g)) in
    (ret, mk_bmt n (st_tbl st) (st_idx st)).

(** * The debugfs files *)

Definition mtk_bmt_debug_repair (st : bmt_state N T) (val : Z) : Z * bmt_state N T :=
  let block := to_i32 (Z.shiftr val (blk_shift g)) in
  let prev_block := op_get st block in
  if prev_block <? 0 then (- EIO, st)
  else
    let st := op_unmap st (u16 block) in
    let new_block := op_get st block in
    if new_block <? 0 then (- EIO, st)
    else if prev_block =? new_block then (0, st)
    else
      let '(_, n) := bbt_nand_erase g (st_chip st) (u16 new_block) in
      let '(_, n) := bbt_nand_copy g n (u16 new_block) (u16 prev_block) (blk_size g) in
      (0, mk_bmt n (st_tbl st) (st_idx st)).

Definition mtk_bmt_debug_mark_good (st : bmt_state N T) (val : Z) : Z * bmt_state N T :=
  (0, op_unmap st (u16 (Z.shiftr val (blk_shift g)))).

Definition mtk_bmt_debug_mark_bad (st : bmt_state N T) (val : Z) : Z * bmt_state N T :=
  let block := u32 (Z.shiftr val (blk_shift g)) in
  let cur_block := op_get st (to_i32 block) in
  if cur_block <? 0 then (- EIO, st)
  else (0, snd (mtk_bmt_remap_block st block cur_block (blk_size g))).
End core.

(** * Attaching *)

Inductive scheme := SchemeV2 | SchemeNmbm | SchemeBbt.

(** What attaching reads: the device and its node in the device tree. *)
Record mtd_device := mk_mtd {
  mtd_size : Z; mtd_erasesize : Z; mtd_writesize : Z; mtd_oobsize : Z; mtd_bitflip_threshold : Z
}.
Record device_node := mk_node {
  dn_bmt_v2 : bool;
  dn_nmbm : bool;
  dn_bbt : bool;
  dn_remap_range : option (list Z);   (** the cells of mediatek,bmt-remap-range *)
  dn_oobsize : option Z;              (** mediatek,bmt-mtd-overridden-oobsize *)
  dn_oob_offset : option Z            (** mediatek,bmt-oob-offset, read by the v2 scheme *)
}.

Definition choose_scheme (np : device_node) : option scheme :=
  if dn_bmt_v2 np then Some SchemeV2
  else if dn_nmbm np then Some SchemeNmbm
  else if dn_bbt np then Some SchemeBbt
  else None.

(** [remap_range_len] pairs of cells. *)
Fixpoint cell_pairs (cells : list Z) : list (Z * Z) :=
  match cells with
  | a :: b :: rest => (a, b) :: cell_pairs rest
  | _ => []
  end.

(** [ffs]: the position of the lowest bit that is set, from 1. *)
Definition ffs (z : Z) : Z := if z =? 0 then 0 else Z.log2 (Z.land z (- z)) + 1.

Definition attach_geometry (mtd : mtd_device) (np : device_node) (s : scheme) : geometry :=
  let blk_shift := u16 (ffs (mtd_erasesize mtd) - 1) in
  let oob := match dn_oobsize np with
             | Some o => if o <? mtd_oobsize mtd then o else mtd_oobsize mtd
             | None => mtd_oobsize mtd end in
  mk_geometry (mtd_erasesize mtd) (mtd_writesize mtd) blk_shift (u16 (ffs (mtd_writesize mtd) - 1))
    (u16 (Z.shiftr (mtd_size mtd) blk_shift))
    (match s with SchemeV2 => u8 (default 0 (dn_oob_offset np)) | _ => 0 end)
    (cell_pairs <$> dn_remap_range np) (mtd_erasesize mtd) oob (mtd_bitflip_threshold mtd).

(** [mtk_bmt_attach]: the result, and the scheme and geometry in use after it;
    [init] is the initialisation of a scheme. *)
Definition mtk_bmt_attach (attached : bool) (mtd : mtd_device) (np : option device_node)
    (alloc : bool) (init : scheme -> geometry -> Z) : Z * option (scheme * geometry) :=
  if attached then (-28, None)
  else match np with
       | None => (0, None)
       | Some np =>
           match choose_scheme np with
           | None => (0, None)
           | Some s =>
               let g := attach_geometry mtd np s in
               if negb alloc then (-1, None)
               else
                 let ret := init s g in
                 if ret =? 0 then (0, Some (s, g)) else (ret, None)
           end
       end.

(** * Lemmas *)

Lemma upd_app f a l1 l2 x :
  upd (upd f a l1) (a + Z.of_nat (length l1)) l2 x = upd f a (l1 ++ l2) x.
Proof.
  unfold upd. rewrite length_app, Nat2Z.inj_add.
  destruct (Z.leb_spec a x), (Z.ltb_spec x (a + Z.of_nat (length l1))),
    (Z.leb_spec (a + Z.of_nat (length l1)) x),
    (Z.ltb_spec x (a + Z.of_nat (length l1) + Z.of_nat (length l2))),
    (Z.ltb_spec x (a + (Z.of_nat (length l1) + Z.of_nat (length l2)))); try lia; cbn [andb]; try done.
  all: first [rewrite app_nth1 by lia; done|rewrite app_nth2 by lia; f_equal; lia].
Qed.

Lemma upd_ext f f' a l x : f x = f' x -> upd f a l x = upd f' a l x.
Proof. unfold upd. by intros ->. Qed.

Lemma upd_read f a l : map (fun i => upd f a l (a + Z.of_nat i)) (seq 0 (length l)) = l.
Proof.
  apply list_eq. intros i. rewrite list_lookup_fmap. destruct (decide (i < length l)%nat) as [Hi|Hi].
  - rewrite lookup_seq_lt by done. cbn [fmap option_fmap option_map Nat.add]. unfold upd.
    destruct (Z.leb_spec a (a + Z.of_nat i)); [|lia].
    destruct (Z.ltb_spec (a + Z.of_nat i) (a + Z.of_nat (length l))); [|lia]. cbn [andb].
    replace (Z.to_nat (a + Z.of_nat i - a)) with i by lia.
    destruct (lookup_lt_is_Some_2 l i Hi) as [y Hy]. rewrite Hy. f_equal. by apply nth_lookup_Some.
  - rewrite lookup_seq_ge by lia. symmetry. apply lookup_ge_None. lia.
Qed.

Lemma iterate_mono {S R : Type} (body : S -> R + S) fuel fuel' s r :
  iterate fuel body s = Some r -> (fuel <= fuel')%nat -> iterate fuel' body s = Some r.
Proof.
  revert fuel' s. induction fuel as [|fuel IH]; intros [|fuel'] s E Hle; try done; [lia|].
  cbn [iterate] in *. destruct (body s); [done|]. apply IH; [done|lia].
Qed.

(** Mappings that depend on the table only, as those of all schemes do. *)
Class TableMapping (N T : Type) `{BmtOps N T} : Prop := {
  get_of_table : forall st st' block, st_tbl st = st_tbl st' -> op_get st block = op_get st' block
}.

Section round_trip.
Context {N T : Type} `{NandChip N} `{TableMapping N T}.
Context {peek : N -> Z -> Z} `{!GoodChip peek}.
Variable g : geometry.
Hypothesis Hg : geometry_wf g.

(** The physical address of a logical one. *)
Definition phys (st : bmt_state N T) (x : Z) : Z :=
  op_get st (x / blk_size g) * blk_size g + x mod blk_size g.
(** The bytes as the layer above sees them. *)
Definition view (st : bmt_state N T) (x : Z) : Z := peek (st_chip st) (phys st x).

(** On the blocks [lo, hi) the mapping is defined and one-to-one. *)
Definition maps_blocks (st : bmt_state N T) (lo hi : Z) : Prop :=
  0 <= lo /\ hi <= 2 ^ 31 /\
  (forall b, lo <= b < hi -> 0 <= op_get st b) /\
  (forall b b', lo <= b < hi -> lo <= b' < hi -> op_get st b = op_get st b' -> b = b').

Lemma phys_table st st' x : st_tbl st = st_tbl st' -> phys st x = phys st' x.
Proof. intros E. unfold phys. by rewrite (get_of_table st st' _ E). Qed.

Lemma maps_table st st' lo hi : st_tbl st = st_tbl st' -> maps_blocks st lo hi -> maps_blocks st' lo hi.
Proof.
  intros E (M1 & M2 & M3 & M4). split_and!; [done|done| |].
  - intros b Hb. rewrite <- (get_of_table st st' _ E). by apply M3.
  - intros b b' Hb Hb'. rewrite <- !(get_of_table st st' _ E). by apply M4.
Qed.

(** Within a block physical addresses follow logical ones, and only there. *)
Lemma phys_near st lo hi a x c :
  maps_blocks st lo hi -> lo <= a / blk_size g < hi -> lo <= x / blk_size g < hi ->
  0 <= c -> a mod blk_size g + c <= blk_size g ->
  (phys st a <= phys st x < phys st a + c <-> a <= x < a + c) /\
  (a <= x < a + c -> phys st x = phys st a + (x - a)).
Proof.
  intros (M1 & M2 & M3 & M4) Ha Hx Hc Hac. unfold phys. pose proof (blk_size_pos g Hg) as Hpos.
  pose proof (Z.div_mod a (blk_size g) ltac:(lia)) as Da.
  pose proof (Z.mod_pos_bound a (blk_size g) Hpos) as Ba.
  pose proof (Z.div_mod x (blk_size g) ltac:(lia)) as Dx.
  pose proof (Z.mod_pos_bound x (blk_size g) Hpos) as Bx.
  set (qa := a / blk_size g) in *. set (qx := x / blk_size g) in *.
  set (ra := a mod blk_size g) in *. set (rx := x mod blk_size g) in *.
  assert (a <= x < a + c -> qx = qa) as Hq by nia.
  assert (op_get st qa * blk_size g + ra <= op_get st qx * blk_size g + rx <
          op_get st qa * blk_size g + ra + c -> qx = qa) as Hq'.
  { intros Hr. apply M4; [done|done|]. nia. }
  split; [split|].
  - intros Hr. specialize (Hq' Hr). rewrite Hq' in *. nia.
  - intros Hr. specialize (Hq Hr). rewrite Hq in *. nia.
  - intros Hr. specialize (Hq Hr). rewrite Hq in *. nia.
Qed.

(** One round of the write loop, where nothing fails. *)
Lemma write_round st lo hi to retlen data len :
  maps_blocks st lo hi -> 0 <= to -> lo <= to / blk_size g -> (to + Z.of_nat (length data)) <= hi * blk_size g ->
  data <> [] -> len = retlen + Z.of_nat (length data) -> Z.of_nat (length data) < 2 ^ 32 ->
  exists c st', (0 < c <= length data)%nat /\
  write_body g len 0 (mk_write_vars to retlen 0 0 0 data [], st) =
      inr (mk_write_vars (to + Z.of_nat c) (retlen + Z.of_nat c) 0 0 0 (drop c data) [], st') /\
  st_tbl st' = st_tbl st /\ st_idx st' = st_idx st /\
  forall x, lo <= x / blk_size g < hi -> view st' x = upd (view st) to (take c data) x.
Proof.
  intros Hm Hto Hlo Hhi Hne -> Hmax. pose proof (blk_size_pos g Hg) as Hpos.
  pose proof (Z.div_mod to (blk_size g) ltac:(lia)) as Dt.
  pose proof (Z.mod_pos_bound to (blk_size g) Hpos) as Bt.
  assert (blk_size g <= 2 ^ 30) as Hbs.
  { rewrite (gw_size g Hg). pose proof (gw_shift g Hg). apply Z.pow_le_mono_r; lia. }
  assert (0 < Z.of_nat (length data)) as Hd by (destruct data; [done|simpl; lia]).
  assert (to / blk_size g < hi) as Hb by (apply Z.div_lt_upper_bound; lia).
  pose proof Hm as (M1 & M2 & M3 & M4).
  set (c := Z.min (blk_size g - to mod blk_size g) (Z.of_nat (length data))).
  assert (0 < c <= Z.of_nat (length data)) as Hc by lia.
  unfold write_body. cbn [wv_retlen wv_oobretlen wv_to wv_data wv_oob wv_ooboffs wv_retry].
  destruct (Z.ltb_spec retlen (retlen + Z.of_nat (length data))); [|lia]. cbn [orb negb].
  rewrite land_block, shiftr_block by done. rewrite !u32_small by lia. rewrite to_i32_small by lia.
  destruct (Z.ltb_spec (op_get st (to / blk_size g)) 0); [specialize (M3 (to / blk_size g)); lia|].
  rewrite shiftl_block by done.
  replace (retlen + Z.of_nat (length data) - retlen) with (Z.of_nat (length data)) by lia. fold c.
  destruct (good_write (st_chip st) (op_get st (to / blk_size g) * blk_size g + to mod blk_size g)
    (take (Z.to_nat c) data) 0) as (n' & E & Hpeek). rewrite E. cbn [Z.ltb Z.compare].
  rewrite length_take_le by lia. rewrite Z2Nat.id by lia.
  destruct (Z.eqb_spec c 0); [lia|]. rewrite drop_nil.
  exists (Z.to_nat c), (mk_bmt n' (st_tbl st) (st_idx st)).
  split; [lia|]. rewrite Z2Nat.id by lia. split; [done|]. split; [done|]. split; [done|].
  intros x Hx. unfold view. cbn [st_chip]. rewrite Hpeek.
  rewrite (phys_table (mk_bmt n' (st_tbl st) (st_idx st)) st) by done.
  fold (phys st to). destruct (phys_near st lo hi to x c Hm ltac:(lia) Hx ltac:(lia) ltac:(lia)) as [P1 P2].
  unfold upd. rewrite length_take_le by lia. rewrite Z2Nat.id by lia.
  destruct (Z.leb_spec (phys st to) (phys st x)), (Z.ltb_spec (phys st x) (phys st to + c)),
    (Z.leb_spec to x), (Z.ltb_spec x (to + c)); cbn [andb]; try done; try lia.
  f_equal. rewrite P2 by lia. lia.
Qed.

Lemma write_loop fuel st lo hi to retlen data len :
  maps_blocks st lo hi -> 0 <= to -> lo <= to / blk_size g -> (to + Z.of_nat (length data)) <= hi * blk_size g ->
  len = retlen + Z.of_nat (length data) -> Z.of_nat (length data) < 2 ^ 32 ->
  (length data < fuel)%nat ->
  exists st', iterate fuel (write_body g len 0) (mk_write_vars to retlen 0 0 0 data [], st) = Some (0, st') /\
  st_tbl st' = st_tbl st /\ st_idx st' = st_idx st /\
  forall x, lo <= x / blk_size g < hi -> view st' x = upd (view st) to data x.
Proof.
  revert st to retlen data. induction fuel as [|fuel IH]; intros st to retlen data Hm Hto Hlo Hhi Hlen Hmax Hf;
    [lia|]. cbn [iterate].
  destruct (decide (data = [])) as [->|Hne].
  - exists st. simpl in Hlen. rewrite Z.add_0_r in Hlen. subst len.
    unfold write_body. cbn [wv_retlen wv_oobretlen]. rewrite Z.ltb_irrefl. cbn.
    split; [done|]. split; [done|]. split; [done|]. intros x _. unfold upd.
    cbn [length]. change (Z.of_nat 0) with 0.
    destruct (Z.leb_spec to x), (Z.ltb_spec x (to + 0)); try done; lia.
  - destruct (write_round st lo hi to retlen data len Hm Hto Hlo Hhi Hne Hlen Hmax)
      as (c & st1 & Hc & E & Et & Ei & Hv). rewrite E.
    assert (lo <= (to + Z.of_nat c) / blk_size g) as Hlo'.
    { etrans; [exact Hlo|]. apply Z.div_le_mono; [apply (blk_size_pos g Hg)|lia]. }
    destruct (IH st1 (to + Z.of_nat c) (retlen + Z.of_nat c) (drop c data)) as (st2 & E2 & Et2 & Ei2 & Hv2);
      rewrite ?length_drop; try lia; [by apply (maps_table st st1)|].
    exists st2. split; [done|]. split; [by rewrite Et2|]. split; [by rewrite Ei2|].
    intros x Hx. rewrite Hv2 by done. etrans; [apply upd_ext, Hv, Hx|].
    rewrite <- (take_drop c data) at 3. rewrite <- upd_app. rewrite length_take_le by lia. done.
Qed.

(** The bytes of a view. *)
Definition window (f : Z -> Z) (from : Z) (n : nat) : list Z :=
  map (fun i => f (from + Z.of_nat i)) (seq 0 n).

Lemma window_add f from a b :
  window f from (a + b) = window f from a ++ window f (from + Z.of_nat a) b.
Proof.
  unfold window. rewrite seq_app, map_app. f_equal. apply list_eq. intros i.
  rewrite !list_lookup_fmap. destruct (decide (i < b)%nat).
  - rewrite !lookup_seq_lt by done. simpl. do 2 f_equal. lia.
  - by rewrite !lookup_seq_ge by lia.
Qed.

Lemma window_ext f f' from n :
  (forall x, from <= x < from + Z.of_nat n -> f x = f' x) -> window f from n = window f' from n.
Proof.
  intros Hf. unfold window. apply map_ext_in. intros i Hi. apply in_seq in Hi. apply Hf. lia.
Qed.

(** One round of the read loop, where nothing fails. *)
Lemma read_round st lo hi from retlen acc left len :
  maps_blocks st lo hi -> 0 <= from -> lo <= from / blk_size g -> from + Z.of_nat left <= hi * blk_size g ->
  (0 < left)%nat -> len = retlen + Z.of_nat left -> Z.of_nat left < 2 ^ 32 -> 0 <= bitflip_threshold g ->
  exists c, (0 < c <= left)%nat /\
    read_body g len 0 (mk_read_vars from retlen 0 0 0 0 0 0 acc [], st) =
      inr (mk_read_vars (from + Z.of_nat c) (retlen + Z.of_nat c) 0 0 0 0 0 0
             (acc ++ window (view st) from c) [], st).
Proof.
  intros Hm Hfrom Hlo Hhi Hd -> Hmax Hthr. pose proof (blk_size_pos g Hg) as Hpos.
  pose proof (Z.div_mod from (blk_size g) ltac:(lia)) as Dt.
  pose proof (Z.mod_pos_bound from (blk_size g) Hpos) as Bt.
  assert (blk_size g <= 2 ^ 30) as Hbs.
  { rewrite (gw_size g Hg). pose proof (gw_shift g Hg). apply Z.pow_le_mono_r; lia. }
  assert (from / blk_size g < hi) as Hb by (apply Z.div_lt_upper_bound; lia).
  pose proof Hm as (M1 & M2 & M3 & M4).
  set (c := Z.min (blk_size g - from mod blk_size g) (Z.of_nat left)).
  assert (0 < c <= Z.of_nat left) as Hc by lia.
  unfold read_body.
  cbn [rv_retlen rv_oobretlen rv_from rv_data rv_oob rv_ooboffs rv_ooblen rv_retry rv_ret rv_bitflips].
  destruct (Z.ltb_spec retlen (retlen + Z.of_nat left)); [|lia]. cbn [orb negb].
  rewrite land_block, shiftr_block, (gw_erase g Hg) by done. rewrite !u32_small by lia.
  rewrite to_i32_small by lia.
  destruct (Z.ltb_spec (op_get st (from / blk_size g)) 0); [specialize (M3 (from / blk_size g)); lia|].
  rewrite shiftl_block by done.
  replace (retlen + Z.of_nat left - retlen) with (Z.of_nat left) by lia. fold c.
  rewrite (good_read (st_chip st) _ c) by lia. cbn [rd_ret rd_retlen rd_oobretlen rd_data rd_oob].
  cbn [Z.ltb Z.compare andb].
  assert (negb (bitflip_threshold g =? 0) && (bitflip_threshold g <=? u32 0) = false) as ->.
  { destruct (Z.eqb_spec (bitflip_threshold g) 0); [done|]. cbn [negb andb]. apply Z.leb_gt. rewrite u32_small by lia. lia. }
  destruct (Z.eqb_spec c 0); [lia|]. exists (Z.to_nat c). split; [lia|].
  rewrite Z2Nat.id by lia. rewrite take_ge by (rewrite length_map, length_seq; lia).
  do 3 f_equal. f_equal. unfold window. apply map_ext_in. intros i Hi. apply in_seq in Hi.
  fold (phys st from). unfold view. f_equal.
  assert ((from + Z.of_nat i) / blk_size g = from / blk_size g) as Eq.
  { symmetry. apply Z.div_unique with (from mod blk_size g + Z.of_nat i); lia. }
  destruct (phys_near st lo hi from (from + Z.of_nat i) c Hm ltac:(lia) ltac:(lia) ltac:(lia) ltac:(lia))
    as [_ P2]. rewrite P2 by lia. lia.
Qed.

Lemma read_loop fuel st lo hi from retlen acc left len :
  maps_blocks st lo hi -> 0 <= from -> lo <= from / blk_size g -> from + Z.of_nat left <= hi * blk_size g ->
  len = retlen + Z.of_nat left -> Z.of_nat left < 2 ^ 32 -> 0 <= bitflip_threshold g ->
  (left < fuel)%nat ->
  iterate fuel (read_body g len 0) (mk_read_vars from retlen 0 0 0 0 0 0 acc [], st) =
  Some (0, acc ++ window (view st) from left, [], st).
Proof.
  revert from retlen acc left. induction fuel as [|fuel IH];
    intros from retlen acc left Hm Hfrom Hlo Hhi Hlen Hmax Hthr Hf; [lia|]. cbn [iterate].
  destruct (decide (left = 0%nat)) as [->|Hne].
  - subst len. unfold read_body. cbn [rv_retlen rv_oobretlen].
    change (Z.of_nat 0) with 0. rewrite Z.add_0_r, Z.ltb_irrefl. cbn. by rewrite app_nil_r.
  - destruct (read_round st lo hi from retlen acc left len Hm Hfrom Hlo Hhi ltac:(lia) Hlen Hmax Hthr)
      as (c & Hc & E). rewrite E.
    assert (lo <= (from + Z.of_nat c) / blk_size g) as Hlo'.
    { etrans; [exact Hlo|]. apply Z.div_le_mono; [apply (blk_size_pos g Hg)|lia]. }
    rewrite (IH _ _ _ (left - c)%nat) by (try done; lia).
    rewrite <- app_assoc, <- window_add.
    by replace (c + (left - c))%nat with left by lia.
Qed.
End round_trip.

(** * Properties *)

(** C22: above the mapping layer the device behaves as memory: on logical blocks
    that are mapped one-to-one, and while the driver below succeeds, a write
    returns 0 and changes exactly the bytes of its range, and reading a range
    returns the bytes last written, across block boundaries and wherever the
    blocks are mapped. *)
Theorem bmt_write_read {N T : Type} `{NandChip N} `{TableMapping N T} (peek : N -> Z -> Z)
    `{!GoodChip peek} g (st : bmt_state N T) lo hi to data fuel
    (Hg : geometry_wf g) (Hthr : 0 <= bitflip_threshold g) (Hm : maps_blocks st lo hi)
    (Hto : 0 <= to) (Hlo : lo <= to / blk_size g) (Hhi : to + Z.of_nat (length data) <= hi * blk_size g)
    (Hlen : Z.of_nat (length data) < 2 ^ 32) (Hfuel : (length data < fuel)%nat) :
  exists st',
    mtk_bmt_write g fuel st to data 0 [] = Some (0, st') /\
    mtk_bmt_read g fuel st' to (Z.of_nat (length data)) 0 0 = Some (0, data, [], st') /\
    maps_blocks st' lo hi /\
    (forall from n, 0 <= from -> lo <= from / blk_size g -> from + Z.of_nat n <= hi * blk_size g ->
       Z.of_nat n < 2 ^ 32 -> (n < fuel)%nat ->
       from + Z.of_nat n <= to \/ to + Z.of_nat (length data) <= from ->
       exists bytes, mtk_bmt_read g fuel st from (Z.of_nat n) 0 0 = Some (0, bytes, [], st) /\
                     mtk_bmt_read g fuel st' from (Z.of_nat n) 0 0 = Some (0, bytes, [], st')).
Proof.
  destruct (write_loop (peek := peek) g Hg fuel st lo hi to 0 data (Z.of_nat (length data)))
    as (st' & E & Et & _ & Hv); try done.
  assert (maps_blocks st' lo hi) as Hm' by by apply (maps_table st st').
  assert (forall x a n, 0 <= a -> lo <= a / blk_size g -> a + Z.of_nat n <= hi * blk_size g ->
    a <= x < a + Z.of_nat n -> lo <= x / blk_size g < hi) as Hin.
  { intros x a n Ha Hla Hha Hx. pose proof (blk_size_pos g Hg). split.
    - etrans; [exact Hla|]. apply Z.div_le_mono; lia.
    - apply Z.div_lt_upper_bound; lia. }
  exists st'. split; [done|]. split; [|split; [done|]].
  - unfold mtk_bmt_read. rewrite (read_loop (peek := peek) g Hg fuel st' lo hi to 0 [] (length data))
      by (try done; lia). cbn [app]. do 4 f_equal.
    etrans; [apply window_ext; intros x Hx; apply Hv; by eapply Hin|].
    apply upd_read.
  - intros from n Hfrom Hlof Hhif Hn Hf Hdis. exists (window (view (peek := peek) g st) from n).
    unfold mtk_bmt_read.
    rewrite (read_loop (peek := peek) g Hg fuel st lo hi from 0 [] n) by (try done; lia).
    rewrite (read_loop (peek := peek) g Hg fuel st' lo hi from 0 [] n) by (try done; lia).
    split; [done|]. cbn [app]. do 4 f_equal. apply window_ext. intros x Hx.
    rewrite Hv by by eapply Hin. unfold upd.
    destruct (Z.leb_spec to x), (Z.ltb_spec x (to + Z.of_nat (length data))); try done; lia.
Qed.

(** The functions that retry a failing block give up: isbad makes at most
    eleven attempts, and whatever it finds, an answer of 0 means that the driver
    called the block it is mapped to now good. *)
Theorem isbad_bounded {N T : Type} `{NandChip N} `{BmtOps N T} g (st : bmt_state N T) ofs :
  exists ret st', mtk_bmt_block_isbad g st ofs = Some (ret, st') /\
    (ret = 0 -> chip_isbad (st_chip st')
       (Z.shiftl (u16 (op_get st' (u16 (Z.shiftr ofs (blk_shift g))))) (blk_shift g)) = 0).
Proof.
  unfold mtk_bmt_block_isbad. set (b := u16 (Z.shiftr ofs (blk_shift g))).
  assert (forall fuel retry s, 0 <= retry -> 11 <= retry + Z.of_nat fuel -> (0 < fuel)%nat ->
    exists ret s', iterate fuel (isbad_body g b) (retry, s) = Some (ret, s') /\
      (ret = 0 -> chip_isbad (st_chip s') (Z.shiftl (u16 (op_get s' b)) (blk_shift g)) = 0)) as Hgen.
  { induction fuel as [|fuel IH]; intros retry s Hr Hf Hpos; [lia|]. cbn [iterate].
    destruct (isbad_body g b (retry, s)) as [[ret s']|[retry' s']] eqn:E; unfold isbad_body in E.
    - exists ret, s'. split; [done|]. intros ->.
      destruct (Z.eqb_spec (chip_isbad (st_chip s) (Z.shiftl (u16 (op_get s b)) (blk_shift g))) 0) as [E0|E0].
      + injection E as _ <-. done.
      + destruct (mtk_bmt_remap_block g s b _ _) as [r s1]. case_if_in E; [done|].
        injection E as Er _. congruence.
    - case_if_in E; [done|].
      destruct (mtk_bmt_remap_block g s b _ _) as [r s1]. case_if_in E; [|done].
      injection E as <- <-. bprop. apply IH; lia. }
  apply (Hgen 11%nat 0 st); lia.
Qed.

(** * Examples *)

(** A chip that is a function from addresses to bytes. *)
Definition mem : Type := Z -> Z.
#[local] Instance mem_chip : NandChip mem := {
  chip_read n a len oo ool :=
    mk_read 0 len 0 (map (fun i => n (a + Z.of_nat i)) (seq 0 (Z.to_nat len))) [];
  chip_write n a l oo oob := (0, Z.of_nat (length l), 0, upd n a l);
  chip_erase n a len := (0, n);
  chip_isbad n a := 0;
  chip_markbad n a := (0, n)
}.
#[local] Instance mem_good : GoodChip (N := mem) (fun n => n).
Proof.
  split.
  - intros n a l oo. by exists (upd n a l).
  - done.
Qed.
(** A scheme that swaps blocks in pairs. *)
#[local] Instance swap_ops : BmtOps mem unit := {
  op_get st b := if Z.even b then b + 1 else b - 1;
  op_remap st _ _ _ := (false, st);
  op_unmap st _ := st
}.
#[local] Instance swap_table : TableMapping mem unit.
Proof. by split. Qed.
Definition small_geometry : geometry := mk_geometry 4 2 2 1 16 0 None 4 0 0.

Lemma bmt_write_read_witness :
  exists st', mtk_bmt_write small_geometry 8 (mk_bmt (fun _ => 0) tt 0) 6 [1; 2; 3; 4; 5] 0 [] =
                Some (0, st') /\
              mtk_bmt_read small_geometry 8 st' 6 5 0 0 = Some (0, [1; 2; 3; 4; 5], [], st').
Proof.
  destruct (bmt_write_read (fun n : mem => n) small_geometry (mk_bmt (fun _ => 0) tt 0) 0 8 6
    [1; 2; 3; 4; 5] 8) as (st' & E1 & E2 & _).
  - split; simpl; lia.
  - simpl. lia.
  - split; [lia|]. split; [lia|]. split.
    + intros b Hb. cbn [op_get swap_ops]. destruct (Z.even b) eqn:Eb; [lia|].
      destruct (Z.eq_dec b 0) as [->|]; [discriminate Eb|lia].
    + intros b b' Hb Hb'. cbn [op_get swap_ops].
      destruct (Z.even b) eqn:Eb, (Z.even b') eqn:Eb'; intros E; try lia; exfalso.
      * assert (b' = b + 2) as -> by lia. rewrite Z.even_add, Eb in Eb'. discriminate Eb'.
      * assert (b = b' + 2) as -> by lia. rewrite Z.even_add, Eb' in Eb. discriminate Eb.
  - lia.
  - vm_compute. discriminate.
  - vm_compute. discriminate.
  - reflexivity.
  - simpl. lia.
  - exists st'. split; [exact E1|exact E2].
Defined.
