(* ===== verification/BmtBbt.v ===== *)
(** mtk_bmt: the scheme with a bad block table of two bits a block
    (src/target/linux/generic/files/drivers/mtd/nand/mtk_bmt_bbt.c). The table is
    the buffer [bbt_buf]; logical blocks are mapped by counting. *)
From S2P Require Import Prelude CNum BmtFlash BmtCore.
Open Scope Z_scope.
Open Scope list_scope.

(** The bytes of "mtknand". *)
Definition bbt_sig : list Z := [109; 116; 107; 110; 97; 110; 100].

Definition bbt_block_is_bad (buf : list Z) (block : Z) : bool :=
  let cur := nth (Z.to_nat (block / 4)) buf 0 in
  negb (Z.land cur (Z.shiftl 3 (block mod 4 * 2)) =? 0).

(** The byte operations of [bbt_set_block_state]. *)
Definition set_bits (buf : list Z) (block : Z) (bad : bool) : list Z :=
  let mask := u8 (Z.shiftl 3 (block mod 4 * 2)) in
  let i := Z.to_nat (block / 4) in
  let cur := nth i buf 0 in
  <[i := if bad then Z.lor cur mask else Z.ldiff cur mask]> buf.

(** The loop of [get_mapping_block_index_bbt] that skips bad blocks: the block
    found, or [ofs] and [bad_blocks] at the end of the range; [n] blocks are left. *)
Fixpoint skip_bad (n : nat) (buf : list Z) (i ofs bad_blocks : Z) : Z + Z * Z :=
  match n with
  | O => inr (ofs, bad_blocks)
  | S n =>
      if bbt_block_is_bad buf (u16 i) then skip_bad n buf (i + 1) ofs (bad_blocks + 1)
      else if negb (ofs =? 0) then skip_bad n buf (i + 1) (ofs - 1) bad_blocks
      else inl i
  end.

(** The second loop, downwards from [i]; [None] when [bad_blocks] reaches 0. *)
Fixpoint take_bad (n : nat) (buf : list Z) (i ofs bad_blocks : Z) : option Z :=
  if bad_blocks <=? 0 then None
  else match n with
       | O => None
       | S n =>
           if negb (bbt_block_is_bad buf (u16 i)) then take_bad n buf (i - 1) ofs bad_blocks
           else if bad_blocks - 1 <=? ofs then Some i
           else take_bad n buf (i - 1) ofs (bad_blocks - 1)
       end.

Definition get_mapping_block_index_bbt (g : geometry) (buf : list Z) (block : Z) : Z :=
  match mapping_block_in_range g block with
  | None => block
  | Some (start, stop) =>
      let start := Z.shiftr start (blk_shift g) in
      let stop := Z.shiftr stop (blk_shift g) in
      let n := Z.to_nat (stop - start) in
      match skip_bad n buf start (block - start) 0 with
      | inl i => i
      | inr (ofs, bad_blocks) => default block (take_bad n buf (stop - 1) ofs bad_blocks)
      end
  end.

Section bbt.
Context {N : Type} `{NandChip N}.
Variable g : geometry.
Variable bmt_pgs : Z.

Definition bbt_set_block_state (st : bmt_state N (list Z)) (block : Z) (bad : bool)
    : bmt_state N (list Z) :=
  let buf := set_bits (st_tbl st) block bad in
  let '(_, n) := bbt_nand_erase g (st_chip st) (u16 (st_idx st)) in
  let '(_, n) := write_bmt g bbt_sig bmt_pgs n (u16 (st_idx st)) buf in
  mk_bmt n buf (st_idx st).

Definition remap_block_bbt (st : bmt_state N (list Z)) (block mapped_blk copy_len : Z)
    : bool * bmt_state N (list Z) :=
  match mapping_block_in_range g block with
  | None => (false, st)
  | Some _ =>
      let st := bbt_set_block_state st mapped_blk true in
      let new_blk := u16 (get_mapping_block_index_bbt g (st_tbl st) block) in
      let '(_, n) := bbt_nand_erase g (st_chip st) new_blk in
      let n := if 0 <? copy_len then snd (bbt_nand_copy g n new_blk mapped_blk copy_len) else n in
      (true, mk_bmt n (st_tbl st) (st_idx st))
  end.

Definition unmap_block_bbt (st : bmt_state N (list Z)) (block : Z) : bmt_state N (list Z) :=
  bbt_set_block_state st block false.

(** The scheme is an instance of what the core uses. *)
Definition mtk_bmt_bbt_ops : BmtOps N (list Z) := {|
  op_get st block := get_mapping_block_index_bbt g (st_tbl st) block;
  op_remap := remap_block_bbt;
  op_unmap := unmap_block_bbt
|}.
#[export] Existing Instance mtk_bmt_bbt_ops.

(** The rounds of [mtk_bmt_read_bbt] from block [i] down, [k] of them left: the
    buffer, and the block the table was found in. *)
Fixpoint read_bbt_from (k : nat) (n : N) (i : Z) (buf : list Z) : option (list Z * Z) :=
  match k with
  | O => None
  | S k =>
      let page := Z.shiftl i (blk_shift g - pg_shift g) in
      let '(ret, dat, oob) := bbt_nand_read g n (u32 page) (pg_size g) 8 in
      let buf := dat ++ drop (length dat) buf in
      if negb (ret =? 0) then read_bbt_from k n (i - 1) buf
      else if negb (nth 0 oob 0 =? 255) then read_bbt_from k n (i - 1) buf
      else if negb (bool_decide (take 7 (drop 1 oob) = bbt_sig))
      then read_bbt_from k n (i - 1) buf
      else Some (buf, i)
  end.

Definition mtk_bmt_read_bbt (n : N) (buf : list Z) : option (list Z * Z) :=
  read_bbt_from 5 n (total_blks g - 1) buf.

(** [mtk_bmt_init_bbt]: the error, or the state, [bmt_pgs] and the size of the
    device; [mtd_size] is the size before. *)
Definition mtk_bmt_init_bbt (n : N) (alloc : bool) (mtd_size : Z)
    : Z + bmt_state N (list Z) * Z * Z :=
  let words := Z.shiftr (total_blks g) 2 in
  let buf_size := ((words + blk_size g - 1) / blk_size g) * blk_size g in
  if negb alloc then inl (-12)
  else match mtk_bmt_read_bbt n (replicate (Z.to_nat buf_size) 255) with
       | None => inl (- EIO)
       | Some (buf, i) =>
           inr (mk_bmt n buf i, buf_size / pg_size g, mtd_size - 4 * erasesize g)
       end.

(** The four states of a byte, and the lines [mtk_bmt_debug_bbt] prints. *)
Definition debug_byte (cur : Z) : list bool :=
  map (fun k => negb (Z.land (Z.shiftr cur (2 * k)) 3 =? 0)) [0; 1; 2; 3].
Definition mtk_bmt_debug_bbt (st : bmt_state N (list Z)) (val : Z)
    : list (Z * list bool) * bmt_state N (list Z) :=
  if val =? 0 then
    (map (fun q => (4 * Z.of_nat q * blk_size g, debug_byte (nth q (st_tbl st) 0)))
       (seq 0 (Z.to_nat ((total_blks g + 3) / 4))), st)
  else if val =? 100 then
    let idx := u16 (total_blks g - 1) in
    let '(_, n) := bbt_nand_erase g (st_chip st) idx in
    let '(_, n) := write_bmt g bbt_sig bmt_pgs n idx (st_tbl st) in
    ([], mk_bmt n (st_tbl st) idx)
  else ([], st).
End bbt.

(** * Lemmas on the loops *)

Section loops.
Variable buf : list Z.
Let bad (i : Z) : bool := bbt_block_is_bad buf i.
Let good (i : Z) : bool := negb (bad i).

Lemma seqZ_S_l i n : seqZ i (Z.of_nat (S n)) = i :: seqZ (i + 1) (Z.of_nat n).
Proof.
  rewrite seqZ_cons by lia. f_equal. f_equal; lia.
Qed.

Lemma skip_bad_spec n i ofs bads :
  0 <= i -> i + Z.of_nat n <= 65536 -> 0 <= ofs ->
  skip_bad n buf i ofs bads =
  match List.filter good (seqZ i (Z.of_nat n)) !! Z.to_nat ofs with
  | Some x => inl x
  | None => inr (ofs - Z.of_nat (length (List.filter good (seqZ i (Z.of_nat n)))),
                 bads + Z.of_nat (length (List.filter bad (seqZ i (Z.of_nat n)))))
  end.
Proof.
  revert i ofs bads. induction n as [|n IH]; intros i ofs bads Hi Hn Ho.
  - simpl. by rewrite Z.sub_0_r, Z.add_0_r.
  - rewrite seqZ_S_l. cbn [skip_bad List.filter]. rewrite u16_small by lia.
    change (bbt_block_is_bad buf i) with (bad i). change (good i) with (negb (bad i)).
    destruct (bad i); cbn [negb].
    + rewrite IH by lia. case_match; [done|]. cbn [length]. do 2 f_equal; lia.
    + destruct (Z.eqb_spec ofs 0) as [->|Hne]; cbn [negb]; [done|].
      rewrite IH by lia. replace (Z.to_nat ofs) with (S (Z.to_nat (ofs - 1))) by lia.
      cbn [length].
      match goal with |- context [(?x :: ?l) !! S ?k] => change ((x :: l) !! S k) with (l !! k) end.
      case_match; [done|]. do 2 f_equal; lia.
Qed.

Lemma take_bad_spec n i ofs :
  0 <= i -> i + Z.of_nat n <= 65536 ->
  let l := List.filter bad (seqZ i (Z.of_nat n)) in
  0 <= ofs < Z.of_nat (length l) ->
  take_bad n buf (i + Z.of_nat n - 1) ofs (Z.of_nat (length l)) = l !! Z.to_nat ofs.
Proof.
  cbv zeta. revert ofs. induction n as [|n IH]; intros ofs Hi Hn Ho; [simpl in Ho; lia|].
  cbn [take_bad]. destruct (Z.leb_spec (Z.of_nat (length (List.filter bad (seqZ i (Z.of_nat (S n)))))) 0);
    [lia|].
  replace (Z.of_nat (S n)) with (Z.of_nat n + 1) in * by lia.
  rewrite seqZ_app in * by lia.
  rewrite List.filter_app, length_app in *. replace (seqZ (i + Z.of_nat n) 1) with [i + Z.of_nat n] in *
    by (rewrite seqZ_cons by lia; done).
  cbn [List.filter] in *. replace (i + (Z.of_nat n + 1) - 1) with (i + Z.of_nat n) in * by lia.
  rewrite u16_small by lia. change (bad (i + Z.of_nat n)) with (bbt_block_is_bad buf (i + Z.of_nat n)) in *.
  destruct (bbt_block_is_bad buf (i + Z.of_nat n)); cbn [negb length] in *.
  - destruct (Z.leb_spec (Z.of_nat (length (List.filter bad (seqZ i (Z.of_nat n))) + 1) - 1) ofs).
    + rewrite lookup_app_r by lia.
      replace (Z.to_nat ofs - length (List.filter bad (seqZ i (Z.of_nat n))))%nat with 0%nat by lia.
      done.
    + rewrite lookup_app_l by lia. rewrite <- IH by lia. f_equal. lia.
  - rewrite app_nil_r, Nat.add_0_r in *. by apply IH; lia.
Qed.

(** The k-th logical block is the k-th of the good blocks, then of the bad ones. *)
Lemma loops_spec start n k :
  0 <= start -> start + Z.of_nat n <= 65536 -> (k < n)%nat ->
  let l := seqZ start (Z.of_nat n) in
  Some (match skip_bad n buf start (Z.of_nat k) 0 with
        | inl i => i
        | inr (ofs, bad_blocks) =>
            default (start + Z.of_nat k) (take_bad n buf (start + Z.of_nat n - 1) ofs bad_blocks)
        end) = (List.filter good l ++ List.filter bad l) !! k.
Proof.
  intros Hs Hn Hk l. rewrite skip_bad_spec by lia. fold l. rewrite Nat2Z.id.
  assert (length (List.filter good l) + length (List.filter bad l) = n)%nat as Hlen.
  { transitivity (length l); [|unfold l; rewrite length_seqZ; lia].
    clear. induction l as [|x l IH]; [done|]. cbn [List.filter]. unfold good at 1.
    destruct (bad x); simpl; lia. }
  destruct (List.filter good l !! k) as [x|] eqn:E.
  - by rewrite (lookup_app_l_Some _ _ _ _ E).
  - apply lookup_ge_None in E. rewrite lookup_app_r by done. rewrite Z.add_0_l.
    unfold l in *. rewrite take_bad_spec by lia.
    destruct (lookup_lt_is_Some_2 (List.filter bad (seqZ start (Z.of_nat n)))
      (k - length (List.filter good (seqZ start (Z.of_nat n))))) as [y Ey]; [lia|].
    rewrite Ey. replace (Z.to_nat (Z.of_nat k - Z.of_nat (length
      (List.filter good (seqZ start (Z.of_nat n)))))) with
      (k - length (List.filter good (seqZ start (Z.of_nat n))))%nat by lia.
    by rewrite Ey.
Qed.
End loops.

(** * One range of blocks [sb, eb) *)

Record one_range (g : geometry) (sb eb : Z) : Prop := {
  or_wf : geometry_wf g;
  or_range : remap_range g = Some [(sb * blk_size g, eb * blk_size g)];
  or_bounds : 0 <= sb <= eb /\ eb <= 65535;
  or_int : eb * blk_size g < 2 ^ 31
}.

Section range.
Variable g : geometry.
Variables sb eb : Z.
Hypothesis Hr : one_range g sb eb.

Lemma in_range block : sb <= block < eb ->
  mapping_block_in_range g block = Some (sb * blk_size g, eb * blk_size g).
Proof.
  intros Hb. destruct Hr as [Hg Er Hbd Hint]. pose proof (blk_size_pos g Hg).
  unfold mapping_block_in_range. rewrite Er, shiftl_block by done.
  rewrite u32_small by nia. cbn [List.find fst snd].
  destruct (Z.ltb_spec (block * blk_size g) (sb * blk_size g)); [nia|].
  destruct (Z.leb_spec (eb * blk_size g) (block * blk_size g)); [nia|]. cbn [orb negb].
  rewrite !to_i32_small by nia. done.
Qed.

Lemma out_of_range block : 0 <= block < 65536 -> ~ (sb <= block < eb) ->
  65536 * blk_size g <= 2 ^ 32 -> mapping_block_in_range g block = None.
Proof.
  intros H0 Hb Hmax. destruct Hr as [Hg Er Hbd Hint]. pose proof (blk_size_pos g Hg).
  unfold mapping_block_in_range. rewrite Er, shiftl_block by done.
  rewrite u32_small by nia. cbn [List.find fst snd].
  destruct (Z.ltb_spec (block * blk_size g) (sb * blk_size g)); [done|].
  destruct (Z.leb_spec (eb * blk_size g) (block * blk_size g)); [done|]. nia.
Qed.

Definition range_blocks : list Z := seqZ sb (eb - sb).
Definition bads (buf : list Z) : list Z := List.filter (bbt_block_is_bad buf) range_blocks.
Definition goods (buf : list Z) : list Z :=
  List.filter (fun i => negb (bbt_block_is_bad buf i)) range_blocks.

Lemma mapping_lookup buf block : sb <= block < eb ->
  (goods buf ++ bads buf) !! Z.to_nat (block - sb) =
  Some (get_mapping_block_index_bbt g buf block).
Proof.
  intros Hb. destruct Hr as [Hg Er Hbd Hint] eqn:E. clear E. pose proof (blk_size_pos g Hg).
  unfold get_mapping_block_index_bbt. rewrite in_range by done.
  rewrite !shiftr_block by done. rewrite !Z.div_mul by lia.
  pose proof (loops_spec buf sb (Z.to_nat (eb - sb)) (Z.to_nat (block - sb))
    ltac:(lia) ltac:(lia) ltac:(lia)) as Hl. cbv zeta in Hl.
  rewrite !Z2Nat.id in Hl by lia. unfold goods, bads, range_blocks. etrans; [symmetry; exact Hl|].
  replace (sb + (eb - sb) - 1) with (eb - 1) by lia.
  replace (sb + (block - sb)) with block by lia. done.
Qed.

Lemma goods_bads_length buf : length (goods buf ++ bads buf) = Z.to_nat (eb - sb).
Proof.
  rewrite length_app. transitivity (length range_blocks);
    [|unfold range_blocks; by rewrite length_seqZ].
  unfold goods, bads. induction range_blocks as [|x l IH]; [done|]. cbn [List.filter].
  destruct (bbt_block_is_bad buf x); simpl; lia.
Qed.
End range.

(** Marking a block changes that block only. *)
Lemma mask_bits k q : 0 <= k < 4 -> Z.testbit (u8 (Z.shiftl 3 (k * 2))) q = (2 * k <=? q) && (q <? 2 * k + 2).
Proof.
  intros Hk. assert (k = 0 \/ k = 1 \/ k = 2 \/ k = 3) as Hc by lia.
  assert (u8 (Z.shiftl 3 (k * 2)) = Z.shiftl (Z.ones 2) (2 * k)) as ->
    by (destruct Hc as [->|[->|[->| ->]]]; reflexivity).
  destruct (Z.lt_ge_cases q 0) as [Hq|Hq].
  { rewrite Z.testbit_neg_r by done. destruct (Z.leb_spec (2 * k) q); [lia|done]. }
  rewrite Z.shiftl_spec by done. rewrite Z.testbit_ones by lia.
  lia.
Qed.

Lemma bad_bits buf block : 0 <= block ->
  bbt_block_is_bad buf block =
  let cur := nth (Z.to_nat (block / 4)) buf 0 in
  Z.testbit cur (2 * (block mod 4)) || Z.testbit cur (2 * (block mod 4) + 1).
Proof.
  intros H0. unfold bbt_block_is_bad. set (cur := nth _ _ _). cbv zeta.
  pose proof (Z.mod_pos_bound block 4 ltac:(lia)) as Hk. set (k := block mod 4) in *.
  assert (Z.shiftl 3 (k * 2) = u8 (Z.shiftl 3 (k * 2))) as ->.
  { assert (k = 0 \/ k = 1 \/ k = 2 \/ k = 3) as [->|[->|[->| ->]]] by lia; reflexivity. }
  pose proof (fun q => mask_bits k q Hk) as Hm. set (m := u8 (Z.shiftl 3 (k * 2))) in *.
  destruct (Z.testbit cur (2 * k) || Z.testbit cur (2 * k + 1)) eqn:Eb.
  - apply negb_true_iff, Z.eqb_neq. intros E0. apply orb_true_iff in Eb.
    assert (forall q, Z.testbit cur q && Z.testbit m q = false) as Hz.
    { intros q. by rewrite <- Z.land_spec, E0, Z.bits_0. }
    destruct Eb as [Eb|Eb]; [specialize (Hz (2 * k))|specialize (Hz (2 * k + 1))];
      rewrite Eb, Hm in Hz; cbn [andb] in Hz; apply andb_false_iff in Hz as [Hz|Hz]; bprop; lia.
  - apply negb_false_iff, Z.eqb_eq. apply Z.bits_inj'. intros q Hq.
    rewrite Z.land_spec, Hm, Z.bits_0. apply orb_false_iff in Eb as [E1 E2].
    destruct (Z.leb_spec (2 * k) q); [|by rewrite andb_false_r].
    destruct (Z.ltb_spec q (2 * k + 2)); [|by rewrite andb_false_r].
    assert (q = 2 * k \/ q = 2 * k + 1) as [->| ->] by lia; by rewrite ?E1, ?E2.
Qed.

Lemma set_bits_bad buf p bad i :
  0 <= p -> 0 <= i -> (Z.to_nat (p / 4) < length buf)%nat ->
  bbt_block_is_bad (set_bits buf p bad) i = if decide (i = p) then bad else bbt_block_is_bad buf i.
Proof.
  intros Hp Hi Hl. rewrite !bad_bits by done. cbv zeta. unfold set_bits.
  set (j := Z.to_nat (p / 4)) in *. set (cur := nth j buf 0). set (k := p mod 4).
  pose proof (Z.mod_pos_bound p 4 ltac:(lia)) as Hk. fold k in Hk.
  pose proof (fun q => mask_bits k q Hk) as Hm. set (m := u8 (Z.shiftl 3 (k * 2))) in *.
  assert (forall x, nth j (<[j := x]> buf) 0 = x) as Hn.
  { intros x. pose proof (list_lookup_insert_eq buf j x Hl) as E.
    by apply nth_lookup_Some with (d := 0) in E. }
  destruct (decide (Z.to_nat (i / 4) = j)) as [Ej|Ej].
  2:{ assert (forall x, nth (Z.to_nat (i / 4)) (<[j := x]> buf) 0 = nth (Z.to_nat (i / 4)) buf 0) as ->.
      { intros x. rewrite !nth_lookup. rewrite list_lookup_insert_ne by done. done. }
      destruct (decide (i = p)) as [->|]; [done|done]. }
  rewrite Ej, Hn. fold cur.
  pose proof (Z.div_mod p 4 ltac:(lia)) as Dp. pose proof (Z.div_mod i 4 ltac:(lia)) as Di.
  pose proof (Z.mod_pos_bound i 4 ltac:(lia)) as Hki.
  assert (i / 4 = p / 4) as Eq.
  { unfold j in Ej. apply Z2Nat.inj in Ej; [done| |]; apply Z.div_pos; lia. }
  assert (forall q, Z.testbit (if bad then Z.lor cur m else Z.ldiff cur m) q =
    if Z.testbit m q then bad else Z.testbit cur q) as Hb.
  { intros q. destruct bad; [rewrite Z.lor_spec|rewrite Z.ldiff_spec];
      destruct (Z.testbit m q), (Z.testbit cur q); done. }
  rewrite !Hb, !Hm. destruct (decide (i = p)) as [->|Hne].
  - fold k.
    destruct (Z.leb_spec (2 * k) (2 * k)); [|lia]. destruct (Z.ltb_spec (2 * k) (2 * k + 2)); [|lia].
    destruct (Z.leb_spec (2 * k) (2 * k + 1)); [|lia].
    destruct (Z.ltb_spec (2 * k + 1) (2 * k + 2)); [|lia]. by destruct bad.
  - assert (i mod 4 <> k) by (unfold k; lia). set (ki := i mod 4) in *.
    assert ((2 * k <=? 2 * ki) && (2 * ki <? 2 * k + 2) = false) as ->.
    { apply andb_false_iff. destruct (Z.leb_spec (2 * k) (2 * ki)); [right|by left].
      apply Z.ltb_ge. lia. }
    assert ((2 * k <=? 2 * ki + 1) && (2 * ki + 1 <? 2 * k + 2) = false) as ->; [|done].
    apply andb_false_iff. destruct (Z.leb_spec (2 * k) (2 * ki + 1)); [right|by left].
    apply Z.ltb_ge. lia.
Qed.

Lemma filter_split {A} (f : A -> bool) l :
  List.filter (fun x => negb (f x)) l ++ List.filter f l ≡ₚ l.
Proof.
  induction l as [|x l IH]; [done|]. cbn [List.filter]. destruct (f x); cbn [negb app].
  - by rewrite <- Permutation_middle, IH.
  - by rewrite IH.
Qed.

Lemma filter_delete (f f' : Z -> bool) l k p :
  NoDup l -> List.filter f l !! k = Some p -> (forall i, f' i = if decide (i = p) then false else f i) ->
  List.filter f' l = delete k (List.filter f l).
Proof.
  intros Hnd Hk Hf. assert (f p = true) as Hp.
  { apply list_elem_of_lookup_2, list_elem_of_In, filter_In in Hk. tauto. }
  revert k Hk. induction l as [|x l IH]; intros k Hk; [done|].
  apply NoDup_cons in Hnd as [Hx Hnd]. cbn [List.filter] in *. rewrite Hf.
  destruct (f x) eqn:Ex.
  - destruct k as [|k].
    + injection Hk as ->. rewrite decide_True by done. cbn [delete list_delete].
      apply filter_ext_in. intros a Ha. rewrite Hf, decide_False; [done|].
      intros ->. by apply list_elem_of_In in Ha.
    + rewrite decide_False.
      * cbn [delete list_delete]. f_equal. by apply IH.
      * intros ->. apply Hx. apply list_elem_of_In.
        change ((p :: List.filter f l) !! S k = Some p) in Hk.
        change (List.filter f l !! k = Some p) in Hk.
        apply list_elem_of_lookup_2, list_elem_of_In, filter_In in Hk. tauto.
  - rewrite decide_False by congruence. by apply IH.
Qed.

(** The scheme keeps what the core relies on: on its range it is one-to-one. *)
Section promise.
Context {N : Type} `{NandChip N}.
Variable g : geometry.
Variable bmt_pgs : Z.

#[export] Instance bbt_table_mapping :
  @TableMapping N (list Z) (mtk_bmt_bbt_ops g bmt_pgs).
Proof. split. intros st st' block E. simpl. by rewrite E. Qed.

Lemma bbt_maps_blocks sb eb (st : bmt_state N (list Z)) :
  one_range g sb eb ->
  @maps_blocks N (list Z) (mtk_bmt_bbt_ops g bmt_pgs) st sb eb.
Proof.
  intros Hr. pose proof Hr as [_ _ Hb _].
  assert (goods sb eb (st_tbl st) ++ bads sb eb (st_tbl st) ≡ₚ range_blocks sb eb) as Hp
    by apply (filter_split (bbt_block_is_bad (st_tbl st))).
  assert (forall b, sb <= b < eb -> get_mapping_block_index_bbt g (st_tbl st) b ∈ range_blocks sb eb)
    as Hin.
  { intros b Hbr. rewrite <- Hp.
    apply list_elem_of_lookup_2 with (Z.to_nat (b - sb)).
    exact (mapping_lookup g sb eb Hr (st_tbl st) b Hbr). }
  split; [lia|]. split; [lia|]. split.
  - intros b Hbr. specialize (Hin b Hbr). apply elem_of_seqZ in Hin. simpl. lia.
  - intros b b' H1 H2 E. cbn [op_get mtk_bmt_bbt_ops] in E.
    pose proof (mapping_lookup g sb eb Hr (st_tbl st) b H1) as L1.
    pose proof (mapping_lookup g sb eb Hr (st_tbl st) b' H2) as L2. rewrite E in L1.
    assert (NoDup (goods sb eb (st_tbl st) ++ bads sb eb (st_tbl st))) as Hnd.
    { rewrite Hp. apply NoDup_seqZ. }
    pose proof (NoDup_lookup _ _ _ _ Hnd L1 L2). lia.
Qed.
End promise.

(** * Properties *)

(** C23: the mapping of a range is a permutation of it: the logical blocks in
    order are the good physical blocks in order and then the bad ones, so no two
    logical blocks share a physical block and bad blocks are used last; blocks
    outside the range are themselves. *)
Theorem bbt_mapping_permutes g sb eb buf (Hr : one_range g sb eb) :
  map (get_mapping_block_index_bbt g buf) (range_blocks sb eb) = goods sb eb buf ++ bads sb eb buf /\
  goods sb eb buf ++ bads sb eb buf ≡ₚ range_blocks sb eb /\
  (forall b1 b2, b1 ∈ range_blocks sb eb -> b2 ∈ range_blocks sb eb ->
     get_mapping_block_index_bbt g buf b1 = get_mapping_block_index_bbt g buf b2 -> b1 = b2) /\
  (forall b, 0 <= b < 65536 -> b ∉ range_blocks sb eb -> 65536 * blk_size g <= 2 ^ 32 ->
     get_mapping_block_index_bbt g buf b = b).
Proof.
  assert (goods sb eb buf ++ bads sb eb buf ≡ₚ range_blocks sb eb) as Hp
    by apply (filter_split (bbt_block_is_bad buf)).
  split; [|split; [done|split]].
  - apply list_eq. intros k. rewrite list_lookup_fmap. unfold range_blocks at 1.
    destruct (decide (Z.of_nat k < eb - sb)) as [Hk|Hk].
    + rewrite lookup_seqZ_lt by done. cbn [fmap option_fmap option_map].
      rewrite <- (mapping_lookup g sb eb Hr) by lia. f_equal. lia.
    + rewrite lookup_seqZ_ge by lia. symmetry. apply lookup_ge_None.
      rewrite goods_bads_length. lia.
  - intros b1 b2 H1 H2 E. apply elem_of_seqZ in H1, H2.
    pose proof (mapping_lookup g sb eb Hr buf b1 ltac:(lia)) as L1.
    pose proof (mapping_lookup g sb eb Hr buf b2 ltac:(lia)) as L2. rewrite E in L1.
    assert (NoDup (goods sb eb buf ++ bads sb eb buf)) as Hnd
      by (rewrite Hp; apply NoDup_seqZ).
    pose proof (NoDup_lookup _ _ _ _ Hnd L1 L2). lia.
  - intros b Hb Hn Hmax. unfold get_mapping_block_index_bbt.
    rewrite (out_of_range g sb eb Hr); [done|done| |done].
    intros Hin. apply Hn, elem_of_seqZ. lia.
Qed.

(** ** Marking the block a logical block is mapped to *)

Section mark_mapped.
Variable g : geometry.
Variables sb eb : Z.
Hypothesis Hr : one_range g sb eb.
Variable tbl : list Z.
Variable block : Z.
Hypothesis Hb : sb <= block < eb.
Hypothesis Hlen : (Z.to_nat (total_blks g) <= 4 * length tbl)%nat.
Hypothesis Htot : eb <= total_blks g.
#[local] Abbreviation mapped := (get_mapping_block_index_bbt g tbl block).
#[local] Abbreviation k := (Z.to_nat (block - sb)).
#[local] Abbreviation buf' := (set_bits tbl mapped true).
Hypothesis Hgood : bbt_block_is_bad tbl mapped = false.

Lemma mapped_in_range : sb <= mapped < eb.
Proof.
  clear Hlen Htot Hgood.
  pose proof (mapping_lookup g sb eb Hr tbl block Hb) as Hk. apply list_elem_of_lookup_2 in Hk.
  assert (mapped ∈ range_blocks sb eb) as Hin 
    by (by rewrite <- (filter_split (bbt_block_is_bad tbl) (range_blocks sb eb))).
  apply elem_of_seqZ in Hin. lia.
Qed.
Lemma mark_mapped_bad i : sb <= i < eb ->
  bbt_block_is_bad buf' i = if decide (i = mapped) then true else bbt_block_is_bad tbl i.
Proof.
  clear Hgood.
  intros Hi. pose proof Hr as [_ _ Hbd _]. pose proof mapped_in_range as Hm.
  pose proof (Z.div_mod mapped 4 ltac:(lia)). pose proof (Z.mod_pos_bound mapped 4 ltac:(lia)).
  assert (0 <= mapped / 4) by (apply Z.div_pos; lia).
  apply set_bits_bad; [lia|lia|lia].
Qed.
Lemma mapped_good_index : goods sb eb tbl !! k = Some mapped.
Proof.
  clear Hlen Htot.
  pose proof (mapping_lookup g sb eb Hr tbl block Hb) as Hk.
  destruct (decide (k < length (goods sb eb tbl)))%nat as [Hlt|Hge].
  - by rewrite lookup_app_l in Hk.
  - rewrite lookup_app_r in Hk by lia. apply list_elem_of_lookup_2, list_elem_of_In, filter_In in Hk.
    destruct Hk as [_ Hk]. congruence.
Qed.
(** The good blocks are those before without this one. *)
Lemma mark_mapped_goods : goods sb eb buf' = delete k (goods sb eb tbl).
Proof.
  unfold goods.
  rewrite <- (filter_delete (fun i => negb (bbt_block_is_bad tbl i))
    (fun i => if decide (i = mapped) then false else negb (bbt_block_is_bad tbl i))
    (range_blocks sb eb) k mapped); [|apply NoDup_seqZ|exact mapped_good_index|done].
  apply filter_ext_in. intros i Hi. apply list_elem_of_In, elem_of_seqZ in Hi.
  rewrite mark_mapped_bad by lia. by destruct (decide (i = mapped)).
Qed.
End mark_mapped.

(** C24: remapping a block that went bad moves more than that block: the block
    takes the place of the next one, as every later logical block does while
    good blocks last, and the earlier ones stay; the data of one block only is
    copied. *)
Theorem bbt_remap_shifts {N : Type} `{NandChip N} g bmt_pgs sb eb (st : bmt_state N (list Z)) block copy_len
    (Hr : one_range g sb eb) (Hb : sb <= block < eb)
    (Hlen : (Z.to_nat (total_blks g) <= 4 * length (st_tbl st))%nat) (Htot : eb <= total_blks g)
    (mapped := get_mapping_block_index_bbt g (st_tbl st) block)
    (Hgood : bbt_block_is_bad (st_tbl st) mapped = false) :
  exists st', remap_block_bbt g bmt_pgs st block mapped copy_len = (true, st') /\
    bbt_block_is_bad (st_tbl st') mapped = true /\
    length (goods sb eb (st_tbl st')) = (length (goods sb eb (st_tbl st)) - 1)%nat /\
    forall b, sb <= b < sb + Z.of_nat (length (goods sb eb (st_tbl st'))) ->
      get_mapping_block_index_bbt g (st_tbl st') b =
      get_mapping_block_index_bbt g (st_tbl st) (if b <? block then b else b + 1).
Proof.
  pose proof (mapped_in_range g sb eb Hr (st_tbl st) block Hb) as Hmr.
  pose proof (mapped_good_index g sb eb Hr (st_tbl st) block Hb Hgood) as Hgk.
  pose proof (mark_mapped_goods g sb eb Hr (st_tbl st) block Hb Hlen Htot Hgood) as Hdel.
  pose proof (mark_mapped_bad g sb eb Hr (st_tbl st) block Hb Hlen Htot mapped Hmr) as Hset.
  fold mapped in Hgk, Hdel, Hset. set (buf' := set_bits (st_tbl st) mapped true) in *.
  assert (exists st', remap_block_bbt g bmt_pgs st block mapped copy_len = (true, st') /\
    st_tbl st' = buf') as (st' & Erun & Etbl).
  { unfold remap_block_bbt. rewrite (in_range g sb eb Hr block Hb). unfold bbt_set_block_state.
    destruct (bbt_nand_erase g (st_chip st) (u16 (st_idx st))) as [r1 n1].
    destruct (write_bmt g bbt_sig bmt_pgs n1 (u16 (st_idx st)) _) as [r2 n2]. cbn [st_tbl st_chip].
    destruct (bbt_nand_erase g n2 _) as [r3 n3]. by eexists. }
  exists st'. rewrite Etbl. split; [done|]. split; [by rewrite Hset, decide_True|].
  assert (length (goods sb eb buf') = (length (goods sb eb (st_tbl st)) - 1)%nat) as Hlg
    by (rewrite Hdel, length_delete; [lia|by eexists]).
  split; [done|]. intros b Hbr. pose proof (lookup_lt_Some _ _ _ Hgk) as Hkl.
  pose proof (goods_bads_length sb eb (st_tbl st)) as Hgl. rewrite length_app in Hgl.
  pose proof (mapping_lookup g sb eb Hr buf' b ltac:(lia)) as Lb.
  rewrite lookup_app_l in Lb by lia. rewrite Hdel in Lb.
  destruct (Z.ltb_spec b block) as [Hlt|Hge].
  - rewrite list_lookup_delete_lt in Lb by lia.
    pose proof (mapping_lookup g sb eb Hr (st_tbl st) b ltac:(lia)) as L0.
    rewrite lookup_app_l in L0 by lia. congruence.
  - rewrite list_lookup_delete_ge in Lb by lia.
    pose proof (mapping_lookup g sb eb Hr (st_tbl st) (b + 1) ltac:(lia)) as L0.
    replace (Z.to_nat (b + 1 - sb)) with (S (Z.to_nat (b - sb))) in L0 by lia.
    rewrite lookup_app_l in L0 by lia. congruence.
Qed.

(** Without the property "mediatek,bmt-remap-range" the scheme maps nothing,
    whatever blocks are bad: the range is given in blocks and then divided by the
    block size as if it were in bytes. *)
Theorem bbt_no_range_identity g buf block (Hg : geometry_wf g) (Hr : remap_range g = None)
    (Hsize : 65536 <= blk_size g) :
  get_mapping_block_index_bbt g buf block = block.
Proof.
  unfold get_mapping_block_index_bbt, mapping_block_in_range. rewrite Hr.
  rewrite !shiftr_block by done. pose proof (gw_total g Hg).
  rewrite Z.div_0_l, (Z.div_small (total_blks g)) by lia. reflexivity.
Qed.

(** * Examples *)

(** 128 KiB blocks, 2 KiB pages, 16 blocks; the range is blocks 2 to 9. *)
Definition demo_geometry : geometry :=
  mk_geometry 131072 2048 17 11 16 0 (Some [(2 * 131072, 10 * 131072)]) 131072 64 0.
(** Blocks 3 and 4 are bad. *)
Definition demo_buf : list Z := [192; 3; 0; 0].

(** A chip that logs what it is asked to change. *)
#[local] Instance demo_chip : NandChip (list (Z * Z)) := {
  chip_read n a len oo ool := mk_read 0 len 0 (replicate (Z.to_nat len) 255) (replicate (Z.to_nat ool) 255);
  chip_write n a l oo oob := (0, Z.of_nat (length l), 0, n ++ [(a, Z.of_nat (length l))]);
  chip_erase n a len := (0, n ++ [(a, - len)]);
  chip_isbad n a := 0;
  chip_markbad n a := (0, n)
}.

Lemma demo_geometry_wf : geometry_wf demo_geometry.
Proof. split; simpl; lia. Qed.
Lemma demo_range : one_range demo_geometry 2 10.
Proof. split; [apply demo_geometry_wf|reflexivity|simpl; lia|simpl; lia]. Qed.

Lemma bbt_mapping_permutes_witness :
  map (get_mapping_block_index_bbt demo_geometry demo_buf) (range_blocks 2 10) =
  [2; 5; 6; 7; 8; 9; 3; 4].
Proof.
  etrans; [exact (proj1 (bbt_mapping_permutes demo_geometry 2 10 demo_buf demo_range))|].
  vm_compute. reflexivity.
Defined.

Lemma bbt_remap_shifts_witness :
  exists st', remap_block_bbt demo_geometry 1 (mk_bmt [] demo_buf 15) 3 5 0 = (true, st') /\
    get_mapping_block_index_bbt demo_geometry (st_tbl st') 4 = 7.
Proof.
  destruct (bbt_remap_shifts demo_geometry 1 2 10 (mk_bmt [] demo_buf 15) 3 0) as (st' & E & _ & Hl & Hm).
  - exact demo_range.
  - lia.
  - simpl. lia.
  - simpl. lia.
  - vm_compute. reflexivity.
  - exists st'. split; [exact E|]. etrans; [apply (Hm 4)|vm_compute; reflexivity].
    rewrite Hl. vm_compute. split; [discriminate|reflexivity].
Defined.

Lemma bbt_no_range_identity_witness :
  get_mapping_block_index_bbt
    (mk_geometry 131072 2048 17 11 16 0 None 131072 64 0) demo_buf 3 = 3.
Proof.
  apply bbt_no_range_identity; [split; simpl; lia|reflexivity|simpl; lia].
Defined.
