(* ===== verification/BmtV2.v ===== *)
(** mtk_bmt: version 2 of the scheme, a mapping table and a pool of spare blocks
    (src/target/linux/generic/files/drivers/mtd/nand/mtk_bmt_v2.c). The table in
    memory is [struct bbbt] with the entries of [bmt_tbl] that lie in the buffer;
    on the chip it is that memory, little-endian. An index outside a table reads
    0 and writes nothing. *)
From S2P Require Import Prelude CNum BmtFlash BmtCore.
Open Scope Z_scope.
Open Scope list_scope.

Definition BBMT_VERSION : Z := 2.
Definition NO_MAPPED : Z := 0.
Definition NORMAL_MAPPED : Z := 1.
Definition BMT_MAPPED : Z := 2.
Definition BBPOOL_RATIO : Z := 2.
Definition BMT_TBL_DEF_VAL : Z := 0.
Definition v2_sig : list Z := [98; 109; 116].      (* "bmt" *)
Definition main_sig : list Z := [66; 77; 84].      (* "BMT" *)

(** [struct bbmt] and [struct bbbt]; [tail] are the bytes after the last entry. *)
Record bbmt := mk_bbmt { e_block : Z; e_mapped : Z }.
Record bbbt := mk_bbbt {
  signature : list Z;
  version : Z;
  bb_tbl : list Z;
  bmt_tbl : list bbmt;
  tail : list Z
}.

Definition tbl_get (l : list Z) (i : Z) : Z := nth (Z.to_nat i) l 0.
Definition tbl_set (l : list Z) (i v : Z) : list Z := <[Z.to_nat i := v]> l.
Definition bmt_get (l : list bbmt) (i : Z) : bbmt := nth (Z.to_nat i) l (mk_bbmt 0 0).
Definition bmt_set (l : list bbmt) (i : Z) (e : bbmt) : list bbmt := <[Z.to_nat i := e]> l.

Definition set_bb_tbl (t : bbbt) (l : list Z) : bbbt :=
  mk_bbbt (signature t) (version t) l (bmt_tbl t) (tail t).
Definition set_bmt_tbl (t : bbbt) (l : list bbmt) : bbbt :=
  mk_bbbt (signature t) (version t) (bb_tbl t) l (tail t).

(** * The memory of the table *)

Definition le16 (w : Z) : list Z := [w mod 256; w / 256].
Fixpoint words (l : list Z) : list Z :=
  match l with
  | a :: b :: r => (a + 256 * b) :: words r
  | _ => []
  end.
Fixpoint entries (l : list Z) : list bbmt :=
  match l with
  | a :: b :: c :: d :: r => mk_bbmt (a + 256 * b) (c + 256 * d) :: entries r
  | _ => []
  end.

Definition bytes_of_bbbt (t : bbbt) : list Z :=
  signature t ++ [version t] ++ flat_map le16 (bb_tbl t)
  ++ flat_map (fun e => le16 (e_block e) ++ le16 (e_mapped e)) (bmt_tbl t) ++ tail t.

Definition bbbt_of_bytes (table_size : Z) (buf : list Z) : bbbt :=
  let n := Z.to_nat (2 * table_size) in
  let rest := drop n (drop 4 buf) in
  mk_bbbt (take 3 buf) (nth 3 buf 0) (words (take n (drop 4 buf))) (entries rest)
    (drop (4 * (length rest / 4)) rest).

(** The size of [bbt_buf], and the end of the area [bmt_tbl] is said to have. *)
Definition bbt_bufsz (pg_size table_size : Z) : Z :=
  ((4 + table_size * 4 + pg_size - 1) / pg_size) * pg_size.
Definition bmt_tbl_end (table_size : Z) : Z := 4 + table_size * 2 + table_size * 4.

(** What [mtk_bmt_init_v2] computes once. *)
Record v2_params := mk_v2 { table_size : Z; pool_lba : Z; bb_max : Z; bmt_pgs : Z }.

Section v2.
Context {N : Type} `{NandChip N}.
Variable g : geometry.
Variable p : v2_params.

(** The test of [find_valid_block]: the page cannot be read, or is marked. *)
Definition bad_page (n : N) (block : Z) : bool :=
  let '(ret, _, fdm) := bbt_nand_read g n (blk_pg g block) (pg_size g) 4 in
  negb (ret =? 0) || negb (nth 0 fdm 0 =? 255).

Fixpoint find_valid_from (fuel : nat) (n : N) (block loop : Z) : Z :=
  if total_blks g <=? block then 0
  else if bad_page n block then
    if bb_max p <=? loop then 0
    else match fuel with
         | O => 0
         | S fuel => find_valid_from fuel n (u16 (block + 1)) (loop + 1)
         end
  else block.
Definition find_valid_block (n : N) (block : Z) : Z :=
  find_valid_from (Z.to_nat (bb_max p)) n (u16 block) 0.

(** The first loop of [scan_bad_blocks] from [i], for [k] more blocks. *)
Fixpoint scan_data (k : nat) (n : N) (tbl : list Z) (i : Z) : option (list Z) :=
  match k with
  | O => Some tbl
  | S k =>
      let b := find_valid_block n (tbl_get tbl (i - 1) + 1) in
      let tbl := tbl_set tbl i b in
      if b =? 0 then None else scan_data k n tbl (i + 1)
  end.

(** The second loop: the entries of the pool, and their number. *)
Fixpoint scan_pool (fuel : nat) (n : N) (tbl : list bbmt) (i block : Z) : list bbmt * Z :=
  match fuel with
  | O => (tbl, i)
  | S fuel =>
      let block := find_valid_block n block in
      if block =? 0 then (tbl, i)
      else scan_pool fuel n (bmt_set tbl i (mk_bbmt block NO_MAPPED)) (i + 1) (u16 (block + 1))
  end.

(** [scan_bad_blocks]: the table and [bmt_blk_idx], or failure. *)
Definition scan_bad_blocks (n : N) (t : bbbt) : option (bbbt * Z) :=
  match scan_data (Z.to_nat (pool_lba p - 1)) n (tbl_set (bb_tbl t) 0 0) 1 with
  | None => None
  | Some tbl =>
      let pool_pba := u16 (tbl_get tbl (pool_lba p - 1) + 1) in
      if total_blks g - 2 <=? pool_pba then None
      else
        let '(pool, i) := scan_pool (Z.to_nat (total_blks g) + 1) n (bmt_tbl t) 0 pool_pba in
        let idx := u16 (i - 1) in
        let pool := bmt_set pool idx (mk_bbmt (e_block (bmt_get pool idx)) BMT_MAPPED) in
        if i <? 1 then None
        else Some (mk_bbbt (signature t) (version t) tbl pool (tail t), idx)
  end.

Definition is_valid_bmt (t : bbbt) (fdm : list Z) : bool :=
  bool_decide (signature t = main_sig) && bool_decide (take 3 (drop 1 fdm) = v2_sig)
  && (version t =? BBMT_VERSION).

Fixpoint bmt_index_from (l : list bbmt) (i : Z) : Z :=
  match l with
  | [] => 0
  | e :: r =>
      if e_block e =? BMT_TBL_DEF_VAL then 0
      else if e_mapped e =? BMT_MAPPED then u16 i else bmt_index_from r (i + 1)
  end.
Definition get_bmt_index (l : list bbmt) : Z := bmt_index_from l 0.

Definition clear_block (t : bbbt) (n : Z) : bbbt :=
  set_bmt_tbl t (bmt_set (bmt_tbl t) n (mk_bbmt 0 (e_mapped (bmt_get (bmt_tbl t) n)))).
Definition sign (t : bbbt) : bbbt := mk_bbbt main_sig BBMT_VERSION (bb_tbl t) (bmt_tbl t) (tail t).

(** [upload_bmt]: the new index, and chip and table. *)
Fixpoint upload_from (fuel : nat) (c : N) (t : bbbt) (n : Z) : Z * N * bbbt :=
  if (n <? 0) || (e_mapped (bmt_get (bmt_tbl t) n) =? NORMAL_MAPPED) then (65535, c, t)
  else match fuel with
       | O => (65535, c, t)
       | S fuel =>
           let block := e_block (bmt_get (bmt_tbl t) n) in
           let '(err, c) := bbt_nand_erase g c block in
           if negb (err =? 0) then upload_from fuel c (clear_block t n) (n - 1)
           else
             let t := sign t in
             let '(err, c) := write_bmt g v2_sig (bmt_pgs p) c block (bytes_of_bbbt t) in
             if negb (err =? 0) then upload_from fuel c (clear_block t n) (n - 1)
             else (u16 n, c, t)
       end.
Definition upload_bmt (c : N) (t : bbbt) (n : Z) : Z * N * bbbt :=
  upload_from (Z.to_nat n + 1) c t n.

(** The search of [find_valid_block_in_pool] in the first [k] entries from [i]. *)
Fixpoint find_free (k : nat) (l : list bbmt) (i : Z) : option Z :=
  match k with
  | O => None
  | S k =>
      let e := bmt_get l i in
      if negb (e_block e =? 0) && (e_mapped e =? NO_MAPPED) then Some i
      else find_free k l (i + 1)
  end.

(** The block, 0 when the pool is exhausted, and the table. *)
Definition find_valid_block_in_pool (t : bbbt) (idx : Z) : Z * bbbt :=
  if idx =? 0 then (0, t)
  else match find_free (Z.to_nat idx) (bmt_tbl t) 0 with
       | None => (0, t)
       | Some i =>
           let b := e_block (bmt_get (bmt_tbl t) i) in
           (b, set_bmt_tbl t (bmt_set (bmt_tbl t) i (mk_bbmt b NORMAL_MAPPED)))
       end.

Definition remap_block_v2 (st : bmt_state N bbbt) (block mapped_block copy_len : Z)
    : bool * bmt_state N bbbt :=
  let '(new_block, t) := find_valid_block_in_pool (st_tbl st) (st_idx st) in
  if new_block =? 0 then (false, st)
  else
    let t := set_bb_tbl t (tbl_set (bb_tbl t) block new_block) in
    let '(_, c) := bbt_nand_erase g (st_chip st) new_block in
    let c := if 0 <? copy_len then snd (bbt_nand_copy g c new_block mapped_block copy_len) else c in
    let '(idx, c, t) := upload_bmt c t (st_idx st) in
    (true, mk_bmt c t idx).

Definition get_mapping_block_index_v2 (st : bmt_state N bbbt) (block : Z) : Z :=
  if pool_lba p <=? block then block
  else match mapping_block_in_range g block with
       | None => block
       | Some _ => tbl_get (bb_tbl (st_tbl st)) block
       end.

Definition unmap_block_v2 (st : bmt_state N bbbt) (block : Z) : bmt_state N bbbt :=
  let t := set_bb_tbl (st_tbl st) (tbl_set (bb_tbl (st_tbl st)) block block) in
  let '(idx, c, t) := upload_bmt (st_chip st) t (st_idx st) in
  mk_bmt c t idx.

Definition mtk_bmt_v2_ops : BmtOps N bbbt := {|
  op_get := get_mapping_block_index_v2;
  op_remap := remap_block_v2;
  op_unmap := unmap_block_v2
|}.
#[export] Existing Instance mtk_bmt_v2_ops.

(** [mtk_bmt_get_mapping_mask]: the pool entries below [idx] that some block is
    mapped to, the first one for each block. *)
Definition mapping_mask (t : bbbt) (idx main_blocks : Z) : list Z :=
  omap (fun i =>
    if tbl_get (bb_tbl t) i =? i then None
    else List.find (fun k => tbl_get (bb_tbl t) i =? e_block (bmt_get (bmt_tbl t) k))
           (seqZ 0 idx)) (seqZ 1 (main_blocks - 1)).

(** The second case of [mtk_bmt_debug_v2]: the entries of the pool that are
    marked and unused are released; whether there was one. *)
Fixpoint release (ks : list Z) (used : list Z) (l : list bbmt) : bool * list bbmt :=
  match ks with
  | [] => (false, l)
  | k :: ks =>
      let e := bmt_get l k in
      if negb (e_mapped e =? NORMAL_MAPPED) then release ks used l
      else if bool_decide (k ∈ used) then release ks used l
      else (true, snd (release ks used (bmt_set l k (mk_bbmt (e_block e) NO_MAPPED))))
  end.

(** The remapped blocks the first case prints, and the state. *)
Definition mtk_bmt_debug_v2 (st : bmt_state N bbbt) (val main_blocks : Z)
    : list (Z * Z) * bmt_state N bbbt :=
  let t := st_tbl st in
  let used := mapping_mask t (st_idx st) main_blocks in
  if val =? 0 then
    (List.filter (fun ib => negb (snd ib =? fst ib))
       (map (fun i => (i, tbl_get (bb_tbl t) i)) (seqZ 1 (main_blocks - 1))), st)
  else if val =? 100 then
    let '(any, l) := release (seqZ 0 (st_idx st + 1)) used (bmt_tbl t) in
    let t := set_bmt_tbl t l in
    if any then
      let '(idx, c, t) := upload_bmt (st_chip st) t (st_idx st) in ([], mk_bmt c t idx)
    else ([], mk_bmt (st_chip st) t (st_idx st))
  else ([], st).
End v2.

(** * Initialisation *)

Section init.
Context {N : Type} `{NandChip N}.
Variable g : geometry.

Definition init_params (pool_size table_size : Z) : v2_params :=
  let pmt_block := u16 (total_blks g - pool_size - 2) in
  mk_v2 table_size (u16 (pmt_block + 2)) (u16 (total_blks g * BBPOOL_RATIO / 100))
    (Z.shiftr (bbt_bufsz (pg_size g) table_size) (pg_shift g)).

(** The search for the table from [block] down to the pool, [k] blocks at most:
    the buffer, and the table with its index when it is found. *)
Fixpoint find_bmt (k : nat) (p : v2_params) (n : N) (block : Z) (buf : list Z)
    : list Z * option (bbbt * Z) :=
  match k with
  | O => (buf, None)
  | S k =>
      if block <? pool_lba p then (buf, None)
      else
        let '(ret, dat, fdm) := bbt_nand_read g n (blk_pg g block)
                                  (bbt_bufsz (pg_size g) (table_size p)) 4 in
        let buf := dat ++ drop (length dat) buf in
        if negb (ret =? 0) then find_bmt k p n (u16 (block - 1)) buf
        else
          let t := bbbt_of_bytes (table_size p) buf in
          if negb (is_valid_bmt t fdm) then find_bmt k p n (u16 (block - 1)) buf
          else
            let idx := get_bmt_index (bmt_tbl t) in
            if idx =? 0 then (buf, None) else (buf, Some (t, idx))
  end.

(** [mtk_bmt_init_v2] with the properties of the device tree: the error, or
    parameters, state and the new size of the device. *)
Definition mtk_bmt_init_v2 (n : N) (pool_size table_size_prop : option Z) (alloc : bool)
    : Z + v2_params * bmt_state N bbbt * Z :=
  let p := init_params (default 80 pool_size) (default 8192 table_size_prop) in
  let size := u32 (Z.shiftl (u16 (total_blks g - default 80 pool_size - 2)) (blk_shift g)) in
  if negb alloc then inl (-12)
  else
    let buf := replicate (Z.to_nat (bbt_bufsz (pg_size g) (table_size p))) 255 in
    match find_bmt (Z.to_nat (total_blks g)) p n (u16 (total_blks g - 1)) buf with
    | (_, Some (t, idx)) => inr (p, mk_bmt n t idx, size)
    | (buf, None) =>
        let ts := table_size p in
        if ts + ts * BBPOOL_RATIO / 100 <? total_blks g then inl (-1)
        else
          let t := bbbt_of_bytes ts buf in
          let t := set_bmt_tbl t (replicate (length (bmt_tbl t)) (mk_bbmt 0 0)) in
          match scan_bad_blocks g p n t with
          | None => inl (-1)
          | Some (t, idx) =>
              let '(idx, n, t) := upload_bmt g p n t idx in
              if idx =? 65535 then inl (-1) else inr (p, mk_bmt n t idx, size)
          end
    end.
End init.

(** * Lemmas on the scan *)

Section scan.
Context {N : Type} `{NandChip N}.
Variable g : geometry.
Variable p : v2_params.
Variable n : N.
Hypothesis Htot : 0 < total_blks g < 65536.

Let good (b : Z) : bool := negb (bad_page g n b).
(** The good blocks from [a] on. *)
Definition good_from (a : Z) : list Z := List.filter good (seqZ a (total_blks g - a)).

Lemma good_from_step a : a < total_blks g ->
  good_from a = if bad_page g n a then good_from (a + 1) else a :: good_from (a + 1).
Proof.
  intros Ha. unfold good_from. rewrite seqZ_cons by lia. cbn [List.filter].
  replace (Z.succ a) with (a + 1) by lia.
  replace (Z.pred (total_blks g - a)) with (total_blks g - (a + 1)) by lia.
  unfold good at 1. by destruct (bad_page g n a).
Qed.

Lemma find_valid_spec a b : 0 <= a < 65536 -> find_valid_block g p n a = b -> b <> 0 ->
  a <= b < total_blks g /\ good_from a = b :: good_from (b + 1).
Proof.
  intros Ha. unfold find_valid_block. rewrite u16_small by done. generalize 0 at 1 as loop.
  generalize (Z.to_nat (bb_max p)) as fuel. intros fuel. revert a Ha.
  induction fuel as [|fuel IH]; intros a Ha loop; cbn [find_valid_from];
    (destruct (Z.leb_spec (total_blks g) a); [done|]);
    destruct (bad_page g n a) eqn:Eb; intros E Hb.
  1: case_if_in E; done.
  1, 3: subst b; split; [lia|]; rewrite good_from_step by done; by rewrite Eb.
  case_if_in E; [done|]. rewrite u16_small in E by lia.
  destruct (IH (a + 1) ltac:(lia) (loop + 1) E Hb) as [Hr Hg].
  split; [lia|]. rewrite good_from_step by done. by rewrite Eb.
Qed.

Lemma take_set (l : list Z) i v : (i < length l)%nat -> take (S i) (<[i := v]> l) = take i l ++ [v].
Proof.
  intros Hi. rewrite (take_S_r _ _ v) by by apply list_lookup_insert_eq.
  by rewrite take_insert_ge by lia.
Qed.

Lemma tbl_get_set l i v : (Z.to_nat i < length l)%nat -> tbl_get (tbl_set l i v) i = v.
Proof. intros Hi. unfold tbl_get, tbl_set. apply nth_lookup_Some. by apply list_lookup_insert_eq. Qed.

Lemma scan_data_spec k tbl (i : nat) tbl' :
  (0 < i)%nat -> (i + k <= length tbl)%nat -> 0 <= tbl_get tbl (Z.of_nat i - 1) < total_blks g ->
  scan_data g p k n tbl (Z.of_nat i) = Some tbl' ->
  length tbl' = length tbl /\
  exists seg, length seg = k /\ take (i + k) tbl' = take i tbl ++ seg /\
    0 <= tbl_get tbl' (Z.of_nat (i + k) - 1) < total_blks g /\
    good_from (tbl_get tbl (Z.of_nat i - 1) + 1) =
      seg ++ good_from (tbl_get tbl' (Z.of_nat (i + k) - 1) + 1).
Proof.
  revert tbl i. induction k as [|k IH]; intros tbl i Hi Hl Hp; cbn [scan_data].
  - intros [= ->]. split; [done|]. exists []. rewrite Nat.add_0_r, app_nil_r. done.
  - set (b := find_valid_block g p n (tbl_get tbl (Z.of_nat i - 1) + 1)).
    destruct (Z.eqb_spec b 0) as [|Hb]; [done|]. intros E.
    replace (Z.of_nat i + 1) with (Z.of_nat (S i)) in E by lia.
    assert (tbl_get (tbl_set tbl (Z.of_nat i) b) (Z.of_nat (S i) - 1) = b) as Eb.
    { replace (Z.of_nat (S i) - 1) with (Z.of_nat i) by lia. apply tbl_get_set. lia. }
    destruct (find_valid_spec (tbl_get tbl (Z.of_nat i - 1) + 1) b ltac:(lia) eq_refl Hb) as [Hr Hg].
    apply IH in E as (Hlen & seg & Hs & Ht & Hlast & Hgood);
      [|lia|unfold tbl_set; rewrite length_insert; lia|rewrite Eb; lia].
    unfold tbl_set in Hlen. rewrite length_insert in Hlen. rewrite Eb in Hgood.
    split; [done|]. exists (b :: seg). split; [simpl; lia|].
    replace (i + S k)%nat with (S i + k)%nat by lia. split.
    + rewrite Ht. unfold tbl_set. rewrite Nat2Z.id, take_set by lia. by rewrite <- app_assoc.
    + split; [done|]. rewrite Hg, Hgood. done.
Qed.

Lemma scan_pool_spec fuel tbl (i : nat) a tbl' j :
  0 <= a < 65536 -> (i + length (good_from a) <= length tbl)%nat -> (Z.to_nat (total_blks g - a) < fuel)%nat ->
  scan_pool g p fuel n tbl (Z.of_nat i) a = (tbl', j) ->
  length tbl' = length tbl /\
  exists pool, j = Z.of_nat (i + length pool) /\
    tbl' = take i tbl ++ map (fun b => mk_bbmt b NO_MAPPED) pool ++ drop (i + length pool) tbl /\
    pool `prefix_of` good_from a.
Proof.
  revert tbl i a. induction fuel as [|fuel IH]; intros tbl i a Ha Hl Hf; [lia|].
  cbn [scan_pool]. set (b := find_valid_block g p n a). destruct (Z.eqb_spec b 0) as [|Hb].
  - intros [= <- <-]. split; [done|]. exists []. rewrite Nat.add_0_r. cbn [map app].
    rewrite take_drop. split; [done|]. split; [done|]. apply prefix_nil.
  - destruct (find_valid_spec a b Ha eq_refl Hb) as [Hr Hg]. rewrite Hg in Hl. cbn [length] in Hl.
    replace (Z.of_nat i + 1) with (Z.of_nat (S i)) by lia. rewrite u16_small by lia. intros E.
    apply IH in E as (Hlen & pool & -> & -> & Hpre);
      [|lia|unfold bmt_set; rewrite length_insert; lia|lia].
    unfold bmt_set in *. rewrite length_insert, Nat2Z.id in *. split; [done|].
    exists (b :: pool). split; [simpl; lia|]. split.
    + rewrite (take_S_r _ _ (mk_bbmt b NO_MAPPED)) by (apply list_lookup_insert_eq; lia).
      rewrite take_insert_ge by lia. rewrite drop_insert_lt by lia.
      rewrite <- app_assoc. cbn [map app length]. by rewrite <- Nat.add_succ_comm.
    + rewrite Hg. by apply prefix_cons.
Qed.
End scan.

(** * The invariant of the table *)

(** The blocks of the entries that hold one. *)
Definition pool_blocks (l : list bbmt) : list Z :=
  List.filter (fun b => negb (b =? 0)) (map e_block l).
(** A free entry: it holds a block and is not mapped. *)
Definition free_entry (e : bbmt) : Prop := e_block e <> 0 /\ e_mapped e = NO_MAPPED.

(** The logical blocks are mapped one-to-one, the entries of the pool hold
    different blocks, and no logical block is mapped to a free one. *)
Record v2_inv (p : v2_params) (t : bbbt) : Prop := {
  vi_len : (Z.to_nat (pool_lba p) <= length (bb_tbl t))%nat;
  vi_map : NoDup (take (Z.to_nat (pool_lba p)) (bb_tbl t));
  vi_pool : NoDup (pool_blocks (bmt_tbl t));
  vi_free : forall e, e ∈ bmt_tbl t -> free_entry e ->
            e_block e ∉ take (Z.to_nat (pool_lba p)) (bb_tbl t)
}.

Lemma pool_blocks_app l1 l2 : pool_blocks (l1 ++ l2) = pool_blocks l1 ++ pool_blocks l2.
Proof. unfold pool_blocks. by rewrite map_app, List.filter_app. Qed.

Lemma pool_blocks_in l e : e ∈ l -> e_block e <> 0 -> e_block e ∈ pool_blocks l.
Proof.
  intros He Hb. apply list_elem_of_In, filter_In. split.
  - apply in_map. by apply list_elem_of_In.
  - by apply negb_true_iff, Z.eqb_neq.
Qed.

(** Replacing an entry by one with the same block, or with none. *)
Lemma pool_blocks_set l i e : (i < length l)%nat ->
  e_block e = e_block (nth i l (mk_bbmt 0 0)) -> pool_blocks (<[i := e]> l) = pool_blocks l.
Proof.
  intros Hi He. destruct (lookup_lt_is_Some_2 l i Hi) as [x Hx].
  rewrite (nth_lookup_Some _ _ _ _ Hx) in He.
  rewrite <- (take_drop_middle l i x Hx) at 2. rewrite insert_take_drop by done.
  rewrite !pool_blocks_app. f_equal. unfold pool_blocks. cbn [map]. by rewrite He.
Qed.

Lemma pool_blocks_clear l i m : (i < length l)%nat ->
  pool_blocks (<[i := mk_bbmt 0 m]> l) `sublist_of` pool_blocks l.
Proof.
  intros Hi. destruct (lookup_lt_is_Some_2 l i Hi) as [x Hx].
  rewrite <- (take_drop_middle l i x Hx) at 2. rewrite insert_take_drop by done.
  rewrite !pool_blocks_app. apply sublist_app; [done|]. unfold pool_blocks. cbn [map List.filter].
  change (e_block (mk_bbmt 0 m)) with 0. cbn [Z.eqb negb].
  destruct (negb (e_block x =? 0)); [by apply sublist_cons|done].
Qed.

Lemma bmt_set_out l i e : (length l <= Z.to_nat i)%nat -> bmt_set l i e = l.
Proof. intros Hi. unfold bmt_set. by apply list_insert_ge. Qed.

Lemma clear_inv p t n : v2_inv p t -> v2_inv p (clear_block t n).
Proof.
  intros [H1 H2 H3 H4]. unfold clear_block.
  destruct (decide (Z.to_nat n < length (bmt_tbl t))%nat) as [Hn|Hn].
  2:{ rewrite bmt_set_out by lia. by destruct t. }
  split; cbn [bmt_tbl bb_tbl set_bmt_tbl]; [done|done| |].
  - unfold bmt_set. eapply sublist_NoDup; [exact H3|]. by apply pool_blocks_clear.
  - intros e He Hf. unfold bmt_set in He. apply list_elem_of_lookup_1 in He as [k Hk].
    destruct (decide (k = Z.to_nat n)) as [->|Hne].
    + rewrite list_lookup_insert_eq in Hk by done. injection Hk as <-. by destruct Hf.
    + rewrite list_lookup_insert_ne in Hk by done. apply (H4 e); [by eapply list_elem_of_lookup_2|done].
Qed.

Lemma sign_inv p t : v2_inv p t -> v2_inv p (sign t).
Proof. intros [H1 H2 H3 H4]. by split. Qed.

Section upload.
Context {N : Type} `{NandChip N}.
Variable g : geometry.
Variable p : v2_params.

Lemma upload_inv fuel c t n :
  v2_inv p t -> v2_inv p (snd (upload_from g p fuel c t n)) /\
  bb_tbl (snd (upload_from g p fuel c t n)) = bb_tbl t.
Proof.
  revert c t n. induction fuel as [|fuel IH]; intros c t n Ht; cbn [upload_from].
  - by case_if.
  - case_if; [done|]. destruct (bbt_nand_erase g c _) as [err c1].
    destruct (negb (err =? 0)).
    + destruct (IH c1 (clear_block t n) (n - 1) (clear_inv p t n Ht)) as [Hi ->]. done.
    + destruct (write_bmt g v2_sig (bmt_pgs p) c1 _ _) as [err2 c2].
      destruct (negb (err2 =? 0)); [|cbn; split; [by apply sign_inv|done]].
      destruct (IH c2 (clear_block (sign t) n) (n - 1) (clear_inv p _ n (sign_inv p t Ht))) as [Hi ->].
      done.
Qed.
End upload.

Lemma find_free_spec k l i r : 0 <= i -> find_free k l i = Some r ->
  i <= r < i + Z.of_nat k /\ free_entry (bmt_get l r).
Proof.
  revert i. induction k as [|k IH]; intros i Hi; cbn [find_free]; [done|].
  case_if.
  - intros [= <-]. split; [lia|]. bprop. done.
  - intros Hr. apply IH in Hr as [? ?]; [|lia]. split; [lia|done].
Qed.

Lemma NoDup_insert_fresh (l : list Z) i x : NoDup l -> x ∉ l -> NoDup (<[i := x]> l).
Proof.
  intros Hnd Hx. apply NoDup_alt. intros j k y Hj Hk.
  assert (forall m, <[i := x]> l !! m = Some y -> (m = i /\ y = x) \/ l !! m = Some y) as Hl.
  { intros m Hm. apply list_lookup_insert_Some in Hm as [(-> & <- & _)|[_ Hm]]; auto. }
  destruct (Hl j Hj) as [[Ej Ey]|Hj'], (Hl k Hk) as [[Ek Ey']|Hk'].
  - congruence.
  - destruct Hx. rewrite <- Ey. by eapply list_elem_of_lookup_2.
  - destruct Hx. rewrite <- Ey'. by eapply list_elem_of_lookup_2.
  - by eapply NoDup_lookup.
Qed.

(** Entries with the same block are the same entry. *)
Lemma pool_distinct l j k e e' : NoDup (pool_blocks l) -> l !! j = Some e -> l !! k = Some e' ->
  e_block e = e_block e' -> e_block e <> 0 -> j = k.
Proof.
  assert (forall l j k e e', NoDup (pool_blocks l) -> l !! j = Some e -> l !! k = Some e' ->
    e_block e = e_block e' -> e_block e <> 0 -> (j <= k)%nat -> j = k) as Hle.
  { clear. intros l j k e e' Hnd Hj Hk He Hne Hle. destruct (decide (j = k)) as [|Hjk]; [done|].
    rewrite <- (take_drop_middle l j e Hj), pool_blocks_app in Hnd.
    apply NoDup_app in Hnd as (_ & _ & Hnd). unfold pool_blocks in Hnd. cbn [map List.filter] in Hnd.
    destruct (Z.eqb_spec (e_block e) 0); [done|]. cbn [negb] in Hnd.
    apply NoDup_cons in Hnd as [Hnot _]. destruct Hnot. rewrite He.
    apply (pool_blocks_in (drop (S j) l) e'); [|congruence].
    apply (list_elem_of_lookup_2 _ (k - S j)). rewrite lookup_drop.
    by replace (S j + (k - S j))%nat with k by lia. }
  intros Hnd Hj Hk He Hne. destruct (decide (j <= k)%nat) as [|Hgt]; [by eapply Hle|].
  symmetry. eapply Hle; try done; [congruence|lia].
Qed.

(** No entry before an empty one is marked: there is no index. *)
Lemma index_lost l n :
  (exists m, l !! n = Some (mk_bbmt 0 m)) ->
  (forall k e, (k < n)%nat -> l !! k = Some e -> e_mapped e <> BMT_MAPPED) ->
  get_bmt_index l = 0.
Proof.
  unfold get_bmt_index. generalize 0 at 2 as i. intros i Hz Ho.
  revert n i Hz Ho. induction l as [|e l IH]; intros n i [m Hm] Ho; [done|].
  cbn [bmt_index_from]. destruct n as [|n].
  - injection Hm as ->. done.
  - case_if; [done|]. pose proof (Ho 0%nat e ltac:(lia) eq_refl) as He.
    destruct (Z.eqb_spec (e_mapped e) BMT_MAPPED); [done|]. apply (IH n); [by exists m|].
    intros k e' Hk Hl. apply (Ho (S k)); [lia|done].
Qed.

(** The scheme keeps what the core relies on: the invariant makes the logical
    blocks one-to-one. *)
Section promise.
Context {N : Type} `{NandChip N}.
Variable g : geometry.
Variable p : v2_params.

#[export] Instance v2_table_mapping : @TableMapping N bbbt (mtk_bmt_v2_ops g p).
Proof.
  split. intros st st' block E. simpl. unfold get_mapping_block_index_v2. by rewrite E.
Qed.

Lemma v2_maps_blocks (st : bmt_state N bbbt) :
  v2_inv p (st_tbl st) -> Forall (fun b => 0 <= b) (bb_tbl (st_tbl st)) ->
  remap_range g = None -> 0 <= pool_lba p < 65536 ->
  @maps_blocks N bbbt (mtk_bmt_v2_ops g p) st 0 (pool_lba p).
Proof.
  intros [Hl Hm _ _] Hpos Hr Hp.
  assert (forall b, 0 <= b < pool_lba p -> exists x,
    get_mapping_block_index_v2 g p st b = x /\
    take (Z.to_nat (pool_lba p)) (bb_tbl (st_tbl st)) !! Z.to_nat b = Some x) as Hget.
  { intros b Hb. unfold get_mapping_block_index_v2, mapping_block_in_range. rewrite Hr.
    destruct (Z.leb_spec (pool_lba p) b); [lia|].
    destruct (lookup_lt_is_Some_2 (bb_tbl (st_tbl st)) (Z.to_nat b) ltac:(lia)) as [x Hx].
    exists x. rewrite lookup_take_lt by lia. split; [by apply nth_lookup_Some|done]. }
  split; [lia|]. split; [lia|]. split.
  - intros b Hb. destruct (Hget b Hb) as (x & E & Hx). cbn [op_get mtk_bmt_v2_ops]. rewrite E.
    rewrite lookup_take_lt in Hx by lia. by eapply Forall_lookup_1 in Hpos.
  - intros b b' Hb Hb' E. cbn [op_get mtk_bmt_v2_ops] in E.
    destruct (Hget b Hb) as (x & E1 & Hx). destruct (Hget b' Hb') as (x' & E2 & Hx').
    rewrite E1, E2 in E. subst x'. pose proof (NoDup_lookup _ _ _ _ Hm Hx Hx'). lia.
Qed.
End promise.

(** * Properties *)

(** The tables a scan gives, for blocks that are different good ones. *)
Lemma good_prefix_distinct {N : Type} `{NandChip N} g (n : N) l : l `prefix_of` good_from g n 1 ->
  NoDup l /\ forall x, x ∈ l -> x <> 0.
Proof.
  intros [k Hk]. split.
  - apply (NoDup_app l k). rewrite <- Hk.
    apply NoDup_ListNoDup, List.NoDup_filter, NoDup_ListNoDup, NoDup_seqZ.
  - intros x Hx. assert (x ∈ good_from g n 1) as Hin by (rewrite Hk; apply elem_of_app; by left).
    apply list_elem_of_In, filter_In in Hin as [Hin _].
    apply list_elem_of_In, elem_of_seqZ in Hin. lia.
Qed.
Lemma empty_pool m : pool_blocks (replicate m (mk_bbmt 0 0)) = [].
Proof. induction m as [|m IH]; [done|exact IH]. Qed.
Lemma scanned_inv {N : Type} `{NandChip N} g (n : N) p t seg pool b m :
  take (Z.to_nat (pool_lba p)) (bb_tbl t) = 0 :: seg ->
  bmt_tbl t = map (fun x => mk_bbmt x NO_MAPPED) pool ++ [mk_bbmt b BMT_MAPPED] ++ replicate m (mk_bbmt 0 0) ->
  (Z.to_nat (pool_lba p) <= length (bb_tbl t))%nat ->
  seg ++ pool ++ [b] `prefix_of` good_from g n 1 -> v2_inv p t.
Proof.
  intros Htake Hbmt Hlen Hpre. apply good_prefix_distinct in Hpre as [Hnd Hnz].
  apply NoDup_app in Hnd as (Hnd1 & Hdis & Hnd2). split; [done|..]; rewrite ?Htake, ?Hbmt.
  - apply NoDup_cons. split; [|done]. intros Hin. apply (Hnz 0); [|done]. apply elem_of_app. by left.
  - rewrite !pool_blocks_app, empty_pool, app_nil_r. unfold pool_blocks. rewrite map_map. cbn [e_block map].
    rewrite map_id, <- List.filter_app.
    apply NoDup_ListNoDup, List.NoDup_filter, NoDup_ListNoDup. done.
  - intros e He [Hb Hm]. apply elem_of_app in He as [He|He].
    + apply list_elem_of_fmap in He as (x & -> & Hx). cbn [e_block] in *.
      apply not_elem_of_cons. split; [done|]. intros Hin. apply (Hdis x Hin).
      apply elem_of_app. by left.
    + apply elem_of_app in He as [He|He].
      * apply list_elem_of_singleton in He as ->. done.
      * apply elem_of_replicate in He as [-> _]. done.
Qed.
(** The last block of the pool is that of the table. *)
Lemma pool_last_set pool b d e :
  bmt_set (map (fun x => mk_bbmt x NO_MAPPED) (pool ++ [b]) ++ d) (Z.of_nat (length pool)) e =
  map (fun x => mk_bbmt x NO_MAPPED) pool ++ [e] ++ d.
Proof.
  unfold bmt_set. rewrite Nat2Z.id, map_app, <- app_assoc.
  rewrite insert_app_r_alt by (rewrite length_map; lia). by rewrite length_map, Nat.sub_diag.
Qed.
Lemma pool_last_get pool b d :
  e_block (bmt_get (map (fun x => mk_bbmt x NO_MAPPED) (pool ++ [b]) ++ d) (Z.of_nat (length pool))) = b.
Proof.
  unfold bmt_get. rewrite Nat2Z.id, map_app, <- app_assoc.
  rewrite app_nth2 by (rewrite length_map; lia). by rewrite length_map, Nat.sub_diag.
Qed.

(** C25: a successful scan builds the table it documents: the logical blocks are
    block 0 and then the good blocks of the chip in order, none left out, and the
    pool continues with the following good ones; the table itself goes to the
    last block of the pool, all others are free; the invariant holds. *)
Theorem scan_builds_table {N : Type} `{NandChip N} g p n t t' idx
    (Htot : 0 < total_blks g < 65536) (Hlba : 1 < pool_lba p)
    (Hlen : (Z.to_nat (pool_lba p) <= length (bb_tbl t))%nat)
    (Hpool : bmt_tbl t = replicate (length (bmt_tbl t)) (mk_bbmt 0 0))
    (Hroom : (Z.to_nat (total_blks g) <= length (bmt_tbl t))%nat)
    (Hrun : scan_bad_blocks g p n t = Some (t', idx)) :
  exists seg pool,
    take (Z.to_nat (pool_lba p)) (bb_tbl t') = 0 :: seg /\
    bmt_tbl t' = map (fun b => mk_bbmt b NO_MAPPED) (removelast pool)
                 ++ [mk_bbmt (List.last pool 0) BMT_MAPPED]
                 ++ replicate (length (bmt_tbl t) - length pool) (mk_bbmt 0 0) /\
    idx = Z.of_nat (length pool) - 1 /\ pool <> [] /\
    seg ++ pool `prefix_of` good_from g n 1 /\
    v2_inv p t'.
Proof.
  unfold scan_bad_blocks in Hrun.
  destruct (scan_data g p (Z.to_nat (pool_lba p - 1)) n (tbl_set (bb_tbl t) 0 0) 1) as [tbl|] eqn:Ed;
    [|done].
  set (tbl0 := tbl_set (bb_tbl t) 0 0) in *.
  assert (tbl_get tbl0 (Z.of_nat 1 - 1) = 0) as E0 by (apply tbl_get_set; lia).
  assert (length tbl0 = length (bb_tbl t)) as Hl0 by (unfold tbl0, tbl_set; by rewrite length_insert).
  apply (scan_data_spec g p n Htot _ tbl0 1) in Ed as (Hl1 & seg & Hs & Ht & Hlast & Hgood);
    [|lia|lia|lia].
  replace (1 + Z.to_nat (pool_lba p - 1))%nat with (Z.to_nat (pool_lba p)) in * by lia.
  rewrite Z2Nat.id in * by lia. rewrite E0 in Hgood. change (0 + 1) with 1 in Hgood.
  set (last := tbl_get tbl (pool_lba p - 1)) in *. rewrite u16_small in Hrun by lia.
  case_if_in Hrun; [done|]. bprop.
  destruct (scan_pool g p (Z.to_nat (total_blks g) + 1) n (bmt_tbl t) 0 (last + 1)) as [pl j] eqn:Ep.
  assert (forall a, 0 <= a -> (length (good_from g n a) <= Z.to_nat (total_blks g))%nat) as Hgl.
  { intros a Ha. unfold good_from. etrans; [apply filter_length_le|]. rewrite length_seqZ. lia. }
  apply (scan_pool_spec g p n Htot _ (bmt_tbl t) 0) in Ep as (Hlp & pool & -> & -> & Hpre);
    [|lia|specialize (Hgl (last + 1)); lia|lia].
  cbn [take Nat.add app] in *. case_if_in Hrun; [done|]. bprop. injection Hrun as <- <-.
  assert (pool <> []) as Hne by (intros ->; simpl in *; lia).
  destruct (exists_last Hne) as (pool' & b & ->).
  rewrite length_app in *. cbn [length] in *.
  assert (length pool' + 1 <= Z.to_nat (total_blks g))%nat as Hpl.
  { specialize (Hgl (last + 1) ltac:(lia)). apply prefix_length in Hpre.
    rewrite length_app in Hpre. simpl in Hpre. lia. }
  rewrite u16_small by lia.
  replace (Z.of_nat (length pool' + 1) - 1) with (Z.of_nat (length pool')) by lia.
  rewrite pool_last_set, pool_last_get.
  assert (drop (length pool' + 1) (bmt_tbl t) =
    replicate (length (bmt_tbl t) - (length pool' + 1)) (mk_bbmt 0 0)) as Hdrop.
  { rewrite Hpool at 1. by rewrite drop_replicate. }
  rewrite Hdrop. exists seg, (pool' ++ [b]). rewrite removelast_last, last_last, length_app.
  assert (take (Z.to_nat (pool_lba p)) tbl = 0 :: seg) as Htake.
  { rewrite Ht. f_equal. unfold tbl0, tbl_set. destruct (bb_tbl t); [simpl in *; lia|done]. }
  assert (seg ++ pool' ++ [b] `prefix_of` good_from g n 1) as Hprefix.
  { rewrite Hgood. by apply prefix_app. }
  split; [done|]. split; [done|]. split; [simpl; lia|]. split; [done|]. split; [done|].
  eapply (scanned_inv g n p _ seg pool' b); [exact Htake|reflexivity|cbn [bb_tbl]; lia|exact Hprefix].
Qed.

(** An entry that is free is given to a block. *)
Lemma map_entry_inv p t block k e :
  v2_inv p t -> 0 <= block < pool_lba p -> bmt_tbl t !! Z.to_nat k = Some e -> e_block e <> 0 ->
  (e_block e) ∉ take (Z.to_nat (pool_lba p)) (bb_tbl t) ->
  v2_inv p (set_bb_tbl (set_bmt_tbl t (bmt_set (bmt_tbl t) k (mk_bbmt (e_block e) NORMAL_MAPPED)))
              (tbl_set (bb_tbl t) block (e_block e))).
Proof.
  intros [H1 H2 H3 H4] Hb Hek Hne Hnew. pose proof (lookup_lt_Some _ _ _ Hek) as Hkl.
  split; cbn [bb_tbl bmt_tbl set_bb_tbl set_bmt_tbl].
  - unfold tbl_set. by rewrite length_insert.
  - unfold tbl_set. rewrite take_insert_lt by lia. by apply NoDup_insert_fresh.
  - unfold bmt_set. rewrite pool_blocks_set; [done|done|].
    cbn [e_block]. by rewrite (nth_lookup_Some _ _ _ _ Hek).
  - intros e' He' Hf'. unfold tbl_set. rewrite take_insert_lt by lia. intros Hin.
    assert (e' ∈ bmt_tbl t /\ e_block e' <> e_block e) as [Hold Hdiff].
    { unfold bmt_set in He'. apply list_elem_of_lookup_1 in He' as [j Hj].
      destruct (decide (j = Z.to_nat k)) as [->|Hjk].
      - rewrite list_lookup_insert_eq in Hj by done. injection Hj as <-. by destruct Hf'.
      - rewrite list_lookup_insert_ne in Hj by done.
        split; [by eapply list_elem_of_lookup_2|]. intros Heq.
        apply Hjk. apply (pool_distinct (bmt_tbl t) j (Z.to_nat k) e' e); try done. by rewrite Heq. }
    apply list_elem_of_lookup_1 in Hin as [j Hj].
    destruct (decide (j = Z.to_nat block)) as [->|Hjb].
    + rewrite list_lookup_insert_eq in Hj by (rewrite length_take; lia). congruence.
    + rewrite list_lookup_insert_ne in Hj by done. apply (H4 e' Hold Hf').
      by eapply list_elem_of_lookup_2.
Qed.


(** C27: a table that had to move is lost at the next start: when the block of the
    table cannot be erased and the table is saved in the entry before it instead,
    which reports success, the saved table has the right signature and no index,
    since the failed entry keeps the mark and loses its block. *)
Theorem relocated_table_is_lost {N : Type} `{NandChip N} g p c t n e1 e2 err c1 c2 c3
    (Hn : 1 <= n < 65536) (He1 : bmt_tbl t !! Z.to_nat (n - 1) = Some e1)
    (He2 : bmt_tbl t !! Z.to_nat n = Some e2)
    (Hm1 : e_mapped e1 = NO_MAPPED) (Hm2 : e_mapped e2 = BMT_MAPPED)
    (Honly : forall k e, (k < Z.to_nat n)%nat -> bmt_tbl t !! k = Some e -> e_mapped e <> BMT_MAPPED)
    (Hfail : bbt_nand_erase g c (e_block e2) = (err, c1)) (Herr : err <> 0)
    (Hok : bbt_nand_erase g c1 (e_block e1) = (0, c2))
    (Hwr : write_bmt g v2_sig (bmt_pgs p) c2 (e_block e1)
             (bytes_of_bbbt (sign (clear_block t n))) = (0, c3)) :
  exists t', upload_bmt g p c t n = (n - 1, c3, t') /\
    (forall fdm, take 3 (drop 1 fdm) = v2_sig -> is_valid_bmt t' fdm = true) /\
    get_bmt_index (bmt_tbl t') = 0.
Proof.
  assert (bmt_get (bmt_tbl t) n = e2) as E2 by by apply nth_lookup_Some.
  pose proof (lookup_lt_Some _ _ _ He2) as Hl.
  assert (bmt_get (bmt_tbl (clear_block t n)) (n - 1) = e1) as E1.
  { unfold bmt_get, clear_block, bmt_set. cbn [bmt_tbl set_bmt_tbl]. apply nth_lookup_Some.
    by rewrite list_lookup_insert_ne by lia. }
  exists (sign (clear_block t n)). split; [|split].
  - unfold upload_bmt. replace (Z.to_nat n + 1)%nat with (S (S (Z.to_nat (n - 1)))) by lia.
    cbn [upload_from]. rewrite E2, Hm2. destruct (Z.ltb_spec n 0); [lia|].
    change (BMT_MAPPED =? NORMAL_MAPPED) with false. cbn [orb]. rewrite Hfail.
    destruct (Z.eqb_spec err 0); [done|]. cbn [negb]. rewrite E1, Hm1.
    destruct (Z.ltb_spec (n - 1) 0); [lia|].
    change (NO_MAPPED =? NORMAL_MAPPED) with false. cbn [orb]. rewrite Hok.
    change (negb (0 =? 0)) with false. cbv iota. rewrite Hwr. change (negb (0 =? 0)) with false.
    cbv iota. by rewrite u16_small by lia.
  - intros fdm Hf. unfold is_valid_bmt, sign. cbn [signature version].
    rewrite Hf, !bool_decide_eq_true_2 by done. done.
  - apply (index_lost _ (Z.to_nat n)); cbn [sign bmt_tbl]; unfold clear_block, bmt_set;
      cbn [bmt_tbl set_bmt_tbl].
    + eexists. by apply list_lookup_insert_eq.
    + intros k e Hk He. rewrite list_lookup_insert_ne in He by lia. by apply (Honly k).
Qed.

(** The area that initialisation clears for the pool ends after the buffer. *)
Theorem pool_area_overruns_buffer ps ts :
  0 < ps -> ps <= 2 * ts -> bbt_bufsz ps ts < bmt_tbl_end ts.
Proof.
  intros Hp Ht. unfold bbt_bufsz, bmt_tbl_end.
  pose proof (Z.div_mod (4 + ts * 4 + ps - 1) ps ltac:(lia)).
  pose proof (Z.mod_pos_bound (4 + ts * 4 + ps - 1) ps Hp). nia.
Qed.

(** * Examples *)

(** Twelve blocks of two pages; blocks 2 and 7 are marked bad, block 11 cannot be
    erased when the chip is worn. *)
Definition demo_v2_geometry : geometry := mk_geometry 8 4 3 2 12 0 None 8 0 0.
Definition demo_v2_params : v2_params := mk_v2 16 6 3 1.
#[local] Instance demo_v2_chip : NandChip bool := {
  chip_read n a len oo ool :=
    mk_read 0 len ool (replicate (Z.to_nat len) 255)
      (replicate (Z.to_nat ool) (if (a / 8 =? 2) || (a / 8 =? 7) then 0 else 255));
  chip_write n a l oo oob := (0, Z.of_nat (length l), Z.of_nat (length oob), n);
  chip_erase n a len := (if n && (a / 8 =? 11) then -5 else 0, n);
  chip_isbad n a := 0;
  chip_markbad n a := (0, n)
}.
Definition demo_blank : bbbt :=
  mk_bbbt [] 0 (replicate 16 255) (replicate 12 (mk_bbmt 0 0)) [].
Definition demo_table : bbbt :=
  mk_bbbt [] 0 ([0; 1; 3; 4; 5; 6] ++ replicate 10 255)
    ([mk_bbmt 8 0; mk_bbmt 9 0; mk_bbmt 10 0; mk_bbmt 11 2] ++ replicate 8 (mk_bbmt 0 0)) [].

Example demo_scan :
  scan_bad_blocks demo_v2_geometry demo_v2_params false demo_blank = Some (demo_table, 3).
Proof. vm_compute. reflexivity. Qed.

Example demo_bytes : bbbt_of_bytes 16 (bytes_of_bbbt (sign demo_table)) = sign demo_table.
Proof. vm_compute. reflexivity. Qed.

Lemma scan_builds_table_witness :
  exists seg pool, take 6 (bb_tbl demo_table) = 0 :: seg /\
    seg ++ pool `prefix_of` good_from demo_v2_geometry false 1 /\ length pool = 4%nat.
Proof.
  destruct (scan_builds_table demo_v2_geometry demo_v2_params false demo_blank demo_table 3)
    as (seg & pool & Ht & _ & Hi & _ & Hp & _).
  - simpl. lia.
  - simpl. lia.
  - vm_compute. lia.
  - reflexivity.
  - vm_compute. lia.
  - vm_compute. reflexivity.
  - exists seg, pool. split; [exact Ht|]. split; [exact Hp|lia].
Defined.

Lemma demo_table_inv : v2_inv demo_v2_params demo_table.
Proof.
  split.
  - vm_compute. lia.
  - apply (bool_decide_unpack _). vm_compute. exact I.
  - apply (bool_decide_unpack _). vm_compute. exact I.
  - intros e He [Hb _]. unfold demo_table in He. cbn [bmt_tbl] in He.
    repeat (apply elem_of_cons in He as [->|He];
      [first [by destruct Hb|apply (bool_decide_unpack _); vm_compute; exact I]|]).
    inversion He.
Qed.


Lemma relocated_table_is_lost_witness :
  exists t', upload_bmt demo_v2_geometry demo_v2_params true demo_table 3 = (2, true, t') /\
             get_bmt_index (bmt_tbl t') = 0.
Proof.
  destruct (relocated_table_is_lost demo_v2_geometry demo_v2_params true demo_table 3
    (mk_bbmt 10 0) (mk_bbmt 11 2) (-5) true true true) as (t' & E & _ & Hl).
  - lia.
  - reflexivity.
  - reflexivity.
  - reflexivity.
  - reflexivity.
  - intros k e Hk He. do 3 (destruct k as [|k]; [injection He as <-; discriminate|]). simpl in Hk. lia.
  - vm_compute. reflexivity.
  - discriminate.
  - vm_compute. reflexivity.
  - vm_compute. reflexivity.
  - exists t'. split; [exact E|exact Hl].
Defined.
