(* ===== verification/NmbmTable.v ===== *)
(** mtk_bmt: the NMBM scheme, its structures and tables
    (src/target/linux/generic/files/drivers/mtd/nand/mtk_bmt_nmbm.c, first part):
    headers with their checksum, the block state bitmap, walking over good blocks,
    the initial mapping, and the info table as bytes. The kernel's [crc32_le] is a
    parameter. An index outside a table reads 0 and writes nothing. *)
From S2P Require Import Prelude CNum Bytes BmtFlash BmtCore.
Open Scope Z_scope.
Open Scope list_scope.

Definition NMBM_MAGIC_SIGNATURE : Z := 0x304d4d4e.
Definition NMBM_MAGIC_INFO_TABLE : Z := 0x314d4d4e.
Definition NMBM_VERSION_MAKE (major minor : Z) : Z :=
  Z.lor (Z.land major 0xffff) (Z.shiftl (Z.land minor 0xffff) 16).
Definition NMBM_VER : Z := NMBM_VERSION_MAKE 1 0.
Definition NMBM_BITMAP_UNIT_SIZE : Z := 4.
Definition NMBM_BITMAP_BITS_PER_BLOCK : Z := 2.
Definition NMBM_BITMAP_BLOCKS_PER_UNIT : Z := 16.
Definition NMBM_SPARE_BLOCK_MULTI : Z := 1.
Definition NMBM_SPARE_BLOCK_DIV : Z := 2.
Definition NMBM_SPARE_BLOCK_MIN : Z := 2.
Definition NMBM_MGMT_DIV : Z := 16.
Definition NMBM_TRY_COUNT : nat := 3.
Definition BLOCK_ST_BAD : Z := 0.
Definition BLOCK_ST_GOOD : Z := 3.
Definition BLOCK_ST_MASK : Z := 3.
Definition EBADMSG : Z := 74.

(** * Structures *)

Record nmbm_header := mk_header {
  hd_magic : Z; hd_version : Z; hd_size : Z; hd_checksum : Z
}.
Record nmbm_signature := mk_sig {
  sig_header : nmbm_header;
  sig_nand_size : Z; sig_block_size : Z; sig_page_size : Z; sig_spare_size : Z;
  sig_mgmt_start_pb : Z; sig_max_try_count : Z
}.
Record nmbm_info_table_header := mk_info {
  if_header : nmbm_header;
  if_write_count : Z; if_state_table_off : Z; if_mapping_table_off : Z; if_padding : Z
}.

(** The members of [nmbm_instance] that are block addresses. *)
Record nmbm_layout := mk_layout {
  data_block_count : Z;
  mgmt_start_ba : Z;
  main_table_ba : Z;
  backup_table_ba : Z;
  mapping_blocks_ba : Z;
  mapping_blocks_top_ba : Z;
  signature_ba : Z
}.
(** [nmbm_instance]; the sizes that only depend on the geometry are functions
    of it, the members read from the device tree are [nmbm_params]. *)
Record nmbm_instance := mk_nmbm {
  ni_signature : nmbm_signature;
  info_table_cache : list Z;
  info_table : nmbm_info_table_header;
  block_state : list Z;
  block_state_changed : Z;
  block_mapping : list Z;
  block_mapping_changed : Z;
  protected : bool;
  lay : nmbm_layout
}.
Record nmbm_params := mk_params {
  max_ratio : Z; max_reserved_blocks : Z; empty_page_ecc_ok : bool; force_create : bool;
  ecc_strength : Z
}.

Definition set_cache (ni : nmbm_instance) (c : list Z) (i : nmbm_info_table_header) : nmbm_instance :=
  mk_nmbm (ni_signature ni) c i (block_state ni) (block_state_changed ni) (block_mapping ni)
    (block_mapping_changed ni) (protected ni) (lay ni).
Definition set_state (ni : nmbm_instance) (s : list Z) (changed : Z) : nmbm_instance :=
  mk_nmbm (ni_signature ni) (info_table_cache ni) (info_table ni) s changed (block_mapping ni)
    (block_mapping_changed ni) (protected ni) (lay ni).
Definition set_mapping (ni : nmbm_instance) (m : list Z) (changed : Z) : nmbm_instance :=
  mk_nmbm (ni_signature ni) (info_table_cache ni) (info_table ni) (block_state ni)
    (block_state_changed ni) m changed (protected ni) (lay ni).
Definition set_lay (ni : nmbm_instance) (l : nmbm_layout) : nmbm_instance :=
  mk_nmbm (ni_signature ni) (info_table_cache ni) (info_table ni) (block_state ni)
    (block_state_changed ni) (block_mapping ni) (block_mapping_changed ni) (protected ni) l.
Definition set_protected (ni : nmbm_instance) : nmbm_instance :=
  mk_nmbm (ni_signature ni) (info_table_cache ni) (info_table ni) (block_state ni)
    (block_state_changed ni) (block_mapping ni) (block_mapping_changed ni) true (lay ni).
Definition set_signature (ni : nmbm_instance) (s : nmbm_signature) : nmbm_instance :=
  mk_nmbm s (info_table_cache ni) (info_table ni) (block_state ni)
    (block_state_changed ni) (block_mapping ni) (block_mapping_changed ni) (protected ni) (lay ni).

Definition lay_tables (l : nmbm_layout) (main backup mapping : Z) : nmbm_layout :=
  mk_layout (data_block_count l) (mgmt_start_ba l) main backup mapping (mapping_blocks_top_ba l)
    (signature_ba l).
Definition lay_top (l : nmbm_layout) (top : Z) : nmbm_layout :=
  mk_layout (data_block_count l) (mgmt_start_ba l) (main_table_ba l) (backup_table_ba l)
    (mapping_blocks_ba l) top (signature_ba l).
Definition lay_count (l : nmbm_layout) (count : Z) : nmbm_layout :=
  mk_layout count (mgmt_start_ba l) (main_table_ba l) (backup_table_ba l) (mapping_blocks_ba l)
    (mapping_blocks_top_ba l) (signature_ba l).
Definition lay_mgmt (l : nmbm_layout) (mgmt : Z) : nmbm_layout :=
  mk_layout (data_block_count l) mgmt (main_table_ba l) (backup_table_ba l) (mapping_blocks_ba l)
    (mapping_blocks_top_ba l) (signature_ba l).
Definition lay_signature (l : nmbm_layout) (ba : Z) : nmbm_layout :=
  mk_layout (data_block_count l) (mgmt_start_ba l) (main_table_ba l) (backup_table_ba l)
    (mapping_blocks_ba l) (mapping_blocks_top_ba l) ba.

(** ** The structures in memory *)

Definition header_bytes (h : nmbm_header) : list Z :=
  le_split 4 (hd_magic h) ++ le_split 4 (hd_version h) ++ le_split 4 (hd_size h)
  ++ le_split 4 (hd_checksum h).
Definition header_of (l : list Z) : nmbm_header :=
  mk_header (buf_get32 l 0) (buf_get32 l 4) (buf_get32 l 8) (buf_get32 l 12).

(** 48 bytes, the last four to align the u64. *)
Definition signature_bytes (s : nmbm_signature) : list Z :=
  header_bytes (sig_header s) ++ le_split 8 (sig_nand_size s) ++ le_split 4 (sig_block_size s)
  ++ le_split 4 (sig_page_size s) ++ le_split 4 (sig_spare_size s) ++ le_split 4 (sig_mgmt_start_pb s)
  ++ [sig_max_try_count s] ++ replicate 7 0.
Definition signature_of (l : list Z) : nmbm_signature :=
  mk_sig (header_of l) (le_combine (take 8 (drop 16 l))) (buf_get32 l 24) (buf_get32 l 28)
    (buf_get32 l 32) (buf_get32 l 36) (nth 40 l 0).
Definition SIGNATURE_SIZE : nat := 48.

Definition info_bytes (i : nmbm_info_table_header) : list Z :=
  header_bytes (if_header i) ++ le_split 4 (if_write_count i) ++ le_split 4 (if_state_table_off i)
  ++ le_split 4 (if_mapping_table_off i) ++ le_split 4 (if_padding i).
Definition info_of (l : list Z) : nmbm_info_table_header :=
  mk_info (header_of l) (buf_get32 l 16) (buf_get32 l 20) (buf_get32 l 24) (buf_get32 l 28).
Definition INFO_HEADER_SIZE : Z := 32.

(** * Sizes *)

Section sizes.
Variable g : geometry.

Definition ba2addr (ba : Z) : Z := Z.shiftl ba (blk_shift g).
Definition size2blk (size : Z) : Z := u32 (Z.shiftr (size + blk_size g - 1) (blk_shift g)).

(** [ALIGN] to pages. *)
Definition page_align (x : Z) : Z := Z.land (x + pg_size g - 1) (Z.lnot (pg_size g - 1)).

Definition state_table_size : Z :=
  (total_blks g + NMBM_BITMAP_BLOCKS_PER_UNIT - 1) / NMBM_BITMAP_BLOCKS_PER_UNIT * NMBM_BITMAP_UNIT_SIZE.
Definition mapping_table_size : Z := total_blks g * 4.
Definition state_table_off : Z := page_align INFO_HEADER_SIZE.
Definition mapping_table_off : Z := state_table_off + page_align state_table_size.
Definition info_table_size : Z := mapping_table_off + page_align mapping_table_size.

Definition nmbm_get_spare_block_count (block_count : Z) : Z :=
  let val := (block_count + NMBM_SPARE_BLOCK_DIV / 2) / NMBM_SPARE_BLOCK_DIV in
  let val := val * NMBM_SPARE_BLOCK_MULTI in
  if val <? NMBM_SPARE_BLOCK_MIN then NMBM_SPARE_BLOCK_MIN else val.
Definition info_table_spare_blocks : Z :=
  nmbm_get_spare_block_count (size2blk info_table_size).
End sizes.

(** * Checksums *)

Section crc.
Variable crc32_le : Z -> list Z -> Z.

(** The loop of [nmbm_crc32]: one call, as every size is a u32. *)
Definition nmbm_crc32 (crcval : Z) (buf : list Z) : Z :=
  match buf with [] => crcval | _ => crc32_le crcval buf end.

Definition nmbm_check_header (data : list Z) (size : Z) : bool :=
  let hsize := buf_get32 data 8 in
  if size <? hsize then false
  else
    let nhdr := splice (take 16 data) 12 (le_split 4 0) in
    let new_checksum := nmbm_crc32 0 nhdr in
    let new_checksum := if 16 <? hsize
      then nmbm_crc32 new_checksum (take (Z.to_nat hsize - 16) (drop 16 data)) else new_checksum in
    buf_get32 data 12 =? new_checksum.

Definition nmbm_update_checksum (data : list Z) : list Z :=
  let data := splice data 12 (le_split 4 0) in
  splice data 12 (le_split 4 (nmbm_crc32 0 (take (Z.to_nat (buf_get32 data 8)) data))).
End crc.

(** * Block states *)

Definition nmbm_get_block_state_raw (block_state : list Z) (ba : Z) : Z :=
  let unit := ba / NMBM_BITMAP_BLOCKS_PER_UNIT in
  let shift := ba mod NMBM_BITMAP_BLOCKS_PER_UNIT * NMBM_BITMAP_BITS_PER_BLOCK in
  Z.land (Z.shiftr (nth (Z.to_nat unit) block_state 0) shift) BLOCK_ST_MASK.
Definition nmbm_get_block_state (ni : nmbm_instance) (ba : Z) : Z :=
  nmbm_get_block_state_raw (block_state ni) ba.

Definition nmbm_set_block_state (ni : nmbm_instance) (ba state : Z) : bool * nmbm_instance :=
  let unit := ba / NMBM_BITMAP_BLOCKS_PER_UNIT in
  let shift := ba mod NMBM_BITMAP_BLOCKS_PER_UNIT * NMBM_BITMAP_BITS_PER_BLOCK in
  let word := nth (Z.to_nat unit) (block_state ni) 0 in
  let orig := Z.land (Z.shiftr word shift) BLOCK_ST_MASK in
  let state := Z.land state BLOCK_ST_MASK in
  let uv := Z.lor (Z.land word (Z.lnot (Z.shiftl BLOCK_ST_MASK shift))) (Z.shiftl state shift) in
  let table := <[Z.to_nat unit := uv]> (block_state ni) in
  if negb (orig =? state) then (true, set_state ni table (u32 (block_state_changed ni + 1)))
  else (false, set_state ni table (block_state_changed ni)).

(** What most calls are for. *)
Definition mark_bad (ni : nmbm_instance) (ba : Z) : nmbm_instance :=
  snd (nmbm_set_block_state ni ba BLOCK_ST_BAD).

(** * Walking *)

Section walk.
Variable g : geometry.

Fixpoint walk_asc (k : nat) (ni : nmbm_instance) (ba nblock : Z) : option Z :=
  match k with
  | O => None
  | S k =>
      let nblock := if nmbm_get_block_state ni ba =? BLOCK_ST_GOOD then nblock - 1 else nblock in
      if nblock <? 0 then Some ba else walk_asc k ni (ba + 1) nblock
  end.
Fixpoint walk_desc (k : nat) (ni : nmbm_instance) (ba nblock : Z) : option Z :=
  match k with
  | O => None
  | S k =>
      let nblock := if nmbm_get_block_state ni ba =? BLOCK_ST_GOOD then nblock - 1 else nblock in
      if nblock <? 0 then Some ba else walk_desc k ni (ba - 1) nblock
  end.

Definition walk_limit (limit : Z) : Z := if total_blks g <=? limit then total_blks g - 1 else limit.
Definition nmbm_block_walk_asc (ni : nmbm_instance) (ba count limit : Z) : option Z :=
  walk_asc (Z.to_nat (walk_limit limit - ba)) ni ba (to_i32 count).
Definition nmbm_block_walk_desc (ni : nmbm_instance) (ba count limit : Z) : option Z :=
  walk_desc (Z.to_nat (ba - walk_limit limit)) ni ba (to_i32 count).
(** [count] and [limit] are int32 here and u32 in the two walks. *)
Definition nmbm_block_walk (ascending : bool) (ni : nmbm_instance) (ba count limit : Z) : option Z :=
  if ascending then nmbm_block_walk_asc ni ba (u32 count) (u32 limit)
  else nmbm_block_walk_desc ni ba (u32 count) (u32 limit).

Fixpoint reserve_loop (k : nat) (ni : nmbm_instance) (ba nblocks limit : Z) : option Z :=
  match k with
  | O => None
  | S k =>
      match nmbm_block_walk true ni ba nblocks limit with
      | Some nba => Some nba
      | None => reserve_loop k ni ba (nblocks - 1) limit
      end
  end.
Definition nmbm_try_reserve_blocks (ni : nmbm_instance) (ba count min_count limit : Z) : option Z :=
  reserve_loop (Z.to_nat (to_i32 count - min_count + 1)) ni ba (to_i32 count) limit.

(** * The initial mapping *)

Fixpoint build_mapping (k : nat) (ni : nmbm_instance) (map : list Z) (pb lb : Z) : list Z * Z :=
  match k with
  | O => (map, lb)
  | S k =>
      if nmbm_get_block_state ni pb =? BLOCK_ST_BAD then build_mapping k ni map (pb + 1) lb
      else build_mapping k ni (<[Z.to_nat lb := pb]> map) (pb + 1) (lb + 1)
  end.
Definition nmbm_build_mapping_table (ni : nmbm_instance) : nmbm_instance :=
  let '(map, lb) := build_mapping (Z.to_nat (mgmt_start_ba (lay ni))) ni (block_mapping ni) 0 0 in
  let map := take (Z.to_nat lb) map ++ replicate (Z.to_nat (total_blks g - lb)) (-1)
             ++ drop (Z.to_nat (total_blks g)) map in
  set_lay (set_mapping ni map (block_mapping_changed ni)) (lay_count (lay ni) lb).
End walk.

(** * The info table as bytes *)

Section cache.
Variable crc32_le : Z -> list Z -> Z.
Variable g : geometry.

Definition nmbm_generate_info_table_cache (ni : nmbm_instance) : bool * nmbm_instance :=
  let i := info_table ni in
  let cache := replicate (Z.to_nat (info_table_size g)) 255 in
  let cache := splice cache (Z.to_nat (if_state_table_off i)) (words_bytes (block_state ni)) in
  let cache := splice cache (Z.to_nat (if_mapping_table_off i)) (words_bytes (block_mapping ni)) in
  let changed := negb (block_state_changed ni =? 0) || negb (block_mapping_changed ni =? 0) in
  let count := if changed then u32 (if_write_count i + 1) else if_write_count i in
  let header := mk_header NMBM_MAGIC_INFO_TABLE NMBM_VER (info_table_size g) (hd_checksum (if_header i)) in
  let i := mk_info header count (if_state_table_off i) (if_mapping_table_off i) (if_padding i) in
  let cache := nmbm_update_checksum crc32_le (splice cache 0 (info_bytes i)) in
  (changed, set_cache ni cache i).

Definition nmbm_check_info_table_header (data : list Z) : bool :=
  let i := info_of data in
  (hd_magic (if_header i) =? NMBM_MAGIC_INFO_TABLE)
  && (hd_size (if_header i) =? info_table_size g)
  && negb (u32 (if_mapping_table_off i - if_state_table_off i) <? state_table_size g)
  && negb (u32 (info_table_size g - if_mapping_table_off i) <? mapping_table_size g).

(** The tables of an info table in memory. *)
Definition cached_state (data : list Z) : list Z :=
  bytes_words (Z.to_nat (state_table_size g / 4)) (drop (Z.to_nat (if_state_table_off (info_of data))) data).
Definition cached_mapping (data : list Z) : list Z :=
  map to_i32 (bytes_words (Z.to_nat (total_blks g)) (drop (Z.to_nat (if_mapping_table_off (info_of data))) data)).

(** The first loop of [nmbm_check_info_table]: the lowest mapped block from
    [end_ba] on; a mapping into the tables or to the signature is refused. The
    comparisons are unsigned: an unmapped block is the largest address. *)
Fixpoint check_mapping (l : list Z) (data_blocks end_ba signature_ba minimum : Z) : option Z :=
  match l with
  | [] => Some minimum
  | m :: r =>
      let m := u32 m in
      if ((data_blocks <=? m) && (m <? end_ba)) || (m =? signature_ba) then None
      else check_mapping r data_blocks end_ba signature_ba
             (if (end_ba <=? m) && (m <? minimum) then m else minimum)
  end.

Definition nmbm_check_info_table (ni : nmbm_instance) (start_ba end_ba : Z) (data : list Z) : option Z :=
  let l := lay ni in
  match check_mapping (take (Z.to_nat (data_block_count l)) (cached_mapping data))
          (data_block_count l) end_ba (signature_ba l) (signature_ba l) with
  | None => None
  | Some minimum =>
      if existsb (fun ba => (nmbm_get_block_state ni ba =? BLOCK_ST_GOOD)
                            && negb (nmbm_get_block_state_raw (cached_state data) ba =? BLOCK_ST_GOOD))
           (seqZ start_ba (end_ba - start_ba))
      then None else Some (u32 (minimum - 1))
  end.
End cache.

Definition nmbm_mark_tables_clean (ni : nmbm_instance) : nmbm_instance :=
  set_mapping (set_state ni (block_state ni) 0) (block_mapping ni) 0.

(** * Lemmas: block states *)

(** The number of blocks of the table, and how many are good. *)
Definition state_blocks (ni : nmbm_instance) : Z := 16 * Z.of_nat (length (block_state ni)).

Lemma testbit_3 i : 0 <= i -> Z.testbit 3 i = (i <? 2).
Proof.
  intros Hi. destruct (Z.ltb_spec i 2).
  - assert (i = 0 \/ i = 1) as [->| ->] by lia; reflexivity.
  - rewrite <- (Z.mod_small 3 (2 ^ 2)) by lia. apply Z.mod_pow2_bits_high. lia.
Qed.

(** Two bits of a word replaced, the other pairs kept. *)
Lemma set_pair_get w st sh sh' :
  0 <= sh -> 0 <= sh' -> sh mod 2 = 0 -> sh' mod 2 = 0 -> 0 <= st < 4 ->
  Z.land (Z.shiftr (Z.lor (Z.land w (Z.lnot (Z.shiftl 3 sh))) (Z.shiftl st sh)) sh') 3 =
  if sh' =? sh then st else Z.land (Z.shiftr w sh') 3.
Proof.
  intros H1 H2 He He' Hst. apply Z.bits_inj'. intros i Hi.
  rewrite Z.land_spec, Z.shiftr_spec, testbit_3 by lia.
  rewrite Z.lor_spec, Z.land_spec, Z.lnot_spec, !Z.shiftl_spec by lia.
  assert (forall j, 2 <= j -> Z.testbit st j = false) as Hhigh.
  { intros j Hj. rewrite <- (Z.mod_small st (2 ^ 2)) by lia. apply Z.mod_pow2_bits_high. lia. }
  destruct (Z.eqb_spec sh' sh) as [->|Hne].
  - replace (i + sh - sh) with i by lia. rewrite testbit_3 by lia.
    destruct (Z.ltb_spec i 2).
    + cbn [negb]. rewrite !andb_false_r, !andb_true_r. done.
    + by rewrite !andb_false_r, Hhigh.
  - rewrite Z.land_spec, Z.shiftr_spec, (testbit_3 i) by lia.
    destruct (Z.ltb_spec i 2); [|by rewrite !andb_false_r]. rewrite !andb_true_r.
    assert (i + sh' - sh < 0 \/ 2 <= i + sh' - sh) as [Hj|Hj].
    { clear - Hne He He' H H1 H2 Hi. pose proof (Z.div_mod sh 2 ltac:(lia)).
      pose proof (Z.div_mod sh' 2 ltac:(lia)). lia. }
    + rewrite !(Z.testbit_neg_r _ (i + sh' - sh)) by lia. by rewrite andb_true_r, orb_false_r.
    + rewrite (Hhigh _ Hj), testbit_3 by lia.
      destruct (Z.ltb_spec (i + sh' - sh) 2); [lia|]. by rewrite andb_true_r, orb_false_r.
Qed.

Lemma get_block_state_range bs ba : 0 <= nmbm_get_block_state_raw bs ba < 4.
Proof.
  unfold nmbm_get_block_state_raw, BLOCK_ST_MASK. cbv zeta. change 3 with (Z.ones 2).
  rewrite Z.land_ones by lia. apply Z.mod_pos_bound. lia.
Qed.

(** Setting a state sets it and no other one. *)
Lemma set_block_state_get ni ba st b :
  0 <= ba < state_blocks ni -> 0 <= st < 4 -> 0 <= b ->
  nmbm_get_block_state (snd (nmbm_set_block_state ni ba st)) b =
  if b =? ba then st else nmbm_get_block_state ni b.
Proof.
  intros Hba Hst Hb. unfold nmbm_get_block_state.
  assert (block_state (snd (nmbm_set_block_state ni ba st)) =
    <[Z.to_nat (ba / 16) := Z.lor (Z.land (nth (Z.to_nat (ba / 16)) (block_state ni) 0)
        (Z.lnot (Z.shiftl 3 (ba mod 16 * 2)))) (Z.shiftl st (ba mod 16 * 2))]> (block_state ni)) as ->.
  { unfold nmbm_set_block_state. cbv zeta.
    replace (Z.land st BLOCK_ST_MASK) with st; [by case_if|].
    unfold BLOCK_ST_MASK. change 3 with (Z.ones 2). rewrite Z.land_ones, Z.mod_small; lia. }
  unfold nmbm_get_block_state_raw, NMBM_BITMAP_BLOCKS_PER_UNIT, NMBM_BITMAP_BITS_PER_BLOCK, BLOCK_ST_MASK.
  cbv zeta. unfold state_blocks in Hba.
  pose proof (Z.div_mod ba 16). pose proof (Z.mod_pos_bound ba 16).
  pose proof (Z.div_mod b 16). pose proof (Z.mod_pos_bound b 16).
  assert (0 <= ba / 16 /\ 0 <= b / 16) as [] by (split; apply Z.div_pos; lia).
  rewrite !nth_lookup. destruct (decide (b / 16 = ba / 16)) as [E|E].
  - rewrite E, list_lookup_insert_eq by lia. cbn [default from_option id].
    rewrite set_pair_get by (try lia; apply Z.mod_mul; lia).
    destruct (Z.eqb_spec b ba) as [->|Hne]; [by rewrite Z.eqb_refl|].
    destruct (Z.eqb_spec (b mod 16 * 2) (ba mod 16 * 2)); [lia|done].
  - rewrite list_lookup_insert_ne by lia.
    destruct (Z.eqb_spec b ba) as [->|Hne]; [done|]. done.
Qed.

Lemma mark_bad_get ni ba b :
  0 <= ba < state_blocks ni -> 0 <= b ->
  nmbm_get_block_state (mark_bad ni ba) b = if b =? ba then BLOCK_ST_BAD else nmbm_get_block_state ni b.
Proof. intros. apply set_block_state_get; [done|unfold BLOCK_ST_BAD; lia|done]. Qed.

Lemma set_block_state_frame ni ba st :
  let ni' := snd (nmbm_set_block_state ni ba st) in
  length (block_state ni') = length (block_state ni) /\ block_mapping ni' = block_mapping ni /\
  block_mapping_changed ni' = block_mapping_changed ni /\ info_table_cache ni' = info_table_cache ni /\
  info_table ni' = info_table ni /\ lay ni' = lay ni /\ protected ni' = protected ni /\
  ni_signature ni' = ni_signature ni.
Proof.
  cbv zeta. unfold nmbm_set_block_state. cbv zeta.
  case_if; cbn [snd set_state block_state]; rewrite length_insert; done.
Qed.

Lemma good_in_range ni ba :
  0 <= ba -> nmbm_get_block_state ni ba = BLOCK_ST_GOOD -> ba < state_blocks ni.
Proof.
  intros H0 Hg. unfold state_blocks. destruct (Z.lt_ge_cases ba (16 * Z.of_nat (length (block_state ni)))) as [|Hge];
    [done|]. exfalso. revert Hg. unfold nmbm_get_block_state, nmbm_get_block_state_raw. cbv zeta.
  unfold NMBM_BITMAP_BLOCKS_PER_UNIT. rewrite nth_overflow.
  - rewrite Z.shiftr_0_l. done.
  - assert (Z.of_nat (length (block_state ni)) <= ba / 16) by (apply Z.div_le_lower_bound; lia). lia.
Qed.

(** ** Marking good blocks bad, any number of times *)

Inductive marked : nmbm_instance -> nmbm_instance -> Prop :=
  | marked_refl ni : marked ni ni
  | marked_step ni ba ni' :
      0 <= ba -> nmbm_get_block_state ni ba = BLOCK_ST_GOOD ->
      marked (mark_bad ni ba) ni' -> marked ni ni'.
#[export] Hint Constructors marked : neon.

Lemma marked_one ni ba :
  0 <= ba -> nmbm_get_block_state ni ba = BLOCK_ST_GOOD -> marked ni (mark_bad ni ba).
Proof. intros. eapply marked_step; eauto with neon. Qed.
#[export] Instance marked_preorder : PreOrder marked.
Proof.
  split; [intros ni; apply marked_refl|]. intros a b c H1 H2.
  induction H1; [done|]. eapply marked_step; eauto.
Qed.

Record same_but_state (ni ni' : nmbm_instance) : Prop := {
  sb_length : length (block_state ni') = length (block_state ni);
  sb_mapping : block_mapping ni' = block_mapping ni;
  sb_mapping_changed : block_mapping_changed ni' = block_mapping_changed ni;
  sb_cache : info_table_cache ni' = info_table_cache ni;
  sb_info : info_table ni' = info_table ni;
  sb_lay : lay ni' = lay ni;
  sb_protected : protected ni' = protected ni;
  sb_signature : ni_signature ni' = ni_signature ni
}.
Lemma marked_frame ni ni' : marked ni ni' -> same_but_state ni ni'.
Proof.
  induction 1 as [ni|ni ba ni' _ _ _ IH]; [by split|].
  destruct (set_block_state_frame ni ba BLOCK_ST_BAD) as (H1 & H2 & H3 & H4 & H5 & H6 & H7 & H8).
  unfold mark_bad in *. destruct IH. split; congruence.
Qed.

(** A block is as before or was good and is bad. *)
Lemma marked_get ni ni' b :
  marked ni ni' -> 0 <= b ->
  nmbm_get_block_state ni' b = nmbm_get_block_state ni b \/
  (nmbm_get_block_state ni b = BLOCK_ST_GOOD /\ nmbm_get_block_state ni' b = BLOCK_ST_BAD).
Proof.
  intros Hm Hb. induction Hm as [ni|ni ba ni' H0 Hg _ IH]; [by left|].
  rewrite (mark_bad_get ni ba b (conj H0 (good_in_range ni ba H0 Hg)) Hb) in IH.
  destruct (Z.eqb_spec b ba) as [->|Hne]; [|done]. right. split; [done|].
  destruct IH as [->|[E _]]; done.
Qed.
Lemma marked_good ni ni' b :
  marked ni ni' -> 0 <= b ->
  nmbm_get_block_state ni' b = BLOCK_ST_GOOD -> nmbm_get_block_state ni b = BLOCK_ST_GOOD.
Proof. intros Hm Hb Hg. destruct (marked_get ni ni' b Hm Hb) as [E|[E _]]; congruence. Qed.

(** ** Counting good blocks *)

Definition is_good (ni : nmbm_instance) (b : Z) : bool := nmbm_get_block_state ni b =? BLOCK_ST_GOOD.
Definition good_count (ni : nmbm_instance) : Z :=
  Z.of_nat (length (List.filter (is_good ni) (seqZ 0 (state_blocks ni)))).

Lemma filter_flip {A} (f f' : A -> bool) l1 x l2 :
  f x = true -> f' x = false -> (forall y, y ∈ l1 ++ l2 -> f' y = f y) ->
  length (List.filter f (l1 ++ x :: l2)) = S (length (List.filter f' (l1 ++ x :: l2))).
Proof.
  intros Hf Hf' Hy. rewrite !List.filter_app, !length_app. cbn [List.filter]. rewrite Hf, Hf'.
  rewrite (List.filter_ext_in f' f l1) by (intros y Hin; apply Hy, elem_of_app; left; by apply list_elem_of_In).
  rewrite (List.filter_ext_in f' f l2) by (intros y Hin; apply Hy, elem_of_app; right; by apply list_elem_of_In).
  cbn [length]. lia.
Qed.

Lemma mark_bad_count ni ba :
  0 <= ba -> nmbm_get_block_state ni ba = BLOCK_ST_GOOD ->
  good_count ni = good_count (mark_bad ni ba) + 1 /\
  block_state_changed (mark_bad ni ba) = u32 (block_state_changed ni + 1).
Proof.
  intros H0 Hg. pose proof (good_in_range ni ba H0 Hg) as Hr. split.
  - assert (state_blocks (mark_bad ni ba) = state_blocks ni) as Hs.
    { unfold state_blocks. by destruct (marked_frame _ _ (marked_one ni ba H0 Hg)) as [-> _ _ _ _ _ _ _]. }
    unfold good_count. rewrite Hs. clear Hs.
    replace (state_blocks ni) with (ba + (state_blocks ni - ba)) by lia.
    rewrite seqZ_app, (seqZ_cons (0 + ba)) by lia.
    rewrite (filter_flip (is_good ni) (is_good (mark_bad ni ba))); [lia| | |].
    + unfold is_good. rewrite Z.add_0_l, Hg. done.
    + unfold is_good. rewrite Z.add_0_l, mark_bad_get, Z.eqb_refl by lia. done.
    + intros y Hy. unfold is_good. apply elem_of_app in Hy as [Hy|Hy]; apply elem_of_seqZ in Hy;
        rewrite mark_bad_get by lia; destruct (Z.eqb_spec y ba); try lia; done.
  - unfold nmbm_get_block_state, nmbm_get_block_state_raw in Hg. unfold mark_bad, nmbm_set_block_state.
    cbv zeta in *. rewrite Hg. done.
Qed.

Lemma marked_count ni ni' :
  marked ni ni' -> 0 <= block_state_changed ni < 2 ^ 32 ->
  good_count ni' <= good_count ni /\
  block_state_changed ni' = u32 (block_state_changed ni + (good_count ni - good_count ni')).
Proof.
  induction 1 as [ni|ni ba ni' H0 Hg Hm IH]; intros Hc.
  - split; [lia|]. rewrite Z.sub_diag, Z.add_0_r. by rewrite u32_small.
  - destruct (mark_bad_count ni ba H0 Hg) as [E1 E2]. rewrite E2 in IH.
    destruct (IH (u32_range _)) as [IH1 ->]. split; [lia|].
    unfold u32. rewrite Zplus_mod_idemp_l. f_equal. lia.
Qed.

Lemma good_count_bounds ni : 0 <= good_count ni <= state_blocks ni.
Proof.
  unfold good_count. split; [lia|]. pose proof (filter_length_le (is_good ni) (seqZ 0 (state_blocks ni))) as Hl.
  rewrite length_seqZ in Hl. unfold state_blocks in *. lia.
Qed.

(** * Lemmas: walking *)

(** The good blocks of [k] blocks from [ba] on. *)
Definition goods_up (ni : nmbm_instance) (ba : Z) (k : nat) : list Z :=
  List.filter (is_good ni) (map (fun i => ba + Z.of_nat i) (seq 0 k)).
Lemma goods_up_S ni ba k :
  goods_up ni ba (S k) = (if is_good ni ba then [ba] else []) ++ goods_up ni (ba + 1) k.
Proof.
  unfold goods_up. cbn [seq map List.filter]. rewrite Z.add_0_r, <- seq_shift, map_map.
  replace (map (fun x => ba + Z.of_nat (S x)) (seq 0 k)) with (map (fun i => ba + 1 + Z.of_nat i) (seq 0 k))
    by (apply map_ext; intros; lia).
  by destruct (is_good ni ba).
Qed.

(** The walk gives the good block number [nblock], counted from 0. *)
Lemma walk_asc_spec k ni ba nblock :
  0 <= nblock -> walk_asc k ni ba nblock = goods_up ni ba k !! Z.to_nat nblock.
Proof.
  revert ba nblock. induction k as [|k IH]; intros ba nblock Hn; [done|].
  cbn [walk_asc]. cbv zeta. rewrite goods_up_S. unfold is_good.
  destruct (nmbm_get_block_state ni ba =? BLOCK_ST_GOOD).
  - destruct (Z.ltb_spec (nblock - 1) 0).
    + by replace nblock with 0 by lia.
    + rewrite IH by lia. replace (Z.to_nat nblock) with (S (Z.to_nat (nblock - 1))) by lia. done.
  - destruct (Z.ltb_spec nblock 0); [lia|]. by rewrite IH.
Qed.
Lemma goods_up_elem ni ba k b : b ∈ goods_up ni ba k -> ba <= b < ba + Z.of_nat k /\ is_good ni b = true.
Proof.
  intros Hin. apply list_elem_of_In, filter_In in Hin as [Hin Hg]. split; [|done].
  apply in_map_iff in Hin as (i & <- & Hi). apply in_seq in Hi. lia.
Qed.

(** Downwards with no block to skip: the highest good block. *)
Lemma walk_desc_spec k ni ba nba :
  walk_desc k ni ba 0 = Some nba ->
  ba - Z.of_nat k < nba <= ba /\ is_good ni nba = true /\
  (forall b, nba < b <= ba -> is_good ni b = false).
Proof.
  revert ba. induction k as [|k IH]; intros ba; cbn [walk_desc]; [done|]. cbv zeta. unfold is_good.
  destruct (nmbm_get_block_state ni ba =? BLOCK_ST_GOOD) eqn:E.
  - intros [= <-]. split; [lia|]. split; [done|]. intros b Hb. lia.
  - intros Hk. apply IH in Hk as (H1 & H2 & H3). split; [lia|]. split; [done|].
    intros b Hb. destruct (decide (b = ba)) as [->|]; [done|]. apply H3. lia.
Qed.

(** * Lemmas: the initial mapping *)

Lemma build_mapping_spec k ni map pb lb :
  0 <= lb -> (Z.to_nat lb + k <= length map)%nat ->
  let usable := List.filter (fun b => negb (nmbm_get_block_state ni b =? BLOCK_ST_BAD))
                  (List.map (fun i => pb + Z.of_nat i) (seq 0 k)) in
  let '(map', lb') := build_mapping k ni map pb lb in
  lb' = lb + Z.of_nat (length usable) /\ length map' = length map /\
  take (Z.to_nat lb') map' = take (Z.to_nat lb) map ++ usable.
Proof.
  revert map pb lb. induction k as [|k IH]; intros map pb lb Hlb Hlen; cbn [build_mapping].
  - cbn. split; [lia|]. split; [done|]. by rewrite app_nil_r.
  - cbv zeta. cbn [seq List.map List.filter]. rewrite Z.add_0_r, <- seq_shift, map_map.
    replace (List.map (fun x => pb + Z.of_nat (S x)) (seq 0 k))
      with (List.map (fun i => pb + 1 + Z.of_nat i) (seq 0 k)) by (apply map_ext; intros; lia).
    destruct (nmbm_get_block_state ni pb =? BLOCK_ST_BAD) eqn:E; cbn [negb].
    + apply IH; lia.
    + specialize (IH (<[Z.to_nat lb := pb]> map) (pb + 1) (lb + 1)). rewrite length_insert in IH.
      cbv zeta in IH. destruct (build_mapping _ _ _ _ _) as [map' lb'].
      destruct IH as (-> & -> & ->); [lia|lia|]. cbn [length]. split; [lia|]. split; [done|].
      replace (Z.to_nat (lb + 1)) with (S (Z.to_nat lb)) by lia.
      rewrite (take_S_r _ _ pb) by (apply list_lookup_insert_eq; lia).
      rewrite take_insert_ge by lia. by rewrite <- app_assoc.
Qed.
