(* ===== verification/NmbmCache.v ===== *)
(** mtk_bmt: the NMBM info table as bytes is read back: the checksum holds, the
    header is accepted, and the state and mapping tables are those written. *)
From S2P Require Import Prelude CNum Bytes BmtFlash BmtCore NmbmTable.
Open Scope Z_scope.
Open Scope list_scope.

(** What the kernel says of [crc32_le]: a u32, computed piece by piece. *)
Class Crc32 (crc32_le : Z -> list Z -> Z) : Prop := {
  crc_app : forall c a b, crc32_le (crc32_le c a) b = crc32_le c (a ++ b);
  crc_range : forall c l, 0 <= c < 2 ^ 32 -> 0 <= crc32_le c l < 2 ^ 32
}.

(** * Geometry *)

Record nmbm_geometry (g : geometry) : Prop := {
  ng_wf : geometry_wf g;
  ng_page : pg_size g = 2 ^ pg_shift g;
  ng_shift : 6 <= pg_shift g <= blk_shift g
}.

Section sizes.
Variable g : geometry.
Hypothesis Hg : nmbm_geometry g.

Lemma pg_size_bounds : 64 <= pg_size g <= blk_size g.
Proof.
  destruct Hg as [Hw Hp Hs]. rewrite Hp, (gw_size g Hw). split.
  - change 64 with (2 ^ 6). apply Z.pow_le_mono_r; lia.
  - apply Z.pow_le_mono_r; lia.
Qed.
Lemma blk_size_bound : blk_size g <= 2 ^ 30.
Proof.
  rewrite (gw_size g (ng_wf g Hg)). apply Z.pow_le_mono_r; [lia|].
  pose proof (gw_shift g (ng_wf g Hg)). lia.
Qed.

Lemma page_align_eq x : page_align g x = (x + pg_size g - 1) / pg_size g * pg_size g.
Proof.
  unfold page_align. destruct Hg as [Hw Hp Hs]. rewrite Hp.
  replace (2 ^ pg_shift g - 1) with (Z.ones (pg_shift g)) by (rewrite Z.ones_equiv; lia).
  rewrite <- Z.ldiff_land, Z.ldiff_ones_r by lia.
  rewrite Z.shiftl_mul_pow2, Z.shiftr_div_pow2 by lia. done.
Qed.
Lemma page_align_bounds x : x <= page_align g x < x + pg_size g.
Proof.
  rewrite page_align_eq. pose proof pg_size_bounds.
  pose proof (Z.div_mod (x + pg_size g - 1) (pg_size g) ltac:(lia)).
  pose proof (Z.mod_pos_bound (x + pg_size g - 1) (pg_size g) ltac:(lia)). lia.
Qed.

Lemma state_table_size_bounds : total_blks g <= 4 * state_table_size g /\
  state_table_size g = 4 * (state_table_size g / 4) /\ 0 < state_table_size g < 2 ^ 15.
Proof.
  pose proof (gw_total g (ng_wf g Hg)).
  unfold state_table_size, NMBM_BITMAP_BLOCKS_PER_UNIT, NMBM_BITMAP_UNIT_SIZE.
  pose proof (Z.div_mod (total_blks g + 16 - 1) 16 ltac:(lia)). pose proof (Z.mod_pos_bound (total_blks g + 16 - 1) 16 ltac:(lia)).
  rewrite Z.div_mul by lia. lia.
Qed.

Lemma offsets_ok :
  INFO_HEADER_SIZE <= state_table_off g /\
  state_table_off g + state_table_size g <= mapping_table_off g /\
  mapping_table_off g + mapping_table_size g <= info_table_size g /\
  info_table_size g < 2 ^ 32.
Proof.
  pose proof (page_align_bounds INFO_HEADER_SIZE) as H1.
  pose proof (page_align_bounds (state_table_size g)) as H2.
  pose proof (page_align_bounds (mapping_table_size g)) as H3.
  pose proof pg_size_bounds. pose proof state_table_size_bounds. pose proof blk_size_bound.
  pose proof (gw_total g (ng_wf g Hg)).
  assert (0 < mapping_table_size g < 2 ^ 18) by (unfold mapping_table_size; lia).
  unfold info_table_size, mapping_table_off, state_table_off.
  assert (INFO_HEADER_SIZE = 32) as E by done. rewrite E in *. lia.
Qed.
End sizes.

(** * The tables of an instance fit their places *)

Record tables_wf (g : geometry) (ni : nmbm_instance) : Prop := {
  tw_state : Z.of_nat (length (block_state ni)) = state_table_size g / 4;
  tw_state_words : Forall (fun w => 0 <= w < 2 ^ 32) (block_state ni);
  tw_mapping : Z.of_nat (length (block_mapping ni)) = total_blks g;
  tw_mapping_words : Forall (fun w => - 2 ^ 31 <= w < 2 ^ 31) (block_mapping ni);
  tw_state_off : if_state_table_off (info_table ni) = state_table_off g;
  tw_mapping_off : if_mapping_table_off (info_table ni) = mapping_table_off g;
  tw_count : 0 <= if_write_count (info_table ni) < 2 ^ 32
}.

Lemma map_u32_id l : Forall (fun w => 0 <= w < 2 ^ 32) l -> map u32 l = l.
Proof. induction 1 as [|w l Hw _ IH]; [done|]. cbn [map]. by rewrite IH, u32_small. Qed.
Lemma map_i32_id l : Forall (fun w => - 2 ^ 31 <= w < 2 ^ 31) l -> map to_i32 (map u32 l) = l.
Proof.
  induction 1 as [|w l Hw _ IH]; [done|]. cbn [map]. rewrite IH. f_equal.
  unfold to_i32, u32. rewrite Zplus_mod_idemp_l. rewrite Z.mod_small; lia.
Qed.

Lemma mark_bad_wf g ni ba : tables_wf g ni -> tables_wf g (mark_bad ni ba).
Proof.
  intros [W1 W2 W3 W4 W5 W6 W7]. destruct (set_block_state_frame ni ba BLOCK_ST_BAD) as (H1 & H2 & _ & _ & H5 & _).
  unfold mark_bad. split; rewrite ?H1, ?H2, ?H5; try done.
  unfold nmbm_set_block_state. cbv zeta.
  assert (Forall (fun w => 0 <= w < 2 ^ 32)
    (<[Z.to_nat (ba / NMBM_BITMAP_BLOCKS_PER_UNIT) :=
       Z.lor (Z.land (nth (Z.to_nat (ba / NMBM_BITMAP_BLOCKS_PER_UNIT)) (block_state ni) 0)
         (Z.lnot (Z.shiftl BLOCK_ST_MASK (ba mod NMBM_BITMAP_BLOCKS_PER_UNIT * NMBM_BITMAP_BITS_PER_BLOCK))))
         (Z.shiftl (Z.land BLOCK_ST_BAD BLOCK_ST_MASK)
            (ba mod NMBM_BITMAP_BLOCKS_PER_UNIT * NMBM_BITMAP_BITS_PER_BLOCK))]> (block_state ni))) as Hf;
    [|by case_if].
  apply Forall_insert; [done|]. change (Z.land BLOCK_ST_BAD BLOCK_ST_MASK) with 0.
  rewrite Z.shiftl_0_l, Z.lor_0_r. set (w := nth _ _ _). set (x := Z.lnot _).
  assert (0 <= w < 2 ^ 32) as Hw.
  { unfold w. rewrite nth_lookup. destruct (block_state ni !! _) eqn:E; [|done].
    exact (proj1 (Forall_lookup _ _) W2 _ _ E). }
  split; [apply Z.land_nonneg; lia|]. apply (Z.le_lt_trans _ w); [|lia].
  pose proof (Z.lor_ldiff_and w x) as E1. rewrite Z.lor_comm in E1.
  assert (Z.land w x + Z.ldiff w x = w) as E2.
  { rewrite Z.add_nocarry_lxor, Z.lxor_lor; [done| |]; apply Z.bits_inj'; intros i Hi;
      rewrite ?Z.land_spec, ?Z.ldiff_spec, Z.bits_0; by destruct (Z.testbit w i), (Z.testbit x i). }
  assert (0 <= Z.ldiff w x) by (apply Z.ldiff_nonneg; lia). lia.
Qed.
Lemma marked_wf g ni ni' : marked ni ni' -> tables_wf g ni -> tables_wf g ni'.
Proof. induction 1; [done|]. intros Hw. by apply IHmarked, mark_bad_wf. Qed.

Section roundtrip.
Variable crc32_le : Z -> list Z -> Z.
Context {Hcrc : Crc32 crc32_le}.
Variable g : geometry.
Hypothesis Hg : nmbm_geometry g.

Definition with_checksum (i : nmbm_info_table_header) (c : Z) : nmbm_info_table_header :=
  let h := if_header i in
  mk_info (mk_header (hd_magic h) (hd_version h) (hd_size h) c)
    (if_write_count i) (if_state_table_off i) (if_mapping_table_off i) (if_padding i).

Lemma crc_cat c a b : nmbm_crc32 crc32_le (nmbm_crc32 crc32_le c a) b = nmbm_crc32 crc32_le c (a ++ b).
Proof.
  destruct a as [|x a]; [done|]. destruct b as [|y b]; [by rewrite app_nil_r|].
  cbn [nmbm_crc32 app]. apply crc_app.
Qed.
Lemma nmbm_crc32_range c l : 0 <= c < 2 ^ 32 -> 0 <= nmbm_crc32 crc32_le c l < 2 ^ 32.
Proof. intros Hc. destruct l; [done|]. by apply (crc_range (crc32_le := crc32_le)). Qed.

Lemma info_bytes_length i : length (info_bytes i) = Z.to_nat INFO_HEADER_SIZE.
Proof. reflexivity. Qed.

(** The checksum goes into the header and changes nothing else. *)
Lemma update_checksum_info i rest :
  nmbm_update_checksum crc32_le (info_bytes i ++ rest) =
  info_bytes (with_checksum i (nmbm_crc32 crc32_le 0
    (take (Z.to_nat (buf_get32 (info_bytes (with_checksum i 0) ++ rest) 8))
       (info_bytes (with_checksum i 0) ++ rest)))) ++ rest.
Proof. reflexivity. Qed.

Lemma info_size i rest :
  0 <= hd_size (if_header i) < 2 ^ 32 ->
  buf_get32 (info_bytes i ++ rest) 8 = hd_size (if_header i).
Proof. intros H. transitivity (le_combine (le_split 4 (hd_size (if_header i)))); [reflexivity|]. by apply le_combine_split. Qed.

(** A table of the size in its header passes the check once its checksum is set. *)
Lemma check_header_ok i rest :
  hd_size (if_header i) = Z.of_nat (length (info_bytes i ++ rest)) ->
  0 <= hd_size (if_header i) < 2 ^ 32 ->
  nmbm_check_header crc32_le (nmbm_update_checksum crc32_le (info_bytes i ++ rest))
    (hd_size (if_header i)) = true.
Proof.
  intros Hlen Hr. rewrite update_checksum_info. set (d := info_bytes (with_checksum i 0) ++ rest).
  assert (length d = length (info_bytes i ++ rest)) as Hd by reflexivity.
  assert (buf_get32 d 8 = hd_size (if_header i)) as Hsz by (apply (info_size (with_checksum i 0)); done).
  rewrite Hsz, take_ge by lia. set (c := nmbm_crc32 crc32_le 0 d).
  assert (0 <= c < 2 ^ 32) as Hc by (apply nmbm_crc32_range; lia).
  unfold nmbm_check_header.
  rewrite (info_size (with_checksum i c)) by done. change (hd_size (if_header (with_checksum i c))) with (hd_size (if_header i)).
  cbv zeta. rewrite Z.ltb_irrefl.
  assert (16 < hd_size (if_header i)) as H16.
  { rewrite Hlen, length_app, info_bytes_length. unfold INFO_HEADER_SIZE. lia. }
  rewrite (proj2 (Z.ltb_lt _ _) H16), crc_cat.
  assert (splice (take 16 (info_bytes (with_checksum i c) ++ rest)) 12 (le_split 4 0) = take 16 d) as ->
    by reflexivity.
  assert (drop 16 (info_bytes (with_checksum i c) ++ rest) = drop 16 d) as -> by reflexivity.
  rewrite (take_ge (drop 16 d)) by (rewrite length_drop; lia). rewrite take_drop. fold c.
  transitivity (le_combine (le_split 4 c) =? c); [reflexivity|].
  rewrite le_combine_split by done. apply Z.eqb_refl.
Qed.

Definition table_header_ok (i : nmbm_info_table_header) : Prop :=
  0 <= hd_magic (if_header i) < 2 ^ 32 /\ 0 <= hd_version (if_header i) < 2 ^ 32 /\
  0 <= hd_size (if_header i) < 2 ^ 32 /\
  0 <= if_write_count i < 2 ^ 32 /\ 0 <= if_state_table_off i < 2 ^ 32 /\
  0 <= if_mapping_table_off i < 2 ^ 32.

(** The fields that are read back, but the checksum and the padding. *)
Lemma info_of_bytes i rest :
  table_header_ok i ->
  hd_magic (if_header (info_of (info_bytes i ++ rest))) = hd_magic (if_header i) /\
  hd_size (if_header (info_of (info_bytes i ++ rest))) = hd_size (if_header i) /\
  if_write_count (info_of (info_bytes i ++ rest)) = if_write_count i /\
  if_state_table_off (info_of (info_bytes i ++ rest)) = if_state_table_off i /\
  if_mapping_table_off (info_of (info_bytes i ++ rest)) = if_mapping_table_off i.
Proof.
  intros (H1 & H2 & H3 & H4 & H5 & H6).
  assert (forall z, 0 <= z < 2 ^ 32 -> forall w, w = le_combine (le_split 4 z) -> w = z) as Hw.
  { intros z Hz w ->. by apply le_combine_split. }
  split_and!; apply Hw; done || reflexivity.
Qed.

(** ** The generated table *)

(** The bytes before the header is put in. *)
Definition table_body (ni : nmbm_instance) : list Z :=
  splice (splice (replicate (Z.to_nat (info_table_size g)) 255)
            (Z.to_nat (if_state_table_off (info_table ni))) (words_bytes (block_state ni)))
    (Z.to_nat (if_mapping_table_off (info_table ni))) (words_bytes (block_mapping ni)).
(** The header with the new write count. *)
Definition table_header (ni : nmbm_instance) : nmbm_info_table_header :=
  let i := info_table ni in
  mk_info (mk_header NMBM_MAGIC_INFO_TABLE NMBM_VER (info_table_size g) (hd_checksum (if_header i)))
    (if negb (block_state_changed ni =? 0) || negb (block_mapping_changed ni =? 0)
     then u32 (if_write_count i + 1) else if_write_count i)
    (if_state_table_off i) (if_mapping_table_off i) (if_padding i).

Lemma generate_eq ni :
  nmbm_generate_info_table_cache crc32_le g ni =
  (negb (block_state_changed ni =? 0) || negb (block_mapping_changed ni =? 0),
   set_cache ni (nmbm_update_checksum crc32_le
                   (info_bytes (table_header ni) ++ drop 32 (table_body ni))) (table_header ni)).
Proof. reflexivity. Qed.

Section wf.
Variable ni : nmbm_instance.
Hypothesis Hwf : tables_wf g ni.

#[local] Abbreviation so := (Z.to_nat (state_table_off g)).
#[local] Abbreviation mo := (Z.to_nat (mapping_table_off g)).
#[local] Abbreviation size := (Z.to_nat (info_table_size g)).

Lemma body_sizes :
  (32 <= so)%nat /\ (so + 4 * length (block_state ni) <= mo)%nat /\
  (mo + 4 * length (block_mapping ni) <= size)%nat.
Proof.
  destruct (offsets_ok g Hg) as (H1 & H2 & H3 & _). destruct (state_table_size_bounds g Hg) as (_ & H4 & _).
  pose proof (tw_state g ni Hwf). pose proof (tw_mapping g ni Hwf).
  unfold INFO_HEADER_SIZE, mapping_table_size in *. lia.
Qed.

Lemma body_length : length (table_body ni) = size.
Proof.
  destruct body_sizes as (H1 & H2 & H3). unfold table_body.
  rewrite (tw_state_off g ni Hwf), (tw_mapping_off g ni Hwf).
  rewrite !splice_length; rewrite ?length_replicate, ?words_bytes_length; try lia.
  rewrite splice_length; rewrite ?length_replicate, ?words_bytes_length; lia.
Qed.

Lemma body_state : take (4 * length (block_state ni)) (drop so (table_body ni)) = words_bytes (block_state ni).
Proof.
  destruct body_sizes as (H1 & H2 & H3). unfold table_body.
  rewrite (tw_state_off g ni Hwf), (tw_mapping_off g ni Hwf).
  rewrite splice_before.
  - rewrite <- words_bytes_length. apply splice_at. rewrite length_replicate. lia.
  - lia.
  - rewrite splice_length; rewrite length_replicate, ?words_bytes_length; lia.
Qed.
Lemma body_mapping :
  take (4 * length (block_mapping ni)) (drop mo (table_body ni)) = words_bytes (block_mapping ni).
Proof.
  destruct body_sizes as (H1 & H2 & H3). unfold table_body.
  rewrite (tw_state_off g ni Hwf), (tw_mapping_off g ni Hwf).
  rewrite <- words_bytes_length. apply splice_at.
  rewrite splice_length; rewrite length_replicate, ?words_bytes_length; lia.
Qed.

Lemma table_header_wf : table_header_ok (table_header ni).
Proof.
  destruct (offsets_ok g Hg) as (H1 & H2 & H3 & H4). pose proof (state_table_size_bounds g Hg).
  pose proof (gw_total g (ng_wf g Hg)). unfold INFO_HEADER_SIZE, mapping_table_size in *.
  unfold table_header, table_header_ok.
  cbn [if_header hd_magic hd_version hd_size if_write_count if_state_table_off if_mapping_table_off].
  rewrite (tw_state_off g ni Hwf), (tw_mapping_off g ni Hwf).
  pose proof (tw_count g ni Hwf).
  assert (0 <= u32 (if_write_count (info_table ni) + 1) < 2 ^ 32) by apply u32_range.
  split; [done|]. split; [done|]. split; [lia|].
  split; [destruct (_ || _); done|]. lia.
Qed.

(** The words of a table in the image are those of the table in memory. *)
Lemma image_words i off (l : list Z) :
  (32 <= off)%nat -> take (4 * length l) (drop off (table_body ni)) = words_bytes l ->
  bytes_words (length l) (drop off (info_bytes i ++ drop 32 (table_body ni))) = map u32 l.
Proof.
  intros Hoff Ht. transitivity (bytes_words (length l) (words_bytes l ++ [])).
  - apply bytes_words_take. rewrite app_nil_r. rewrite (take_ge (words_bytes l)) by (rewrite words_bytes_length; lia).
    rewrite drop_app_ge by (rewrite info_bytes_length; unfold INFO_HEADER_SIZE; lia).
    rewrite info_bytes_length, drop_drop. change (Z.to_nat INFO_HEADER_SIZE) with 32%nat.
    replace (32 + (off - 32))%nat with off by lia. exact Ht.
  - apply bytes_words_bytes.
Qed.

(** What the generated bytes are. *)
Record table_of (data : list Z) : Prop := {
  to_length : length data = size;
  to_checksum : nmbm_check_header crc32_le data (info_table_size g) = true;
  to_header : nmbm_check_info_table_header g data = true;
  to_state : cached_state g data = block_state ni;
  to_mapping : cached_mapping g data = block_mapping ni;
  to_count : if_write_count (info_of data) = if_write_count (table_header ni);
  to_offsets : if_state_table_off (info_of data) = state_table_off g /\
               if_mapping_table_off (info_of data) = mapping_table_off g
}.

Lemma generated_table : table_of (info_table_cache (snd (nmbm_generate_info_table_cache crc32_le g ni))).
Proof.
  rewrite generate_eq. cbn [snd set_cache info_table_cache].
  pose proof table_header_wf as Hh. pose proof body_sizes as (H1 & H2 & H3).
  destruct (offsets_ok g Hg) as (O1 & O2 & O3 & O4). pose proof (state_table_size_bounds g Hg) as (S1 & S2 & S3).
  pose proof (gw_total g (ng_wf g Hg)). unfold INFO_HEADER_SIZE, mapping_table_size in *.
  set (rest := drop 32 (table_body ni)).
  assert (length (info_bytes (table_header ni) ++ rest) = size) as Hlen.
  { unfold rest. rewrite length_app, info_bytes_length, length_drop, body_length.
    unfold INFO_HEADER_SIZE. lia. }
  assert (hd_size (if_header (table_header ni)) = info_table_size g) as Hsz by done.
  pose proof (check_header_ok (table_header ni) rest) as Hck. rewrite Hsz in Hck.
  rewrite update_checksum_info. rewrite update_checksum_info in Hck.
  set (c := nmbm_crc32 crc32_le 0 _) in *.
  set (i := with_checksum (table_header ni) c) in *.
  assert (table_header_ok i) as Hi by exact Hh.
  pose proof (info_of_bytes i rest Hi) as (I1 & I2 & I3 & I4 & I5).
  assert (if_state_table_off i = state_table_off g) as E1 by exact (tw_state_off g ni Hwf).
  assert (if_mapping_table_off i = mapping_table_off g) as E2 by exact (tw_mapping_off g ni Hwf).
  split.
  - exact Hlen.
  - apply Hck; [rewrite Hlen; lia|lia].
  - unfold nmbm_check_info_table_header. cbv zeta. rewrite I1, I2, I4, I5, E1, E2, !u32_small by lia.
    change (hd_magic (if_header i)) with NMBM_MAGIC_INFO_TABLE.
    change (hd_size (if_header i)) with (info_table_size g). rewrite !Z.eqb_refl. cbn [andb].
    unfold mapping_table_size.
    destruct (Z.ltb_spec (mapping_table_off g - state_table_off g) (state_table_size g)); [lia|].
    destruct (Z.ltb_spec (info_table_size g - mapping_table_off g) (total_blks g * 4)); [lia|done].
  - unfold cached_state. rewrite I4, E1, <- (tw_state g ni Hwf), Nat2Z.id.
    rewrite image_words by (done || apply body_state). apply map_u32_id, Hwf.
  - unfold cached_mapping. rewrite I5, E2, <- (tw_mapping g ni Hwf), Nat2Z.id.
    rewrite image_words by (lia || apply body_mapping). apply map_i32_id, Hwf.
  - exact I3.
  - rewrite I4, I5. done.
Qed.

Lemma generated_wf : tables_wf g (snd (nmbm_generate_info_table_cache crc32_le g ni)).
Proof.
  rewrite generate_eq. cbn [snd]. pose proof table_header_wf as (_ & _ & _ & Hc & _).
  destruct Hwf. by split.
Qed.
End wf.
End roundtrip.
