(* ===== verification/NmbmFlash.v ===== *)
(** mtk_bmt: the NMBM scheme, access to the chip (mtk_bmt_nmbm.c, second part):
    pages and blocks with retries, erasing with a check, and the writing of the
    signature and of the info table, each page verified after it is written. *)
From S2P Require Import Prelude CNum Bytes BmtFlash BmtCore NmbmTable.
Open Scope Z_scope.
Open Scope list_scope.

Section nmbm.
Context {N : Type} `{NandChip N}.
Variable g : geometry.
Variable p : nmbm_params.

(** The chip and the instance. *)
#[local] Abbreviation nstate := (N * nmbm_instance)%type.

(** * Pages and blocks *)

(** Up to [k] more reads; the result and the data of the last one. *)
Fixpoint read_tries (k : nat) (n : N) (addr : Z) (last : Z * list Z) : Z * list Z :=
  match k with
  | O => last
  | S k =>
      let r := chip_read n addr (pg_size g) 0 0 in
      if rd_ret r =? - EUCLEAN then
        (Z.min (u32 (bitflip_threshold g + 1)) (ecc_strength p), rd_data r)
      else if 0 <=? rd_ret r then (0, rd_data r)
      else read_tries k n addr (rd_ret r, rd_data r)
  end.
Definition nmbm_read_phys_page (n : N) (addr : Z) : Z * list Z :=
  read_tries NMBM_TRY_COUNT n addr (0, []).

Fixpoint write_tries (k : nat) (n : N) (addr : Z) (data : list Z) : bool * N :=
  match k with
  | O => (false, n)
  | S k =>
      let '(ret, _, _, n) := chip_write n addr data 0 [] in
      if ret =? 0 then (true, n) else write_tries k n addr data
  end.
Definition nmbm_write_phys_page (n : N) (addr : Z) (data : list Z) : bool * N :=
  write_tries NMBM_TRY_COUNT n addr data.

Fixpoint erase_tries (k : nat) (n : N) (addr : Z) : bool * N :=
  match k with
  | O => (false, n)
  | S k =>
      let '(ret, n) := chip_erase n addr (erasesize g) in
      if ret =? 0 then (true, n) else erase_tries k n addr
  end.
Definition nmbm_erase_phys_block (n : N) (addr : Z) : bool * N := erase_tries NMBM_TRY_COUNT n addr.

Definition nmbm_check_bad_phys_block (n : N) (ba : Z) : bool :=
  negb (chip_isbad n (ba2addr g ba) =? 0).
Definition nmbm_mark_phys_bad_block (n : N) (ba : Z) : Z * N := chip_markbad n (ba2addr g ba).

(** The offsets of the pages of a block. *)
Definition page_offsets : list Z :=
  map (fun i => Z.of_nat i * pg_size g) (seq 0 (Z.to_nat (blk_size g / pg_size g))).

Definition nmbm_erase_block_and_check (n : N) (ba : Z) : bool * N :=
  let '(success, n) := nmbm_erase_phys_block n (ba2addr g ba) in
  if negb success then (false, n)
  else if negb (empty_page_ecc_ok p) then (true, n)
  else (negb (existsb (fun off => fst (nmbm_read_phys_page n (ba2addr g ba + off)) =? - EBADMSG)
                page_offsets), n).

(** What is done with a block that failed: marked on the chip and in the table. *)
Definition retire (s : nstate) (ba : Z) : nstate :=
  (snd (nmbm_mark_phys_bad_block (fst s) ba), mark_bad (snd s) ba).

Fixpoint erase_range (k : nat) (s : nstate) (ba : Z) : nstate :=
  match k with
  | O => s
  | S k =>
      let '(n, ni) := s in
      if negb (nmbm_get_block_state ni ba =? BLOCK_ST_GOOD) then erase_range k s (ba + 1)
      else if nmbm_check_bad_phys_block n ba then erase_range k (n, mark_bad ni ba) (ba + 1)
      else
        let '(success, n) := nmbm_erase_block_and_check n ba in
        if success then erase_range k (n, ni) (ba + 1)
        else erase_range k (retire (n, ni) ba) (ba + 1)
  end.
Definition nmbm_erase_range (s : nstate) (ba limit : Z) : nstate :=
  erase_range (Z.to_nat (limit - ba)) s ba.

(** * Verified writes *)

(** A page written and read back: the bytes from [leading] on must be those of
    [chunk]. *)
Definition write_check_page (n : N) (addr : Z) (page : list Z) (leading : nat) (chunk : list Z)
    : bool * N :=
  let '(success, n) := nmbm_write_phys_page n addr page in
  if negb success then (false, n)
  else
    let '(ret, data) := nmbm_read_phys_page n addr in
    if ret <? 0 then (false, n)
    else (bool_decide (take (length chunk) (drop leading data) = chunk), n).

Fixpoint repeat_pages (offs : list Z) (n : N) (addr : Z) (data : list Z) : bool * N :=
  match offs with
  | [] => (true, n)
  | off :: offs =>
      let page := data ++ replicate (Z.to_nat (pg_size g) - length data) 255 in
      let '(ok, n) := write_check_page n (addr + off) page 0 data in
      if ok then repeat_pages offs n addr data else (false, n)
  end.
Definition nmbm_write_repeated_data (n : N) (ba : Z) (data : list Z) : bool * N :=
  if pg_size g <? Z.of_nat (length data) then (false, n)
  else repeat_pages page_offsets n (ba2addr g ba) data.

(** [nmbn_read_data] and [nmbn_write_verify_data], with fuel for the bytes left:
    every round handles at least one. *)
Fixpoint read_data (fuel : nat) (n : N) (off size : Z) (acc : list Z) : Z * list Z :=
  match fuel with
  | O => (0, acc)
  | S fuel =>
      if size =? 0 then (0, acc)
      else
        let leading := Z.land off (pg_size g - 1) in
        let chunksize := Z.min (pg_size g - leading) size in
        let '(ret, data) := nmbm_read_phys_page n (off - leading) in
        if ret <? 0 then (ret, acc)
        else read_data fuel n (off + chunksize) (size - chunksize)
               (acc ++ take (Z.to_nat chunksize) (drop (Z.to_nat leading) data))
  end.
Definition nmbn_read_data (n : N) (addr size : Z) : Z * list Z :=
  read_data (S (Z.to_nat size)) n addr size [].

Fixpoint write_data (fuel : nat) (n : N) (off : Z) (data : list Z) : bool * N :=
  match fuel with
  | O => (true, n)
  | S fuel =>
      if (length data =? 0)%nat then (true, n)
      else
        let leading := Z.land off (pg_size g - 1) in
        let chunksize := Z.to_nat (Z.min (pg_size g - leading) (Z.of_nat (length data))) in
        let chunk := take chunksize data in
        let page := splice (replicate (Z.to_nat (pg_size g)) 255) (Z.to_nat leading) chunk in
        let '(ok, n) := write_check_page n (off - leading) page (Z.to_nat leading) chunk in
        if ok then write_data fuel n (off + Z.of_nat chunksize) (drop chunksize data) else (false, n)
  end.
Definition nmbn_write_verify_data (n : N) (addr : Z) (data : list Z) : bool * N :=
  write_data (S (length data)) n addr data.

(** * The signature *)

Fixpoint write_signature (k : nat) (s : nstate) (ba : Z) (data : list Z) : option Z * nstate :=
  match k with
  | O => (None, s)
  | S k =>
      let '(n, ni) := s in
      if negb (nmbm_get_block_state ni ba =? BLOCK_ST_GOOD) then write_signature k s (ba - 1) data
      else if nmbm_check_bad_phys_block n ba then write_signature k (n, mark_bad ni ba) (ba - 1) data
      else
        let '(success, n) := nmbm_erase_block_and_check n ba in
        if negb success then write_signature k (retire (n, ni) ba) (ba - 1) data
        else
          let '(success, n) := nmbm_write_repeated_data n ba data in
          if success then (Some ba, (n, ni)) else write_signature k (retire (n, ni) ba) (ba - 1) data
  end.
(** The block the signature was written to. *)
Definition nmbm_write_signature (s : nstate) (limit : Z) (sig : nmbm_signature) : option Z * nstate :=
  write_signature (Z.to_nat (total_blks g - 1 - limit)) s (total_blks g - 1) (signature_bytes sig).

(** * Management data *)

(** The loop of [nmbm_write_mgmt_range]: [start] is [*actual_start_ba] once it is
    set; the result is the start and the end, when all data was written. *)
Fixpoint write_mgmt (k : nat) (s : nstate) (ba : Z) (data : list Z) (start : option Z)
    : option (Z * Z) * nstate :=
  if (length data =? 0)%nat then ((fun b => (b, ba)) <$> start, s)
  else
    match k with
    | O => (None, s)
    | S k =>
        let '(n, ni) := s in
        let chunk := take (Z.to_nat (blk_size g)) data in
        if negb (nmbm_get_block_state ni ba =? BLOCK_ST_GOOD) then write_mgmt k s (ba + 1) data start
        else if nmbm_check_bad_phys_block n ba then write_mgmt k (n, mark_bad ni ba) (ba + 1) data start
        else
          let '(success, n) := nmbm_erase_block_and_check n ba in
          if negb success then write_mgmt k (retire (n, ni) ba) (ba + 1) data start
          else
            let '(success, n) := nmbn_write_verify_data n (ba2addr g ba) chunk in
            if negb success then write_mgmt k (retire (n, ni) ba) (ba + 1) data start
            else write_mgmt k (n, ni) (ba + 1) (drop (Z.to_nat (blk_size g)) data)
                   (Some (default ba start))
    end.
Definition nmbm_write_mgmt_range (s : nstate) (ba limit : Z) (data : list Z) : option (Z * Z) * nstate :=
  write_mgmt (Z.to_nat (limit - ba)) s ba data None.

Definition nmbm_write_info_table (s : nstate) (ba limit : Z) : option (Z * Z) * nstate :=
  nmbm_write_mgmt_range s ba limit (info_table_cache (snd s)).
End nmbm.
