(* ===== verification/NmbmLocal.v ===== *)
(** mtk_bmt: what the NMBM scheme leaves on a chip that may fail at any operation
    but only changes the page or block an operation is for ([LocalChip]): verified
    data is read back, and the rest of the chip is as before. *)
From S2P Require Import Prelude CNum Bytes BmtFlash BmtCore NmbmTable NmbmCache NmbmFlash.
Open Scope Z_scope.
Open Scope list_scope.

Section local.
Context {N : Type} `{NandChip N}.
Variable g : geometry.

(** What is read of a page, and the addresses that are pages. *)
Definition page (n : N) (a : Z) : read_result := chip_read n a (pg_size g) 0 0.
Definition aligned (a : Z) : Prop := a mod pg_size g = 0.

(** No operation is said to succeed. *)
Class LocalChip : Prop := {
  local_write : forall n a data a', aligned a -> aligned a' -> a' <> a ->
    page (snd (chip_write n a data 0 [])) a' = page n a';
  local_erase : forall n b a', aligned a' -> a' / blk_size g <> b ->
    page (snd (chip_erase n (ba2addr g b) (erasesize g))) a' = page n a';
  local_markbad : forall n b a', aligned a' -> a' / blk_size g <> b ->
    page (snd (chip_markbad n (ba2addr g b))) a' = page n a';
  bad_write : forall n a data a', chip_isbad (snd (chip_write n a data 0 [])) a' = chip_isbad n a';
  bad_erase : forall n b b', b' <> b ->
    chip_isbad (snd (chip_erase n (ba2addr g b) (erasesize g))) (ba2addr g b') = chip_isbad n (ba2addr g b');
  bad_erase_self : forall n b, chip_isbad n (ba2addr g b) = 0 ->
    fst (chip_erase n (ba2addr g b) (erasesize g)) = 0 ->
    chip_isbad (snd (chip_erase n (ba2addr g b) (erasesize g))) (ba2addr g b) = 0;
  bad_markbad : forall n b b', b' <> b ->
    chip_isbad (snd (chip_markbad n (ba2addr g b))) (ba2addr g b') = chip_isbad n (ba2addr g b')
}.

(** The blocks of a set are as before: their pages and their marks. *)
Record keeps_blocks (B : Z -> Prop) (n n' : N) : Prop := {
  kb_page : forall a, aligned a -> B (a / blk_size g) -> page n' a = page n a;
  kb_bad : forall b, B b -> chip_isbad n' (ba2addr g b) = chip_isbad n (ba2addr g b)
}.
#[export] Instance keeps_blocks_preorder B : PreOrder (keeps_blocks B).
Proof.
  split; [by split|]. intros a b c [H1 H2] [H3 H4]. split; intros; [rewrite H3, H1|rewrite H4, H2]; done.
Qed.
Lemma keeps_blocks_weaken (B B' : Z -> Prop) n n' :
  (forall b, B' b -> B b) -> keeps_blocks B n n' -> keeps_blocks B' n n'.
Proof. intros HB [H1 H2]. split; auto. Qed.
End local.

Section writes.
Context {N : Type} `{NandChip N}.
Variable g : geometry.
Variable p : nmbm_params.
Context {Hloc : LocalChip g}.
Hypothesis Hg : nmbm_geometry g.

#[local] Abbreviation page := (page g).
#[local] Abbreviation aligned := (aligned g).
#[local] Abbreviation keeps_blocks := (keeps_blocks g).

(** * Addresses *)

Lemma page_div_block : exists k, 0 < k /\ blk_size g = k * pg_size g.
Proof.
  destruct Hg as [Hw Hp Hs]. exists (2 ^ (blk_shift g - pg_shift g)). split; [lia|].
  rewrite (gw_size g Hw), Hp, <- Z.pow_add_r by lia. f_equal. lia.
Qed.
Lemma ba2addr_eq ba : ba2addr g ba = ba * blk_size g.
Proof. apply shiftl_block, Hg. Qed.
Lemma block_aligned ba : aligned (ba2addr g ba).
Proof.
  unfold aligned, NmbmLocal.aligned. rewrite ba2addr_eq. destruct page_div_block as (k & Hk & ->).
  rewrite Z.mul_assoc. apply Z.mod_mul. pose proof (pg_size_bounds g Hg). lia.
Qed.
Lemma land_page a : Z.land a (pg_size g - 1) = a mod pg_size g.
Proof.
  destruct Hg as [Hw Hp Hs]. rewrite Hp, Z.sub_1_r, <- Z.ones_equiv. apply Z.land_ones. lia.
Qed.
Lemma base_aligned off : aligned (off - off mod pg_size g).
Proof.
  unfold aligned, NmbmLocal.aligned. pose proof (pg_size_bounds g Hg).
  pose proof (Z.div_mod off (pg_size g) ltac:(lia)).
  replace (off - off mod pg_size g) with (off / pg_size g * pg_size g) by lia. apply Z.mod_mul. lia.
Qed.

(** * Pages *)

Lemma read_tries_ext k n n' a last : page n' a = page n a ->
  read_tries g p k n' a last = read_tries g p k n a last.
Proof.
  intros E. revert last. induction k as [|k IH]; intros last; [done|]. cbn [read_tries].
  unfold page, NmbmLocal.page in E. rewrite E. cbv zeta. by rewrite IH.
Qed.
Lemma read_page_ext n n' a : page n' a = page n a ->
  nmbm_read_phys_page g p n' a = nmbm_read_phys_page g p n a.
Proof. apply read_tries_ext. Qed.

Lemma write_tries_local k n a data : aligned a ->
  let n' := snd (write_tries k n a data) in
  (forall a', aligned a' -> a' <> a -> page n' a' = page n a') /\
  (forall a', chip_isbad n' a' = chip_isbad n a').
Proof.
  intros Ha. revert n. induction k as [|k IH]; intros n; [done|]. cbn [write_tries].
  pose proof (local_write g n a data) as Hw. pose proof (bad_write g n a data) as Hb.
  destruct (chip_write n a data 0 []) as [[[ret rl] orl] n1] eqn:E. cbn [snd] in *.
  case_if; [by split; [intros; apply Hw|]|]. destruct (IH n1) as [H1 H2]. split.
  - intros a' Ha' Hne. rewrite H1 by done. by apply Hw.
  - intros a'. by rewrite H2.
Qed.

Lemma write_check_local n a page_data leading chunk : aligned a ->
  let n' := snd (write_check_page g p n a page_data leading chunk) in
  (forall a', aligned a' -> a' <> a -> page n' a' = page n a') /\
  (forall a', chip_isbad n' a' = chip_isbad n a').
Proof.
  intros Ha. unfold write_check_page. pose proof (write_tries_local NMBM_TRY_COUNT n a page_data Ha) as Hw.
  unfold nmbm_write_phys_page. destruct (write_tries _ _ _ _) as [ok n1]. cbn [snd] in Hw.
  destruct ok; cbn [negb]; [|done]. destruct (nmbm_read_phys_page g p n1 a) as [ret data].
  by case_if.
Qed.

(** A page that was verified holds the chunk. *)
Definition page_holds (n : N) (a : Z) (leading : nat) (chunk : list Z) : Prop :=
  let '(ret, data) := nmbm_read_phys_page g p n a in
  0 <= ret /\ take (length chunk) (drop leading data) = chunk.

Lemma write_check_holds n a page_data leading chunk n' :
  write_check_page g p n a page_data leading chunk = (true, n') -> page_holds n' a leading chunk.
Proof.
  unfold write_check_page, page_holds. destruct (nmbm_write_phys_page _ _ _) as [ok n1].
  destruct ok; cbn [negb]; [|done].
  destruct (nmbm_read_phys_page g p n1 a) as [ret data] eqn:E. case_if; [done|].
  intros [= Hd <-]. rewrite E. bprop. done.
Qed.

(** * Data over several pages *)

#[local] Abbreviation base off := (off - off mod pg_size g).

Lemma write_data_local fuel n off data :
  let n' := snd (write_data g p fuel n off data) in
  (forall a, aligned a -> a < base off \/ off + Z.of_nat (length data) <= a -> page n' a = page n a) /\
  (forall a, chip_isbad n' a = chip_isbad n a).
Proof.
  revert n off data. induction fuel as [|fuel IH]; intros n off data; [done|]. cbn [write_data].
  case_if; [done|]. bprop. rewrite land_page. cbv zeta. pose proof (pg_size_bounds g Hg) as Hpg.
  pose proof (Z.mod_pos_bound off (pg_size g) ltac:(lia)) as Hmod.
  set (leading := off mod pg_size g) in *.
  set (cs := Z.to_nat (Z.min (pg_size g - leading) (Z.of_nat (length data)))).
  pose proof (write_check_local n (off - leading)
    (splice (replicate (Z.to_nat (pg_size g)) 255) (Z.to_nat leading) (take cs data))
    (Z.to_nat leading) (take cs data) (base_aligned off)) as Hw. cbv zeta in Hw.
  destruct (write_check_page _ _ _ _ _ _ _) as [ok n1]. cbn [snd] in Hw. destruct Hw as [W1 W2].
  assert (0 < Z.of_nat (length data)) by lia.
  assert (forall a, aligned a -> a < base off \/ off + Z.of_nat (length data) <= a -> a <> base off) as Hne
    by (fold leading; lia).
  destruct ok; [|split; [intros a Ha Hr; apply W1; auto|done]].
  destruct (IH n1 (off + Z.of_nat cs) (drop cs data)) as [I1 I2]. split.
  - intros a Ha Hr. rewrite I1; [by apply W1; auto|done|]. rewrite length_drop.
    destruct Hr as [Hr|Hr]; [left|right; lia]. fold leading in Hr.
    assert (0 <= (off + Z.of_nat cs) mod pg_size g <= leading + Z.of_nat cs).
    { split; [apply Z.mod_pos_bound; lia|]. unfold leading.
      rewrite <- Zplus_mod_idemp_l. apply Z.mod_le; lia. }
    lia.
  - intros a. by rewrite I2.
Qed.

(** What [nmbn_write_verify_data] wrote successfully, [nmbn_read_data] returns. *)
Lemma write_data_reads fuel fuel' n off data n' acc :
  (length data < fuel)%nat -> (length data < fuel')%nat ->
  write_data g p fuel n off data = (true, n') ->
  read_data g p fuel' n' off (Z.of_nat (length data)) acc = (0, acc ++ data).
Proof.
  revert fuel' n off data acc. induction fuel as [|fuel IH]; intros fuel' n off data acc Hf Hf'; [lia|].
  destruct fuel' as [|fuel']; [lia|]. cbn [write_data read_data].
  destruct (Nat.eqb_spec (length data) 0) as [E0|E0].
  { intros _. rewrite E0. apply length_zero_iff_nil in E0. subst. by rewrite app_nil_r. }
  destruct (Z.eqb_spec (Z.of_nat (length data)) 0); [lia|]. rewrite land_page. cbv zeta.
  pose proof (pg_size_bounds g Hg) as Hpg. pose proof (Z.mod_pos_bound off (pg_size g) ltac:(lia)) as Hmod.
  set (leading := off mod pg_size g) in *.
  set (m := Z.min (pg_size g - leading) (Z.of_nat (length data))). set (cs := Z.to_nat m).
  destruct (write_check_page _ _ _ _ _ _ _) as [ok n1] eqn:Ew. destruct ok; [|done]. intros Hw.
  assert (length (take cs data) = cs) as Hcs by (rewrite length_take; lia).
  apply write_check_holds in Ew. unfold page_holds in Ew.
  assert (nmbm_read_phys_page g p n' (off - leading) = nmbm_read_phys_page g p n1 (off - leading)) as ->.
  { apply read_page_ext. pose proof (write_data_local fuel n1 (off + Z.of_nat cs) (drop cs data)) as Hl.
    cbv zeta in Hl. rewrite Hw in Hl. cbn [snd] in Hl. destruct Hl as [Hl _].
    destruct (decide (cs = length data)) as [Eq|Nq].
    - rewrite Eq, drop_all in Hw. destruct fuel; cbn in Hw; by simplify_eq.
    - apply Hl; [apply base_aligned|left].
      assert (off + Z.of_nat cs = off - leading + 1 * pg_size g) as -> by lia.
      rewrite Z_mod_plus_full. unfold leading. rewrite Zminus_mod_idemp_r, Z.sub_diag, Z.mod_0_l; lia. }
  destruct (nmbm_read_phys_page g p n1 (off - leading)) as [ret d]. destruct Ew as [Hr Hd].
  destruct (Z.ltb_spec ret 0); [lia|].
  replace (off + m) with (off + Z.of_nat cs) by lia.
  replace (Z.of_nat (length data) - m) with (Z.of_nat (length (drop cs data))) by (rewrite length_drop; lia).
  rewrite (IH fuel' n1 (off + Z.of_nat cs) (drop cs data)); try (rewrite length_drop; lia); [|done].
  fold cs. rewrite Hcs in Hd. by rewrite Hd, <- app_assoc, take_drop.
Qed.
End writes.
