(* ===== verification/NmbmMgmt.v ===== *)
(** mtk_bmt: what [nmbm_write_mgmt_range] leaves on the chip: the data in good
    blocks of the range, to be read back, and every other block as it was. *)
From S2P Require Import Prelude CNum Bytes BmtFlash BmtCore NmbmTable NmbmCache NmbmFlash NmbmLocal.
Open Scope Z_scope.
Open Scope list_scope.

Section mgmt.
Context {N : Type} `{NandChip N}.
Variable g : geometry.
Variable p : nmbm_params.
Context {Hloc : LocalChip g}.
Hypothesis Hg : nmbm_geometry g.

#[local] Abbreviation aligned := (aligned g).
#[local] Abbreviation keeps_blocks := (keeps_blocks g).
#[local] Abbreviation blk := (Z.to_nat (blk_size g)).

(** * One block *)

Lemma block_pos : 0 < blk_size g.
Proof. pose proof (pg_size_bounds g Hg). lia. Qed.
Lemma in_block b a : ba2addr g b <= a < ba2addr g b + blk_size g -> a / blk_size g = b.
Proof.
  rewrite ba2addr_eq by done. intros Ha. symmetry. apply Z.div_unique with (a - b * blk_size g); lia.
Qed.
Lemma not_in_block b a : a / blk_size g <> b -> a < ba2addr g b \/ ba2addr g b + blk_size g <= a.
Proof.
  intros Hne. destruct (Z.lt_ge_cases a (ba2addr g b)); [by left|]. right.
  destruct (Z.lt_ge_cases a (ba2addr g b + blk_size g)); [|done]. destruct Hne. by apply in_block.
Qed.

Lemma erase_tries_local k n b :
  keeps_blocks (fun b' => b' <> b) n (snd (erase_tries g k n (ba2addr g b))).
Proof.
  revert n. induction k as [|k IH]; intros n; [done|]. cbn [erase_tries].
  pose proof (local_erase g n b) as H1. pose proof (bad_erase g n b) as H2.
  destruct (chip_erase n (ba2addr g b) (erasesize g)) as [ret n1]. cbn [snd] in *.
  assert (keeps_blocks (fun b' => b' <> b) n n1) as Hk by (split; auto).
  case_if; [done|]. by etrans; [|apply IH].
Qed.
Lemma erase_check_local n b :
  keeps_blocks (fun b' => b' <> b) n (snd (nmbm_erase_block_and_check g p n b)).
Proof.
  unfold nmbm_erase_block_and_check, nmbm_erase_phys_block.
  pose proof (erase_tries_local NMBM_TRY_COUNT n b) as Hk.
  destruct (erase_tries _ _ _ _) as [ok n1]. by repeat case_if.
Qed.
Lemma retire_local s b : keeps_blocks (fun b' => b' <> b) (fst s) (fst (retire g s b)).
Proof.
  unfold retire, nmbm_mark_phys_bad_block. split; intros.
  - by apply local_markbad.
  - by apply bad_markbad.
Qed.
Lemma write_block_local n b data :
  Z.of_nat (length data) <= blk_size g ->
  keeps_blocks (fun b' => b' <> b) n (snd (nmbn_write_verify_data g p n (ba2addr g b) data)).
Proof.
  intros Hl. unfold nmbn_write_verify_data.
  destruct (write_data_local g p Hg (S (length data)) n (ba2addr g b) data) as [H1 H2].
  rewrite (block_aligned g Hg b), Z.sub_0_r in H1. split; [|done].
  intros a Ha Hne. apply H1; [done|]. destruct (not_in_block b a Hne); lia.
Qed.

(** Reading a block depends on its pages only. *)
Lemma base_ge lo off : aligned lo -> lo <= off -> lo <= off - off mod pg_size g.
Proof.
  unfold aligned, NmbmLocal.aligned. intros Ha Hle. pose proof (pg_size_bounds g Hg).
  apply Z.mod_divide in Ha as [q ->]; [|lia].
  pose proof (Z.div_mod off (pg_size g) ltac:(lia)).
  assert (q <= off / pg_size g) by (apply Z.div_le_lower_bound; lia). nia.
Qed.
Lemma read_data_ext fuel n n' lo hi off size acc :
  aligned lo -> lo <= off -> off + size <= hi -> 0 <= size ->
  (forall a, aligned a -> lo <= a < hi -> page g n' a = page g n a) ->
  read_data g p fuel n' off size acc = read_data g p fuel n off size acc.
Proof.
  intros Hlo. revert off size acc. induction fuel as [|fuel IH]; intros off size acc Ho Hh Hs Hp; [done|].
  cbn [read_data]. destruct (Z.eqb_spec size 0); [done|]. rewrite !land_page by done. cbv zeta.
  pose proof (pg_size_bounds g Hg) as Hpg. pose proof (Z.mod_pos_bound off (pg_size g) ltac:(lia)) as Hm.
  pose proof (base_ge lo off Hlo Ho) as Hb.
  rewrite (read_page_ext g p n n') by (apply Hp; [by apply base_aligned|lia]).
  destruct (nmbm_read_phys_page g p n _) as [ret d]. case_if; [done|]. apply IH; try done; lia.
Qed.
Lemma read_block_ext (B : Z -> Prop) n n' b len :
  keeps_blocks B n n' -> B b -> 0 <= len <= blk_size g ->
  nmbn_read_data g p n' (ba2addr g b) len = nmbn_read_data g p n (ba2addr g b) len.
Proof.
  intros Hk HB Hl. apply read_data_ext with (ba2addr g b) (ba2addr g b + len); try lia.
  - by apply block_aligned.
  - intros a Ha Hr. apply (kb_page g B n n' Hk); [done|]. rewrite (in_block b a) by lia. done.
Qed.

(** * Data over several blocks *)

(** The data is in these blocks, a block of bytes in each. *)
Fixpoint stored (n : N) (bl : list Z) (data : list Z) : Prop :=
  match bl with
  | [] => data = []
  | b :: bl =>
      data <> [] /\
      nmbn_read_data g p n (ba2addr g b) (Z.of_nat (length (take blk data))) = (0, take blk data) /\
      stored n bl (drop blk data)
  end.
Lemma stored_ext (B : Z -> Prop) n n' bl data :
  keeps_blocks B n n' -> Forall B bl -> stored n bl data -> stored n' bl data.
Proof.
  intros Hk HB. revert data. induction HB as [|b bl Hb _ IH]; intros data; [done|]. cbn [stored].
  intros (H1 & H2 & H3). split; [done|]. split; [|by apply IH].
  rewrite (read_block_ext B n n'); try done. rewrite length_take. pose proof block_pos. lia.
Qed.

(** * What the loops over a range may do: mark good blocks of the range bad, and
    change the blocks of the range on the chip *)

Record touches (lo hi : Z) (s s' : N * nmbm_instance) : Prop := {
  tc_marked : marked (snd s) (snd s');
  tc_chip : keeps_blocks (fun b => b < lo \/ hi <= b) (fst s) (fst s');
  tc_state : forall b, 0 <= b -> b < lo \/ hi <= b ->
    nmbm_get_block_state (snd s') b = nmbm_get_block_state (snd s) b
}.
#[export] Instance touches_preorder lo hi : PreOrder (touches lo hi).
Proof.
  split; [intros s; by split|]. intros a b c [A1 A2 A3] [B1 B2 B3].
  split; [by etrans|by etrans|]. intros x H0 Hx. by rewrite B3, A3.
Qed.
Lemma touches_weaken lo hi lo' hi' s s' :
  lo' <= lo -> hi <= hi' -> touches lo hi s s' -> touches lo' hi' s s'.
Proof.
  intros Hl Hh [A1 A2 A3]. split; [done| |].
  - eapply keeps_blocks_weaken; [|exact A2]. cbn. lia.
  - intros b H0 Hb. apply A3; lia.
Qed.

Section block.
Variable ba : Z.
Hypothesis Hba : 0 <= ba.

Lemma touches_mark n ni :
  nmbm_get_block_state ni ba = BLOCK_ST_GOOD -> touches ba (ba + 1) (n, ni) (n, mark_bad ni ba).
Proof.
  intros Hgood. split; [by apply marked_one|done|]. intros b H0 Hb. cbn [snd].
  pose proof (good_in_range ni ba Hba Hgood). rewrite mark_bad_get by lia.
  destruct (Z.eqb_spec b ba); [lia|done].
Qed.
Lemma touches_chip n n' ni :
  keeps_blocks (fun b => b <> ba) n n' -> touches ba (ba + 1) (n, ni) (n', ni).
Proof. intros Hk. split; [done| |done]. eapply keeps_blocks_weaken; [|exact Hk]. cbn. lia. Qed.
Lemma touches_retire s :
  nmbm_get_block_state (snd s) ba = BLOCK_ST_GOOD -> touches ba (ba + 1) s (retire g s ba).
Proof.
  intros Hgood. destruct s as [n ni]. pose proof (retire_local (n, ni) ba) as Hr.
  unfold retire in *. cbn [fst snd] in *. etrans; [by apply touches_chip|]. by apply touches_mark.
Qed.
End block.

(** [nmbm_erase_range] *)
Lemma erase_range_touches k s ba :
  0 <= ba -> touches ba (ba + Z.of_nat k) s (erase_range g p k s ba).
Proof.
  revert s ba. induction k as [|k IH]; intros s ba H0; [done|]. cbn [erase_range].
  destruct s as [n ni]. destruct (Z.eqb_spec (nmbm_get_block_state ni ba) BLOCK_ST_GOOD) as [Hs|Hs]; cbn [negb].
  all: assert (forall s', touches ba (ba + 1) (n, ni) s' ->
         touches ba (ba + Z.of_nat (S k)) (n, ni) (erase_range g p k s' (ba + 1))) as Hnext
    by (intros s' Ht; etrans; [eapply touches_weaken, Ht; lia|eapply touches_weaken, IH; lia]).
  2: by apply Hnext.
  case_if; [by apply Hnext, touches_mark|].
  pose proof (erase_check_local n ba) as He. destruct (nmbm_erase_block_and_check _ _ _ _) as [ok n1].
  cbn [snd] in He. pose proof (touches_chip ba n n1 ni He) as Ht.
  destruct ok; apply Hnext; [done|]. etrans; [exact Ht|]. by apply touches_retire.
Qed.
Lemma erase_range_in s ba limit : 0 <= ba -> touches ba limit s (nmbm_erase_range g p s ba limit).
Proof.
  intros H0. unfold nmbm_erase_range. destruct (Z.le_gt_cases limit ba).
  - by replace (Z.to_nat (limit - ba)) with 0%nat by lia.
  - pose proof (erase_range_touches (Z.to_nat (limit - ba)) s ba H0) as Ht.
    by replace (ba + Z.of_nat (Z.to_nat (limit - ba))) with limit in Ht by lia.
Qed.

(** * [nmbm_write_mgmt_range] *)

(** The data from [st] to [en], in good blocks that go up. *)
Record stored_range (s : N * nmbm_instance) (bl : list Z) (st en : Z) (data : list Z) : Prop := {
  sr_stored : stored (fst s) bl data;
  sr_sorted : StronglySorted Z.lt bl;
  sr_first : head bl = Some st;
  sr_range : Forall (fun b => st <= b < en /\ nmbm_get_block_state (snd s) b = BLOCK_ST_GOOD) bl
}.
(** Kept where the chip and the states are. *)
Lemma stored_range_keep (B : Z -> Prop) s s' bl st en data :
  keeps_blocks B (fst s) (fst s') ->
  (forall b, st <= b < en -> B b /\ nmbm_get_block_state (snd s') b = nmbm_get_block_state (snd s) b) ->
  stored_range s bl st en data -> stored_range s' bl st en data.
Proof.
  intros Hk HB [S1 S2 S3 S4]. split; [|done|done|].
  - eapply stored_ext; [exact Hk| |exact S1]. eapply Forall_impl; [exact S4|]. cbn. intros b [Hr _].
    by apply HB.
  - eapply Forall_impl; [exact S4|]. cbn. intros b [Hr Hs]. split; [done|].
    by rewrite (proj2 (HB b Hr)).
Qed.

Lemma write_mgmt_touches k s ba data start :
  0 <= ba -> touches ba (ba + Z.of_nat k) s (snd (write_mgmt g p k s ba data start)).
Proof.
  revert s ba data start. induction k as [|k IH]; intros s ba data start H0; cbn [write_mgmt]; [by case_if|].
  case_if; [done|]. clear E. destruct s as [n ni]. cbv zeta.
  destruct (Z.eqb_spec (nmbm_get_block_state ni ba) BLOCK_ST_GOOD) as [Hs|Hs]; cbn [negb].
  all: assert (forall s' data start, touches ba (ba + 1) (n, ni) s' ->
         touches ba (ba + Z.of_nat (S k)) (n, ni) (snd (write_mgmt g p k s' (ba + 1) data start))) as Hnext
    by (intros s' d st Ht; etrans; [eapply touches_weaken, Ht; lia|eapply touches_weaken, IH; lia]).
  2: by apply Hnext.
  case_if; [by apply Hnext, touches_mark|]. clear E.
  pose proof (erase_check_local n ba) as He. destruct (nmbm_erase_block_and_check _ _ _ _) as [ok n1].
  cbn [snd] in He. pose proof (touches_chip ba n n1 ni He) as Ht.
  destruct ok; cbn [negb]; [|apply Hnext; etrans; [exact Ht|by apply touches_retire]].
  pose proof (write_block_local n1 ba (take blk data)) as Hw.
  destruct (nmbn_write_verify_data _ _ _ _ _) as [ok n2]. cbn [snd] in Hw.
  assert (touches ba (ba + 1) (n, ni) (n2, ni)) as Ht2.
  { etrans; [exact Ht|]. apply touches_chip. apply Hw. rewrite length_take. pose proof block_pos. lia. }
  destruct ok; cbn [negb]; apply Hnext; [done|]. etrans; [exact Ht2|by apply touches_retire].
Qed.

(** What was verified in a block is there at the end. *)
Lemma block_reads n ba chunk n' :
  nmbn_write_verify_data g p n (ba2addr g ba) chunk = (true, n') ->
  nmbn_read_data g p n' (ba2addr g ba) (Z.of_nat (length chunk)) = (0, chunk).
Proof.
  intros Hw. unfold nmbn_read_data.
  rewrite (write_data_reads g p Hg (S (length chunk)) _ n (ba2addr g ba) chunk n' []); [done|lia|lia|done].
Qed.

Lemma write_mgmt_stores k s ba data start st en s' :
  0 <= ba -> write_mgmt g p k s ba data start = (Some (st, en), s') ->
  exists bl, stored (fst s') bl data /\ StronglySorted Z.lt bl /\
    Forall (fun b => ba <= b < en /\ nmbm_get_block_state (snd s') b = BLOCK_ST_GOOD) bl /\
    ba <= en <= ba + Z.of_nat k /\ match start with Some st0 => st = st0 | None => head bl = Some st end.
Proof.
  revert s ba data start. induction k as [|k IH]; intros s ba data start H0; cbn [write_mgmt].
  all: destruct (Nat.eqb_spec (length data) 0) as [E0|E0].
  1, 3: intros [= Hst <-]; apply length_zero_iff_nil in E0 as ->; exists []; destruct start; cbn in Hst;
    simplify_eq; split_and!; done || constructor || lia.
  { done. }
  destruct s as [n ni]. cbv zeta.
  assert (forall s1 data start', write_mgmt g p k s1 (ba + 1) data start' = (Some (st, en), s') ->
    exists bl, stored (fst s') bl data /\ StronglySorted Z.lt bl /\
      Forall (fun b => ba + 1 <= b < en /\ nmbm_get_block_state (snd s') b = BLOCK_ST_GOOD) bl /\
      ba + 1 <= en <= ba + Z.of_nat (S k) /\
      match start' with Some st0 => st = st0 | None => head bl = Some st end) as Hnext.
  { intros s1 d st' Hw. destruct (IH s1 (ba + 1) d st') as (bl & H1 & H2 & H3 & H4 & H5); [lia|done|].
    exists bl. split_and!; done || lia. }
  assert (forall s1, write_mgmt g p k s1 (ba + 1) data start = (Some (st, en), s') ->
    exists bl, stored (fst s') bl data /\ StronglySorted Z.lt bl /\
      Forall (fun b => ba <= b < en /\ nmbm_get_block_state (snd s') b = BLOCK_ST_GOOD) bl /\
      ba <= en <= ba + Z.of_nat (S k) /\
      match start with Some st0 => st = st0 | None => head bl = Some st end) as Hskip.
  { intros s1 Hw. destruct (Hnext _ _ _ Hw) as (bl & H1 & H2 & H3 & H4 & H5). exists bl.
    split_and!; try done; try lia. eapply Forall_impl; [exact H3|]. cbn. intros b [? ?]. split; [lia|done]. }
  destruct (Z.eqb_spec (nmbm_get_block_state ni ba) BLOCK_ST_GOOD) as [Hs|Hs]; cbn [negb]; [|apply Hskip].
  case_if; [apply Hskip|]. clear E.
  destruct (nmbm_erase_block_and_check _ _ _ _) as [ok n1]. destruct ok; cbn [negb]; [|apply Hskip].
  destruct (nmbn_write_verify_data _ _ _ _ _) as [ok n2] eqn:Ew. destruct ok; cbn [negb]; [|apply Hskip].
  intros Hw. pose proof (write_mgmt_touches k (n2, ni) (ba + 1) (drop blk data) (Some (default ba start)) ltac:(lia))
    as Ht. rewrite Hw in Ht. cbn [snd] in Ht. destruct Ht as [_ T2 T3].
  destruct (Hnext _ _ _ Hw) as (bl & H1 & H2 & H3 & H4 & H5). exists (ba :: bl). split_and!.
  - cbn [stored]. split; [by intros ->|]. split; [|done].
    rewrite (read_block_ext _ n2 (fst s') ba _ T2); [by apply block_reads in Ew|lia|].
    rewrite length_take. pose proof block_pos. lia.
  - constructor; [done|]. eapply Forall_impl; [exact H3|]. cbn. lia.
  - constructor; [split; [lia|by rewrite T3 by lia]|]. eapply Forall_impl; [exact H3|]. cbn. intros b [? ?].
    split; [lia|done].
  - lia.
  - lia.
  - subst st. by destruct start.
Qed.

(** The whole operation: either way only good blocks of the range are touched; a
    success gives the range that holds the data. *)
Record wrote (s : N * nmbm_instance) (ba limit : Z) (data : list Z) (r : option (Z * Z))
    (s' : N * nmbm_instance) : Prop := {
  wr_touches : touches ba limit s s';
  wr_stored : forall st en, r = Some (st, en) ->
    ba <= st < en /\ en <= limit /\ exists bl, stored_range s' bl st en data
}.
Lemma write_range_wrote s ba limit data :
  0 <= ba ->
  wrote s ba limit data (fst (nmbm_write_mgmt_range g p s ba limit data))
    (snd (nmbm_write_mgmt_range g p s ba limit data)).
Proof.
  intros H0. unfold nmbm_write_mgmt_range. split.
  - pose proof (write_mgmt_touches (Z.to_nat (limit - ba)) s ba data None H0) as Ht.
    destruct (Z.le_gt_cases limit ba).
    + replace (Z.to_nat (limit - ba)) with 0%nat in * by lia. cbn [write_mgmt]. by case_if.
    + by replace (ba + Z.of_nat (Z.to_nat (limit - ba))) with limit in Ht by lia.
  - intros st en Hr. destruct (write_mgmt _ _ _ _ _ _ _) as [r s'] eqn:Ew. cbn in Hr. subst r.
    apply write_mgmt_stores in Ew as (bl & H1 & H2 & H3 & H4 & H5); [|done].
    destruct bl as [|b bl]; [done|]. cbn in H5. injection H5 as ->.
    inversion H3 as [|x l Hb Hbl]; subst. cbn beta in Hb. apply StronglySorted_inv in H2 as Hs.
    destruct Hs as [_ Hs]. split; [lia|]. split; [lia|]. exists (st :: bl). split; try done.
    constructor; [split; [lia|apply Hb]|]. rewrite Forall_forall in Hs, Hbl |- *. intros b Hin.
    specialize (Hs b Hin). specialize (Hbl b Hin). cbn beta in *. split; [lia|apply Hbl].
Qed.
End mgmt.
