(* ===== verification/NmbmUpdate.v ===== *)
(** mtk_bmt: the NMBM scheme, keeping the info tables (mtk_bmt_nmbm.c, third part):
    building the main and the backup table, rescuing them when a write fails,
    updating both, mapping a block to a spare one, and the operations of the scheme
    the core calls. The messages are left out. *)
From S2P Require Import Prelude CNum Bytes BmtFlash BmtCore NmbmTable NmbmFlash.
Open Scope Z_scope.
Open Scope list_scope.

Section nmbm.
Context {N : Type} `{NandChip N}.
Variable crc32_le : Z -> list Z -> Z.
Variable g : geometry.
Variable p : nmbm_params.

#[local] Abbreviation nstate := (N * nmbm_instance)%type.

Definition with_lay (s : nstate) (f : nmbm_layout -> nmbm_layout) : nstate :=
  (fst s, set_lay (snd s) (f (lay (snd s)))).
(** The addresses of the main table, the backup table and the first mapping block. *)
Definition with_tables (s : nstate) (main backup mapping : Z) : nstate :=
  with_lay s (fun l => lay_tables l main backup mapping).
Definition clean (s : nstate) : nstate := (fst s, nmbm_mark_tables_clean (snd s)).

(** The limit of the searches for spare blocks: an int32. *)
Definition reserve_limit (ni : nmbm_instance) : Z :=
  to_i32 (mapping_blocks_top_ba (lay ni) - size2blk g (info_table_size g)).
Definition reserve (ni : nmbm_instance) (ba : Z) : option Z :=
  nmbm_try_reserve_blocks g ni ba (info_table_spare_blocks g) 0 (reserve_limit ni).

(** The loops that try to write a table at [write_ba] and then at lower addresses
    down to [lo]; [k] addresses are left. *)
Fixpoint write_down (k : nat) (s : nstate) (write_ba : Z) : option (Z * Z) * nstate :=
  match k with
  | O => (None, s)
  | S k =>
      let '(r, s) := nmbm_write_info_table g p s write_ba (mapping_blocks_top_ba (lay (snd s))) in
      match r with
      | Some _ => (r, s)
      | None => write_down k s (write_ba - 1)
      end
  end.
Definition write_table_down (s : nstate) (write_ba lo : Z) : option (Z * Z) * nstate :=
  write_down (Z.to_nat (write_ba - lo + 1)) s write_ba.

(** The end of [nmbm_rebuild_info_table]: a backup after the main table. *)
Definition rebuild_backup (s : nstate) (main_ba main_end_ba : Z) : nstate :=
  match reserve (snd s) main_end_ba with
  | None => s
  | Some next_start_ba =>
      let '(backup, s) := nmbm_write_info_table g p s next_start_ba (mapping_blocks_top_ba (lay (snd s))) in
      match backup with
      | None => s
      | Some (backup_ba, backup_end_ba) =>
          nmbm_erase_range g p (with_tables s main_ba backup_ba backup_end_ba) main_end_ba backup_ba
      end
  end.
Definition nmbm_rebuild_info_table (s : nstate) : bool * nstate :=
  let l := lay (snd s) in
  let s := with_tables s 0 0 (mapping_blocks_top_ba l) in
  let '(main, s) := nmbm_write_info_table g p s (mgmt_start_ba l) (mapping_blocks_top_ba l) in
  match main with
  | None => (false, (fst s, set_protected (snd s)))
  | Some (main_ba, main_end_ba) =>
      (true, rebuild_backup (clean (with_tables s main_ba 0 main_end_ba)) main_ba main_end_ba)
  end.

Definition nmbm_rescue_single_info_table (s : nstate) : bool * nstate :=
  let l := lay (snd s) in
  let '(r, s) := nmbm_write_info_table g p s (mgmt_start_ba l) (main_table_ba l) in
  match r with
  | Some (start_ba, end_ba) =>
      let s := clean (with_tables s start_ba (main_table_ba l) (mapping_blocks_ba l)) in
      (true, nmbm_erase_range g p s end_ba (main_table_ba l))
  | None =>
      match reserve (snd s) (mapping_blocks_ba l) with
      | None => (false, s)
      | Some write_ba =>
          let '(r, s) := write_table_down s write_ba (mapping_blocks_ba l) in
          match r with
          | Some (start_ba, end_ba) =>
              let s := nmbm_erase_range g p s (mapping_blocks_ba l) start_ba in
              (true, clean (with_tables s (main_table_ba l) start_ba end_ba))
          | None => (false, s)
          end
      end
  end.

Definition nmbm_update_single_info_table (s : nstate) (update_main_table : bool) : bool * nstate :=
  let l := lay (snd s) in
  let '(write_start_ba, write_limit) :=
    if update_main_table then (main_table_ba l, backup_table_ba l)
    else (backup_table_ba l, mapping_blocks_top_ba l) in
  let '(r, s) := nmbm_write_info_table g p s write_start_ba write_limit in
  match r with
  | Some (start_ba, end_ba) =>
      (true, clean (if update_main_table
                    then with_tables s start_ba (backup_table_ba l) (mapping_blocks_ba l)
                    else with_tables s (main_table_ba l) start_ba end_ba))
  | None =>
      if update_main_table then
        nmbm_rescue_single_info_table (with_tables s (backup_table_ba l) 0 (mapping_blocks_ba l))
      else (false, with_tables s (main_table_ba l) 0 (backup_table_ba l))
  end.

(** The end of [nmbm_rescue_main_info_table]: a new backup after the main table. *)
Definition rescue_backup (s : nstate) (main_ba main_end_ba : Z) : nstate :=
  let s := with_tables s main_ba (backup_table_ba (lay (snd s))) main_end_ba in
  match reserve (snd s) main_end_ba with
  | None => with_tables s main_ba 0 main_end_ba
  | Some write_ba =>
      let '(r, s) := write_table_down s write_ba main_end_ba in
      match r with
      | None => with_tables s main_ba 0 main_end_ba
      | Some (start_ba, end_ba) =>
          nmbm_erase_range g p (with_tables s main_ba start_ba end_ba) main_end_ba start_ba
      end
  end.

Definition nmbm_rescue_main_info_table (s : nstate) : bool * nstate :=
  let l := lay (snd s) in
  let backup_is_main (s : nstate) := with_tables s (backup_table_ba l) 0 (mapping_blocks_ba l) in
  match reserve (snd s) (mapping_blocks_ba l) with
  | None => (true, backup_is_main s)
  | Some write_ba =>
      let '(tmp, s) := write_table_down s write_ba (mapping_blocks_ba l) in
      match tmp with
      | None => (true, backup_is_main s)
      | Some (tmp_start_ba, tmp_end_ba) =>
          let '(main, s) := nmbm_write_info_table g p s (mgmt_start_ba l) tmp_start_ba in
          match main with
          | None => (true, clean (with_tables s tmp_start_ba 0 tmp_end_ba))
          | Some (main_ba, main_end_ba) =>
              let s := clean (with_tables s main_ba (backup_table_ba l) tmp_end_ba) in
              if main_end_ba <=? tmp_start_ba
              then (true, with_tables s main_ba tmp_start_ba tmp_end_ba)
              else (true, rescue_backup s main_ba main_end_ba)
          end
      end
  end.

(** From [write_main_table] on, with [main_table_limit]. *)
Definition write_main_table (s : nstate) (main_table_limit : Z) : bool * nstate :=
  let l := lay (snd s) in
  if main_table_ba l =? 0 then nmbm_rebuild_info_table s
  else
    let '(r, s) := nmbm_write_info_table g p s (main_table_ba l) main_table_limit in
    match r with
    | None =>
        if backup_table_ba l =? 0 then nmbm_rebuild_info_table s else nmbm_rescue_main_info_table s
    | Some (start_ba, end_ba) =>
        (true, clean (with_tables s start_ba (backup_table_ba l)
                        (if backup_table_ba l =? 0 then end_ba else mapping_blocks_ba l)))
    end.

Definition nmbm_update_info_table_once (s : nstate) (force : bool) : bool * nstate :=
  let '(changed, ni) := nmbm_generate_info_table_cache crc32_le g (snd s) in
  let s := (fst s, ni) in
  let l := lay ni in
  if negb changed && negb force then (true, s)
  else if backup_table_ba l =? 0 then write_main_table s (mapping_blocks_top_ba l)
  else
    let '(r, s) := nmbm_write_info_table g p s (backup_table_ba l) (mapping_blocks_top_ba l) in
    match r with
    | None =>
        write_main_table (with_tables s (main_table_ba l) 0 (backup_table_ba l)) (mapping_blocks_top_ba l)
    | Some (start_ba, end_ba) =>
        write_main_table (clean (with_tables s (main_table_ba l) start_ba end_ba)) start_ba
    end.

(** The loop of [nmbm_update_info_table]; [None]: the fuel ended first. *)
Fixpoint update_info_table (fuel : nat) (s : nstate) : option (bool * nstate) :=
  if (block_state_changed (snd s) =? 0) && (block_mapping_changed (snd s) =? 0) then Some (true, s)
  else
    match fuel with
    | O => None
    | S fuel =>
        let '(success, s) := nmbm_update_info_table_once s false in
        if success then update_info_table fuel s else Some (false, s)
    end.
Definition nmbm_update_info_table (fuel : nat) (s : nstate) : option (bool * nstate) :=
  if protected (snd s) then Some (true, s) else update_info_table fuel s.

(** A round for every block and one more are enough ([update_terminates]). *)
Definition update_rounds (s : nstate) : nat := S (16 * length (block_state (snd s))).
Definition updated (s : nstate) : bool * nstate :=
  default (false, s) (nmbm_update_info_table (update_rounds s) s).

(** * Mapping *)

Definition nmbm_map_block (s : nstate) (lb : Z) : bool * nstate :=
  let '(n, ni) := s in
  let l := lay ni in
  if mapping_blocks_ba l =? mapping_blocks_top_ba l then (false, s)
  else
    match nmbm_block_walk g false ni (mapping_blocks_top_ba l) 0 (to_i32 (mapping_blocks_ba l)) with
    | None =>
        let s := snd (updated s) in
        (false, with_lay s (fun l => lay_top l (mapping_blocks_ba l)))
    | Some pb =>
        let ni := set_mapping ni (<[Z.to_nat lb := pb]> (block_mapping ni))
                    (u32 (block_mapping_changed ni + 1)) in
        (true, (n, set_lay ni (lay_top l (u32 (mapping_blocks_top_ba l - 1)))))
    end.

Definition map_get (ni : nmbm_instance) (lb : Z) : Z := nth (Z.to_nat lb) (block_mapping ni) 0.

Definition remap_block_nmbm (s : nstate) (block mapped_block copy_len : Z) : bool * nstate :=
  if data_block_count (lay (snd s)) <=? block then (false, s)
  else
    let s := (fst s, mark_bad (snd s) mapped_block) in
    let '(ok, s) := nmbm_map_block s block in
    if negb ok then (false, s)
    else
      let new_block := map_get (snd s) block in
      let '(_, n) := bbt_nand_erase g (fst s) (u16 new_block) in
      let n := if 0 <? copy_len then snd (bbt_nand_copy g n (u16 new_block) mapped_block copy_len) else n in
      (true, snd (updated (n, snd s))).

(** [block] is an int and the count a u32: a negative block is refused. *)
Definition get_mapping_block_index_nmbm (ni : nmbm_instance) (block : Z) : Z :=
  if data_block_count (lay ni) <=? u32 block then -1 else map_get ni block.

(** The first loop of [unmap_block_nmbm]: the block before that is not remapped,
    and how far it is; the comparisons are unsigned. *)
Fixpoint unmap_start (k : nat) (ni : nmbm_instance) (start offset : Z) : option (Z * Z) :=
  if negb (mapping_blocks_ba (lay ni) <=? u32 (map_get ni start)) then Some (start, offset)
  else
    match k with
    | O => None
    | S k => if start - 1 <? 0 then None else unmap_start k ni (start - 1) (offset + 1)
    end.
(** The second: the block below the lowest one that is mapped. *)
Definition unmap_top (ni : nmbm_instance) : Z :=
  fold_left (fun new_block cur =>
      if u32 cur <? mapping_blocks_ba (lay ni) then new_block
      else if cur <=? new_block then cur - 1 else new_block)
    (take (Z.to_nat (data_block_count (lay ni))) (block_mapping ni))
    (to_i32 (signature_ba (lay ni) - 1)).

Definition unmap_block_nmbm (s : nstate) (block : Z) : nstate :=
  let '(n, ni) := s in
  if data_block_count (lay ni) <=? block then s
  else
    match unmap_start (Z.to_nat block) ni block 0 with
    | None => s
    | Some (start, offset) =>
        if offset =? 0 then s
        else
          let new_block := to_i32 (map_get ni start + offset) in
          let ni := snd (nmbm_set_block_state ni new_block BLOCK_ST_GOOD) in
          let ni := set_mapping ni (<[Z.to_nat block := new_block]> (block_mapping ni))
                      (u32 (block_mapping_changed ni + 1)) in
          let ni := set_lay ni (lay_top (lay ni) (u32 (unmap_top ni))) in
          snd (updated (n, ni))
    end.
End nmbm.
