(* ===== verification/NmbmAttach.v ===== *)
(** mtk_bmt: the NMBM scheme, starting (mtk_bmt_nmbm.c, last part): creating the
    tables on a new chip, finding and loading them on an existing one, the
    initialisation, and the scheme as an instance of [BmtOps]. The search for the
    signature is modelled for a limit above 0 (a max ratio below 16): with 0 its
    loop would count down past the first block. *)
From S2P Require Import Prelude CNum Bytes BmtFlash BmtCore NmbmTable NmbmFlash NmbmUpdate.
Open Scope Z_scope.
Open Scope list_scope.

Section nmbm.
Context {N : Type} `{NandChip N}.
Variable crc32_le : Z -> list Z -> Z.
Variable g : geometry.
Variable p : nmbm_params.

#[local] Abbreviation nstate := (N * nmbm_instance)%type.
#[local] Abbreviation updated := (updated crc32_le g p).

(** * Creating *)

Definition nmbm_scan_badblocks (s : nstate) : nstate :=
  (fst s, fold_left (fun ni ba => if nmbm_check_bad_phys_block g (fst s) ba then mark_bad ni ba else ni)
            (seqZ 0 (total_blks g)) (snd s)).

(** The last loop of [nmbm_create_info_table]: the blocks at the end of the data
    area that have no physical block yet. *)
Fixpoint map_rest (k : nat) (s : nstate) (lb : Z) : nstate :=
  match k with
  | O => s
  | S k =>
      let '(ok, s) := nmbm_map_block crc32_le g p s lb in
      if ok then map_rest k (with_lay s (fun l => lay_count l (data_block_count l + 1))) (lb + 1)
      else s
  end.

Definition nmbm_create_info_table (s : nstate) : bool * nstate :=
  let l := lay (snd s) in
  match nmbm_block_walk g false (snd s) (signature_ba l) 1 (to_i32 (mgmt_start_ba l)) with
  | None => (false, s)
  | Some top =>
      let s := with_lay s (fun l => lay_top l top) in
      let s := (fst s, snd (nmbm_generate_info_table_cache crc32_le g (snd s))) in
      let '(ok, s) := nmbm_rebuild_info_table g p s in
      if negb ok then (false, s)
      else
        let l := lay (snd s) in
        updated (map_rest (Z.to_nat (mgmt_start_ba l - data_block_count l)) s (data_block_count l))
  end.

Definition new_mgmt_start : Z :=
  let start := u32 (total_blks g * u32 (NMBM_MGMT_DIV - max_ratio p)) / NMBM_MGMT_DIV in
  if negb (max_reserved_blocks p =? 0) && (max_reserved_blocks p <? u32 (total_blks g - start))
  then u32 (total_blks g - max_reserved_blocks p) else start.

(** [bmtd.total_blks << bmtd.blk_shift], an int that becomes a u64. *)
Definition chip_size : Z := u64 (to_i32 (Z.shiftl (total_blks g) (blk_shift g))).

(** The signature of a new chip, with its checksum. *)
Definition new_signature (mgmt_start : Z) : nmbm_signature :=
  let s := mk_sig (mk_header NMBM_MAGIC_SIGNATURE NMBM_VER (Z.of_nat SIGNATURE_SIZE) 0)
             chip_size (blk_size g) (pg_size g) (oobsize g) mgmt_start
             (Z.of_nat NMBM_TRY_COUNT) in
  signature_of (nmbm_update_checksum crc32_le (signature_bytes s)).

Definition nmbm_create_new (s : nstate) : bool * nstate :=
  let s := with_lay s (fun l => lay_mgmt l new_mgmt_start) in
  let s := nmbm_scan_badblocks s in
  let s := (fst s, nmbm_build_mapping_table g (snd s)) in
  let s := (fst s, set_signature (snd s) (new_signature new_mgmt_start)) in
  let '(ba, s) := nmbm_write_signature g p s new_mgmt_start (ni_signature (snd s)) in
  match ba with
  | None => (false, s)
  | Some ba => nmbm_create_info_table (with_lay s (fun l => lay_signature l ba))
  end.

(** * Loading *)

(** The bytes read are in the cache of the instance from then on, whatever becomes
    of them. *)
Definition cache_read (ni : nmbm_instance) (off : Z) (data : list Z) : nmbm_instance :=
  set_cache ni (splice (info_table_cache ni) (Z.to_nat off) data) (info_table ni).

(** The loop of [nmbm_try_load_info_table]: the address after the table, the
    first block that was read, and the bytes the cache has of it; [None]: the
    header is refused, or the blocks end first. *)
Fixpoint load_table (k : nat) (s : nstate) (ba remain : Z) (start : option Z) (acc : list Z)
    : option (Z * Z * list Z) * nstate :=
  if remain =? 0 then (Some (ba, default 0 start, acc), s)
  else
    match k with
    | O => (None, s)
    | S k =>
        let '(n, ni) := s in
        let chunksize := Z.min remain (blk_size g) in
        if negb (nmbm_get_block_state ni ba =? BLOCK_ST_GOOD) then load_table k s (ba + 1) remain start acc
        else if nmbm_check_bad_phys_block g n ba
        then load_table k (n, mark_bad ni ba) (ba + 1) remain start acc
        else
          let '(ret, data) := nmbn_read_data g p n (ba2addr g ba) chunksize in
          let ni := cache_read ni (info_table_size g - remain) data in
          if ret <? 0 then load_table k (n, mark_bad ni ba) (ba + 1) remain start acc
          else if 0 <? ret then (None, (n, ni))
          else
            match start with
            | None =>
                if nmbm_check_info_table_header g data
                then load_table k (n, ni) (ba + 1) (remain - chunksize) (Some ba) (acc ++ data)
                else (None, (n, ni))
            | Some _ => load_table k (n, ni) (ba + 1) (remain - chunksize) start (acc ++ data)
            end
    end.

Record found_table := mk_found {
  ft_start_ba : Z; ft_end_ba : Z; ft_write_count : Z; ft_top_ba : Z
}.

(** The copy into the instance when the table is the first or a newer one. *)
Definition adopt_table (ni : nmbm_instance) (data : list Z) : nmbm_instance :=
  let ni := set_cache ni (info_table_cache ni) (info_of data) in
  set_mapping (set_state ni (cached_state g data) (block_state_changed ni))
    (cached_mapping g data) (block_mapping_changed ni).

Definition nmbm_try_load_info_table (s : nstate) (ba : Z) (table_loaded : bool)
    : option found_table * nstate :=
  let '(r, s) := load_table (Z.to_nat (size2blk g (info_table_size g))) s ba (info_table_size g) None [] in
  match r with
  | None => (None, s)
  | Some (eba, start_ba, data) =>
      if negb (nmbm_check_header crc32_le data (info_table_size g)) then (None, s)
      else
        match nmbm_check_info_table g (snd s) start_ba eba data with
        | None => (None, s)
        | Some top =>
            let count := if_write_count (info_of data) in
            let ni := if negb table_loaded || (if_write_count (info_table (snd s)) <? count)
                      then adopt_table (snd s) data else snd s in
            (Some (mk_found ba eba count top), (fst s, ni))
        end
  end.

Fixpoint search_table (k : nat) (s : nstate) (ba : Z) (table_loaded : bool) : option found_table * nstate :=
  match k with
  | O => (None, s)
  | S k =>
      let '(r, s) := nmbm_try_load_info_table s ba table_loaded in
      match r with
      | Some _ => (r, s)
      | None => search_table k s (ba + 1) table_loaded
      end
  end.
Definition nmbm_search_info_table (s : nstate) (ba limit : Z) (table_loaded : bool)
    : option found_table * nstate :=
  search_table (Z.to_nat (u32 (limit - size2blk g (info_table_size g)) - ba)) s ba table_loaded.

(** The number of data blocks: up to the last one that is mapped. *)
Fixpoint last_mapped (k : nat) (map : list Z) (default_count : Z) : Z :=
  match k with
  | O => default_count
  | S k => if 0 <=? nth k map 0 then Z.of_nat (S k) else last_mapped k map default_count
  end.

(** The tables that were found, and the one whose mapping counts. *)
Definition found_layout (l : nmbm_layout) (main : found_table) (backup : option found_table)
    (map : list Z) : nmbm_layout :=
  let start := mgmt_start_ba l in
  let end_ba := ft_end_ba (default main backup) in
  let top := match backup with
             | Some b => if ft_write_count b <=? ft_write_count main then ft_top_ba main else ft_top_ba b
             | None => ft_top_ba main
             end in
  mk_layout (last_mapped (Z.to_nat (data_block_count l)) map (data_block_count l)) start
    (ft_start_ba main) (match backup with Some b => ft_start_ba b | None => 0 end) end_ba top (signature_ba l).

Definition nmbm_load_info_table (s : nstate) (ba limit : Z) : bool * nstate :=
  let s := (fst s, set_cache (snd s) (info_table_cache (snd s))
             (mk_info (if_header (info_table (snd s))) 0 (if_state_table_off (info_table (snd s)))
                (if_mapping_table_off (info_table (snd s))) (if_padding (info_table (snd s))))) in
  let s := with_lay s (fun l => mk_layout (sig_mgmt_start_pb (ni_signature (snd s))) (mgmt_start_ba l) 0 0
             (mapping_blocks_ba l) (u32 (signature_ba l - 1)) (signature_ba l)) in
  let '(main, s) := nmbm_search_info_table s ba limit false in
  match main with
  | None => (false, s)
  | Some main =>
      let '(backup, s) := nmbm_search_info_table s (ft_end_ba main) limit true in
      let s := with_lay s (fun l => found_layout l main backup (block_mapping (snd s))) in
      let s := (fst s, snd (nmbm_generate_info_table_cache crc32_le g (snd s))) in
      let '(success, s) :=
        match backup with
        | None => nmbm_rescue_single_info_table g p s
        | Some b =>
            if negb (ft_write_count main =? ft_write_count b) then
              nmbm_update_single_info_table g p
                (fst s, set_mapping (set_state (snd s) (block_state (snd s)) 1) (block_mapping (snd s)) 1)
                (ft_write_count main <? ft_write_count b)
            else (true, s)
        end in
      let l := lay (snd s) in
      (true, if (mapping_blocks_ba l =? mapping_blocks_top_ba l) || negb success
             then (fst s, set_protected (snd s)) else s)
  end.

Definition nmbm_load_existing (s : nstate) : bool * nstate :=
  let start := sig_mgmt_start_pb (ni_signature (snd s)) in
  let s := with_lay s (fun l => lay_mgmt l start) in
  let '(success, s) := nmbm_load_info_table s start (signature_ba (lay (snd s))) in
  if success then (true, s)
  else if negb (force_create p) then (false, s)
  else
    let s := nmbm_scan_badblocks s in
    nmbm_create_info_table (fst s, nmbm_build_mapping_table g (snd s)).

(** * Finding the signature *)

Definition signature_in_page (n : N) (addr : Z) : option nmbm_signature :=
  let '(ret, data) := nmbn_read_data g p n addr (Z.of_nat SIGNATURE_SIZE) in
  if negb (ret =? 0) then None
  else if negb (nmbm_check_header crc32_le data (Z.of_nat SIGNATURE_SIZE)) then None
  else if hd_magic (header_of data) =? NMBM_MAGIC_SIGNATURE then Some (signature_of data)
  else None.
Fixpoint signature_in_pages (n : N) (addr : Z) (offs : list Z) : option nmbm_signature :=
  match offs with
  | [] => None
  | off :: offs =>
      match signature_in_page n (addr + off) with
      | Some s => Some s
      | None => signature_in_pages n addr offs
      end
  end.

Definition find_limit : Z :=
  let limit := u32 (total_blks g / NMBM_MGMT_DIV * u32 (NMBM_MGMT_DIV - max_ratio p)) in
  if negb (max_reserved_blocks p =? 0) && (max_reserved_blocks p <? u32 (total_blks g - limit))
  then u32 (total_blks g - max_reserved_blocks p) else limit.

(** The loop of [nmbm_find_signature]: [ba] counts down, [k] rounds are left. *)
Fixpoint find_signature (k : nat) (n : N) (ba : Z) : option (nmbm_signature * Z) :=
  match k with
  | O => None
  | S k =>
      let ba := u32 (ba - 1) in
      if nmbm_check_bad_phys_block g n ba then find_signature k n ba
      else match signature_in_pages n (ba2addr g ba) (page_offsets g) with
           | Some s => Some (s, ba)
           | None => find_signature k n ba
           end
  end.
Definition nmbm_find_signature (n : N) : option (nmbm_signature * Z) :=
  find_signature (Z.to_nat (total_blks g - find_limit + 1)) n (total_blks g).

(** * Attaching *)

Definition nmbm_init_structure : nmbm_instance :=
  mk_nmbm (mk_sig (mk_header 0 0 0 0) 0 0 0 0 0 0) (replicate (Z.to_nat (info_table_size g)) 0)
    (mk_info (mk_header 0 0 0 0) 0 (state_table_off g) (mapping_table_off g) 0)
    (replicate (Z.to_nat (state_table_size g / 4)) (2 ^ 32 - 1)) 0
    (replicate (Z.to_nat (total_blks g)) 0) 0 false (mk_layout 0 0 0 0 0 0 0).

Definition ENODEV : Z := 19.
Definition EINVAL : Z := 22.

Definition signature_matches (s : nmbm_signature) : bool :=
  (sig_nand_size s =? chip_size) && (sig_block_size s =? blk_size g)
  && (sig_page_size s =? pg_size g) && (sig_spare_size s =? oobsize g).

Definition nmbm_attach (n : N) : Z * nstate :=
  let s := (n, nmbm_init_structure) in
  match nmbm_find_signature n with
  | None =>
      if negb (force_create p) then (- ENODEV, s)
      else let '(ok, s) := nmbm_create_new s in ((if ok then 0 else - ENODEV), s)
  | Some (sig, ba) =>
      let s := with_lay (fst s, set_signature (snd s) sig) (fun l => lay_signature l ba) in
      if negb (hd_version (sig_header sig) =? NMBM_VER) then (- EINVAL, s)
      else if negb (signature_matches sig) then (- EINVAL, s)
      else let '(ok, s) := nmbm_load_existing s in ((if ok then 0 else - ENODEV), s)
  end.

(** The scheme: what it keeps besides the chip. *)
#[local] Abbreviation bstate := (bmt_state N nmbm_instance).
Definition in_bmt (st : bstate) (s : nstate) : bstate := mk_bmt (fst s) (snd s) (st_idx st).

(** [mtk_bmt_init_nmbm]: the result, the state and the new size of the device. *)
Definition mtk_bmt_init_nmbm (n : N) : Z * option (nstate * Z) :=
  let '(ret, s) := nmbm_attach n in
  if ret =? 0 then (0, Some (s, u32 (Z.shiftl (data_block_count (lay (snd s))) (blk_shift g))))
  else (ret, None).

(** [mtk_bmt_debug_nmbm] with 0: the blocks that are mapped to spare ones. *)
Definition mtk_bmt_debug_nmbm (ni : nmbm_instance) : list (Z * Z) :=
  omap (fun i => let m := map_get ni i in
                 if u32 m <? mapping_blocks_ba (lay ni) then None else Some (i, m))
    (seqZ 1 (data_block_count (lay ni) - 1)).

Definition mtk_bmt_nmbm_ops : BmtOps N nmbm_instance := {|
  op_get st block := get_mapping_block_index_nmbm (st_tbl st) block;
  op_remap st block mapped copy_len :=
    let '(ok, s) := remap_block_nmbm crc32_le g p (st_chip st, st_tbl st) block mapped copy_len in
    (ok, in_bmt st s);
  op_unmap st block := in_bmt st (unmap_block_nmbm crc32_le g p (st_chip st, st_tbl st) block)
|}.
End nmbm.
#[export] Existing Instance mtk_bmt_nmbm_ops.
