(* ===== verification/NmbmSample.v ===== *)
(** mtk_bmt: a small chip on which the NMBM scheme can be run: 32 blocks of four
    pages, some of them worn out, and power for a number of operations. *)
From S2P Require Import Prelude CNum Bytes BmtFlash BmtCore NmbmTable NmbmCache NmbmFlash NmbmLocal NmbmUpdate NmbmAttach.
Open Scope Z_scope.
Open Scope list_scope.

Definition sample_geometry : geometry := mk_geometry 256 64 8 6 32 0 None 256 16 1.
Definition sample_params : nmbm_params := mk_params 4 0 true true 4.
(** Any sum that goes on byte by byte will do. *)
Definition sample_crc (c : Z) (l : list Z) : Z := fold_left (fun c b => u32 (31 * c + b + 7)) l c.
#[export] Instance sample_crc_ok : Crc32 sample_crc.
Proof.
  split.
  - intros c a b. unfold sample_crc. by rewrite fold_left_app.
  - intros c l. revert c. induction l as [|b l IH]; intros c Hc; [done|]. apply IH, u32_range.
Qed.
Lemma sample_geometry_ok : nmbm_geometry sample_geometry.
Proof. by repeat split. Qed.

(** The pages, the blocks with a mark, the operations until the power goes. *)
Record sim := mk_sim { sim_page : Z -> list Z; sim_bad : list Z; sim_power : nat }.
Definition sim_block (a : Z) : Z := a / 256.

Section sim.
(** Blocks that cannot be erased. *)
Variable worn : list Z.

(** The operation that is under way when the power goes leaves [torn]. *)
Definition sim_step (n : sim) (done torn : Z -> list Z) (ok : bool) : bool * sim :=
  match sim_power n with
  | O => (false, n)
  | S O => (false, mk_sim torn (sim_bad n) 0)
  | S k => if ok then (true, mk_sim done (sim_bad n) k) else (false, mk_sim (sim_page n) (sim_bad n) k)
  end.
Definition set_page (n : sim) (a : Z) (d : list Z) (a' : Z) : list Z := if a' =? a then d else sim_page n a'.
Definition set_block (n : sim) (b : Z) (d : list Z) (a' : Z) : list Z :=
  if sim_block a' =? b then d else sim_page n a'.
Definition sim_ret (ok : bool) : Z := if ok then 0 else - EIO.

Definition sim_chip : NandChip sim := {|
  chip_read n a len _ _ := mk_read 0 len 0 (sim_page n a) [];
  chip_write n a data _ _ :=
    let '(ok, n) := sim_step n (set_page n a data) (set_page n a []) true in
    (sim_ret ok, Z.of_nat (length data), 0, n);
  chip_erase n a _ :=
    let b := sim_block a in
    let '(ok, n) := sim_step n (set_block n b (replicate 64 255)) (set_block n b [])
                      (negb (existsb (Z.eqb b) worn)) in
    (sim_ret ok, n);
  chip_isbad n a := if existsb (Z.eqb (sim_block a)) (sim_bad n) then 1 else 0;
  chip_markbad n a :=
    match sim_power n with
    | O => (- EIO, n)
    | S k => (0, mk_sim (sim_page n) (sim_block a :: sim_bad n) k)
    end
|}.

Lemma sim_addr b : sim_block (ba2addr sample_geometry b) = b.
Proof.
  unfold sim_block, ba2addr. cbn [blk_shift sample_geometry]. rewrite Z.shiftl_mul_pow2 by lia.
  apply Z.div_mul. lia.
Qed.
Lemma sim_step_bad n done torn ok : sim_bad (snd (sim_step n done torn ok)) = sim_bad n.
Proof. unfold sim_step. destruct (sim_power n) as [|[|k]]; try done. by destruct ok. Qed.
Lemma sim_step_page n done torn ok a :
  done a = sim_page n a -> torn a = sim_page n a ->
  sim_page (snd (sim_step n done torn ok)) a = sim_page n a.
Proof. unfold sim_step. intros H1 H2. destruct (sim_power n) as [|[|k]]; try done. by destruct ok. Qed.

#[local] Existing Instance sim_chip.
#[export] Instance sim_local : LocalChip sample_geometry.
Proof.
  assert (forall a b, a / blk_size sample_geometry <> b -> (sim_block a =? b) = false) as Hb
    by (intros a b Hne; apply Z.eqb_neq; exact Hne).
  split; unfold page; cbn [chip_write chip_erase chip_isbad chip_markbad chip_read sim_chip].
  - intros n a data a' _ _ Hne. destruct (sim_step _ _ _ _) as [ok n'] eqn:E. cbn [snd].
    replace n' with (snd (sim_step n (set_page n a data) (set_page n a []) true)) by by rewrite E.
    rewrite sim_step_page; [done| |]; unfold set_page; by apply Z.eqb_neq in Hne as ->.
  - intros n b a' _ Hne. rewrite sim_addr. destruct (sim_step _ _ _ _) as [ok n'] eqn:E. cbn [snd].
    replace n' with (snd (sim_step n (set_block n b (replicate 64 255)) (set_block n b [])
      (negb (existsb (Z.eqb b) worn)))) by by rewrite E.
    rewrite sim_step_page; [done| |]; unfold set_block; by rewrite (Hb _ _ Hne).
  - intros n b a' _ _. by destruct (sim_power n).
  - intros n a data a'. destruct (sim_step _ _ _ _) as [ok n'] eqn:E. cbn [snd].
    replace n' with (snd (sim_step n (set_page n a data) (set_page n a []) true)) by by rewrite E.
    by rewrite sim_step_bad.
  - intros n b b' _. rewrite !sim_addr. destruct (sim_step _ _ _ _) as [ok n'] eqn:E. cbn [snd].
    replace n' with (snd (sim_step n (set_block n b (replicate 64 255)) (set_block n b [])
      (negb (existsb (Z.eqb b) worn)))) by by rewrite E.
    by rewrite sim_step_bad.
  - intros n b H0 _. rewrite !sim_addr in *. destruct (sim_step _ _ _ _) as [ok n'] eqn:E. cbn [snd].
    replace n' with (snd (sim_step n (set_block n b (replicate 64 255)) (set_block n b [])
      (negb (existsb (Z.eqb b) worn)))) by by rewrite E.
    by rewrite sim_step_bad.
  - intros n b b' Hne. rewrite !sim_addr. destruct (sim_power n); [done|]. cbn [snd sim_bad existsb].
    by apply Z.eqb_neq in Hne as ->.
Qed.
End sim.

(** An erased chip, and what attaching to it gives. *)
Definition fresh (power : nat) : sim := mk_sim (fun _ => replicate 64 255) [] power.
Definition sample_attach (worn : list Z) (n : sim) : Z * (sim * nmbm_instance) :=
  nmbm_attach (H := sim_chip worn) sample_crc sample_geometry sample_params n.
Definition sample_ni : nmbm_instance := Eval vm_compute in snd (snd (sample_attach [] (fresh 1000))).
Example sample_attached : fst (sample_attach [] (fresh 1000)) = 0 /\
  lay sample_ni = mk_layout 24 24 24 27 28 30 31.
Proof. by vm_compute. Qed.

(** The chip then, with power for some operations more, and a block that has gone bad. *)
Definition sample_chip (power : nat) : sim :=
  let n := fst (snd (sample_attach [] (fresh 1000))) in mk_sim (sim_page n) (sim_bad n) power.
Definition sample_state (power : nat) : sim * nmbm_instance := (sample_chip power, mark_bad sample_ni 3).
