(* ===== verification/NmbmKeep.v ===== *)
(** mtk_bmt: what an update of the NMBM info tables leaves on the chip. An update
    that succeeds leaves the whole new table at the addresses of the layout; one
    that succeeds or fails only touches the blocks between the start of the
    management area and the first mapped spare block. *)
From S2P Require Import Prelude CNum Bytes BmtFlash BmtCore NmbmTable NmbmCache NmbmFlash NmbmLocal NmbmMgmt NmbmUpdate.
Open Scope Z_scope.
Open Scope list_scope.

Section keep.
Context {N : Type} `{NandChip N}.
Variable crc32_le : Z -> list Z -> Z.
Variable g : geometry.
Variable p : nmbm_params.
Context {Hloc : LocalChip g}.
Hypothesis Hg : nmbm_geometry g.

#[local] Abbreviation nstate := (N * nmbm_instance)%type.
#[local] Abbreviation top s := (mapping_blocks_top_ba (lay (snd s))).
#[local] Abbreviation mgmt s := (mgmt_start_ba (lay (snd s))).
#[local] Abbreviation mapping s := (mapping_blocks_ba (lay (snd s))).
#[local] Abbreviation main s := (main_table_ba (lay (snd s))).
#[local] Abbreviation backup s := (backup_table_ba (lay (snd s))).
#[local] Abbreviation cache s := (info_table_cache (snd s)).

(** * What may change outside a range, when the layout may change too *)

Record evolves (lo hi : Z) (s s' : nstate) : Prop := {
  ev_chip : keeps_blocks g (fun b => b < lo \/ hi <= b) (fst s) (fst s');
  ev_state : forall b, 0 <= b -> b < lo \/ hi <= b ->
    nmbm_get_block_state (snd s') b = nmbm_get_block_state (snd s) b;
  ev_good : forall b, 0 <= b -> nmbm_get_block_state (snd s') b = BLOCK_ST_GOOD ->
    nmbm_get_block_state (snd s) b = BLOCK_ST_GOOD;
  ev_cache : cache s' = cache s;
  ev_mapping : block_mapping (snd s') = block_mapping (snd s);
  ev_wf : tables_wf g (snd s) -> tables_wf g (snd s');
  ev_mgmt : mgmt s' = mgmt s;
  ev_top : top s' = top s
}.
#[export] Instance evolves_preorder lo hi : PreOrder (evolves lo hi).
Proof.
  split; [intros s; by split|]. intros a b c [] []. split; try congruence; [by etrans| |auto|auto].
  intros x H0 Hx. rewrite ev_state1, ev_state0; done.
Qed.
Lemma evolves_weaken lo hi lo' hi' s s' :
  lo' <= lo -> hi <= hi' -> evolves lo hi s s' -> evolves lo' hi' s s'.
Proof.
  intros Hl Hh []. split; try done.
  - eapply keeps_blocks_weaken; [|done]. cbn. lia.
  - intros b H0 Hb. apply ev_state0; lia.
Qed.
Lemma evolves_touches lo hi s s' : touches g lo hi s s' -> evolves lo hi s s'.
Proof.
  intros [A1 A2 A3]. pose proof (marked_wf g _ _ A1).
  pose proof (fun b => marked_good _ _ b A1). apply marked_frame in A1 as [].
  split; try done; by rewrite sb_lay.
Qed.
Lemma evolves_tables lo hi s a b c : evolves lo hi s (with_tables s a b c).
Proof. split; try done. intros []. by split. Qed.
Lemma evolves_clean lo hi s : evolves lo hi s (clean s).
Proof. split; try done. intros []. by split. Qed.
Lemma evolves_protected lo hi s : evolves lo hi s (fst s, set_protected (snd s)).
Proof. split; try done. intros []. by split. Qed.

(** A table outside the range stays. *)
Lemma stored_evolves lo hi s s' bl st en data :
  0 <= st -> en <= lo \/ hi <= st -> evolves lo hi s s' ->
  stored_range g p s bl st en data -> stored_range g p s' bl st en data.
Proof.
  intros H0 Hd [A1 A2 _ _ _ _]. apply (stored_range_keep g p Hg (fun b => b < lo \/ hi <= b)); [exact A1|].
  intros b Hb. split; [lia|]. apply A2; lia.
Qed.

(** ** Searching for spare blocks *)

Lemma reserve_loop_ge k ni ba nblocks limit r :
  reserve_loop g k ni ba nblocks limit = Some r -> ba <= r.
Proof.
  revert nblocks. induction k as [|k IH]; intros nblocks; cbn [reserve_loop]; [done|].
  destruct (nmbm_block_walk g true ni ba nblocks limit) eqn:E; [|apply IH].
  intros [= <-]. unfold nmbm_block_walk, nmbm_block_walk_asc in E.
  revert E. generalize (to_i32 (u32 nblocks)). generalize (Z.to_nat (walk_limit g (u32 limit) - ba)).
  clear. intros k. revert ba. induction k as [|k IH]; intros ba nb; cbn [walk_asc]; [done|]. cbv zeta.
  case_if; [intros [= ->]; lia|]. intros Hw. apply IH in Hw. lia.
Qed.
Lemma reserve_ge ni ba r : reserve g ni ba = Some r -> ba <= r.
Proof. apply reserve_loop_ge. Qed.

(** ** Writing a table *)

(** The whole table is stored from [st] on, up to [en]. *)
Definition table_in (s : nstate) (st en : Z) (data : list Z) : Prop :=
  st < en /\ exists bl, stored_range g p s bl st en data.
Lemma table_in_same s s' st en data :
  fst s' = fst s -> block_state (snd s') = block_state (snd s) -> table_in s st en data -> table_in s' st en data.
Proof.
  destruct s as [n ni], s' as [n' ni']. cbn. intros -> E [H1 [bl [S1 S2 S3 S4]]]. split; [done|]. exists bl.
  split; try done. cbn in *. unfold nmbm_get_block_state in *. by rewrite E.
Qed.
Lemma table_in_tables s a b c st en data : table_in s st en data -> table_in (with_tables s a b c) st en data.
Proof. by apply table_in_same. Qed.
Lemma table_in_evolves lo hi s s' st en data :
  0 <= st -> en <= lo \/ hi <= st -> evolves lo hi s s' -> table_in s st en data -> table_in s' st en data.
Proof. intros H0 Hd He [H1 [bl H2]]. split; [done|]. exists bl. by eapply stored_evolves. Qed.

Lemma write_table_spec s ba limit r s' :
  0 <= ba -> nmbm_write_info_table g p s ba limit = (r, s') ->
  evolves ba limit s s' /\ lay (snd s') = lay (snd s) /\
  forall st en, r = Some (st, en) -> ba <= st /\ en <= limit /\ table_in s' st en (cache s).
Proof.
  intros H0 Hw. destruct (write_range_wrote g p Hg s ba limit (cache s) H0) as [W1 W2].
  unfold nmbm_write_info_table in Hw. rewrite Hw in W1, W2. cbn [fst snd] in W1, W2.
  split; [by apply evolves_touches|]. split; [apply (sb_lay _ _ (marked_frame _ _ (tc_marked _ _ _ _ _ W1)))|].
  intros st en Hr. destruct (W2 st en Hr) as (V1 & V2 & V3). split; [lia|]. split; [lia|]. by split; [lia|].
Qed.
Lemma write_down_spec k s write_ba lo r s' :
  0 <= lo -> lo <= write_ba - Z.of_nat k + 1 -> write_down g p k s write_ba = (r, s') ->
  evolves lo (top s) s s' /\ lay (snd s') = lay (snd s) /\
  forall st en, r = Some (st, en) -> lo <= st /\ en <= top s /\ table_in s' st en (cache s).
Proof.
  revert s write_ba. induction k as [|k IH]; intros s write_ba H0 Hlo; cbn [write_down].
  { intros [= <- <-]. done. }
  destruct (nmbm_write_info_table _ _ _ _ _) as [r1 s1] eqn:Ew.
  apply write_table_spec in Ew as (E1 & E2 & E3); [|lia].
  assert (evolves lo (top s) s s1) as E1' by (eapply evolves_weaken, E1; lia).
  destruct r1 as [[st1 en1]|].
  - intros [= <- <-]. split; [done|]. split; [done|]. intros st en Hr.
    destruct (E3 st en Hr) as (? & ? & ?). split; [lia|done].
  - intros Hw. apply IH in Hw as (I1 & I2 & I3); [|done|lia].
    rewrite E2 in I1, I3. rewrite (ev_cache _ _ _ _ E1) in I3. split; [by etrans|]. split; [congruence|done].
Qed.

(** * The contract of an update *)

(** Both tables hold the data: the main one, and the backup if there is one. *)
Record placed (s : nstate) (data : list Z) : Prop := {
  pl_main : exists en, table_in s (main s) en data /\ en <= mapping s /\ (backup s = 0 \/ en <= backup s);
  pl_backup : backup s = 0 \/ exists en, table_in s (backup s) en data /\ en <= mapping s;
  pl_order : mgmt s <= main s /\ mapping s <= top s
}.
(** What a step from [s] gives: the tables, or protection and no table. *)
Record concludes (s : nstate) (r : bool * nstate) : Prop := {
  st_evolves : evolves (mgmt s) (top s) s (snd r);
  st_done : if fst r then placed (snd r) (cache s)
    else protected (snd (snd r)) = true /\ main (snd r) = 0 /\ backup (snd r) = 0
}.

(** The step that ends a path: the tables are where the layout says. *)
Lemma placed_tables s a en b m data :
  table_in s a en data -> en <= m -> mgmt s <= a -> m <= top s ->
  b = 0 \/ (en <= b /\ exists en', table_in s b en' data /\ en' <= m) ->
  placed (with_tables s a b m) data.
Proof.
  intros Hm He Ha Ht Hb. split; cbn; [|destruct Hb as [->|(? & en' & Hb & ?)]; [by left|right]|done].
  - exists en. split; [by apply table_in_tables|]. split; [done|]. destruct Hb as [->|[? _]]; [by left|by right].
  - exists en'. split; [by apply table_in_tables|done].
Qed.
Lemma placed_same s s' data :
  fst s' = fst s -> block_state (snd s') = block_state (snd s) -> lay (snd s') = lay (snd s) ->
  placed s data -> placed s' data.
Proof.
  intros E1 E2 E3 [H1 H2 H3]. split; rewrite E3; [| |done].
  - destruct H1 as (en & H1 & ?). exists en. split; [by apply (table_in_same s)|done].
  - destruct H2 as [?|(en & H2 & ?)]; [by left|right]. exists en. split; [by apply (table_in_same s)|done].
Qed.
Lemma placed_clean s data : placed s data -> placed (clean s) data.
Proof. by apply placed_same. Qed.


(** A second table after the main one, and the blocks between erased: what
    rebuilding and rescuing end with. *)
Lemma second_table s a en b en' data :
  0 < mgmt s -> mgmt s <= a -> en <= b -> en' <= top s -> a < en ->
  table_in s a en data -> table_in s b en' data ->
  let s' := nmbm_erase_range g p (with_tables s a b en') en b in
  evolves (mgmt s) (top s) s s' /\ placed s' data.
Proof.
  intros Hm Ha Hb Ht Hl Ta Tb. cbv zeta. pose proof Tb as [Hb' _].
  pose proof (erase_range_in g p (with_tables s a b en') en b ltac:(lia)) as He.
  pose proof (evolves_touches _ _ _ _ He) as Hv. destruct He as [Hk _ _]. apply marked_frame, sb_lay in Hk.
  assert (evolves (mgmt s) (top s) s (nmbm_erase_range g p (with_tables s a b en') en b)) as He
    by (etrans; [apply (evolves_tables _ _ _ a b en')|eapply evolves_weaken, Hv; lia]).
  split; [done|]. apply (table_in_tables s a b en') in Ta, Tb. split; rewrite Hk; cbn.
  - exists en. split; [|lia]. by eapply (table_in_evolves en b (with_tables s a b en')); [lia|lia|..].
  - right. exists en'. split; [|lia]. by eapply (table_in_evolves en b (with_tables s a b en')); [lia|lia|..].
  - lia.
Qed.

Lemma rebuild_backup_spec s a en :
  0 < mgmt s -> main s = a -> backup s = 0 -> mapping s = en ->
  mgmt s <= a -> en <= top s -> table_in s a en (cache s) ->
  let s' := rebuild_backup g p s a en in evolves (mgmt s) (top s) s s' /\ placed s' (cache s).
Proof.
  intros Hm Em Eb Ep Ha He Ta. cbv zeta. pose proof Ta as [Hlt _].
  assert (placed s (cache s)) as HP
    by (split; [exists en; split_and!; [by rewrite Em|lia|by left]|by left|lia]).
  unfold rebuild_backup. destruct (reserve _ _ _) as [nx|] eqn:Er; [|done]. apply reserve_ge in Er.
  destruct (nmbm_write_info_table _ _ _ _ _) as [r s1] eqn:Ew.
  apply write_table_spec in Ew as (V1 & L1 & T1); [|lia].
  assert (table_in s1 a en (cache s)) as Ta1 by (by eapply (table_in_evolves nx (top s) s); [lia|lia|..]).
  assert (evolves (mgmt s) (top s) s s1) as V2 by (eapply evolves_weaken, V1; lia).
  destruct r as [[b en']|].
  - destruct (T1 b en' eq_refl) as (B1 & B2 & B3).
    destruct (second_table s1 a en b en' (cache s)) as [Q1 Q2]; try done; rewrite ?L1; try lia.
    rewrite L1 in Q1. split; [by etrans|done].
  - split; [done|]. split; rewrite L1; [|by left|lia]. exists en. rewrite Em. split; [done|]. split; [lia|by left].
Qed.

Lemma rebuild_concludes s : 0 < mgmt s -> concludes s (nmbm_rebuild_info_table g p s).
Proof.
  intros Hm. unfold nmbm_rebuild_info_table. cbv zeta.
  destruct (nmbm_write_info_table _ _ _ _ _) as [r s1] eqn:E1.
  apply write_table_spec in E1 as (E1 & L1 & T1); [|lia].
  assert (evolves (mgmt s) (top s) s s1) as V1 by (etrans; [apply evolves_tables|exact E1]).
  destruct r as [[a en]|]; [|split; [by etrans; [|apply evolves_protected]|by cbn; rewrite L1]].
  destruct (T1 a en eq_refl) as (A1 & A2 & A3). cbn in A3.
  set (s2 := clean (with_tables s1 a 0 en)).
  assert (evolves (mgmt s) (top s) s s2) as V2
    by (etrans; [exact V1|]; etrans; [apply evolves_tables|apply evolves_clean]).
  destruct (rebuild_backup_spec s2 a en) as [Q1 Q2]; try done; rewrite ?(ev_mgmt _ _ _ _ V2), ?(ev_top _ _ _ _ V2);
    try lia.
  { rewrite (ev_cache _ _ _ _ V2). by apply (table_in_same s1). }
  rewrite (ev_mgmt _ _ _ _ V2), (ev_top _ _ _ _ V2), (ev_cache _ _ _ _ V2) in *.
  split; [by etrans|done].
Qed.

(** ** Rescuing the main table: the new table is in the backup already *)

Lemma backup_is_main s a m data :
  mgmt s <= a -> m <= top s -> table_in s a m data -> placed (with_tables s a 0 m) data.
Proof. intros Ha Hm Ht. apply placed_tables with m; try done; by left. Qed.

Lemma rescue_main_concludes s :
  0 < mgmt s -> mgmt s <= backup s -> mapping s <= top s ->
  table_in s (backup s) (mapping s) (cache s) -> concludes s (nmbm_rescue_main_info_table g p s).
Proof.
  intros Hm Hb Ht Tb. pose proof Tb as [Hlt _]. unfold nmbm_rescue_main_info_table. cbv zeta.
  destruct (reserve _ _ _) as [wb|] eqn:Er.
  2: { split; [apply evolves_tables|by apply backup_is_main]. }
  apply reserve_ge in Er. destruct (write_table_down _ _ _ _) as [r s1] eqn:Ed.
  unfold write_table_down in Ed. apply write_down_spec with (lo := mapping s) in Ed as (V1 & L1 & T1); [|lia|lia].
  assert (evolves (mgmt s) (top s) s s1) as W1 by (eapply evolves_weaken, V1; lia).
  destruct r as [[ta te]|].
  2: { split; cbn [fst snd]; [by etrans; [exact W1|apply evolves_tables]|]. apply backup_is_main; rewrite ?L1; try done.
       by eapply (table_in_evolves (mapping s) (top s) s); [lia|lia|..]. }
  destruct (T1 ta te eq_refl) as (A1 & A2 & A3). pose proof A3 as [A4 _].
  destruct (nmbm_write_info_table _ _ _ _ _) as [r2 s2] eqn:E2.
  apply write_table_spec in E2 as (V2 & L2 & T2); [|lia].
  assert (evolves (mgmt s) (top s) s1 s2) as W2 by (eapply evolves_weaken, V2; lia).
  assert (table_in s2 ta te (cache s)) as B3 by (by eapply (table_in_evolves (mgmt s) ta s1); [lia|lia|..]).
  rewrite (ev_cache _ _ _ _ V1) in T2. rewrite L1 in L2.
  destruct r2 as [[a en]|].
  - destruct (T2 a en eq_refl) as (C1 & C2 & C3). destruct (Z.leb_spec en ta); [|lia]. split; cbn [fst snd].
    + etrans; [exact W1|]. etrans; [exact W2|]. etrans; [apply (evolves_tables _ _ _ a (backup s) te)|].
      etrans; [apply evolves_clean|apply evolves_tables].
    + apply placed_tables with en; cbn; rewrite ?L2; try lia.
      * by apply (table_in_same s2).
      * right. split; [lia|]. exists te. split; [by apply (table_in_same s2)|lia].
  - split; cbn [fst snd].
    + etrans; [exact W1|]. etrans; [exact W2|]. etrans; [apply (evolves_tables _ _ _ ta 0 te)|apply evolves_clean].
    + apply placed_clean, backup_is_main; rewrite ?L2; done || lia.
Qed.

(** ** Both tables *)

Lemma concludes_after s s1 r :
  evolves (mgmt s) (top s) s s1 -> concludes s1 r -> concludes s r.
Proof.
  intros V [S1 S2]. rewrite (ev_mgmt _ _ _ _ V), (ev_top _ _ _ _ V) in S1.
  rewrite (ev_cache _ _ _ _ V) in S2. split; [by etrans|done].
Qed.

Lemma write_main_concludes s limit :
  0 < mgmt s -> main s = 0 \/ mgmt s <= main s ->
  (backup s = 0 /\ limit = top s) \/
  (backup s <> 0 /\ limit = backup s /\ mgmt s <= backup s /\ mapping s <= top s /\
   table_in s (backup s) (mapping s) (cache s)) ->
  concludes s (write_main_table g p s limit).
Proof.
  intros Hm Ha Hb. unfold write_main_table. cbv zeta.
  destruct (Z.eqb_spec (main s) 0) as [|Hne]; [by apply rebuild_concludes|].
  destruct (nmbm_write_info_table _ _ _ _ _) as [r s1] eqn:Ew.
  apply write_table_spec in Ew as (V1 & L1 & T1); [|lia].
  assert (limit <= top s) as Hlim by (destruct Hb as [[_ ->]|(_ & -> & _ & ? & [? _])]; lia).
  assert (evolves (mgmt s) (top s) s s1) as W1 by (eapply evolves_weaken, V1; lia).
  assert (backup s <> 0 -> table_in s1 (backup s) (mapping s) (cache s)) as Tb.
  { intros Hn. destruct Hb as [[? _]|(_ & -> & ? & ? & ?)]; [done|].
    by eapply (table_in_evolves (main s) (backup s) s); [lia|lia|..]. }
  destruct r as [[a en]|].
  - destruct (T1 a en eq_refl) as (A1 & A2 & A3). pose proof A3 as [A4 _]. split; cbn [fst snd].
    + etrans; [exact W1|]. etrans; [apply evolves_tables|apply evolves_clean].
    + apply placed_clean. destruct (Z.eqb_spec (backup s) 0) as [Eb|Eb].
      * apply placed_tables with en; rewrite ?L1; try done; lia.
      * destruct Hb as [[? _]|(_ & -> & ? & ? & [? _])]; [done|].
        apply placed_tables with en; rewrite ?L1; try done; try lia.
        right. split; [lia|]. exists (mapping s). split; [by apply Tb|lia].
  - destruct (Z.eqb_spec (backup s) 0) as [Eb|Eb]; apply (concludes_after s s1); try done.
    + apply rebuild_concludes. by rewrite L1.
    + destruct Hb as [[? _]|(_ & -> & ? & ? & ?)]; [done|].
      apply rescue_main_concludes; rewrite ?L1; try done. rewrite (ev_cache _ _ _ _ W1). by apply Tb.
Qed.

(** The layout of an instance that is attached. *)
Record layout_ok (s : nstate) : Prop := {
  lo_mgmt : 0 < mgmt s;
  lo_main : main s = 0 \/ mgmt s <= main s;
  lo_backup : backup s = 0 \/ mgmt s <= backup s
}.
Lemma placed_layout s data : 0 < mgmt s -> placed s data -> layout_ok s.
Proof.
  intros Hm [(en & [H1 _] & H2 & H3) H4 H5]. split; [done|right; lia|].
  destruct H3 as [?|H3]; [by left|right; lia].
Qed.

Definition generated (s : nstate) : nstate := (fst s, snd (nmbm_generate_info_table_cache crc32_le g (snd s))).
Definition pending (s : nstate) : bool :=
  negb (block_state_changed (snd s) =? 0) || negb (block_mapping_changed (snd s) =? 0).

Lemma once_concludes s force :
  layout_ok s -> pending s || force = true ->
  concludes (generated s) (nmbm_update_info_table_once crc32_le g p s force).
Proof.
  intros [L1 L2 L3] Hp. unfold nmbm_update_info_table_once, generated. rewrite generate_eq. cbn [fst snd].
  cbv zeta. fold (pending s). rewrite <- negb_orb, Hp. cbn [negb].
  set (ni1 := set_cache _ _ _). set (s1 := (fst s, ni1)). change (lay ni1) with (lay (snd s1)).
  change (lay (snd s)) with (lay (snd s1)) in *.
  destruct (Z.eqb_spec (backup s1) 0) as [Eb|Eb]; [apply write_main_concludes; try done; by left|].
  destruct L3 as [?|L3]; [done|].
  destruct (nmbm_write_info_table _ _ _ _ _) as [r s2] eqn:Ew.
  apply write_table_spec in Ew as (V1 & E1 & T1); [|lia].
  assert (evolves (mgmt s1) (top s1) s1 s2) as W1 by (eapply evolves_weaken, V1; lia).
  destruct r as [[a en]|].
  - destruct (T1 a en eq_refl) as (A1 & A2 & A3). pose proof A3 as [A4 _].
    assert (evolves (mgmt s1) (top s1) s1 (clean (with_tables s2 (main s1) a en))) as W2
      by (etrans; [exact W1|]; etrans; [apply evolves_tables|apply evolves_clean]).
    apply (concludes_after s1 _ _ W2).
    apply write_main_concludes; cbn; rewrite ?E1; try done. right. split_and!; try done; try lia.
    rewrite (ev_cache _ _ _ _ V1). by apply (table_in_same s2).
  - assert (evolves (mgmt s1) (top s1) s1 (with_tables s2 (main s1) 0 (backup s1))) as W2
      by (etrans; [exact W1|apply evolves_tables]).
    apply (concludes_after s1 _ _ W2).
    apply write_main_concludes; cbn; rewrite ?E1; try done. by left.
Qed.
End keep.
