(* ===== verification/NmbmRounds.v ===== *)
(** mtk_bmt: the loop of [nmbm_update_info_table]. A round that succeeds leaves
    the counters at the blocks that went bad after its tables were written, so a
    further round means one good block less: the loop ends ([update_terminates]),
    whatever the chip does. When the chip keeps to its blocks, what the loop
    leaves are the tables of the mapping ([update_saves]). *)
From S2P Require Import Prelude CNum Bytes BmtFlash BmtCore NmbmTable NmbmCache NmbmFlash NmbmLocal NmbmMgmt NmbmUpdate NmbmAttach NmbmSample NmbmKeep.
Open Scope Z_scope.
Open Scope list_scope.

(** * Marking blocks, for any block number *)

(** A negative number is a block of the first word. *)
Lemma negative_block ni ba : ba < 0 ->
  nmbm_get_block_state ni ba = nmbm_get_block_state ni (ba mod 16) /\ mark_bad ni ba = mark_bad ni (ba mod 16).
Proof.
  intros Hb. pose proof (Z.mod_pos_bound ba 16 ltac:(lia)).
  assert (Z.to_nat (ba / 16) = Z.to_nat (ba mod 16 / 16)) as E.
  { rewrite (Z.div_small (ba mod 16)) by lia. assert (ba / 16 < 0) by (apply Z.div_lt_upper_bound; lia). lia. }
  unfold mark_bad, nmbm_set_block_state, nmbm_get_block_state, nmbm_get_block_state_raw.
  unfold NMBM_BITMAP_BLOCKS_PER_UNIT. cbv zeta. by rewrite E, Zmod_mod.
Qed.
Lemma marked_any ni ba : nmbm_get_block_state ni ba = BLOCK_ST_GOOD -> marked ni (mark_bad ni ba).
Proof.
  intros Hgood. destruct (Z.lt_ge_cases ba 0) as [Hn|Hp]; [|by apply marked_one].
  destruct (negative_block ni ba Hn) as [E1 E2]. rewrite E1 in Hgood. rewrite E2.
  apply marked_one; [apply Z.mod_pos_bound; lia|done].
Qed.
Lemma marked_good_count ni ni' : marked ni ni' -> good_count ni' <= good_count ni.
Proof.
  induction 1 as [|ni ba ni' H0 Hg _ IH]; [lia|]. destruct (mark_bad_count ni ba H0 Hg). lia.
Qed.

(** * Ages: good blocks are lost, and the counters say how many *)

(** The blocks lost since the counters were cleared, and those that are good,
    are at most [G]. *)
Definition budget (G : Z) (ni : nmbm_instance) : Prop :=
  0 <= block_state_changed ni < 2 ^ 32 /\ block_mapping_changed ni = 0 /\
  good_count ni + block_state_changed ni <= G.
Record ages (ni ni' : nmbm_instance) : Prop := {
  ag_good : good_count ni' <= good_count ni;
  ag_budget : forall G, budget G ni -> budget G ni';
  ag_length : length (block_state ni') = length (block_state ni)
}.
#[export] Instance ages_preorder : PreOrder ages.
Proof. split; [by split; [lia|..]|]. intros a b c [] []. split; [lia|auto|congruence]. Qed.

Lemma marked_ages ni ni' : marked ni ni' -> ages ni ni'.
Proof.
  intros Hm. pose proof (marked_frame _ _ Hm) as [L _ Mc _ _ _ _ _]. split; [by apply marked_good_count| |done].
  intros G (B1 & B2 & B3). destruct (marked_count ni ni' Hm B1) as [C1 C2].
  assert (u32 (block_state_changed ni + (good_count ni - good_count ni')) <=
          block_state_changed ni + (good_count ni - good_count ni')) by (apply Z.mod_le; lia).
  pose proof (u32_range (block_state_changed ni + (good_count ni - good_count ni'))).
  unfold budget. rewrite C2, Mc. lia.
Qed.
Lemma lay_ages ni l : ages ni (set_lay ni l).
Proof. split; [exact (Z.le_refl (good_count ni))|by intros G HG|done]. Qed.
Lemma protected_ages ni : ages ni (set_protected ni).
Proof. split; [exact (Z.le_refl (good_count ni))|by intros G HG|done]. Qed.
Lemma clean_budget ni : budget (good_count ni) (nmbm_mark_tables_clean ni).
Proof.
  unfold budget. cbn [nmbm_mark_tables_clean set_mapping set_state block_state_changed block_mapping_changed].
  split; [lia|]. split; [done|]. rewrite Z.add_0_r. exact (Z.le_refl (good_count ni)).
Qed.
Lemma clean_ages ni : ages ni (nmbm_mark_tables_clean ni).
Proof.
  split; [exact (Z.le_refl (good_count ni))| |done].
  intros G (B1 & B2 & B3). destruct (clean_budget ni) as (C1 & C2 & C3). split; [done|]. split; [done|]. lia.
Qed.
#[export] Hint Resolve lay_ages protected_ages clean_ages marked_ages : neon.

Section rounds.
Context {N : Type} `{NandChip N}.
Variable crc32_le : Z -> list Z -> Z.
Variable g : geometry.
Variable p : nmbm_params.

#[local] Abbreviation nstate := (N * nmbm_instance)%type.
#[local] Abbreviation ages s s' := (ages (snd s) (snd s')).

(** ** The loops over blocks *)

Lemma erase_range_marked k s ba : marked (snd s) (snd (erase_range g p k s ba)).
Proof.
  revert s ba. induction k as [|k IH]; intros [n ni] ba; [done|]. cbn [erase_range].
  destruct (Z.eqb_spec (nmbm_get_block_state ni ba) BLOCK_ST_GOOD) as [Hs|Hs]; cbn [negb]; [|apply IH].
  pose proof (marked_any ni ba Hs) as Hm.
  case_if; [by etrans; [|apply IH]|]. destruct (nmbm_erase_block_and_check _ _ _ _) as [ok n1].
  destruct ok; [exact (IH (n1, ni) _)|by etrans; [|apply IH]].
Qed.
Lemma write_mgmt_marked k s ba data start : marked (snd s) (snd (snd (write_mgmt g p k s ba data start))).
Proof.
  revert s ba data start. induction k as [|k IH]; intros [n ni] ba data start; cbn [write_mgmt]; [by case_if|].
  case_if; [done|]. cbv zeta.
  destruct (Z.eqb_spec (nmbm_get_block_state ni ba) BLOCK_ST_GOOD) as [Hs|Hs]; cbn [negb]; [|apply IH].
  pose proof (marked_any ni ba Hs) as Hm.
  case_if; [by etrans; [|apply IH]|].
  destruct (nmbm_erase_block_and_check _ _ _ _) as [ok n1]. destruct ok; cbn [negb]; [|by etrans; [|apply IH]].
  destruct (nmbn_write_verify_data _ _ _ _ _) as [ok n2].
  destruct ok; cbn [negb]; [exact (IH (n2, ni) _ _ _)|].
  by etrans; [|apply IH].
Qed.
Lemma erase_ages s ba limit : ages s (nmbm_erase_range g p s ba limit).
Proof. apply marked_ages, erase_range_marked. Qed.
Lemma write_ages s ba limit : ages s (snd (nmbm_write_info_table g p s ba limit)).
Proof. apply marked_ages, write_mgmt_marked. Qed.
Lemma write_down_ages k s ba : ages s (snd (write_down g p k s ba)).
Proof.
  revert s ba. induction k as [|k IH]; intros s ba; cbn [write_down]; [done|].
  pose proof (write_ages s ba (mapping_blocks_top_ba (lay (snd s)))) as Hw.
  destruct (nmbm_write_info_table _ _ _ _ _) as [[r|] s1]; [done|]. by etrans; [|apply IH].
Qed.

(** ** The steps of an update: what they do to the counters, and that the
    counters are of blocks lost since when they succeed *)

Record finishes (G : Z) (s : nstate) (r : bool * nstate) : Prop := {
  fi_ages : ages s (snd r);
  fi_budget : fst r = true -> budget G (snd (snd r))
}.
Lemma finishes_after G (s s1 : nstate) r : ages s s1 -> finishes G s1 r -> finishes G s r.
Proof. intros Ha [H1 H2]. split; [by etrans|done]. Qed.
Lemma budget_le G G' ni : G <= G' -> budget G ni -> budget G' ni.
Proof. intros Hl (? & ? & ?). split; [done|]. split; [done|lia]. Qed.
(** A step that cleans the counters, and then only loses blocks. *)
Lemma finishes_clean G (s s1 s2 : nstate) :
  good_count (snd s1) <= G -> ages s s1 -> ages (clean s1) s2 -> finishes G s (true, s2).
Proof.
  intros HG H1 H2. split; cbn [fst snd].
  - etrans; [exact H1|]. etrans; [apply clean_ages|exact H2].
  - intros _. apply H2. apply budget_le with (good_count (snd s1)); [done|]. apply clean_budget.
Qed.
Lemma finishes_kept G (s s1 : nstate) : budget G (snd s) -> ages s s1 -> finishes G s (true, s1).
Proof. intros Hb Ha. split; [done|]. intros _. by apply Ha. Qed.

Lemma rebuild_backup_ages s a en : ages s (rebuild_backup g p s a en).
Proof.
  unfold rebuild_backup. destruct (reserve _ _ _) as [nx|]; [|done].
  pose proof (write_ages s nx (mapping_blocks_top_ba (lay (snd s)))) as Hw.
  destruct (nmbm_write_info_table _ _ _ _ _) as [[[b e]|] s1]; [|done].
  etrans; [exact Hw|]. etrans; [|apply erase_ages]. apply lay_ages.
Qed.
Lemma rebuild_finishes G s : good_count (snd s) <= G -> finishes G s (nmbm_rebuild_info_table g p s).
Proof.
  intros HG. unfold nmbm_rebuild_info_table. cbv zeta. set (s0 := with_tables s 0 0 _).
  pose proof (write_ages s0 (mgmt_start_ba (lay (snd s))) (mapping_blocks_top_ba (lay (snd s)))) as Hw.
  assert (ages s s0) as H0 by apply lay_ages.
  destruct (nmbm_write_info_table _ _ _ _ _) as [[[a en]|] s1]; cbn [snd] in Hw.
  - apply (finishes_clean G s (with_tables s1 a 0 en)); [|by etrans; [|etrans; [exact Hw|apply lay_ages]]|].
    + pose proof (ag_good _ _ (lay_ages (snd s1) (lay (snd (with_tables s1 a 0 en))))) as Hl.
      destruct H0, Hw. etrans; [exact Hl|]. lia.
    + apply rebuild_backup_ages.
  - split; [|done]. etrans; [exact H0|]. etrans; [exact Hw|apply protected_ages].
Qed.
Lemma rescue_backup_ages s a en : ages s (rescue_backup g p s a en).
Proof.
  unfold rescue_backup. cbv zeta. set (s0 := with_tables s _ _ _).
  assert (ages s s0) as H0 by apply lay_ages.
  destruct (reserve _ _ _) as [wb|]; [|by etrans; [exact H0|apply lay_ages]].
  unfold write_table_down. pose proof (write_down_ages (Z.to_nat (wb - en + 1)) s0 wb) as Hw.
  destruct (write_down _ _ _ _ _) as [[[b e]|] s1]; cbn [snd] in Hw; (etrans; [exact H0|]); (etrans; [exact Hw|]).
  - etrans; [|apply erase_ages]. apply lay_ages.
  - apply lay_ages.
Qed.
Lemma rescue_main_finishes G s : budget G (snd s) -> finishes G s (nmbm_rescue_main_info_table g p s).
Proof.
  intros HB. unfold nmbm_rescue_main_info_table. cbv zeta.
  destruct (reserve _ _ _) as [wb|]; [|apply finishes_kept; [done|apply lay_ages]].
  unfold write_table_down. set (k := Z.to_nat _). pose proof (write_down_ages k s wb) as Hw.
  destruct (write_down _ _ _ _ _) as [[[ta te]|] s1]; cbn [snd] in Hw.
  2: { apply finishes_kept; [done|]. etrans; [exact Hw|apply lay_ages]. }
  pose proof (write_ages s1 (mgmt_start_ba (lay (snd s))) ta) as Hw2.
  destruct (nmbm_write_info_table _ _ _ _ _) as [[[a en]|] s2]; cbn [snd] in Hw2.
  - assert (ages s (clean (with_tables s2 a (backup_table_ba (lay (snd s))) te))) as H2.
    { etrans; [exact Hw|]. etrans; [exact Hw2|]. etrans; [|apply clean_ages]. apply lay_ages. }
    case_if; apply finishes_kept; try done.
    + etrans; [exact H2|apply lay_ages].
    + etrans; [exact H2|apply rescue_backup_ages].
  - apply finishes_kept; [done|]. etrans; [exact Hw|]. etrans; [exact Hw2|]. etrans; [|apply clean_ages].
    apply lay_ages.
Qed.
Lemma write_main_finishes G s limit :
  good_count (snd s) <= G -> backup_table_ba (lay (snd s)) = 0 \/ budget G (snd s) ->
  finishes G s (write_main_table g p s limit).
Proof.
  intros HG Hb. unfold write_main_table. cbv zeta. case_if; [by apply rebuild_finishes|].
  pose proof (write_ages s (main_table_ba (lay (snd s))) limit) as Hw.
  destruct (nmbm_write_info_table _ _ _ _ _) as [[[a en]|] s1]; cbn [snd] in Hw.
  - set (s2 := with_tables s1 _ _ _). apply (finishes_clean G s s2); [|by etrans; [|apply lay_ages]|done].
    pose proof (ag_good _ _ (lay_ages (snd s1) (lay (snd s2)))) as Hl. destruct Hw. etrans; [exact Hl|]. lia.
  - apply (finishes_after G s s1); [done|]. case_if.
    + apply rebuild_finishes. destruct Hw. lia.
    + bprop. apply rescue_main_finishes. destruct Hb as [?|Hb]; [done|]. by apply Hw.
Qed.

Lemma generate_ages (s : nstate) : ages s (generated crc32_le g s).
Proof. split; [exact (Z.le_refl (good_count (snd s)))|by intros G HG|done]. Qed.
Lemma once_finishes (s : nstate) :
  pending s = true -> finishes (good_count (snd s)) s (nmbm_update_info_table_once crc32_le g p s false).
Proof.
  intros Hp. unfold nmbm_update_info_table_once. rewrite generate_eq. cbv zeta. cbn [fst snd].
  fold (pending s). rewrite Hp. cbn [negb andb].
  pose proof (generate_ages s) as H0. unfold generated in H0. rewrite generate_eq in H0. cbn [snd] in H0.
  set (ni1 := set_cache _ _ _) in *. set (s1 := (fst s, ni1)). change ni1 with (snd s1) in H0.
  pose proof (ag_good _ _ H0) as G0. apply (finishes_after _ s s1); [done|].
  destruct (Z.eqb_spec (backup_table_ba (lay ni1)) 0); [apply write_main_finishes; [done|by left]|].
  pose proof (write_ages s1 (backup_table_ba (lay ni1)) (mapping_blocks_top_ba (lay ni1))) as Hw.
  destruct (nmbm_write_info_table _ _ _ _ _) as [[[a en]|] s2]; cbn [snd] in Hw.
  all: set (s3 := with_tables s2 _ _ _).
  all: assert (ages s1 s3) as H3 by (etrans; [exact Hw|apply lay_ages]).
  all: pose proof (ag_good _ _ H3) as G3.
  - apply (finishes_after _ s1 (clean s3)); [etrans; [exact H3|apply clean_ages]|].
    pose proof (ag_good _ _ (clean_ages (snd s3))) as G4. change (snd (clean s3)) with (nmbm_mark_tables_clean (snd s3)).
    apply write_main_finishes; [change (snd (clean s3)) with (nmbm_mark_tables_clean (snd s3)); lia|right].
    apply budget_le with (good_count (snd s3)); [lia|]. apply clean_budget.
  - apply (finishes_after _ s1 s3); [done|]. apply write_main_finishes; [lia|by left].
Qed.

(** ** The loop *)

Lemma update_info_table_step fuel (s : nstate) :
  update_info_table crc32_le g p fuel s =
  if negb (pending s) then Some (true, s)
  else match fuel with
       | O => None
       | S fuel =>
           let '(success, s) := nmbm_update_info_table_once crc32_le g p s false in
           if success then update_info_table crc32_le g p fuel s else Some (false, s)
       end.
Proof.
  unfold pending. rewrite negb_orb, !negb_involutive. by destruct fuel.
Qed.

(** A budget of [G] is used up in [G] rounds. *)
Lemma budget_rounds fuel (s : nstate) :
  budget (Z.of_nat fuel) (snd s) -> is_Some (update_info_table crc32_le g p fuel s).
Proof.
  revert s. induction fuel as [|fuel IH]; intros s (B1 & B2 & B3); rewrite update_info_table_step.
  all: destruct (pending s) eqn:Ep; cbn [negb]; [|by eexists].
  all: pose proof (good_count_bounds (snd s)) as Hb; unfold pending in Ep; rewrite B2 in Ep; bprop.
  all: assert (block_state_changed (snd s) <> 0) as Hne by (destruct Ep as [E|E]; bprop; done).
  - lia.
  - pose proof (once_finishes s) as [F1 F2]; [unfold pending; rewrite B2; by destruct (Z.eqb_spec (block_state_changed (snd s)) 0)|].
    destruct (nmbm_update_info_table_once _ _ _ _ _) as [ok s1]. destruct ok; [|by eexists].
    apply IH. apply budget_le with (good_count (snd s)); [lia|]. by apply F2.
Qed.
Lemma update_rounds_enough fuel (s : nstate) :
  (update_rounds s <= fuel)%nat -> is_Some (nmbm_update_info_table crc32_le g p fuel s).
Proof.
  intros Hf. unfold nmbm_update_info_table. case_if; [by eexists|]. rewrite update_info_table_step.
  destruct (pending s) eqn:Ep; cbn [negb]; [|by eexists]. unfold update_rounds in Hf.
  destruct fuel as [|fuel]; [lia|]. pose proof (once_finishes s Ep) as [F1 F2].
  destruct (nmbm_update_info_table_once _ _ _ _ _) as [ok s1]. destruct ok; [|by eexists].
  apply budget_rounds. apply budget_le with (good_count (snd s)); [|by apply F2].
  pose proof (good_count_bounds (snd s)) as Hb. unfold state_blocks in Hb. lia.
Qed.

Lemma update_fuel_mono fuel fuel' (s : nstate) r : (fuel <= fuel')%nat ->
  update_info_table crc32_le g p fuel s = Some r -> update_info_table crc32_le g p fuel' s = Some r.
Proof.
  revert fuel' s. induction fuel as [|fuel IH]; intros fuel' s Hf; rewrite !update_info_table_step;
    (case_if; [done|]); [done|]. destruct fuel' as [|fuel']; [lia|].
  destruct (nmbm_update_info_table_once _ _ _ _ _) as [ok s1]. destruct ok; [|done]. apply IH. lia.
Qed.

(** C30: [nmbm_update_info_table] ends: whatever the chip answers, after one round
    for every block of the state table and one more there is nothing left to write,
    or a round failed; more rounds change nothing. Every further round was caused by
    a block that went bad while the tables were written. *)
Theorem update_terminates (s : nstate) : exists r, forall more,
  nmbm_update_info_table crc32_le g p (update_rounds s + more) s = Some r.
Proof.
  destruct (update_rounds_enough (update_rounds s) s) as [r Hr]; [done|]. exists r. intros more.
  revert Hr. unfold nmbm_update_info_table. case_if; [done|]. apply update_fuel_mono. lia.
Qed.
Lemma updated_eq (s : nstate) :
  nmbm_update_info_table crc32_le g p (update_rounds s) s = Some (updated crc32_le g p s).
Proof. unfold updated. by destruct (update_rounds_enough (update_rounds s) s) as [r ->]. Qed.

(** * What the loop leaves *)

Context {Hloc : LocalChip g}.
Context {Hcrc : Crc32 crc32_le}.
Hypothesis Hg : nmbm_geometry g.

#[local] Abbreviation top s := (mapping_blocks_top_ba (lay (snd s))).
#[local] Abbreviation mgmt s := (mgmt_start_ba (lay (snd s))).
#[local] Abbreviation cache s := (info_table_cache (snd s)).

(** The invariant of an attached instance. *)
Record attached (s : nstate) : Prop := {
  at_layout : layout_ok s;
  at_tables : tables_wf g (snd s)
}.
(** Nothing but the blocks from [lo] up to [hi] was touched. *)
Record confined (lo hi : Z) (s s' : nstate) : Prop := {
  cf_attached : attached s';
  cf_chip : keeps_blocks g (fun b => b < lo \/ hi <= b) (fst s) (fst s');
  cf_mapping : block_mapping (snd s') = block_mapping (snd s);
  cf_mgmt : mgmt s' = mgmt s;
  cf_top : top s' = top s
}.
(** The tables of the layout are on the chip, whole, and say what is in memory. *)
Record saved (s : nstate) : Prop := {
  sv_placed : placed g p s (cache s);
  sv_checksum : nmbm_check_header crc32_le (cache s) (info_table_size g) = true;
  sv_header : nmbm_check_info_table_header g (cache s) = true;
  sv_mapping : cached_mapping g (cache s) = block_mapping (snd s);
  sv_good : forall b, 0 <= b -> nmbm_get_block_state (snd s) b = BLOCK_ST_GOOD ->
    nmbm_get_block_state_raw (cached_state g (cache s)) b = BLOCK_ST_GOOD
}.

Lemma generated_attached s : attached s -> attached (generated crc32_le g s).
Proof.
  intros [[L1 L2 L3] [W1 W2 W3 W4 W5 W6 W7]]. unfold generated. rewrite generate_eq. cbn [snd].
  split; [by split|]. split; try done.
  change (0 <= (if pending s then u32 (if_write_count (info_table (snd s)) + 1)
                else if_write_count (info_table (snd s))) < 2 ^ 32).
  case_if; [apply u32_range|done].
Qed.

Lemma once_saves s :
  attached s -> pending s = true ->
  let r := nmbm_update_info_table_once crc32_le g p s false in
  confined (mgmt s) (top s) s (snd r) /\
  (if fst r then saved (snd r) else protected (snd (snd r)) = true).
Proof.
  intros Ha Hp. cbv zeta. destruct Ha as [HL HW].
  destruct (once_concludes crc32_le g p Hg s false HL) as [S1 S2]; [by rewrite Hp|].
  pose proof (generated_table crc32_le g Hg (snd s) HW) as [T1 T2 T3 T4 T5 _ _].
  pose proof (generated_attached s (Build_attached s HL HW)) as [GL GW].
  set (s0 := generated crc32_le g s) in *. assert (s0 = generated crc32_le g s) as E0 by done.
  destruct (nmbm_update_info_table_once _ _ _ _ _) as [ok s1]. cbn [fst snd] in *.
  assert (mgmt s0 = mgmt s /\ top s0 = top s /\ fst s0 = fst s /\ block_mapping (snd s0) = block_mapping (snd s) /\
    block_state (snd s0) = block_state (snd s)) as (M0 & P0 & C0 & B0 & K0)
    by (subst s0; unfold generated; by rewrite generate_eq).
  assert (layout_ok s1) as HL1.
  { destruct ok.
    - apply (placed_layout g p) with (cache s0); [|done]. rewrite (ev_mgmt _ _ _ _ _ S1). apply GL.
    - destruct S2 as (_ & Q1 & Q2). split; [|by left|by left]. rewrite (ev_mgmt _ _ _ _ _ S1). apply GL. }
  rewrite M0, P0 in S1. destruct S1 as [V1 V2 V3 V4 V5 V6 V7 V8]. split.
  - split; [by split; [|apply V6]| |congruence|congruence|congruence]. by rewrite <- C0.
  - destruct ok; [|apply S2]. split; rewrite ?V4; try done; [by rewrite V5|].
    intros b Hb Hs. apply V3 in Hs; [|done]. unfold s0, generated. cbn [snd]. rewrite T4.
    unfold nmbm_get_block_state in Hs. by rewrite <- K0.
Qed.

Lemma confined_refl lo hi s : attached s -> confined lo hi s s.
Proof. intros. by split. Qed.
Lemma confined_trans lo hi s1 s2 s3 : confined lo hi s1 s2 -> confined lo hi s2 s3 -> confined lo hi s1 s3.
Proof. intros [] []. split; try congruence. by etrans. Qed.

Lemma rounds_save fuel s r :
  attached s -> update_info_table crc32_le g p fuel s = Some r ->
  confined (mgmt s) (top s) s (snd r) /\
  (if fst r then pending (snd r) = false /\ (snd r = s \/ saved (snd r)) else protected (snd (snd r)) = true).
Proof.
  revert s. induction fuel as [|fuel IH]; intros s Ha; rewrite update_info_table_step.
  all: destruct (pending s) eqn:Ep; cbn [negb];
    [|intros [= <-]; cbn [fst snd]; split; [apply confined_refl; done|split; [exact Ep|left; done]]].
  - done.
  - pose proof (once_saves s Ha Ep) as [C1 S1].
    destruct (nmbm_update_info_table_once _ _ _ _ _) as [ok s1]. cbn [fst snd] in *. destruct ok.
    + intros Hu. destruct (IH s1 (cf_attached _ _ _ _ C1) Hu) as [C2 S2].
      rewrite (cf_mgmt _ _ _ _ C1), (cf_top _ _ _ _ C1) in C2. split; [by eapply confined_trans|].
      destruct (fst r); [|done]. destruct S2 as [S2 [E|S3]]; (split; [done|right; by rewrite ?E]).
    + intros [= <-]. by split.
Qed.

Lemma updated_confined (s : nstate) :
  attached s -> confined (mgmt s) (top s) s (snd (updated crc32_le g p s)).
Proof.
  intros Ha. pose proof (updated_eq s) as Hu. unfold nmbm_update_info_table in Hu.
  destruct (protected (snd s)); [injection Hu as <-; by apply confined_refl|].
  by apply rounds_save in Hu as [Hc _].
Qed.

(** ** Both tables stay when no block goes bad *)

#[local] Abbreviation blk := (Z.to_nat (blk_size g)).

(** With enough good blocks in the range, a write can only fail by losing one. *)
Lemma write_mgmt_enough k s ba data start bl :
  0 <= ba -> (start = None -> data <> []) -> StronglySorted Z.lt bl ->
  Forall (fun b => ba <= b < ba + Z.of_nat k /\ nmbm_get_block_state (snd s) b = BLOCK_ST_GOOD) bl ->
  (length data <= blk * length bl)%nat ->
  let '(r, s') := write_mgmt g p k s ba data start in
  good_count (snd s') = good_count (snd s) -> is_Some r.
Proof.
  revert s ba data start bl. induction k as [|k IH]; intros s ba data start bl H0 Hd Hs Hb Hl;
    cbn [write_mgmt]; (destruct (Nat.eqb_spec (length data) 0) as [E0|E0];
      [apply length_zero_iff_nil in E0 as ->; destruct start; [by eexists|by destruct Hd]|]).
  { destruct bl as [|b bl]; [simpl in Hl; lia|]. apply Forall_cons in Hb as [Hb _]. lia. }
  destruct s as [n ni]. cbn [snd] in *. cbv zeta.
  assert (forall s1 start', good_count (snd s1) < good_count ni ->
    let '(r, s') := write_mgmt g p k s1 (ba + 1) data start' in
    good_count (snd s') = good_count ni -> is_Some r) as Hlost.
  { intros s1 st Hc. pose proof (write_mgmt_marked k s1 (ba + 1) data st) as Hm.
    destruct (write_mgmt _ _ _ _ _ _ _) as [r s']. cbn [snd] in Hm. apply marked_good_count in Hm.
    intros E. exfalso. lia. }
  assert (exists bl', StronglySorted Z.lt bl' /\ (length bl <= S (length bl'))%nat /\
    Forall (fun b => ba + 1 <= b < ba + 1 + Z.of_nat k /\ nmbm_get_block_state ni b = BLOCK_ST_GOOD) bl' /\
    (nmbm_get_block_state ni ba <> BLOCK_ST_GOOD -> bl' = bl)) as (bl' & Hs' & Hl' & Hb' & Heq).
  { destruct bl as [|b bl]; [by exists []; repeat split; try constructor|].
    apply StronglySorted_inv in Hs as Hsi. destruct Hsi as [Hs1 Hs2]. apply Forall_cons in Hb as [[Hr Hg'] Hb].
    destruct (decide (b = ba)) as [->|Hne].
    - exists bl. split; [done|]. split; [done|]. split; [|done].
      rewrite Forall_forall in Hs2, Hb |- *. intros x Hx. specialize (Hs2 x Hx). specialize (Hb x Hx).
      cbn beta in *. split; [lia|apply Hb].
    - exists (b :: bl). split; [done|]. split; [simpl; lia|]. split; [|done].
      constructor; [split; [lia|done]|]. rewrite Forall_forall in Hs2, Hb |- *. intros x Hx.
      specialize (Hs2 x Hx). specialize (Hb x Hx). cbn beta in *. split; [lia|apply Hb]. }
  destruct (Z.eqb_spec (nmbm_get_block_state ni ba) BLOCK_ST_GOOD) as [Hst|Hst]; cbn [negb].
  2:{ apply (IH (n, ni) (ba + 1) data start bl); try done; [lia|]. by rewrite <- Heq. }
  destruct (mark_bad_count ni ba H0 Hst) as [Hc _].
  case_if; [apply Hlost; cbn [snd]; lia|].
  destruct (nmbm_erase_block_and_check _ _ _ _) as [ok n1].
  destruct ok; cbn [negb]; [|apply Hlost; cbn [snd retire]; lia].
  destruct (nmbn_write_verify_data _ _ _ _ _) as [ok n2].
  destruct ok; cbn [negb]; [|apply Hlost; cbn [snd retire]; lia].
  apply (IH (n2, ni) (ba + 1) (drop blk data) (Some (default ba start)) bl'); try done; [lia|].
  rewrite length_drop. nia.
Qed.

Lemma stored_length n bl data : stored g p n bl data -> (length data <= blk * length bl)%nat.
Proof.
  revert data. induction bl as [|b bl IH]; intros data; cbn [stored]; [intros ->; simpl; lia|].
  intros (_ & _ & Hst). apply IH in Hst. rewrite length_drop in Hst. cbn [length]. nia.
Qed.

(** A range that holds a table has room for another one of its size. *)
Lemma write_over_table s ba limit st en old :
  0 <= ba <= st -> en <= limit -> table_in g p s st en old -> cache s <> [] ->
  length old = length (cache s) ->
  let '(r, s') := nmbm_write_info_table g p s ba limit in
  good_count (snd s') = good_count (snd s) -> is_Some r.
Proof.
  intros Hba Hen [Hlt [bl [B1 B2 _ B4]]] Hne Hlen. unfold nmbm_write_info_table, nmbm_write_mgmt_range.
  apply write_mgmt_enough with bl; try done; [lia| |].
  - eapply Forall_impl; [exact B4|]. cbn. intros b [Hr Hb]. split; [lia|done].
  - rewrite <- Hlen. by apply (stored_length (fst s)).
Qed.

Lemma info_table_pos : 0 < info_table_size g.
Proof.
  destruct (offsets_ok g Hg) as (O1 & O2 & O3 & _). pose proof (state_table_size_bounds g Hg).
  pose proof (gw_total g (ng_wf g Hg)). unfold INFO_HEADER_SIZE, mapping_table_size in *. lia.
Qed.

Lemma once_both s old :
  layout_ok s -> tables_wf g (snd s) -> pending s = true -> placed g p s old ->
  backup_table_ba (lay (snd s)) <> 0 -> Z.of_nat (length old) = info_table_size g ->
  let '(ok, s') := nmbm_update_info_table_once crc32_le g p s false in
  good_count (snd s') = good_count (snd s) ->
  ok = true /\ backup_table_ba (lay (snd s')) <> 0 /\ pending s' = false.
Proof.
  intros [L1 L2 L3] HW Hp [(e1 & T1 & O1 & O2) [Hz|(e2 & T2 & O3)] [O4 O5]] Hb Hold; [done|].
  destruct O2 as [?|O2]; [done|]. destruct L3 as [?|L3]; [done|].
  pose proof (to_length _ _ _ _ (generated_table crc32_le g Hg (snd s) HW)) as Hsize.
  unfold nmbm_update_info_table_once. rewrite generate_eq in *. cbn [fst snd] in *. cbv zeta.
  fold (pending s) in *. rewrite Hp in *. cbn [negb andb].
  set (ni1 := set_cache _ _ _) in *. set (s1 := (fst s, ni1)). change ni1 with (snd s1) in Hsize |- *.
  assert (Z.of_nat (length (cache s1)) = info_table_size g) as Hcache.
  { rewrite Hsize, Z2Nat.id; [done|]. pose proof info_table_pos. lia. }
  assert (cache s1 <> []) as Hne.
  { intros E. rewrite E in Hcache. cbn in Hcache. pose proof info_table_pos. lia. }
  assert (length old = length (cache s1)) as Hlen by lia.
  change (lay (snd s)) with (lay (snd s1)) in *.
  apply (table_in_same g p s s1) in T1, T2; try done.
  destruct (Z.eqb_spec (backup_table_ba (lay (snd s1))) 0); [done|].
  pose proof (write_over_table s1 (backup_table_ba (lay (snd s1))) (top s1)
    (backup_table_ba (lay (snd s1))) e2 old ltac:(lia) ltac:(lia) T2 Hne Hlen) as Hw1.
  pose proof (write_ages s1 (backup_table_ba (lay (snd s1))) (top s1)) as Ha1.
  destruct (nmbm_write_info_table _ _ _ _ _) as [r1 s2] eqn:Ew1. cbn [snd] in Ha1.
  apply (write_table_spec g p Hg) in Ew1 as (V1 & E1 & F1); [|lia]. destruct r1 as [[a1 en1]|].
  2:{ set (s3 := with_tables s2 _ _ _).
      pose proof (write_main_finishes (good_count (snd s3)) s3 (top s1) ltac:(lia) ltac:(by left)) as [Hf _].
      destruct (write_main_table _ _ _ _) as [ok s4]. cbn [snd] in Hf. intros Hc.
      pose proof (ag_good _ _ Ha1) as G1. pose proof (ag_good _ _ Hf) as G2.
      change (good_count (snd s3)) with (good_count (snd s2)) in G2.
      change (good_count (snd s1)) with (good_count (snd s)) in *.
      destruct Hw1 as [? ?]; [lia|done]. }
  destruct (F1 a1 en1 eq_refl) as (B1 & B2 & B3).
  set (s3 := clean (with_tables s2 _ a1 en1)).
  unfold write_main_table. cbv zeta. change (main_table_ba (lay (snd s3))) with (main_table_ba (lay (snd s1))).
  change (backup_table_ba (lay (snd s3))) with a1.
  destruct (Z.eqb_spec (main_table_ba (lay (snd s1))) 0); [lia|].
  assert (table_in g p s3 (main_table_ba (lay (snd s1))) e1 old) as T3.
  { apply (table_in_same g p s2); [done|done|].
    eapply (table_in_evolves g p Hg (backup_table_ba (lay (snd s1))) (top s1) s1); [lia|lia|done|done]. }
  assert (cache s3 = cache s1) as Ec by exact (ev_cache _ _ _ _ _ V1).
  pose proof (write_over_table s3 (main_table_ba (lay (snd s1))) a1
    (main_table_ba (lay (snd s1))) e1 old ltac:(lia) ltac:(lia) T3
    ltac:(by rewrite Ec) ltac:(by rewrite Ec)) as Hw3.
  pose proof (write_ages s3 (main_table_ba (lay (snd s1))) a1) as Ha3.
  pose proof (ag_good _ _ Ha1) as G1. pose proof (ag_good _ _ Ha3) as G3.
  change (good_count (snd s3)) with (good_count (snd s2)) in G3.
  change (good_count (snd s1)) with (good_count (snd s)) in *.
  destruct (nmbm_write_info_table _ _ _ _ _) as [r3 s4] eqn:Ew3. cbn [snd] in *.
  apply (write_table_spec g p Hg) in Ew3 as (V3 & E3 & F3); [|lia]. destruct r3 as [[a en]|].
  - intros _. split; [done|]. split; [|done]. cbn [clean with_tables with_lay snd fst set_lay lay
      nmbm_mark_tables_clean set_mapping set_state lay_tables backup_table_ba]. lia.
  - destruct (Z.eqb_spec a1 0); [lia|].
    pose proof (rescue_main_finishes (good_count (snd s3)) s4) as Hf.
    destruct Hf as [Hf _]; [apply Ha3, clean_budget|].
    destruct (nmbm_rescue_main_info_table _ _ _) as [ok s5]. cbn [snd] in Hf. intros Hc.
    pose proof (ag_good _ _ Hf) as G5. change (good_count (snd s3)) with (good_count (snd s2)) in Hw3.
    destruct Hw3 as [? ?]; [lia|done].
Qed.

Lemma rounds_good fuel (s : nstate) r :
  update_info_table crc32_le g p fuel s = Some r -> good_count (snd (snd r)) <= good_count (snd s).
Proof.
  revert s. induction fuel as [|fuel IH]; intros s; rewrite update_info_table_step;
    (destruct (pending s) eqn:Ep; cbn [negb]; [|intros [= <-]; cbn [snd]; lia]); [done|].
  pose proof (once_finishes s Ep) as [Ha _].
  destruct (nmbm_update_info_table_once _ _ _ _ _) as [ok s1]. cbn [snd] in Ha.
  pose proof (ag_good _ _ Ha) as Hle. destruct ok; [|intros [= <-]; exact Hle].
  intros Hu. apply IH in Hu. lia.
Qed.

Lemma rounds_both fuel (s : nstate) r old :
  attached s -> pending s = true -> placed g p s old -> backup_table_ba (lay (snd s)) <> 0 ->
  Z.of_nat (length old) = info_table_size g ->
  update_info_table crc32_le g p fuel s = Some r -> good_count (snd (snd r)) = good_count (snd s) ->
  fst r = true /\ backup_table_ba (lay (snd (snd r))) <> 0.
Proof.
  intros [HL HW] Hp Hpl Hb Hold. rewrite update_info_table_step, Hp. cbn [negb].
  destruct fuel as [|fuel]; [done|]. pose proof (once_both s old HL HW Hp Hpl Hb Hold) as Ho.
  pose proof (once_finishes s Hp) as [Ha _].
  destruct (nmbm_update_info_table_once _ _ _ _ _) as [ok s1]. cbn [snd] in Ha.
  pose proof (ag_good _ _ Ha) as Hle. destruct ok.
  - intros Hu Hc. pose proof (rounds_good _ _ _ Hu) as Hle2.
    destruct Ho as (_ & Hb1 & Hp1); [lia|].
    rewrite update_info_table_step, Hp1 in Hu. cbn [negb] in Hu. by injection Hu as <-.
  - intros [= <-] Hc. cbn [snd] in Hc. by destruct Ho.
Qed.

(** C31: Whatever fails on the chip, [nmbm_update_info_table] only touches the
    blocks between the start of the management area and the highest spare block
    that is still free: the data blocks, the spare blocks that are in use and the
    signature are as they were, the mapping in memory is as it was, and the layout
    and the tables are well-formed as before. *)
Theorem update_spares_data (s : nstate) :
  attached s -> confined (mgmt s) (top s) s (snd (updated crc32_le g p s)).
Proof. apply updated_confined. Qed.

Lemma updated_saved (s : nstate) :
  attached s -> protected (snd s) = false -> pending s = true ->
  let '(ok, s') := updated crc32_le g p s in
  if ok then pending s' = false /\ saved s' else protected (snd s') = true.
Proof.
  intros Ha Hp Hn. pose proof (updated_eq s) as Hu. unfold nmbm_update_info_table in Hu. rewrite Hp in Hu.
  apply rounds_save in Hu as [_ Hs]; [|done]. destruct (updated _ _ _ _) as [ok s']. cbn [fst snd] in *.
  destruct ok; [|done]. destruct Hs as [H1 [->|H2]]; [congruence|done].
Qed.
Lemma updated_placed (s : nstate) :
  attached s -> protected (snd s) = false -> pending s = true -> fst (updated crc32_le g p s) = true ->
  attached (snd (updated crc32_le g p s)) /\
  placed g p (snd (updated crc32_le g p s)) (cache (snd (updated crc32_le g p s))).
Proof.
  intros Ha Hp Hn Hok. split; [by apply (cf_attached _ _ _ _ (updated_confined s Ha))|].
  pose proof (updated_saved s Ha Hp Hn) as Hs. destruct (updated _ _ _ _) as [ok s'].
  cbn [fst snd] in *. subst ok. apply Hs.
Qed.

(** C28: When something was to be written, an update either leaves the main table
    on the chip, and the backup table if the layout has one, each whole, at the
    address of the layout, with a header and a checksum that are accepted, the
    mapping of the memory, and no good block called bad; or it protects the
    instance. When both tables were there before, and no block goes bad
    during the update, it succeeds, and both are there afterwards. (A backup that
    cannot be written is given up, as the comment in the code says: what is
    promised then is one table.) *)
Theorem update_saves (s : nstate) :
  attached s -> protected (snd s) = false -> pending s = true ->
  let '(ok, s') := updated crc32_le g p s in
  (if ok then pending s' = false /\ saved s' else protected (snd s') = true) /\
  (forall old, placed g p s old -> backup_table_ba (lay (snd s)) <> 0 ->
     Z.of_nat (length old) = info_table_size g -> good_count (snd s') = good_count (snd s) ->
     ok = true /\ backup_table_ba (lay (snd s')) <> 0).
Proof.
  intros Ha Hp Hn. pose proof (updated_saved s Ha Hp Hn) as Hs.
  pose proof (updated_eq s) as Hu. unfold nmbm_update_info_table in Hu. rewrite Hp in Hu.
  pose proof (fun old H1 H2 H3 => rounds_both _ s _ old Ha Hn H1 H2 H3 Hu) as Hboth.
  by destruct (updated _ _ _ _) as [ok s'].
Qed.
End rounds.

(** * Witnesses *)

Lemma range_check lo hi l :
  forallb (fun w => (lo <=? w) && (w <? hi)) l = true -> Forall (fun w => lo <= w < hi) l.
Proof.
  intros Hl. apply Forall_forall. intros w Hw. rewrite forallb_forall in Hl.
  apply list_elem_of_In in Hw. specialize (Hl w Hw). bprop. done.
Qed.
Lemma sample_wf : tables_wf sample_geometry (mark_bad sample_ni 3).
Proof.
  split; [reflexivity|apply range_check|reflexivity|apply range_check|reflexivity|reflexivity|by split];
    vm_compute; reflexivity.
Qed.
Lemma sample_layout power : layout_ok (sample_state power).
Proof. split; [done|right; done|right; done]. Qed.

(** A chip on which block 27, that of the backup table, cannot be erased: the table
    goes elsewhere. *)
#[local] Instance worn_chip : NandChip sim := sim_chip [27].
#[local] Abbreviation sample_updated := (updated sample_crc sample_geometry sample_params (sample_state 1000)).
Lemma sample_attached_ok : attached sample_geometry (sample_state 1000).
Proof. split; [apply sample_layout|apply sample_wf]. Qed.

(** A change of the mapping, that is to be saved. *)
Definition changed (s : sim * nmbm_instance) : sim * nmbm_instance :=
  (fst s, set_mapping (snd s) (block_mapping (snd s)) 1).
Lemma changed_pending s : pending (changed s) = true.
Proof. apply orb_true_r. Qed.
Lemma changed_attached s : attached sample_geometry s -> attached sample_geometry (changed s).
Proof. intros [[] []]. by split; split. Qed.
Lemma changed_placed s data :
  placed sample_geometry sample_params s data -> placed sample_geometry sample_params (changed s) data.
Proof. by apply placed_same. Qed.

Lemma sample_update_saved :
  attached sample_geometry (snd sample_updated) /\
  placed sample_geometry sample_params (snd sample_updated)
    (info_table_cache (snd (snd sample_updated))).
Proof.
  apply (updated_placed sample_crc sample_geometry sample_params sample_geometry_ok
    (sample_state 1000) sample_attached_ok); by vm_compute.
Qed.
Lemma update_spares_data_witness :
  attached sample_geometry (sample_state 1000) /\
  confined sample_geometry 24 30 (sample_state 1000) (snd sample_updated).
Proof.
  split; [exact sample_attached_ok|].
  exact (update_spares_data sample_crc sample_geometry sample_params sample_geometry_ok
           (sample_state 1000) sample_attached_ok).
Defined.
(** An update that loses block 27, and one after it that loses no block. *)
Lemma update_saves_witness :
  (let '(ok, s') := sample_updated in
   if ok then pending s' = false /\ saved sample_crc sample_geometry sample_params s'
   else protected (snd s') = true) /\
  fst sample_updated = true /\
  (let '(ok, s') := updated sample_crc sample_geometry sample_params (changed (snd sample_updated)) in
   ok = true /\ backup_table_ba (lay (snd s')) <> 0).
Proof.
  assert (pending (sample_state 1000) = true) as Hn by reflexivity.
  split; [|split; [by vm_compute|]].
  - pose proof (update_saves sample_crc sample_geometry sample_params sample_geometry_ok
                  (sample_state 1000) sample_attached_ok eq_refl Hn) as Hs.
    destruct sample_updated as [ok s']. exact (proj1 Hs).
  - destruct sample_update_saved as [Ha Hp].
    assert ((backup_table_ba (lay (snd (snd sample_updated))) =? 0) = false) as Hb
      by (by vm_compute).
    assert (protected (snd (snd sample_updated)) = false) as Hpr by (by vm_compute).
    assert ((Z.of_nat (length (info_table_cache (snd (snd sample_updated)))) =?
      info_table_size sample_geometry) = true) as Hl by (by vm_compute).
    assert ((good_count (snd (snd (updated sample_crc sample_geometry sample_params
        (changed (snd sample_updated))))) =? good_count (snd (snd sample_updated))) = true) as Hc
      by (by vm_compute).
    generalize dependent (snd sample_updated). intros s Ha Hp Hb Hpr Hl Hc.
    pose proof (update_saves sample_crc sample_geometry sample_params sample_geometry_ok
                  (changed s) (changed_attached s Ha) Hpr (changed_pending s)) as Hs.
    destruct (updated _ _ _ (changed s)) as [ok s']. destruct Hs as [_ Hs].
    apply Z.eqb_neq in Hb. apply Z.eqb_eq in Hl, Hc.
    exact (Hs _ (changed_placed s _ Hp) Hb Hl Hc).
Defined.
