(* ===== verification/NmbmPower.v ===== *)
(** mtk_bmt: the power goes while the NMBM tables are updated. The chip does what
    it is told until some operation, which may do anything to its page or block,
    and nothing afterwards. With two tables on the chip there is a whole one at
    every moment ([power_loss_keeps_a_table]). *)
From S2P Require Import Prelude CNum Bytes BmtFlash BmtCore NmbmTable NmbmCache NmbmFlash NmbmLocal NmbmMgmt NmbmUpdate NmbmAttach NmbmSample NmbmKeep NmbmRounds.
Open Scope Z_scope.
Open Scope list_scope.

(** * What every operation on the chip keeps, an update keeps *)

Section chip.
Context {N : Type} `{NandChip N}.
Variable crc32_le : Z -> list Z -> Z.
Variable g : geometry.
Variable p : nmbm_params.
Variable R : N -> N -> Prop.
Context `{!PreOrder R}.
Hypothesis R_write : forall n a data, R n (snd (chip_write n a data 0 [])).
Hypothesis R_erase : forall n b, R n (snd (chip_erase n (ba2addr g b) (erasesize g))).
Hypothesis R_markbad : forall n b, R n (snd (chip_markbad n (ba2addr g b))).

#[local] Abbreviation nstate := (N * nmbm_instance)%type.
#[local] Abbreviation Rs s s' := (R (fst s) (fst s')).

Lemma write_tries_R k n a data : R n (snd (write_tries k n a data)).
Proof.
  revert n. induction k as [|k IH]; intros n; [done|]. cbn [write_tries].
  pose proof (R_write n a data) as Hw. destruct (chip_write n a data 0 []) as [[[ret rl] orl] n1].
  cbn [snd] in Hw. case_if; [done|]. by etrans; [|apply IH].
Qed.
Lemma write_check_R n a pg leading chunk : R n (snd (write_check_page g p n a pg leading chunk)).
Proof.
  unfold write_check_page, nmbm_write_phys_page. pose proof (write_tries_R NMBM_TRY_COUNT n a pg) as Hw.
  destruct (write_tries _ _ _ _) as [ok n1]. destruct ok; [|done]. cbn [negb].
  destruct (nmbm_read_phys_page _ _ _ _) as [ret d]. by case_if.
Qed.
Lemma write_data_R fuel n off data : R n (snd (write_data g p fuel n off data)).
Proof.
  revert n off data. induction fuel as [|fuel IH]; intros n off data; [done|]. cbn [write_data].
  case_if; [done|]. cbv zeta. set (chunk := take _ data).
  pose proof (write_check_R n (off - Z.land off (pg_size g - 1))
    (splice (replicate (Z.to_nat (pg_size g)) 255) (Z.to_nat (Z.land off (pg_size g - 1))) chunk)
    (Z.to_nat (Z.land off (pg_size g - 1))) chunk) as Hw.
  destruct (write_check_page _ _ _ _ _ _ _) as [ok n1]. destruct ok; [|done]. by etrans; [|apply IH].
Qed.
Lemma erase_check_R n b : R n (snd (nmbm_erase_block_and_check g p n b)).
Proof.
  unfold nmbm_erase_block_and_check, nmbm_erase_phys_block.
  assert (forall k n, R n (snd (erase_tries g k n (ba2addr g b)))) as He.
  { clear n. intros k. induction k as [|k IH]; intros n; [done|]. cbn [erase_tries].
    pose proof (R_erase n b) as He. destruct (chip_erase _ _ _) as [ret n1]. case_if; [done|].
    by etrans; [|apply IH]. }
  specialize (He NMBM_TRY_COUNT n). destruct (erase_tries _ _ _ _) as [ok n1]. by repeat case_if.
Qed.
Lemma retire_R s b : Rs s (retire g s b).
Proof. apply R_markbad. Qed.

Lemma erase_range_R k s ba : Rs s (erase_range g p k s ba).
Proof.
  revert s ba. induction k as [|k IH]; intros [n ni] ba; [done|]. cbn [erase_range].
  case_if; [exact (IH (n, ni) _)|]. case_if; [exact (IH (n, mark_bad ni ba) _)|].
  pose proof (erase_check_R n ba) as He. destruct (nmbm_erase_block_and_check _ _ _ _) as [ok n1]. cbn in He.
  destruct ok; (etrans; [exact He|]); [exact (IH (n1, ni) _)|].
  etrans; [exact (retire_R (n1, ni) ba)|apply IH].
Qed.
Lemma write_mgmt_R k s ba data start : Rs s (snd (write_mgmt g p k s ba data start)).
Proof.
  revert s ba data start. induction k as [|k IH]; intros [n ni] ba data start; cbn [write_mgmt]; [by case_if|].
  case_if; [done|]. cbv zeta. case_if; [exact (IH (n, ni) _ _ _)|]. case_if; [exact (IH (n, mark_bad ni ba) _ _ _)|].
  pose proof (erase_check_R n ba) as He. destruct (nmbm_erase_block_and_check _ _ _ _) as [ok n1]. cbn in He.
  destruct ok; cbn [negb]; (etrans; [exact He|]).
  2: { etrans; [exact (retire_R (n1, ni) ba)|apply IH]. }
  unfold nmbn_write_verify_data. set (chunk := take _ data).
  pose proof (write_data_R (S (length chunk)) n1 (ba2addr g ba) chunk) as Hw.
  destruct (write_data _ _ _ _ _ _) as [ok n2]. cbn in Hw.
  destruct ok; cbn [negb]; (etrans; [exact Hw|]); [exact (IH (n2, ni) _ _ _)|].
  etrans; [exact (retire_R (n2, ni) ba)|apply IH].
Qed.
Lemma write_table_R s ba limit : Rs s (snd (nmbm_write_info_table g p s ba limit)).
Proof. apply write_mgmt_R. Qed.
Lemma write_down_R k s ba : Rs s (snd (write_down g p k s ba)).
Proof.
  revert s ba. induction k as [|k IH]; intros s ba; cbn [write_down]; [done|].
  pose proof (write_table_R s ba (mapping_blocks_top_ba (lay (snd s)))) as Hw.
  destruct (nmbm_write_info_table _ _ _ _ _) as [[r|] s1]; [done|]. by etrans; [|apply IH].
Qed.

(** Follow the writes of a step, one after the other. *)
Ltac follow :=
  repeat (match goal with
  | |- context [nmbm_write_info_table g p ?s ?a ?b] =>
      let Hw := fresh "Hw" in
      pose proof (write_table_R s a b) as Hw;
      destruct (nmbm_write_info_table g p s a b) as [[[? ?]|] ?]; cbn [snd] in Hw
  | |- context [write_down g p ?k ?s ?a] =>
      let Hw := fresh "Hw" in
      pose proof (write_down_R k s a) as Hw;
      destruct (write_down g p k s a) as [[[? ?]|] ?]; cbn [snd] in Hw
  | |- context [match reserve ?g ?ni ?a with _ => _ end] => destruct (reserve g ni a)
  | |- context [if ?b then _ else _] => destruct b
  end; cbn [fst snd]).
Ltac chain :=
  follow; cbn [fst snd with_tables with_lay clean] in *;
  repeat (first [done | etrans; [eassumption|]]).

Lemma rebuild_backup_R s a en : Rs s (rebuild_backup g p s a en).
Proof. unfold rebuild_backup. chain. etrans; [|apply erase_range_R]. done. Qed.
Lemma rebuild_R s : Rs s (snd (nmbm_rebuild_info_table g p s)).
Proof. unfold nmbm_rebuild_info_table. cbv zeta. chain. etrans; [|apply rebuild_backup_R]. done. Qed.
Lemma rescue_backup_R s a en : Rs s (rescue_backup g p s a en).
Proof. unfold rescue_backup, write_table_down. cbv zeta. chain. etrans; [|apply erase_range_R]. done. Qed.
Lemma rescue_main_R s : Rs s (snd (nmbm_rescue_main_info_table g p s)).
Proof.
  unfold nmbm_rescue_main_info_table, write_table_down. cbv zeta. chain. etrans; [|apply rescue_backup_R]. done.
Qed.
Lemma write_main_R s limit : Rs s (snd (write_main_table g p s limit)).
Proof.
  unfold write_main_table. cbv zeta. case_if; [apply rebuild_R|]. chain; [apply rebuild_R|apply rescue_main_R].
Qed.
End chip.

(** * A chip that loses its power *)

(** While there is power operations succeed and do what they are for; without it
    they change nothing. Reads tell what is on the chip when it has power again. *)
Section power.
Context {N : Type} `{NandChip N}.
Variable crc32_le : Z -> list Z -> Z.
Variable g : geometry.
Variable p : nmbm_params.
Variable alive : N -> bool.

Definition stopped (n n' : N) : Prop :=
  alive n = false -> alive n' = false /\ keeps_blocks g (fun _ => True) n n'.
#[export] Instance stopped_preorder : PreOrder stopped.
Proof.
  split; [intros n; by split|]. intros a b c H1 H2 Ha. destruct (H1 Ha) as [Hb K1].
  destruct (H2 Hb) as [Hc K2]. split; [done|]. by etrans.
Qed.

Class PowerChip : Prop := {
  off_write : forall n a data, stopped n (snd (chip_write n a data 0 []));
  off_erase : forall n b, stopped n (snd (chip_erase n (ba2addr g b) (erasesize g)));
  off_markbad : forall n b, stopped n (snd (chip_markbad n (ba2addr g b)));
  on_write : forall n a data ret rl orl n', aligned g a -> Z.of_nat (length data) = pg_size g ->
    chip_write n a data 0 [] = (ret, rl, orl, n') -> alive n' = true ->
    ret = 0 /\ page g n' a = mk_read 0 (pg_size g) 0 data [];
  on_erase : forall n b ret n', chip_erase n (ba2addr g b) (erasesize g) = (ret, n') -> alive n' = true ->
    ret = 0 /\ forall a, aligned g a -> a / blk_size g = b -> rd_ret (page g n' a) = 0
}.
Context {Hpow : PowerChip}.
Context {Hloc : LocalChip g}.
Hypothesis Hg : nmbm_geometry g.

#[local] Abbreviation nstate := (N * nmbm_instance)%type.
#[local] Abbreviation blk := (Z.to_nat (blk_size g)).

Lemma alive_before n n' : stopped n n' -> alive n' = true -> alive n = true.
Proof. intros Hs Ha. destruct (alive n) eqn:E; [done|]. destruct (Hs E). congruence. Qed.

(** ** With power until the end, everything succeeded *)

Lemma on_page n a d rl : page g n a = mk_read 0 rl 0 d [] -> nmbm_read_phys_page g p n a = (0, d).
Proof. unfold page, nmbm_read_phys_page. intros E. cbn [read_tries NMBM_TRY_COUNT]. by rewrite E. Qed.

Lemma on_write_tries k n a data n' :
  aligned g a -> Z.of_nat (length data) = pg_size g -> (0 < k)%nat ->
  snd (write_tries k n a data) = n' -> alive n' = true ->
  fst (write_tries k n a data) = true /\ page g n' a = mk_read 0 (pg_size g) 0 data [].
Proof.
  intros Ha Hl Hk. destruct k as [|k]; [lia|]. cbn [write_tries].
  destruct (chip_write n a data 0 []) as [[[ret rl] orl] n1] eqn:Ew.
  destruct (Z.eqb_spec ret 0) as [->|Hne]; intros <- Hal.
  - split; [done|]. by eapply on_write.
  - assert (alive n1 = true) as H1.
    { eapply alive_before, Hal. apply (write_tries_R stopped), off_write. }
    by destruct (on_write n a data ret rl orl n1 Ha Hl Ew H1).
Qed.
Lemma on_write_check n a pg leading chunk n' ok :
  aligned g a -> Z.of_nat (length pg) = pg_size g -> take (length chunk) (drop leading pg) = chunk ->
  write_check_page g p n a pg leading chunk = (ok, n') -> alive n' = true -> ok = true.
Proof.
  intros Ha Hl Hc. unfold write_check_page, nmbm_write_phys_page.
  pose proof (on_write_tries NMBM_TRY_COUNT n a pg) as Hw.
  destruct (write_tries _ _ _ _) as [ok1 n1]. cbn [fst snd] in Hw.
  intros E Hal. assert (n1 = n') as ->.
  { destruct ok1; cbn [negb] in E; [|congruence]. destruct (nmbm_read_phys_page _ _ _ _). case_if_in E; congruence. }
  destruct (Hw n' Ha Hl) as [-> Hp]; [unfold NMBM_TRY_COUNT; lia|done|done|]. cbn [negb] in E.
  rewrite (on_page _ _ _ _ Hp) in E. cbn in E. rewrite bool_decide_true in E by done. congruence.
Qed.
Lemma on_write_data fuel n off data n' ok :
  (length data < fuel)%nat -> write_data g p fuel n off data = (ok, n') -> alive n' = true -> ok = true.
Proof.
  revert n off data. induction fuel as [|fuel IH]; intros n off data Hf; [lia|]. cbn [write_data].
  destruct (Nat.eqb_spec (length data) 0) as [E0|E0]; [congruence|]. rewrite land_page by done. cbv zeta.
  pose proof (pg_size_bounds g Hg) as Hpg. pose proof (Z.mod_pos_bound off (pg_size g) ltac:(lia)) as Hmod.
  set (leading := off mod pg_size g) in *. set (cs := Z.to_nat (Z.min _ _)).
  assert (length (take cs data) = cs) as Hcs by (rewrite length_take; lia).
  assert (0 < cs)%nat by lia.
  destruct (write_check_page _ _ _ _ _ _ _) as [ok1 n1] eqn:Ew. intros E Hal.
  assert (alive n1 = true) as H1.
  { destruct ok1; [|congruence]. eapply alive_before; [|exact Hal].
    pose proof (write_data_R g p stopped off_write fuel n1 (off + Z.of_nat cs) (drop cs data)) as Hr.
    by rewrite E in Hr. }
  assert (ok1 = true) as ->.
  { eapply (on_write_check n _ _ (Z.to_nat leading) (take cs data)); [| | |exact Ew|exact H1].
    - by apply base_aligned.
    - rewrite splice_length; rewrite length_replicate; lia.
    - apply splice_at. rewrite length_replicate. lia. }
  eapply (IH n1 (off + Z.of_nat cs) (drop cs data)); [rewrite length_drop; lia|exact E|done].
Qed.
Lemma page_offsets_in off : off ∈ page_offsets g -> off mod pg_size g = 0 /\ 0 <= off < blk_size g.
Proof.
  pose proof (pg_size_bounds g Hg). unfold page_offsets. intros Hin. apply list_elem_of_In, in_map_iff in Hin as (i & <- & Hi).
  apply in_seq in Hi. split; [apply Z.mod_mul; lia|].
  pose proof (Z.mul_div_le (blk_size g) (pg_size g) ltac:(lia)). nia.
Qed.
Lemma on_erase_check n b n' ok :
  nmbm_erase_block_and_check g p n b = (ok, n') -> alive n' = true -> ok = true.
Proof.
  unfold nmbm_erase_block_and_check, nmbm_erase_phys_block, NMBM_TRY_COUNT. cbn [erase_tries].
  destruct (chip_erase n (ba2addr g b) (erasesize g)) as [ret n1] eqn:Ee.
  intros E Hal. assert (alive n1 = true) as H1.
  { destruct (ret =? 0).
    - cbn [negb] in E. by repeat case_if_in E; simplify_eq.
    - destruct (alive n1) eqn:Ed; [done|]. exfalso.
      pose proof (off_erase n1 b Ed) as [D1 _]. destruct (chip_erase n1 _ _) as [ret1 n2]. cbn in D1.
      pose proof (off_erase n2 b D1) as [D2 _]. destruct (chip_erase n2 _ _) as [ret2 n3]. cbn in D2.
      repeat case_if_in E; cbn in *; simplify_eq; congruence. }
  destruct (on_erase n b ret n1 Ee H1) as [-> Hp]. cbn [Z.eqb negb] in E. case_if_in E; [congruence|].
  injection E as <- <-. apply negb_true_iff, not_true_iff_false. intros Hex.
  apply existsb_exists in Hex as (off & Hin & Hr). apply list_elem_of_In, page_offsets_in in Hin as [O1 O2].
  specialize (Hp (ba2addr g b + off)). unfold nmbm_read_phys_page, page in *. cbn [read_tries NMBM_TRY_COUNT] in Hr.
  rewrite Hp in Hr; [done| |apply in_block; [done|lia]].
  unfold aligned. rewrite Zplus_mod, O1, Z.add_0_r, Zmod_mod. by apply block_aligned.
Qed.

(** Blocks that can take [cnt] blocks of data. *)
Definition usable (s : nstate) (ba : Z) (cnt : nat) : Prop :=
  forall b, ba <= b < ba + Z.of_nat cnt ->
    nmbm_get_block_state (snd s) b = BLOCK_ST_GOOD /\ chip_isbad (fst s) (ba2addr g b) = 0.

Lemma on_write_mgmt k cnt s ba data start r s' :
  usable s ba cnt -> (cnt <= k)%nat -> Z.of_nat (length data) <= Z.of_nat cnt * blk_size g ->
  data <> [] \/ is_Some start -> 0 <= ba ->
  write_mgmt g p k s ba data start = (r, s') -> alive (fst s') = true -> is_Some r.
Proof.
  pose proof (block_pos g Hg) as Hbp.
  revert k s ba data start. induction cnt as [|cnt IH]; intros k s ba data start Hu Hk Hl Hst H0.
  all: assert (data = [] -> write_mgmt g p k s ba data start = (r, s') -> is_Some r) as Hnil
    by (intros ->; destruct Hst as [?|[b ->]]; [done|]; destruct k; cbn; intros [= <- <-]; by eexists).
  { intros Hw _. apply Hnil; [|done]. destruct data; [done|]. cbn in Hl. lia. }
  destruct data as [|x data]; [intros Hw _; by apply Hnil|]. clear Hnil.
  destruct k as [|k]; [lia|]. set (d := x :: data) in *. cbn [write_mgmt]. change (length d =? 0)%nat with false.
  destruct s as [n ni]. cbv zeta. destruct (Hu ba) as [Hgood Hbad]; [lia|]. cbn [fst snd] in *.
  rewrite Hgood, Z.eqb_refl. cbn [negb]. unfold nmbm_check_bad_phys_block. rewrite Hbad. cbn [Z.eqb negb].
  destruct (nmbm_erase_block_and_check _ _ _ _) as [ok n1] eqn:Ee.
  destruct (nmbn_write_verify_data _ _ _ _ _) as [ok2 n2] eqn:Ew.
  intros Hw Hal.
  assert (forall s1 d' st, write_mgmt g p k s1 (ba + 1) d' st = (r, s') -> alive (fst s1) = true) as Hbefore.
  { intros s1 d' st E. eapply alive_before; [|exact Hal].
    pose proof (write_mgmt_R g p stopped off_write off_erase off_markbad k s1 (ba + 1) d' st) as Hr.
    by rewrite E in Hr. }
  assert (forall n3, alive (fst (retire g (n3, ni) ba)) = true -> alive n3 = true) as Hret.
  { intros n3 E. eapply alive_before; [|exact E]. apply off_markbad. }
  destruct ok; cbn [negb] in Hw.
  2: { apply Hbefore, Hret in Hw. by pose proof (on_erase_check n ba n1 false Ee Hw). }
  destruct ok2; cbn [negb] in Hw.
  2: { apply Hbefore, Hret in Hw. unfold nmbn_write_verify_data in Ew.
       eapply on_write_data in Ew; [done|lia|done]. }
  pose proof (erase_check_local g p n ba) as K1. rewrite Ee in K1.
  pose proof (write_block_local g p Hg n1 ba (take blk d)) as K2. rewrite Ew in K2.
  eapply (IH k (n2, ni) (ba + 1) (drop blk d)); [|lia| |right; by eexists|lia|exact Hw|exact Hal].
  - intros b Hb. destruct (Hu b) as [G1 G2]; [lia|]. split; [done|]. cbn [fst snd] in *.
    rewrite (kb_bad g _ _ _ (K2 ltac:(rewrite length_take; lia))), (kb_bad g _ _ _ K1); [done|lia|lia].
  - rewrite length_drop. lia.
Qed.
Lemma on_write_range s ba limit data cnt r s' :
  usable s ba cnt -> ba + Z.of_nat cnt <= limit -> Z.of_nat (length data) <= Z.of_nat cnt * blk_size g ->
  data <> [] -> 0 <= ba ->
  nmbm_write_mgmt_range g p s ba limit data = (r, s') -> alive (fst s') = true -> is_Some r.
Proof. intros Hu Hl Hd Hn H0. unfold nmbm_write_mgmt_range. eapply on_write_mgmt; eauto. lia. Qed.

(** ** One update *)

#[local] Abbreviation top s := (mapping_blocks_top_ba (lay (snd s))).
#[local] Abbreviation main s := (main_table_ba (lay (snd s))).
#[local] Abbreviation backup s := (backup_table_ba (lay (snd s))).

Lemma rescue_main_true (s : nstate) : fst (nmbm_rescue_main_info_table g p s) = true.
Proof.
  unfold nmbm_rescue_main_info_table. cbv zeta. destruct (reserve _ _ _); [|done].
  destruct (write_table_down _ _ _ _) as [[[? ?]|] ?]; [|done].
  destruct (nmbm_write_info_table _ _ _ _ _) as [[[? ?]|] ?]; [by case_if|done].
Qed.
(** With a main table and a new backup, the main table is written or rescued. *)
Lemma write_main_true (s : nstate) limit :
  main s <> 0 -> backup s <> 0 -> fst (write_main_table g p s limit) = true.
Proof.
  intros Hm Hb. unfold write_main_table. cbv zeta. destruct (Z.eqb_spec (main s) 0); [done|].
  destruct (nmbm_write_info_table _ _ _ _ _) as [[[? ?]|] ?]; [done|].
  destruct (Z.eqb_spec (backup s) 0); [done|]. apply rescue_main_true.
Qed.

(** An update that fails stopped at the backup, before it touched the main table. *)
Lemma once_false (s : nstate) force :
  main s <> 0 -> 0 < backup s ->
  fst (nmbm_update_info_table_once crc32_le g p s force) = false ->
  let '(r, s2) := nmbm_write_info_table g p (generated crc32_le g s) (backup s) (top s) in
  r = None /\ (stopped (fst s2) (fst (snd (nmbm_update_info_table_once crc32_le g p s force)))).
Proof.
  intros Hm Hb. unfold nmbm_update_info_table_once, generated. rewrite generate_eq. cbv zeta. cbn [fst snd].
  set (ni1 := set_cache _ _ _). change (lay ni1) with (lay (snd s)). set (s1 := (fst s, ni1)).
  case_if; [done|]. destruct (Z.eqb_spec (backup s) 0); [lia|].
  pose proof (wr_stored _ _ _ _ _ _ _ _ (write_range_wrote g p Hg s1 (backup s) (top s) (info_table_cache ni1) ltac:(lia))) as Hw.
  unfold nmbm_write_info_table in *. change (snd s1) with ni1.
  destruct (nmbm_write_mgmt_range _ _ _ _ _ _) as [[[a en]|] s2]; cbn [fst] in Hw.
  - destruct (Hw a en eq_refl) as (? & _). rewrite write_main_true; [done|done|]. cbn. lia.
  - intros _. split; [done|].
    set (s3 := with_tables s2 _ _ _). change (fst s2) with (fst s3).
    apply (write_main_R g p stopped off_write off_erase off_markbad).
Qed.

(** C29: Power-loss safety of an update. The main table [old] is on the chip and the
    blocks of the backup are good; the power may go at any operation of
    [nmbm_update_info_table_once], which may leave anything in its page or block.
    Afterwards the old table or the whole new one is on the chip. *)
Theorem power_loss_keeps_a_table (s : nstate) force old en cnt :
  layout_ok s -> tables_wf g (snd s) -> Crc32 crc32_le ->
  main s <> 0 -> table_in g p s (main s) en old -> en <= backup s ->
  usable s (backup s) cnt -> info_table_size g <= Z.of_nat cnt * blk_size g ->
  backup s + Z.of_nat cnt <= top s ->
  let n' := fst (snd (nmbm_update_info_table_once crc32_le g p s force)) in
  let new := info_table_cache (snd (generated crc32_le g s)) in
  exists bl, stored g p n' bl old \/ stored g p n' bl new.
Proof.
  intros HL HW Hcrc Hm [Hlt [bl Hold]] Hen Hu Hsz Htop. cbv zeta.
  destruct (pending s || force) eqn:Ep.
  2: { unfold nmbm_update_info_table_once. rewrite generate_eq. cbn [fst snd]. fold (pending s).
       cbv zeta. rewrite <- negb_orb, Ep. cbn [negb fst snd]. exists bl. left. apply Hold. }
  pose proof (once_concludes crc32_le g p Hg s force HL Ep) as [_ S2].
  destruct HL as [L1 L2 L3]. assert (0 < main s) as Hm0 by lia.
  destruct (fst (nmbm_update_info_table_once _ _ _ _ _)) eqn:Eok.
  - destruct S2 as [(en' & [_ (bl' & T1)] & _) _ _]. exists bl'. right. apply T1.
  - apply once_false in Eok; [|done|lia].
    destruct (nmbm_write_info_table _ _ _ _ _) as [r s2] eqn:Ew. destruct Eok as [-> Hstop].
    pose proof Ew as Ew'. apply (write_table_spec g p Hg) in Ew' as (V1 & _ & _); [|lia].
    pose proof (generated_table crc32_le g Hg (snd s) HW) as [T1 _ _ _ _ _ _].
    assert (fst (generated crc32_le g s) = fst s /\
      block_state (snd (generated crc32_le g s)) = block_state (snd s)) as [C0 K0]
      by (unfold generated; by rewrite generate_eq).
    assert (stored g p (fst s2) bl old) as Hs2.
    { destruct Hold as [O1 _ _ O4]. eapply (stored_ext g p Hg); [apply (ev_chip _ _ _ _ _ V1)| |by rewrite C0].
      eapply Forall_impl; [exact O4|]. cbn. lia. }
    destruct (alive (fst s2)) eqn:Ea.
    + exfalso. unfold nmbm_write_info_table in Ew. eapply on_write_range with (cnt := cnt) in Ew; [|..|exact Ea].
      * by destruct Ew.
      * intros b Hb. unfold nmbm_get_block_state. rewrite C0, K0. by apply Hu.
      * done.
      * etrans; [|exact Hsz]. unfold generated. cbn [snd]. rewrite T1.
        destruct (offsets_ok g Hg) as (? & ? & ? & ?). pose proof (state_table_size_bounds g Hg).
        pose proof (gw_total g (ng_wf g Hg)). unfold INFO_HEADER_SIZE, mapping_table_size in *. lia.
      * intros E. unfold generated in E. cbn [snd] in E. rewrite E in T1. cbn in T1.
        destruct (offsets_ok g Hg) as (? & ? & ? & ?). pose proof (state_table_size_bounds g Hg).
        pose proof (gw_total g (ng_wf g Hg)). unfold INFO_HEADER_SIZE, mapping_table_size in *. lia.
      * lia.
    + destruct (Hstop Ea) as [_ Hk]. exists bl. left. eapply (stored_ext g p Hg); [exact Hk| |exact Hs2].
      by apply Forall_true.
Qed.
End power.

(** * Witness: the power goes at the second operation, after the block of the
    backup was erased *)

#[local] Instance power_chip : NandChip sim := sim_chip [].
Definition sim_alive (n : sim) : bool := (0 <? sim_power n)%nat.
#[export] Instance sim_power_chip : PowerChip sample_geometry sim_alive.
Proof.
  assert (forall n done torn ok n', sim_step n done torn true = (ok, n') -> sim_alive n' = true ->
    ok = true /\ sim_page n' = done) as Hon.
  { intros n dn torn ok n'. unfold sim_step, sim_alive. destruct (sim_power n) as [|[|k]] eqn:E;
      intros [= <- <-]; cbn [sim_power sim_page]; rewrite ?E; done. }
  assert (forall n done torn ok, sim_alive n = false -> snd (sim_step n done torn ok) = n) as Hoff.
  { intros n dn torn ok. unfold sim_step, sim_alive. by destruct (sim_power n). }
  split; unfold stopped; cbn [chip_write chip_erase chip_markbad power_chip sim_chip].
  - intros n a data Ha. pose proof (Hoff n (set_page n a data) (set_page n a []) true Ha) as Ho.
    destruct (sim_step _ _ _ _) as [ok n']. cbn in *. by subst.
  - intros n b Ha. pose proof (Hoff n (set_block n (sim_block (ba2addr sample_geometry b)) (replicate 64 255))
      (set_block n (sim_block (ba2addr sample_geometry b)) [])
      (negb (existsb (Z.eqb (sim_block (ba2addr sample_geometry b))) [])) Ha) as Ho.
    destruct (sim_step _ _ _ _) as [ok n']. cbn in *. by subst.
  - intros n b Ha. unfold sim_alive in *. destruct (sim_power n) eqn:E; [|done]. cbn [snd]. by rewrite E.
  - intros n a data ret rl orl n' _ Hl E Ha. destruct (sim_step _ _ _ _) as [ok n1] eqn:Es.
    injection E as <- <- <- <-. apply Hon in Es as [-> Hp]; [|done]. split; [done|].
    unfold page. cbn [chip_read power_chip sim_chip]. rewrite Hp. unfold set_page. by rewrite Z.eqb_refl.
  - intros n b ret n' E Ha. destruct (sim_step _ _ _ _) as [ok n1] eqn:Es.
    injection E as <- <-. apply Hon in Es as [-> Hp]; done.
Qed.

Lemma sample_main power :
  table_in sample_geometry sample_params (sample_state power) 24 25 (info_table_cache sample_ni).
Proof.
  split; [lia|]. exists [24]. split; [|by repeat constructor|done|].
  - split; [done|]. split; vm_compute; reflexivity.
  - constructor; [|constructor]. split; [lia|]. vm_compute. reflexivity.
Qed.
Lemma sample_usable power : usable sample_geometry (sample_state power) 27 1.
Proof. intros b Hb. assert (b = 27) as -> by lia. split; vm_compute; reflexivity. Qed.

Lemma power_loss_keeps_a_table_witness :
  let n' := fst (snd (nmbm_update_info_table_once sample_crc sample_geometry sample_params (sample_state 2) false)) in
  let new := info_table_cache (snd (generated sample_crc sample_geometry (sample_state 2))) in
  sim_alive n' = false /\
  exists bl, stored sample_geometry sample_params n' bl (info_table_cache sample_ni) \/
             stored sample_geometry sample_params n' bl new.
Proof.
  split; [vm_compute; reflexivity|].
  pose proof (power_loss_keeps_a_table sample_crc sample_geometry sample_params sim_alive sample_geometry_ok
    (sample_state 2) false (info_table_cache sample_ni) 25 1 (sample_layout 2) sample_wf sample_crc_ok) as Hp.
  assert (info_table_size sample_geometry <= Z.of_nat 1 * blk_size sample_geometry) as Hs by (vm_compute; discriminate).
  assert (main_table_ba (lay (snd (sample_state 2))) <> 0) as Hm by (vm_compute; discriminate).
  assert (25 <= backup_table_ba (lay (snd (sample_state 2)))) as Hb by (vm_compute; discriminate).
  assert (backup_table_ba (lay (snd (sample_state 2))) + Z.of_nat 1 <=
          mapping_blocks_top_ba (lay (snd (sample_state 2)))) as Ht by (vm_compute; discriminate).
  exact (Hp Hm (sample_main 2) Hb (sample_usable 2) Hs Ht).
Defined.
