(* ===== verification/NmbmMap.v ===== *)
(** mtk_bmt: mapping a block to a spare one. The blocks of the data stay apart as
    long as the highest free spare block is good ([map_block_keeps_apart]); when it
    is not, two blocks are given the same one ([map_block_doubles]). Remapping
    touches the blocks from the start of the management area to the highest free
    spare block and nothing else. *)
From S2P Require Import Prelude CNum Bytes BmtFlash BmtCore NmbmTable NmbmCache NmbmFlash NmbmLocal NmbmMgmt NmbmUpdate NmbmAttach NmbmSample NmbmKeep NmbmRounds.
Open Scope Z_scope.
Open Scope list_scope.

Section map.
Context {N : Type} `{NandChip N}.
Variable crc32_le : Z -> list Z -> Z.
Variable g : geometry.
Variable p : nmbm_params.
Hypothesis Hg : nmbm_geometry g.

#[local] Abbreviation nstate := (N * nmbm_instance)%type.
#[local] Abbreviation top ni := (mapping_blocks_top_ba (lay ni)).
#[local] Abbreviation low ni := (mapping_blocks_ba (lay ni)).
#[local] Abbreviation mgmt ni := (mgmt_start_ba (lay ni)).

(** There are free spare blocks: those above [low] up to [top]. *)
Record spare_ok (ni : nmbm_instance) : Prop := {
  so_mgmt : mgmt ni <= low ni;
  so_low : 0 <= low ni < top ni;
  so_top : top ni < total_blks g
}.
(** No block is given twice, and those of the tables and the free ones are not
    given. *)
Record apart (ni : nmbm_instance) : Prop := {
  ap_distinct : forall i j, 0 <= i < Z.of_nat (length (block_mapping ni)) ->
    0 <= j < Z.of_nat (length (block_mapping ni)) -> i <> j -> 0 <= map_get ni i ->
    map_get ni i <> map_get ni j;
  ap_free : forall i, 0 <= i < Z.of_nat (length (block_mapping ni)) ->
    ~ mgmt ni <= map_get ni i <= top ni
}.

Lemma walk_spare ni : spare_ok ni ->
  nmbm_block_walk g false ni (top ni) 0 (to_i32 (low ni)) =
  walk_desc (Z.to_nat (top ni - low ni)) ni (top ni) 0.
Proof.
  intros [_ H1 H2]. pose proof (gw_total g (ng_wf g Hg)).
  unfold nmbm_block_walk, nmbm_block_walk_desc, walk_limit.
  replace (u32 (to_i32 (low ni))) with (low ni).
  - destruct (Z.leb_spec (total_blks g) (low ni)); [lia|]. done.
  - rewrite to_i32_small by lia. by rewrite u32_small by lia.
Qed.
Lemma map_get_set ni lb pb c i :
  0 <= lb < Z.of_nat (length (block_mapping ni)) -> 0 <= i ->
  map_get (set_mapping ni (<[Z.to_nat lb := pb]> (block_mapping ni)) c) i =
  if i =? lb then pb else map_get ni i.
Proof.
  intros Hl Hi. unfold map_get. cbn [set_mapping block_mapping]. rewrite !nth_lookup.
  destruct (Z.eqb_spec i lb) as [->|Hne].
  - by rewrite list_lookup_insert_eq by lia.
  - by rewrite list_lookup_insert_ne by lia.
Qed.

(** What a mapping that succeeds does: the highest good spare block is taken, and
    the highest free one is the one below the highest free one before. *)
Lemma map_block_some s lb pb :
  spare_ok (snd s) -> nmbm_block_walk g false (snd s) (top (snd s)) 0 (to_i32 (low (snd s))) = Some pb ->
  nmbm_map_block crc32_le g p s lb =
    (true, (fst s, set_lay (set_mapping (snd s) (<[Z.to_nat lb := pb]> (block_mapping (snd s)))
                              (u32 (block_mapping_changed (snd s) + 1)))
                     (lay_top (lay (snd s)) (top (snd s) - 1)))).
Proof.
  intros [_ H1 H2] Hw. destruct s as [n ni]. cbn [fst snd] in *. unfold nmbm_map_block.
  destruct (Z.eqb_spec (low ni) (top ni)); [lia|]. rewrite Hw. pose proof (gw_total g (ng_wf g Hg)).
  cbv zeta. cbn [lay set_mapping]. by rewrite (u32_small (_ - 1)) by lia.
Qed.
Lemma walk_spare_good ni : spare_ok ni -> nmbm_get_block_state ni (top ni) = BLOCK_ST_GOOD ->
  nmbm_block_walk g false ni (top ni) 0 (to_i32 (low ni)) = Some (top ni).
Proof.
  intros Hs Hgood. rewrite walk_spare by done. destruct Hs as [_ H1 H2].
  replace (Z.to_nat (top ni - low ni)) with (S (Z.to_nat (top ni - low ni - 1))) by lia.
  cbn [walk_desc]. by rewrite Hgood, Z.eqb_refl.
Qed.

(** [apart] is about the mapping and the two ends of the spare area only. *)
Lemma apart_same (ni ni' : nmbm_instance) :
  block_mapping ni' = block_mapping ni -> mgmt ni' = mgmt ni -> top ni' = top ni -> apart ni -> apart ni'.
Proof. intros E1 E2 E3 [A1 A2]. unfold map_get in *. split; unfold map_get; rewrite ?E1, ?E2, ?E3; assumption. Qed.
Lemma map_block_apart s lb :
  spare_ok (snd s) -> apart (snd s) -> nmbm_get_block_state (snd s) (top (snd s)) = BLOCK_ST_GOOD ->
  0 <= lb < Z.of_nat (length (block_mapping (snd s))) ->
  let '(ok, s') := nmbm_map_block crc32_le g p s lb in
  ok = true /\ fst s' = fst s /\ apart (snd s') /\ map_get (snd s') lb = top (snd s) /\
  (forall i, 0 <= i -> i <> lb -> map_get (snd s') i = map_get (snd s) i).
Proof.
  intros Hs Ha Hgood Hlb. rewrite (map_block_some s lb (top (snd s))) by auto using walk_spare_good.
  set (ni' := set_mapping _ _ _).
  assert (forall i, 0 <= i -> map_get (set_lay ni' (lay_top (lay (snd s)) (top (snd s) - 1))) i =
    if i =? lb then top (snd s) else map_get (snd s) i) as Hget
    by (intros i Hi; by apply map_get_set).
  assert (length (block_mapping ni') = length (block_mapping (snd s))) as Hlen by apply length_insert.
  destruct Hs as [H0 H1 H2], Ha as [A1 A2]. split_and!; try done; cbn [snd].
  - split; cbn [block_mapping set_lay lay lay_top mgmt_start_ba mapping_blocks_top_ba]; rewrite Hlen.
    + intros i j Hi Hj Hij. rewrite !Hget by lia. pose proof (A2 i Hi). pose proof (A2 j Hj).
      destruct (Z.eqb_spec i lb), (Z.eqb_spec j lb); subst; try lia. intros Hp. by apply A1.
    + intros i Hi. rewrite Hget by lia. pose proof (A2 i Hi). destruct (Z.eqb_spec i lb); lia.
  - rewrite Hget by lia. by rewrite Z.eqb_refl.
  - intros i Hi Hne. rewrite Hget by done. by apply Z.eqb_neq in Hne as ->.
Qed.

(** C34: While the highest free spare block is good, [nmbm_map_block] succeeds
    without touching the chip, maps the block to that one and no other block
    differently, and no two blocks have the same physical one afterwards, nor one
    that is still free. *)
Theorem map_block_keeps_apart s lb :
  spare_ok (snd s) -> apart (snd s) -> nmbm_get_block_state (snd s) (top (snd s)) = BLOCK_ST_GOOD ->
  0 <= lb < Z.of_nat (length (block_mapping (snd s))) ->
  let '(ok, s') := nmbm_map_block crc32_le g p s lb in
  ok = true /\ fst s' = fst s /\ apart (snd s') /\ map_get (snd s') lb = top (snd s) /\
  (forall i, 0 <= i -> i <> lb -> map_get (snd s') i = map_get (snd s) i).
Proof. apply map_block_apart. Qed.

(** C35: When the highest free spare block is not good and the one below it is, two
    calls of [nmbm_map_block] map two blocks to the same physical block: the walk
    gave the block below, and the counter went down by one only. *)
Theorem map_block_doubles s lb1 lb2 :
  spare_ok (snd s) -> low (snd s) < top (snd s) - 1 ->
  nmbm_get_block_state (snd s) (top (snd s)) <> BLOCK_ST_GOOD ->
  nmbm_get_block_state (snd s) (top (snd s) - 1) = BLOCK_ST_GOOD ->
  0 <= lb1 < Z.of_nat (length (block_mapping (snd s))) ->
  0 <= lb2 < Z.of_nat (length (block_mapping (snd s))) -> lb1 <> lb2 ->
  let '(ok1, s1) := nmbm_map_block crc32_le g p s lb1 in
  let '(ok2, s2) := nmbm_map_block crc32_le g p s1 lb2 in
  ok1 = true /\ ok2 = true /\ map_get (snd s2) lb1 = top (snd s) - 1 /\ map_get (snd s2) lb2 = top (snd s) - 1.
Proof.
  intros Hs Hlow Hbad Hgood H1 H2 Hne. pose proof Hs as [S0 S1 S2].
  rewrite (map_block_some s lb1 (top (snd s) - 1)); [|done|].
  2: { rewrite walk_spare by done.
       replace (Z.to_nat (top (snd s) - low (snd s))) with (S (S (Z.to_nat (top (snd s) - low (snd s) - 2)))) by lia.
       cbn [walk_desc]. apply Z.eqb_neq in Hbad as ->. cbn [Z.ltb]. by rewrite Hgood, Z.eqb_refl. }
  set (s1 := (fst s, _)). assert (top (snd s1) = top (snd s) - 1) as E1 by done.
  assert (spare_ok (snd s1)) as Hs1 by (split; [exact S0|split; [apply S1|exact Hlow]|rewrite E1; lia]).
  rewrite (map_block_some s1 lb2 (top (snd s1))); [|done|by apply walk_spare_good].
  assert (length (block_mapping (snd s1)) = length (block_mapping (snd s))) as Hlen by apply length_insert.
  split_and!; try done; cbn [snd].
  - change (map_get (set_mapping (snd s1) (<[Z.to_nat lb2 := top (snd s1)]> (block_mapping (snd s1)))
      (u32 (block_mapping_changed (snd s1) + 1))) lb1 = top (snd s) - 1).
    rewrite map_get_set by lia. apply Z.eqb_neq in Hne as ->.
    change (map_get (set_mapping (snd s) (<[Z.to_nat lb1 := top (snd s) - 1]> (block_mapping (snd s)))
      (u32 (block_mapping_changed (snd s) + 1))) lb1 = top (snd s) - 1).
    rewrite map_get_set by lia. by rewrite Z.eqb_refl.
  - change (map_get (set_mapping (snd s1) (<[Z.to_nat lb2 := top (snd s1)]> (block_mapping (snd s1)))
      (u32 (block_mapping_changed (snd s1) + 1))) lb2 = top (snd s) - 1).
    rewrite map_get_set by lia. by rewrite Z.eqb_refl, E1.
Qed.

(** ** Remapping *)

Context {Hloc : LocalChip g}.
Context {Hcrc : Crc32 crc32_le}.
(** A read of a page returns no bytes or a page. *)
Hypothesis Hread : forall n a oob, rd_retlen (chip_read n a (pg_size g) 0 oob) = 0 \/
  rd_retlen (chip_read n a (pg_size g) 0 oob) = pg_size g.

Lemma copy_pages_local k n b src limit off :
  0 <= off -> off mod pg_size g = 0 -> off + Z.of_nat k * pg_size g <= blk_size g ->
  keeps_blocks g (fun b' => b' <> b) n (snd (copy_pages g k n (ba2addr g b) src limit off)).
Proof.
  pose proof (pg_size_bounds g Hg). revert n off. induction k as [|k IH]; intros n off Ho Hm Hk; [done|].
  cbn [copy_pages]. cbv zeta. case_if; [done|]. set (rd := chip_read _ _ _ _ _). case_if; [done|].
  destruct (Z.eqb_spec (rd_retlen rd) 0); [done|].
  assert (rd_retlen rd = pg_size g) as Hrl by (unfold rd in *; edestruct Hread; [done|eassumption]).
  assert (aligned g (ba2addr g b + off)) as Hal.
  { unfold aligned. rewrite Zplus_mod, Hm, Z.add_0_r, Zmod_mod. by apply block_aligned. }
  pose proof (fun a' => local_write g n (ba2addr g b + off) (rd_data rd) a' Hal) as Hw.
  pose proof (bad_write g n (ba2addr g b + off) (rd_data rd)) as Hb.
  destruct (chip_write _ _ _ _ _) as [[[ret rl] orl] n1]. cbn [snd] in Hw, Hb.
  assert (keeps_blocks g (fun b' => b' <> b) n n1) as Hk1.
  { split; [|done]. intros a Ha Hne. apply Hw; [done|]. intros ->. destruct Hne. apply in_block; [done|].
    pose proof (Z.mul_nonneg_nonneg (Z.of_nat k) (pg_size g)). lia. }
  case_if; [done|]. etrans; [exact Hk1|]. rewrite Hrl. apply IH; [lia| |lia].
  rewrite <- Zplus_mod_idemp_r, Z.mod_same, Z.add_0_r by lia. done.
Qed.
Lemma bbt_copy_local n b src limit :
  keeps_blocks g (fun b' => b' <> b) n (snd (bbt_nand_copy g n b src limit)).
Proof.
  unfold bbt_nand_copy. pose proof (pg_size_bounds g Hg).
  assert (Z.shiftr (blk_size g) (pg_shift g) = blk_size g / pg_size g) as ->
    by (rewrite Z.shiftr_div_pow2, (ng_page g Hg) by (pose proof (ng_shift g Hg); lia); done).
  apply copy_pages_local; [lia|apply Z.mod_0_l; lia|].
  assert (0 <= blk_size g / pg_size g) by (apply Z.div_pos; lia).
  pose proof (Z.mul_div_le (blk_size g) (pg_size g) ltac:(lia)). lia.
Qed.
Lemma bbt_erase_local n b : keeps_blocks g (fun b' => b' <> b) n (snd (bbt_nand_erase g n b)).
Proof.
  unfold bbt_nand_erase. rewrite <- (gw_erase g (ng_wf g Hg)).
  split; intros; [by apply local_erase|by apply bad_erase].
Qed.

Lemma mapped_attached (s : nstate) lb pb c l :
  attached g s -> - 2 ^ 31 <= pb < 2 ^ 31 ->
  mgmt_start_ba l = mgmt_start_ba (lay (snd s)) -> main_table_ba l = main_table_ba (lay (snd s)) ->
  backup_table_ba l = backup_table_ba (lay (snd s)) ->
  attached g (fst s, set_lay (set_mapping (snd s) (<[lb := pb]> (block_mapping (snd s))) c) l).
Proof.
  intros [[L1 L2 L3] [W1 W2 W3 W4 W5 W6 W7]] Hpb E1 E2 E3. split.
  - split; cbn; by rewrite ?E1, ?E2, ?E3.
  - split; try done; cbn [set_lay set_mapping block_mapping snd].
    + by rewrite length_insert.
    + by apply Forall_insert.
Qed.

(** What is said of a remapping: an attached state, and only the management area
    and the spare blocks up to [hi] were touched. *)
Definition remaps (s s' : nstate) : Prop :=
  attached g s' /\
  keeps_blocks g (fun b => b < mgmt_start_ba (lay (snd s)) \/ top (snd s) < b) (fst s) (fst s').

Lemma updated_remaps (s s1 : nstate) :
  attached g s1 -> mgmt_start_ba (lay (snd s1)) = mgmt_start_ba (lay (snd s)) -> top (snd s1) <= top (snd s) ->
  keeps_blocks g (fun b => b < mgmt_start_ba (lay (snd s)) \/ top (snd s) < b) (fst s) (fst s1) ->
  remaps s (snd (updated crc32_le g p s1)).
Proof.
  intros Ha Em Et Hk. destruct (updated_confined crc32_le g p Hg s1 Ha) as [C1 C2 _ _ _].
  split; [done|]. etrans; [exact Hk|]. eapply keeps_blocks_weaken; [|exact C2]. cbn. rewrite Em. lia.
Qed.

(** The block that was taken is erased and the data copied into it. *)
Definition copied (n : N) (pb mapped_block copy_len : Z) : N :=
  let n := snd (bbt_nand_erase g n (u16 pb)) in
  if 0 <? copy_len then snd (bbt_nand_copy g n (u16 pb) mapped_block copy_len) else n.
Lemma copied_local n pb mapped_block copy_len :
  0 <= pb < 65536 -> keeps_blocks g (fun b => b <> pb) n (copied n pb mapped_block copy_len).
Proof.
  intros Hpb. unfold copied. cbv zeta. rewrite u16_small by done. etrans; [apply bbt_erase_local|].
  case_if; [apply bbt_copy_local|done].
Qed.
Lemma remap_eq s block mapped_block copy_len :
  block < data_block_count (lay (snd s)) ->
  remap_block_nmbm crc32_le g p s block mapped_block copy_len =
  let '(ok, s1) := nmbm_map_block crc32_le g p (fst s, mark_bad (snd s) mapped_block) block in
  if negb ok then (false, s1)
  else (true, snd (updated crc32_le g p (copied (fst s1) (map_get (snd s1) block) mapped_block copy_len, snd s1))).
Proof.
  intros Hb. unfold remap_block_nmbm, copied. destruct (Z.leb_spec (data_block_count (lay (snd s))) block); [lia|].
  cbv zeta. destruct (nmbm_map_block _ _ _ _ _) as [ok s1]. case_if; [done|].
  by destruct (bbt_nand_erase g (fst s1) _).
Qed.
Lemma marked_bad_ok (s : nstate) mapped_block :
  attached g s -> attached g (fst s, mark_bad (snd s) mapped_block).
Proof.
  intros [[] ?]. destruct (set_block_state_frame (snd s) mapped_block BLOCK_ST_BAD) as (_ & _ & _ & _ & _ & L & _).
  fold (mark_bad (snd s) mapped_block) in L. split; [split; cbn [snd]; by rewrite L|by apply mark_bad_wf].
Qed.
Lemma attached_chip (n : N) (s : nstate) : attached g s -> attached g (n, snd s).
Proof. by intros [[] ?]. Qed.

(** No spare block is left: the tables are written, and that is noted. *)
Lemma map_block_none s lb :
  attached g s -> spare_ok (snd s) ->
  nmbm_block_walk g false (snd s) (top (snd s)) 0 (to_i32 (low (snd s))) = None ->
  let '(ok, s') := nmbm_map_block crc32_le g p s lb in
  ok = false /\ block_mapping (snd s') = block_mapping (snd s) /\ remaps s s'.
Proof.
  intros Ha [_ S1 S2] Hw. destruct s as [n ni]. unfold nmbm_map_block. cbn [snd] in *.
  destruct (Z.eqb_spec (low ni) (top ni)); [lia|]. rewrite Hw. cbv zeta. split; [done|].
  split; [apply (cf_mapping _ _ _ _ _ (updated_confined crc32_le g p Hg (n, ni) Ha))|].
  destruct (updated_remaps (n, ni) (n, ni) Ha eq_refl ltac:(cbn; lia) ltac:(done)) as [[[] []] U2].
  split; [|done]. split; by split.
Qed.

(** The chip and the mapping after a remapping, but for the block itself. *)
Lemma remap_remaps s block mapped_block copy_len :
  attached g s -> spare_ok (snd s) -> 0 <= block < total_blks g -> block < data_block_count (lay (snd s)) ->
  let '(ok, s') := remap_block_nmbm crc32_le g p s block mapped_block copy_len in
  remaps s s' /\ (ok = true -> low (snd s) < map_get (snd s') block <= top (snd s)) /\
  (forall i, 0 <= i -> i <> block -> map_get (snd s') i = map_get (snd s) i).
Proof.
  intros Ha Hs Hb Hb'. rewrite remap_eq by done.
  apply (marked_bad_ok s mapped_block) in Ha as Ha0. set (s0 := (fst s, mark_bad (snd s) mapped_block)) in *.
  assert (lay (snd s0) = lay (snd s)) as L0 by apply set_block_state_frame.
  assert (block_mapping (snd s0) = block_mapping (snd s)) as B0 by apply set_block_state_frame.
  assert (spare_ok (snd s0)) as Hs0 by (destruct Hs; split; by rewrite L0).
  pose proof (map_block_none s0 block Ha0 Hs0) as Hnone.
  destruct (nmbm_block_walk g false (snd s0) (top (snd s0)) 0 (to_i32 (low (snd s0)))) as [pb|] eqn:Ew.
  2: { specialize (Hnone eq_refl). destruct (nmbm_map_block _ _ _ _ _) as [ok s1].
       destruct Hnone as (-> & Hm & [R1 R2]). cbn [negb]. rewrite L0 in R2. split; [done|]. split; [done|].
       intros i _ _. unfold map_get. by rewrite Hm, B0. }
  rewrite (map_block_some s0 block pb Hs0 Ew). cbn [negb]. set (s1 := (fst s0, _)).
  rewrite walk_spare in Ew by done. apply walk_desc_spec in Ew as (W1 & _ & _). rewrite L0 in W1.
  destruct Hs as [S0 S1 S2]. pose proof (gw_total g (ng_wf g Hg)) as Ht.
  assert (0 <= block < Z.of_nat (length (block_mapping (snd s0)))) as Hbl
    by (rewrite (tw_mapping g _ (at_tables g s0 Ha0)); done).
  assert (forall i, 0 <= i -> map_get (snd s1) i = if i =? block then pb else map_get (snd s0) i) as Hget
    by (intros i Hi; exact (map_get_set (snd s0) block pb _ i Hbl Hi)).
  assert (map_get (snd s1) block = pb) as Epb by (rewrite Hget, Z.eqb_refl; lia).
  assert (attached g s1) as Ha1 by (apply (mapped_attached s0); done || lia).
  rewrite Epb. set (s2 := (copied (fst s1) pb mapped_block copy_len, snd s1)).
  assert (attached g s2) as Ha2 by by apply attached_chip.
  pose proof (updated_confined crc32_le g p Hg s2 Ha2) as [_ _ Um _ _].
  assert (forall i, map_get (snd (snd (updated crc32_le g p s2))) i = map_get (snd s1) i) as Hm
    by (intros i; unfold map_get; by rewrite Um).
  split; [|split].
  - assert (mgmt (snd s2) = mgmt (snd s0)) as E1 by done.
    assert (top (snd s2) = top (snd s0) - 1) as E2 by done. rewrite L0 in E1, E2.
    apply updated_remaps; [done|done|lia|].
    eapply keeps_blocks_weaken; [|apply copied_local; lia]. cbn. lia.
  - intros _. rewrite Hm, Epb. lia.
  - intros i Hi Hne. rewrite Hm, Hget by done. apply Z.eqb_neq in Hne as ->. unfold map_get. by rewrite B0.
Qed.

(** While the highest free spare block is good the remapping succeeds and the
    blocks stay apart. *)
Lemma remap_apart s block mapped_block copy_len :
  attached g s -> spare_ok (snd s) -> apart (snd s) ->
  nmbm_get_block_state (mark_bad (snd s) mapped_block) (top (snd s)) = BLOCK_ST_GOOD ->
  0 <= block < total_blks g -> block < data_block_count (lay (snd s)) ->
  let '(ok, s') := remap_block_nmbm crc32_le g p s block mapped_block copy_len in
  ok = true /\ apart (snd s') /\ map_get (snd s') block = top (snd s).
Proof.
  intros Ha Hs Hap Hgood Hb Hb'. rewrite remap_eq by done.
  apply (marked_bad_ok s mapped_block) in Ha as Ha0. set (s0 := (fst s, mark_bad (snd s) mapped_block)) in *.
  assert (lay (snd s0) = lay (snd s)) as L0 by apply set_block_state_frame.
  assert (block_mapping (snd s0) = block_mapping (snd s)) as B0 by apply set_block_state_frame.
  assert (spare_ok (snd s0)) as Hs0 by (destruct Hs; split; by rewrite L0).
  assert (apart (snd s0)) as Hap0 by (eapply apart_same; [exact B0|by rewrite L0|by rewrite L0|exact Hap]).
  assert (0 <= block < Z.of_nat (length (block_mapping (snd s0)))) as Hbl
    by (rewrite (tw_mapping g _ (at_tables g s0 Ha0)); done).
  assert (nmbm_get_block_state (snd s0) (top (snd s0)) = BLOCK_ST_GOOD) as Hg0 by (by rewrite L0).
  pose proof (map_block_apart s0 block Hs0 Hap0 Hg0 Hbl) as Hm. rewrite (map_block_some s0 block (top (snd s0)))
    in Hm |- * by auto using walk_spare_good.
  destruct Hm as (_ & _ & Hap1 & Epb & _). set (s1 := (fst s0, _)) in *. cbn [negb]. rewrite Epb.
  set (s2 := (copied (fst s1) (top (snd s0)) mapped_block copy_len, snd s1)).
  destruct Hs0 as [S0 S1 S2]. pose proof (gw_total g (ng_wf g Hg)).
  assert (attached g s1) as Ha1 by (apply (mapped_attached s0); done || lia).
  pose proof (updated_confined crc32_le g p Hg s2 (attached_chip _ _ Ha1)) as [_ _ Um Ug Ut].
  split; [done|]. split; [by eapply apart_same; [exact Um|exact Ug|exact Ut|exact Hap1]|].
  unfold map_get. rewrite Um. etrans; [exact Epb|]. by rewrite L0.
Qed.

(** C32: [remap_block_nmbm], whatever fails on the chip and whatever the mapping
    is: every other block is mapped as before, the chip is touched between the
    start of the management area and the highest free spare block only, so the pages
    of every block that is mapped elsewhere are as before, and the instance stays
    well-formed; when it succeeds the block has a spare block of the range that was
    free. If no block is mapped into that range to begin with ([apart]), all others
    keep their pages; and if the highest free spare block is good as well, the
    remapping succeeds with that block and [apart] holds again. When it is not good
    the walk takes a lower block and [apart] is lost, as [map_block_doubles] shows: a
    block that was given that same spare block is not covered then. *)
Theorem remap_spares_others s block mapped_block copy_len :
  attached g s -> spare_ok (snd s) -> 0 <= block < total_blks g -> block < data_block_count (lay (snd s)) ->
  let '(ok, s') := remap_block_nmbm crc32_le g p s block mapped_block copy_len in
  remaps s s' /\ (ok = true -> low (snd s) < map_get (snd s') block <= top (snd s)) /\
  (forall i, 0 <= i -> i <> block ->
     map_get (snd s') i = map_get (snd s) i /\
     (~ mgmt (snd s) <= map_get (snd s) i <= top (snd s) ->
      forall a, aligned g a -> a / blk_size g = map_get (snd s) i -> page g (fst s') a = page g (fst s) a)) /\
  (apart (snd s) ->
     (forall i, 0 <= i < total_blks g -> i <> block ->
        forall a, aligned g a -> a / blk_size g = map_get (snd s) i -> page g (fst s') a = page g (fst s) a) /\
     (nmbm_get_block_state (mark_bad (snd s) mapped_block) (top (snd s)) = BLOCK_ST_GOOD ->
        ok = true /\ apart (snd s') /\ map_get (snd s') block = top (snd s))).
Proof.
  intros Ha Hs Hb Hb'. pose proof (remap_remaps s block mapped_block copy_len Ha Hs Hb Hb') as Hr.
  pose proof (remap_apart s block mapped_block copy_len Ha Hs) as Hap.
  destruct (remap_block_nmbm _ _ _ _ _ _ _) as [ok s']. destruct Hr as (Hr & Hok & Hm).
  assert (forall i, ~ mgmt (snd s) <= map_get (snd s) i <= top (snd s) ->
    forall a, aligned g a -> a / blk_size g = map_get (snd s) i -> page g (fst s') a = page g (fst s) a) as Hpg.
  { intros i Hi a Hal Hblk. apply (kb_page g _ _ _ (proj2 Hr)); [done|]. rewrite Hblk. lia. }
  split; [done|]. split; [done|]. split; [intros i Hi Hne; split; [by apply Hm|apply Hpg]|].
  intros Hsep. split; [|intros Hgood; by apply Hap].
  intros i Hi Hne. apply Hpg, (ap_free _ Hsep). by rewrite (tw_mapping g _ (at_tables g s Ha)).
Qed.

(** ** The promise of the core *)

#[export] Instance nmbm_table_mapping :
  @TableMapping N nmbm_instance (mtk_bmt_nmbm_ops crc32_le g p).
Proof. split. intros st st' block E. cbn [op_get mtk_bmt_nmbm_ops]. by rewrite E. Qed.

(** Blocks that are mapped and apart are what the core asks for. *)
Lemma nmbm_maps_blocks (st : bmt_state N nmbm_instance) :
  tables_wf g (st_tbl st) -> apart (st_tbl st) ->
  0 <= data_block_count (lay (st_tbl st)) <= total_blks g ->
  (forall i, 0 <= i < data_block_count (lay (st_tbl st)) -> 0 <= map_get (st_tbl st) i) ->
  @maps_blocks N nmbm_instance (mtk_bmt_nmbm_ops crc32_le g p) st 0 (data_block_count (lay (st_tbl st))).
Proof.
  intros HW [A1 _] Hc Hpos. pose proof (gw_total g (ng_wf g Hg)).
  assert (forall i, 0 <= i < data_block_count (lay (st_tbl st)) ->
    get_mapping_block_index_nmbm (st_tbl st) i = map_get (st_tbl st) i) as Hget.
  { intros i Hi. unfold get_mapping_block_index_nmbm. rewrite u32_small by lia.
    by destruct (Z.leb_spec (data_block_count (lay (st_tbl st))) i); [lia|]. }
  pose proof (tw_mapping g _ HW) as Hl. split; [lia|]. split; [lia|]. split.
  - intros b Hb. cbn [op_get mtk_bmt_nmbm_ops]. rewrite Hget by done. by apply Hpos.
  - intros b b' Hb Hb' E. cbn [op_get mtk_bmt_nmbm_ops] in E. rewrite !Hget in E by done.
    destruct (decide (b = b')) as [|Hne]; [done|]. destruct (A1 b b'); [lia|lia|done|by apply Hpos|done].
Qed.
End map.

(** * Witnesses *)

Section witnesses.
#[local] Instance map_chip : NandChip sim := sim_chip [].
#[local] Abbreviation entries ni := (seqZ 0 (Z.of_nat (length (block_mapping ni)))).

Definition apart_check (ni : nmbm_instance) : bool :=
  forallb (fun i => negb ((mgmt_start_ba (lay ni) <=? map_get ni i)
                          && (map_get ni i <=? mapping_blocks_top_ba (lay ni)))
    && forallb (fun j => (i =? j) || (map_get ni i <? 0) || negb (map_get ni i =? map_get ni j)) (entries ni))
    (entries ni).
Lemma apart_check_ok ni : apart_check ni = true -> apart ni.
Proof.
  unfold apart_check. rewrite forallb_forall. intros Hc.
  assert (forall i, 0 <= i < Z.of_nat (length (block_mapping ni)) -> In i (entries ni)) as Hin
    by (intros i Hi; apply list_elem_of_In, elem_of_seqZ; lia).
  split.
  - intros i j Hi Hj Hne H0. specialize (Hc i (Hin i Hi)). apply andb_true_iff in Hc as [_ Hc].
    rewrite forallb_forall in Hc. specialize (Hc j (Hin j Hj)). bprop.
    destruct Hc as [Hc|Hc]; bprop; [|done]. destruct Hc as [Hc|Hc]; bprop; lia.
  - intros i Hi. specialize (Hc i (Hin i Hi)). bprop. destruct H as [H|H]; bprop; lia.
Qed.
Lemma sample_apart : apart (snd (sample_state 1000)).
Proof. apply apart_check_ok. by vm_compute. Qed.
Lemma sample_spare ba : spare_ok sample_geometry (mark_bad sample_ni ba).
Proof.
  destruct (set_block_state_frame sample_ni ba BLOCK_ST_BAD) as (_ & _ & _ & _ & _ & L & _).
  unfold mark_bad. split; rewrite L; cbn; lia.
Qed.

Lemma map_block_keeps_apart_witness :
  let '(ok, s') := nmbm_map_block sample_crc sample_geometry sample_params (sample_state 1000) 3 in
  ok = true /\ fst s' = sample_chip 1000 /\ apart (snd s') /\ map_get (snd s') 3 = 30 /\
  (forall i, 0 <= i -> i <> 3 -> map_get (snd s') i = map_get (snd (sample_state 1000)) i).
Proof.
  pose proof (map_block_keeps_apart sample_crc sample_geometry sample_params sample_geometry_ok
    (sample_state 1000) 3 (sample_spare 3) sample_apart) as Hm.
  assert (nmbm_get_block_state (snd (sample_state 1000)) (mapping_blocks_top_ba (lay (snd (sample_state 1000)))) =
    BLOCK_ST_GOOD) as Hg by (by vm_compute).
  assert (0 <= 3 < Z.of_nat (length (block_mapping (snd (sample_state 1000))))) as Hl
    by (vm_compute; by split).
  specialize (Hm Hg Hl). exact Hm.
Defined.

(** Spare block 30 is bad: the blocks 3 and 4 both go to 29. *)
Lemma map_block_doubles_witness :
  let s := (sample_chip 1000, mark_bad sample_ni 30) in
  let '(ok1, s1) := nmbm_map_block sample_crc sample_geometry sample_params s 3 in
  let '(ok2, s2) := nmbm_map_block sample_crc sample_geometry sample_params s1 4 in
  ok1 = true /\ ok2 = true /\ map_get (snd s2) 3 = 29 /\ map_get (snd s2) 4 = 29.
Proof.
  set (s := (sample_chip 1000, mark_bad sample_ni 30)).
  pose proof (map_block_doubles sample_crc sample_geometry sample_params sample_geometry_ok s 3 4
    (sample_spare 30)) as Hm.
  assert (mapping_blocks_ba (lay (snd s)) < mapping_blocks_top_ba (lay (snd s)) - 1) as H1 by (by vm_compute).
  assert (nmbm_get_block_state (snd s) (mapping_blocks_top_ba (lay (snd s))) <> BLOCK_ST_GOOD) as H2
    by (by vm_compute).
  assert (nmbm_get_block_state (snd s) (mapping_blocks_top_ba (lay (snd s)) - 1) = BLOCK_ST_GOOD) as H3
    by (by vm_compute).
  assert (0 <= 3 < Z.of_nat (length (block_mapping (snd s)))) as H4 by (vm_compute; by split).
  assert (0 <= 4 < Z.of_nat (length (block_mapping (snd s)))) as H5 by (vm_compute; by split).
  specialize (Hm H1 H2 H3 H4 H5 ltac:(lia)). exact Hm.
Defined.

(** Block 3 is remapped while the highest free spare block, 30, is good. *)
Lemma remap_spares_others_witness :
  let s := sample_state 1000 in
  let '(ok, s') := remap_block_nmbm sample_crc sample_geometry sample_params s 3 3 256 in
  ok = true /\ apart (snd s') /\ map_get (snd s') 3 = 30 /\ remaps sample_geometry s s' /\
  (forall i, 0 <= i < 32 -> i <> 3 -> map_get (snd s') i = map_get (snd s) i /\
     forall a, aligned sample_geometry a -> a / blk_size sample_geometry = map_get (snd s) i ->
       page sample_geometry (fst s') a = page sample_geometry (fst s) a).
Proof.
  set (s := sample_state 1000). cbv zeta.
  assert (0 <= 3 < total_blks sample_geometry) as H2 by (by split).
  assert (3 < data_block_count (lay (snd s))) as H3 by (by vm_compute).
  pose proof (remap_spares_others sample_crc sample_geometry sample_params sample_geometry_ok
    (fun n a oob => or_intror eq_refl) s 3 3 256 sample_attached_ok (sample_spare 3) H2 H3) as Hm.
  destruct (remap_block_nmbm _ _ _ _ _ _ _) as [ok s'].
  destruct Hm as (Hr & _ & Hi & Hap). destruct (Hap sample_apart) as [Hpg Hgood].
  assert (nmbm_get_block_state (mark_bad (snd s) 3) (mapping_blocks_top_ba (lay (snd s))) = BLOCK_ST_GOOD)
    as Hg by (by vm_compute).
  destruct (Hgood Hg) as (Hok & Hap' & Hget).
  split; [exact Hok|]. split; [exact Hap'|]. split; [exact Hget|]. split; [exact Hr|].
  intros i Hir Hne. split; [by apply Hi; [lia|]|by apply Hpg].
Defined.
End witnesses.
