(* ===== verification/NmbmLoad.v ===== *)
(** mtk_bmt: an info table that is on the chip is loaded again: the block states
    and the mapping are those of the table, and the free spare blocks end below the
    lowest one that is mapped. *)
From S2P Require Import Prelude CNum Bytes BmtFlash BmtCore NmbmTable NmbmCache NmbmFlash NmbmLocal NmbmMgmt NmbmUpdate NmbmAttach NmbmSample NmbmKeep NmbmRounds NmbmPower.
Open Scope Z_scope.
Open Scope list_scope.

Section load.
Context {N : Type} `{NandChip N}.
Variable crc32_le : Z -> list Z -> Z.
Variable g : geometry.
Variable p : nmbm_params.
Hypothesis Hg : nmbm_geometry g.

#[local] Abbreviation nstate := (N * nmbm_instance)%type.
#[local] Abbreviation blk := (Z.to_nat (blk_size g)).

(** * Reading the blocks *)

Lemma chunk_size (data : list Z) :
  Z.min (Z.of_nat (length data)) (blk_size g) = Z.of_nat (length (take blk data)).
Proof. pose proof (block_pos g Hg). rewrite length_take. lia. Qed.
Lemma chunk_rest (data : list Z) :
  Z.of_nat (length data) - Z.of_nat (length (take blk data)) = Z.of_nat (length (drop blk data)).
Proof. rewrite length_take, length_drop. lia. Qed.

(** The same but for the cache. *)
Definition cached (s : nstate) (c : list Z) : nstate :=
  (fst s, set_cache (snd s) c (info_table (snd s))).
Lemma usable_cached s c ba m : usable g s ba m -> usable g (cached s c) ba m.
Proof. done. Qed.

(** One block of the table; the first one has the header. *)
Lemma load_block k (s : nstate) ba data start acc :
  usable g s ba 1 -> data <> [] ->
  nmbn_read_data g p (fst s) (ba2addr g ba) (Z.of_nat (length (take blk data))) = (0, take blk data) ->
  (start = None -> nmbm_check_info_table_header g (take blk data) = true) ->
  exists c, load_table g p (S k) s ba (Z.of_nat (length data)) start acc =
  load_table g p k (cached s c) (ba + 1) (Z.of_nat (length (drop blk data)))
    (Some (default ba start)) (acc ++ take blk data).
Proof.
  intros Hu Hd Hr Hh. destruct (Hu ba ltac:(lia)) as [G1 G2]. destruct s as [n ni]. cbn [fst snd] in *.
  cbn [load_table]. destruct (Z.eqb_spec (Z.of_nat (length data)) 0) as [E|_].
  { destruct data; [done|]. cbn in E. lia. }
  rewrite G1, Z.eqb_refl. cbn [negb]. unfold nmbm_check_bad_phys_block. rewrite G2. cbn [Z.eqb negb].
  rewrite chunk_size, Hr. cbn [Z.ltb Z.compare]. eexists.
  destruct start; [|rewrite Hh by done]; rewrite chunk_rest; reflexivity.
Qed.
Lemma usable_sub (s : nstate) ba m m' d :
  usable g s ba m -> 0 <= d -> d + Z.of_nat m' <= Z.of_nat m -> usable g s (ba + d) m'.
Proof. intros Hu H0 Hd b Hb. apply Hu. lia. Qed.

Lemma usable_one (s : nstate) ba m : usable g s ba (S m) -> usable g s ba 1.
Proof. intros Hu b Hb. apply Hu. lia. Qed.

Lemma load_more m : forall k (s : nstate) ba data st acc,
  (m <= k)%nat -> usable g s ba m -> stored g p (fst s) (seqZ ba (Z.of_nat m)) data ->
  exists c, load_table g p k s ba (Z.of_nat (length data)) (Some st) acc =
  (Some (ba + Z.of_nat m, st, acc ++ data), cached s c).
Proof.
  induction m as [|m IH]; intros k s ba data st acc Hk Hu Hst.
  - change (data = []) in Hst. subst data. rewrite app_nil_r. replace (ba + Z.of_nat 0) with ba by lia.
    exists (info_table_cache (snd s)). destruct s as [n []]. by destruct k.
  - destruct k as [|k]; [lia|]. rewrite seqZ_cons in Hst by lia. destruct Hst as (H1 & H2 & H3).
    destruct (load_block k s ba data (Some st) acc) as [c ->]; try done; [by eapply usable_one|].
    destruct (IH k (cached s c) (ba + 1) (drop blk data) st (acc ++ take blk data)) as [c' E];
      [lia|apply usable_cached; by eapply usable_sub; [exact Hu|lia|lia]|..].
    2:{ exists c'. cbn [default from_option id]. rewrite E, <- app_assoc, take_drop.
        by replace (ba + 1 + Z.of_nat m) with (ba + Z.of_nat (S m)) by lia. }
    replace (Z.succ ba) with (ba + 1) in H3 by lia.
    by replace (Z.pred (Z.of_nat (S m))) with (Z.of_nat m) in H3 by lia.
Qed.

Lemma header_take data :
  nmbm_check_info_table_header g (take blk data) = nmbm_check_info_table_header g data.
Proof.
  pose proof (pg_size_bounds g Hg).
  assert (forall a, (a + 4 <= 32)%nat -> buf_get32 (take blk data) a = buf_get32 data a) as Hget.
  { intros a Ha. unfold buf_get32. f_equal.
    rewrite skipn_firstn_comm, take_take. f_equal. lia. }
  unfold nmbm_check_info_table_header, info_of, header_of. cbv zeta.
  cbn [if_header hd_magic hd_size if_mapping_table_off if_state_table_off]. by rewrite !Hget by lia.
Qed.
Lemma load_stored m k (s : nstate) ba data :
  (0 < m <= k)%nat -> usable g s ba m -> stored g p (fst s) (seqZ ba (Z.of_nat m)) data ->
  nmbm_check_info_table_header g data = true ->
  exists c, load_table g p k s ba (Z.of_nat (length data)) None []
    = (Some (ba + Z.of_nat m, ba, data), cached s c).
Proof.
  intros Hk Hu Hst Hh. destruct k as [|k]; [lia|]. destruct m as [|m]; [lia|].
  rewrite seqZ_cons in Hst by lia. destruct Hst as (H1 & H2 & H3).
  destruct (load_block k s ba data None []) as [c ->]; try done.
  { by eapply usable_one. } { intros _. by rewrite header_take. }
  destruct (load_more m k (cached s c) (ba + 1) (drop blk data) ba ([] ++ take blk data)) as [c' E];
    [lia|apply usable_cached; by eapply usable_sub; [exact Hu|lia|lia]|..].
  - replace (Z.succ ba) with (ba + 1) in H3 by lia.
    by replace (Z.pred (Z.of_nat (S m))) with (Z.of_nat m) in H3 by lia.
  - exists c'. cbn [default from_option id]. rewrite E. cbn [app]. rewrite take_drop.
    by replace (ba + 1 + Z.of_nat m) with (ba + Z.of_nat (S m)) by lia.
Qed.

(** * Checking the mapping *)

Lemma check_mapping_spec l db eb sg mi :
  Forall (fun m => (u32 m < db \/ eb <= u32 m) /\ u32 m <> sg) l -> eb <= mi ->
  exists r, check_mapping l db eb sg mi = Some r /\ eb <= r <= mi /\
    Forall (fun m => eb <= u32 m -> r <= u32 m) l.
Proof.
  intros Hf. revert mi. induction Hf as [|m l [H1 H2] _ IH]; intros mi Hm; [by exists mi|].
  cbn [check_mapping]. cbv zeta.
  assert (((db <=? u32 m) && (u32 m <? eb)) || (u32 m =? sg) = false) as ->.
  { apply orb_false_iff. split; [|by apply Z.eqb_neq]. apply andb_false_iff.
    destruct H1; [left; by apply Z.leb_gt|right; by apply Z.ltb_ge]. }
  destruct (Z.leb_spec eb (u32 m)) as [He|He]; cbn [andb].
  - destruct (Z.ltb_spec (u32 m) mi) as [Hl|Hl]; cbn [andb].
    + destruct (IH (u32 m) He) as (r & E & ? & Hr). exists r. split; [done|]. split; [lia|].
      constructor; [lia|done].
    + destruct (IH mi Hm) as (r & E & ? & Hr). exists r. split; [done|]. split; [lia|]. constructor; [lia|done].
  - destruct (IH mi Hm) as (r & E & ? & Hr). exists r. split; [done|]. split; [lia|]. constructor; [lia|done].
Qed.

(** C33: What [nmbm_generate_info_table_cache] makes is loaded again from where it
    lies in consecutive blocks that are good and not marked bad: there
    [nmbm_try_load_info_table] finds the table with its write count, takes over the
    block states and the mapping it was made of, and gives an address for the next
    spare block below every spare block that is mapped. This is so when no data
    block is mapped between the data and the end of the table or to the block of
    the signature, and the states the table was made of call its blocks good. (A
    table with a bad block in between is written but not loaded: the loop looks at
    as many blocks as the table has, the bad one included.) *)
Theorem generated_table_loads m (s : nstate) ba (ni : nmbm_instance) :
  Crc32 crc32_le -> tables_wf g ni ->
  let data := info_table_cache (snd (nmbm_generate_info_table_cache crc32_le g ni)) in
  let l := lay (snd s) in
  0 <= ba -> (0 < m)%nat -> Z.of_nat m = size2blk g (info_table_size g) ->
  usable g s ba m -> stored g p (fst s) (seqZ ba (Z.of_nat m)) data ->
  ba + Z.of_nat m <= signature_ba l < 2 ^ 32 ->
  Forall (fun v => (u32 v < data_block_count l \/ ba + Z.of_nat m <= u32 v) /\ u32 v <> signature_ba l)
    (take (Z.to_nat (data_block_count l)) (block_mapping ni)) ->
  (forall b, ba <= b < ba + Z.of_nat m -> nmbm_get_block_state ni b = BLOCK_ST_GOOD) ->
  exists top, let '(found, s') := nmbm_try_load_info_table crc32_le g p s ba false in
    found = Some (mk_found ba (ba + Z.of_nat m) (if_write_count (table_header g ni)) top) /\
    fst s' = fst s /\ block_state (snd s') = block_state ni /\ block_mapping (snd s') = block_mapping ni /\
    Forall (fun v => ba + Z.of_nat m <= u32 v -> top < u32 v)
      (take (Z.to_nat (data_block_count l)) (block_mapping ni)).
Proof.
  intros Hcrc HW data l Hba Hm Hsz Hu Hst Hsg Hmap Hgood.
  destruct (generated_table crc32_le g Hg ni HW) as [T1 T2 T3 T4 T5 T6 _]. fold data in T1, T2, T3, T4, T5, T6.
  destruct (check_mapping_spec _ _ (ba + Z.of_nat m) _ (signature_ba l) Hmap) as (r & Hc & Hr & Hf); [lia|].
  exists (r - 1). unfold nmbm_try_load_info_table.
  assert (info_table_size g = Z.of_nat (length data)) as Hlen.
  { rewrite T1. destruct (offsets_ok g Hg) as (? & ? & ? & _). pose proof (state_table_size_bounds g Hg).
    pose proof (gw_total g (ng_wf g Hg)). unfold INFO_HEADER_SIZE, mapping_table_size in *. lia. }
  rewrite <- Hsz, Hlen, Nat2Z.id.
  destruct (load_stored m m s ba data) as [c ->]; [lia|done|done|done|].
  rewrite <- Hlen, T2. cbn [negb].
  unfold nmbm_check_info_table. rewrite T5. change (lay (snd (cached s c))) with l. rewrite Hc.
  change (nmbm_get_block_state (snd (cached s c))) with (nmbm_get_block_state (snd s)).
  assert (existsb (fun b => (nmbm_get_block_state (snd s) b =? BLOCK_ST_GOOD) &&
      negb (nmbm_get_block_state_raw (cached_state g data) b =? BLOCK_ST_GOOD))
    (seqZ ba (ba + Z.of_nat m - ba)) = false) as ->.
  { apply not_true_iff_false. intros Hex. apply existsb_exists in Hex as (b & Hin & Hb).
    apply list_elem_of_In, elem_of_seqZ in Hin. rewrite T4 in Hb. specialize (Hgood b ltac:(lia)).
    change (nmbm_get_block_state_raw (block_state ni) b = BLOCK_ST_GOOD) in Hgood.
    rewrite Hgood, Z.eqb_refl in Hb. bprop. done. }
  cbn [negb orb]. rewrite T6, u32_small by lia. split_and!; try done.
  eapply Forall_impl; [exact Hf|]. cbn. lia.
Qed.
End load.

(** * Witness: the table of the sample chip, loaded by an instance that knows
    nothing of the blocks yet *)

#[local] Instance load_chip : NandChip sim := sim_chip [].
Definition sample_new : nmbm_instance :=
  set_lay (nmbm_init_structure sample_geometry) (mk_layout 24 24 0 0 0 30 31).

Lemma sample_ni_wf : tables_wf sample_geometry sample_ni.
Proof.
  split; [reflexivity|apply range_check|reflexivity|apply range_check|reflexivity|reflexivity|by split];
    vm_compute; reflexivity.
Qed.

Lemma generated_table_loads_witness :
  exists top, let '(found, s') :=
    nmbm_try_load_info_table sample_crc sample_geometry sample_params (sample_chip 0, sample_new) 24 false in
    found = Some (mk_found 24 25 (if_write_count (table_header sample_geometry sample_ni)) top) /\
    fst s' = sample_chip 0 /\ block_state (snd s') = block_state sample_ni /\
    block_mapping (snd s') = block_mapping sample_ni /\
    Forall (fun v => 25 <= u32 v -> top < u32 v) (take (Z.to_nat 24) (block_mapping sample_ni)).
Proof.
  pose proof (generated_table_loads sample_crc sample_geometry sample_params sample_geometry_ok 1
    (sample_chip 0, sample_new) 24 sample_ni sample_crc_ok sample_ni_wf) as Hl.
  cbv zeta in Hl. assert (0 <= 24) as Ha by lia. assert (0 < 1)%nat as Hc by lia.
  assert (Z.of_nat 1 = size2blk sample_geometry (info_table_size sample_geometry)) as H1 by (by vm_compute).
  assert (usable sample_geometry (sample_chip 0, sample_new) 24 1) as H2
    by (intros b Hb; assert (b = 24) as -> by lia; split; by vm_compute).
  assert (stored sample_geometry sample_params (sample_chip 0) (seqZ 24 (Z.of_nat 1))
    (info_table_cache (snd (nmbm_generate_info_table_cache sample_crc sample_geometry sample_ni)))) as H3
    by (split; [by vm_compute|split; by vm_compute]).
  assert (24 + Z.of_nat 1 <= signature_ba (lay sample_new) < 2 ^ 32) as H4 by (vm_compute; by split).
  assert (Forall (fun v => (u32 v < 24 \/ 24 + Z.of_nat 1 <= u32 v) /\ u32 v <> 31)
    (take (Z.to_nat 24) (block_mapping sample_ni))) as H5.
  { eapply Forall_impl; [apply (range_check 0 24); by vm_compute|]. intros v Hv.
    cbv beta in Hv |- *. rewrite u32_small by lia. lia. }
  assert (forall b, 24 <= b < 24 + Z.of_nat 1 -> nmbm_get_block_state sample_ni b = BLOCK_ST_GOOD) as H6
    by (intros b Hb; assert (b = 24) as -> by lia; by vm_compute).
  specialize (Hl Ha Hc H1 H2 H3 H4 H5 H6). exact Hl.
Defined.
