(* ===== verification/Nvram.v ===== *)
(** nvram: the variable store (src/package/utils/nvram/src/nvram.c and crc.c):
    the hash table, the image with its header and checksum, and the round trip
    between them. The machine is little-endian; memory exhaustion is not
    modelled. Reading or writing outside the mapping is undefined ([Crash]). *)
From S2P Require Import Prelude CStr CNum.
From Stdlib Require Import Ascii.
Open Scope string_scope.
Open Scope list_scope.

Definition NVRAM_MAGIC : Z := 0x48534C46.
Definition NVRAM_VERSION : Z := 1.
Definition NVRAM_MIN_SPACE : Z := 0x8000.
Definition NVRAM_CRC_START_POSITION : nat := 9.
Definition SDRAM_INIT : Z := 0x419.
Definition SDRAM_CONFIG : Z := 0x0.
Definition SDRAM_REFRESH : Z := 0x8040.
Definition HEADER_SIZE : nat := 20.
Definition BUCKETS : nat := 257.

(** * Bytes *)

Definition byte_of (z : Z) : ascii := ascii_of_N (Z.to_N (z mod 256)).
Definition val_of (c : ascii) : Z := Z.of_N (N_of_ascii c).
Definition le32 (z : Z) : string :=
  String (byte_of z) (String (byte_of (z / 256)) (String (byte_of (z / 65536))
    (String (byte_of (z / 16777216)) ""))).
Definition get32 (s : string) : Z :=
  match s with
  | String a (String b (String c (String d _))) =>
      (val_of a + 256 * val_of b + 65536 * val_of c + 16777216 * val_of d)%Z
  | _ => 0%Z
  end.
Fixpoint fill (n : nat) (c : ascii) : string :=
  match n with O => "" | S n => String c (fill n c) end.

Definition crc8_table : list Z :=
  [0x00; 0xF7; 0xB9; 0x4E; 0x25; 0xD2; 0x9C; 0x6B; 0x4A; 0xBD; 0xF3; 0x04; 0x6F; 0x98; 0xD6; 0x21;
   0x94; 0x63; 0x2D; 0xDA; 0xB1; 0x46; 0x08; 0xFF; 0xDE; 0x29; 0x67; 0x90; 0xFB; 0x0C; 0x42; 0xB5;
   0x7F; 0x88; 0xC6; 0x31; 0x5A; 0xAD; 0xE3; 0x14; 0x35; 0xC2; 0x8C; 0x7B; 0x10; 0xE7; 0xA9; 0x5E;
   0xEB; 0x1C; 0x52; 0xA5; 0xCE; 0x39; 0x77; 0x80; 0xA1; 0x56; 0x18; 0xEF; 0x84; 0x73; 0x3D; 0xCA;
   0xFE; 0x09; 0x47; 0xB0; 0xDB; 0x2C; 0x62; 0x95; 0xB4; 0x43; 0x0D; 0xFA; 0x91; 0x66; 0x28; 0xDF;
   0x6A; 0x9D; 0xD3; 0x24; 0x4F; 0xB8; 0xF6; 0x01; 0x20; 0xD7; 0x99; 0x6E; 0x05; 0xF2; 0xBC; 0x4B;
   0x81; 0x76; 0x38; 0xCF; 0xA4; 0x53; 0x1D; 0xEA; 0xCB; 0x3C; 0x72; 0x85; 0xEE; 0x19; 0x57; 0xA0;
   0x15; 0xE2; 0xAC; 0x5B; 0x30; 0xC7; 0x89; 0x7E; 0x5F; 0xA8; 0xE6; 0x11; 0x7A; 0x8D; 0xC3; 0x34;
   0xAB; 0x5C; 0x12; 0xE5; 0x8E; 0x79; 0x37; 0xC0; 0xE1; 0x16; 0x58; 0xAF; 0xC4; 0x33; 0x7D; 0x8A;
   0x3F; 0xC8; 0x86; 0x71; 0x1A; 0xED; 0xA3; 0x54; 0x75; 0x82; 0xCC; 0x3B; 0x50; 0xA7; 0xE9; 0x1E;
   0xD4; 0x23; 0x6D; 0x9A; 0xF1; 0x06; 0x48; 0xBF; 0x9E; 0x69; 0x27; 0xD0; 0xBB; 0x4C; 0x02; 0xF5;
   0x40; 0xB7; 0xF9; 0x0E; 0x65; 0x92; 0xDC; 0x2B; 0x0A; 0xFD; 0xB3; 0x44; 0x2F; 0xD8; 0x96; 0x61;
   0x55; 0xA2; 0xEC; 0x1B; 0x70; 0x87; 0xC9; 0x3E; 0x1F; 0xE8; 0xA6; 0x51; 0x3A; 0xCD; 0x83; 0x74;
   0xC1; 0x36; 0x78; 0x8F; 0xE4; 0x13; 0x5D; 0xAA; 0x8B; 0x7C; 0x32; 0xC5; 0xAE; 0x59; 0x17; 0xE0;
   0x2A; 0xDD; 0x93; 0x64; 0x0F; 0xF8; 0xB6; 0x41; 0x60; 0x97; 0xD9; 0x2E; 0x45; 0xB2; 0xFC; 0x0B;
   0xBE; 0x49; 0x07; 0xF0; 0x9B; 0x6C; 0x22; 0xD5; 0xF4; 0x03; 0x4D; 0xBA; 0xD1; 0x26; 0x68; 0x9F]%Z.

Fixpoint hndcrc8 (pdata : string) (crc : Z) : Z :=
  match pdata with
  | "" => crc
  | String c r => hndcrc8 r (nth (Z.to_nat (Z.land (Z.lxor crc (val_of c)) 255)) crc8_table 0%Z)
  end.

(** * The handle *)

(** A tuple is a name and a value; a bucket is a chain of tuples. *)
Abbreviation tuple := (string * string)%type.
Record nvram_handle := mk_handle {
  nv_mmap : string;
  nv_length : nat;
  nv_offset : nat;
  nv_hash : list (list tuple);
  nv_dead : list tuple
}.

Record nvram_header := mk_header {
  h_magic : Z; h_len : Z; h_crc_ver_init : Z; h_config_refresh : Z; h_config_ncdl : Z
}.
Definition header_bytes (h : nvram_header) : string :=
  le32 (h_magic h) +:+ le32 (h_len h) +:+ le32 (h_crc_ver_init h) +:+ le32 (h_config_refresh h)
  +:+ le32 (h_config_ncdl h).
Definition read_header (s : string) : nvram_header :=
  mk_header (get32 s) (get32 (sdrop 4 s)) (get32 (sdrop 8 s)) (get32 (sdrop 12 s)) (get32 (sdrop 16 s)).
(** [nvram_header]: the bytes at the header. *)
Definition at_header (h : nvram_handle) : string := sdrop (nv_offset h) (nv_mmap h).

Definition set_hash (h : nvram_handle) (t : list (list tuple)) (dead : list tuple) : nvram_handle :=
  mk_handle (nv_mmap h) (nv_length h) (nv_offset h) t dead.

Section nvram.
(** The value of a [char]: signed or not, as the compiler has it; the number of
    bits of [long] and [size_t]; and the address of the mapping. *)
Variable char_val : ascii -> Z.
Variable long : Z.
Variable map_base : Z.

Fixpoint hash_from (s : string) (hash : Z) : Z :=
  match s with "" => hash | String c r => hash_from r (u32 (31 * hash + char_val c)) end.
Definition hash (s : string) : Z := hash_from s 0.
Definition bucket_of (name : string) : nat := Z.to_nat (hash name mod 257).

Definition _nvram_free (h : nvram_handle) : nvram_handle :=
  set_hash h (replicate BUCKETS []) [].

Fixpoint chain_get (name : string) (l : list tuple) : option string :=
  match l with
  | [] => None
  | (n, v) :: r => if strcmp_eq n name then Some v else chain_get name r
  end.
(** The value of the tuple found is replaced; a new tuple goes in front. *)
Fixpoint chain_replace (name value : string) (l : list tuple) : list tuple :=
  match l with
  | [] => []
  | (n, v) :: r => if strcmp_eq n name then (n, value) :: r else (n, v) :: chain_replace name value r
  end.
Fixpoint chain_unlink (name : string) (l : list tuple) : list tuple :=
  match l with
  | [] => []
  | (n, v) :: r => if strcmp_eq n name then r else (n, v) :: chain_unlink name r
  end.
Definition chain (h : nvram_handle) (name : string) : list tuple :=
  nth (bucket_of name) (nv_hash h) [].
Definition set_chain (h : nvram_handle) (name : string) (l : list tuple) : list (list tuple) :=
  <[bucket_of name := l]> (nv_hash h).

Definition nvram_get (h : nvram_handle) (name : string) : option string :=
  chain_get name (chain h name).

(** The test of [_nvram_realloc]. *)
Definition too_long (h : nvram_handle) (value : string) : bool :=
  (nv_length h - nv_offset h <? String.length value + 1)%nat.

Definition nvram_set (h : nvram_handle) (name value : string) : Z * nvram_handle :=
  if too_long h value then ((-12)%Z, h)
  else
    let l := chain h name in
    let l' := match chain_get name l with
              | Some _ => chain_replace name value l
              | None => (name, value) :: l
              end in
    (0%Z, set_hash h (set_chain h name l') (nv_dead h)).

Definition nvram_unset (h : nvram_handle) (name : string) : Z * nvram_handle :=
  let l := chain h name in
  match chain_get name l with
  | Some v => (0%Z, set_hash h (set_chain h name (chain_unlink name l)) ((name, v) :: nv_dead h))
  | None => (0%Z, h)
  end.

(** Every tuple is put in front of the list built so far. *)
Definition nvram_getall (h : nvram_handle) : list tuple := rev (concat (nv_hash h)).

(** * Parsing the image *)

Fixpoint parse_tuples (fuel : nat) (s : string) : outcome (list tuple) :=
  match fuel with
  | O => Crash
  | S fuel =>
      match strchr NUL s with
      | None => Crash
      | Some (name, rest) =>
          if negb (nonempty name) then Ok []
          else match strchr "=" name with
               | None => Ok []
               | Some (n, v) =>
                   match parse_tuples fuel rest with
                   | Ok l => Ok ((n, v) :: l)
                   | r => r
                   end
               end
      end
  end.

Definition set_all (h : nvram_handle) (l : list tuple) : nvram_handle :=
  fold_left (fun h t => snd (nvram_set h (fst t) (snd t))) l h.

Definition set_missing (h : nvram_handle) (name value : string) : nvram_handle :=
  match nvram_get h name with None => snd (nvram_set h name value) | Some _ => h end.

Definition set_sdram (header : nvram_header) (h : nvram_handle) : nvram_handle :=
  let h := set_missing h "sdram_init" ("0x" +:+ hex_fixed 4 (u16 (h_crc_ver_init header / 65536))) in
  let h := set_missing h "sdram_config" ("0x" +:+ hex_fixed 4 (u16 (h_config_refresh header))) in
  let h := set_missing h "sdram_refresh"
             ("0x" +:+ hex_fixed 4 (u16 (h_config_refresh header / 65536))) in
  set_missing h "sdram_ncdl" ("0x" +:+ hex_fixed 8 (h_config_ncdl header)).

Definition _nvram_rehash (h : nvram_handle) : outcome nvram_handle :=
  let data := sdrop HEADER_SIZE (at_header h) in
  match parse_tuples (S (String.length data)) data with
  | Ok l => Ok (set_sdram (read_header (at_header h)) (set_all (_nvram_free h) l))
  | Exit c => Exit c
  | Crash => Crash
  end.

(** * Writing the image *)

Definition tuple_text (t : tuple) : string := fst t +:+ "=" +:+ snd t.

(** One chain: the bytes written from [pos] on; it stops at the first tuple that
    does not fit. *)
Fixpoint write_chain (l : list tuple) (pos stop : nat) : string :=
  match l with
  | [] => ""
  | t :: r =>
      if (stop <? pos + String.length (fst t) + 1 + String.length (snd t) + 1)%nat then ""
      else let s := tuple_text t +:+ String NUL "" in
           s +:+ write_chain r (pos + String.length s) stop
  end.
Fixpoint write_tuples (t : list (list tuple)) (pos stop : nat) : string :=
  match t with
  | [] => ""
  | l :: r => let s := write_chain l pos stop in s +:+ write_tuples r (pos + String.length s) stop
  end.

Definition round_up4 (x : nat) : nat := ((x + 3) / 4 * 4)%nat.

(** The header without length and checksum. *)
Definition commit_header (h : nvram_handle) : nvram_header :=
  let ver := (NVRAM_VERSION * 256)%Z in
  match nvram_get h "sdram_init", nvram_get h "sdram_config",
        nvram_get h "sdram_refresh", nvram_get h "sdram_ncdl" with
  | Some init, Some config, Some refresh, Some ncdl =>
      mk_header NVRAM_MAGIC 0
        (Z.lor ver (u16 (strtoul long 0 init) * 65536))
        (Z.lor (u16 (strtoul long 0 config)) (u16 (strtoul long 0 refresh) * 65536))
        (u32 (strtoul long 0 ncdl))
  | _, _, _, _ =>
      mk_header NVRAM_MAGIC 0 (Z.lor ver (SDRAM_INIT * 65536))
        (Z.lor SDRAM_CONFIG (SDRAM_REFRESH * 65536)) 0
  end.

(** The zeros after the first NUL: the remainder of a negative [int] is negative
    or zero. *)
Definition padding (h : nvram_handle) (pos : nat) : nat :=
  let r := Z.rem (to_i32 (map_base + Z.of_nat (nv_offset h + pos))) 4 in
  if (r =? 0)%Z then 0 else Z.to_nat (4 - r).

(** What is written of the data area: the tuples, a NUL, the padding. *)
Definition data_text (h : nvram_handle) (size : nat) : string :=
  let written := write_tuples (nv_hash h) HEADER_SIZE (size - 2) in
  written +:+ String NUL (fill (padding h (HEADER_SIZE + String.length written + 1)) NUL).
(** [header->len]. *)
Definition image_len (h : nvram_handle) (size : nat) : nat :=
  round_up4 (HEADER_SIZE + String.length (write_tuples (nv_hash h) HEADER_SIZE (size - 2)) + 2).

(** The image from the header on, for a mapping of [size] bytes from there. *)
Definition commit_image (h : nvram_handle) (size : nat) : string :=
  let hd := commit_header h in
  let text := data_text h size in
  let data := text +:+ fill (size - HEADER_SIZE - String.length text) (byte_of 255) in
  let len := image_len h size in
  let tmp := header_bytes (mk_header 0 0 (h_crc_ver_init hd) (h_config_refresh hd) (h_config_ncdl hd)) in
  let crc := hndcrc8 (sdrop NVRAM_CRC_START_POSITION tmp) 255 in
  let crc := hndcrc8 (stake (len - HEADER_SIZE) data) crc in
  header_bytes (mk_header (h_magic hd) (Z.of_nat len) (Z.lor (h_crc_ver_init hd) crc)
                  (h_config_refresh hd) (h_config_ncdl hd)) +:+ data.

Definition commit_mmap (h : nvram_handle) (size : nat) : nvram_handle :=
  mk_handle (stake (nv_offset h) (nv_mmap h) +:+ commit_image h size)
    (nv_length h) (nv_offset h) (nv_hash h) (nv_dead h).

Definition nvram_commit (h : nvram_handle) (part_size : nat) : outcome nvram_handle :=
  let size := (part_size - nv_offset h)%nat in
  if (size <? HEADER_SIZE + String.length (data_text h size))%nat || (size <? image_len h size)%nat
  then Crash
  else _nvram_rehash (commit_mmap h size).

(** The checksum [nvram info] calculates, of the bytes from the version on. The
    length is that of the header, unchecked: reading past the mapping is
    undefined. *)
Definition info_crc (h : nvram_handle) : outcome Z :=
  let len := h_len (read_header (at_header h)) in
  let n := Z.to_nat (u32 (len - Z.of_nat NVRAM_CRC_START_POSITION)) in
  if (String.length (at_header h) <? NVRAM_CRC_START_POSITION + n)%nat then Crash
  else Ok (hndcrc8 (stake n (sdrop NVRAM_CRC_START_POSITION (at_header h))) 255).

(** * Opening *)

(** The search for the magic word; reading past the mapping is undefined. [k]
    words are left to look at. *)
Fixpoint find_magic (k : nat) (mem : string) (offset : nat) : outcome (option nat) :=
  match k with
  | O => Ok None
  | S k =>
      if (String.length mem <? offset + 4)%nat then Crash
      else if (get32 (sdrop offset mem) =? NVRAM_MAGIC)%Z then Ok (Some offset)
      else find_magic k mem (offset + 4)
  end.

(** The number of words: the subtraction wraps around at [2 ^ long]. *)
Definition search_words (part_size : nat) : nat :=
  Z.to_nat (((Z.of_nat part_size - NVRAM_MIN_SPACE) mod 2 ^ long) / 4 + 1).

(** [nvram_open] of a file with content [mem] that is mapped. *)
Definition nvram_open (mem : string) (part_size : nat) (rdonly : bool)
    : outcome (option nvram_handle) :=
  match find_magic (search_words part_size) mem 0 with
  | Ok None => Ok None
  | Ok (Some offset) =>
      let h := mk_handle mem part_size offset (replicate BUCKETS []) [] in
      let header := read_header (at_header h) in
      if (h_magic header =? NVRAM_MAGIC)%Z
         && (rdonly || (h_len header <? Z.of_nat (part_size - offset))%Z)
      then match _nvram_rehash h with
           | Ok h => Ok (Some h)
           | Exit c => Exit c
           | Crash => Crash
           end
      else Ok None
  | Exit c => Exit c
  | Crash => Crash
  end.
End nvram.

(** * The store as a map *)

Section store.
Variable char_val : ascii -> Z.

(** The variables of a handle. *)
Definition vars (h : nvram_handle) : gmap string string := list_to_map (concat (nv_hash h)).

(** Every tuple is in the bucket of its name, and no name is twice in a bucket. *)
Record nv_wf (h : nvram_handle) : Prop := {
  wf_buckets : length (nv_hash h) = BUCKETS;
  wf_chains : forall i l, nv_hash h !! i = Some l ->
    Forall (fun t => bucket_of char_val (fst t) = i) l /\ NoDup (map fst l)
}.

Lemma bucket_of_lt name : (bucket_of char_val name < BUCKETS)%nat.
Proof.
  unfold bucket_of, BUCKETS. pose proof (Z.mod_pos_bound (hash char_val name) 257). lia.
Qed.

Lemma chain_lookup h name :
  nv_wf h -> nv_hash h !! bucket_of char_val name = Some (chain char_val h name).
Proof.
  intros [Hl _]. unfold chain.
  destruct (lookup_lt_is_Some_2 (nv_hash h) (bucket_of char_val name)) as [l Hb].
  { rewrite Hl. apply bucket_of_lt. }
  rewrite Hb. f_equal. symmetry. by apply nth_lookup_Some.
Qed.

Lemma chain_get_elem l name v :
  NoDup (map fst l) -> chain_get name l = Some v <-> (name, v) ∈ l.
Proof.
  induction l as [|[n w] l IH]; cbn [chain_get map fst]; intros Hnd.
  - split; [done|]. intros H. inversion H.
  - apply NoDup_cons in Hnd as [Hn Hnd]. rewrite elem_of_cons. case_if.
    + apply strcmp_eq_true in E. subst n. split; [intros [= ->]; by left|].
      intros [[= ->]|H]; [done|]. destruct Hn. apply list_elem_of_fmap. by exists (name, v).
    + apply strcmp_eq_false in E. rewrite IH by done.
      split; [tauto|]. intros [[= -> ->]|H]; done.
Qed.

Lemma chain_get_none l name : chain_get name l = None <-> name ∉ map fst l.
Proof.
  induction l as [|[n w] l IH]; cbn [chain_get map fst].
  - split; [intros _ H; inversion H|done].
  - rewrite not_elem_of_cons. case_if.
    + apply strcmp_eq_true in E. subst n. split; [done|]. intros []; done.
    + apply strcmp_eq_false in E. rewrite IH. split; [|tauto]. intros; split; [congruence|done].
Qed.

(** Chains whose tuples are in consecutive buckets share no names. *)
Lemma concat_names_NoDup (ls : list (list tuple)) (k : nat) :
  (forall i l, ls !! i = Some l ->
    Forall (fun t => bucket_of char_val (fst t) = (k + i)%nat) l /\ NoDup (map fst l)) ->
  NoDup (map fst (concat ls)).
Proof.
  revert k. induction ls as [|l ls IH]; intros k H; cbn [concat map]; [constructor|].
  rewrite map_app. apply NoDup_app. split; [apply (H 0%nat l eq_refl)|split].
  - intros n Hn Hm. destruct (H 0%nat l eq_refl) as [Hb _].
    apply list_elem_of_fmap in Hn as ((n1 & v1) & -> & Hn).
    apply list_elem_of_fmap in Hm as ((n2 & v2) & En & Hm). cbn in En. subst n2.
    rewrite Forall_forall in Hb. specialize (Hb _ Hn). cbn [fst] in Hb.
    apply list_elem_of_In, in_concat in Hm as (l' & Hl' & Hm).
    apply list_elem_of_In, list_elem_of_lookup_1 in Hl' as (i & Hi).
    destruct (H (S i) l' Hi) as [Hb' _]. rewrite Forall_forall in Hb'.
    apply list_elem_of_In in Hm. specialize (Hb' _ Hm). cbn [fst] in Hb'. lia.
  - apply (IH (S k)). intros i l' Hi. replace (S k + i)%nat with (k + S i)%nat by lia.
    by apply H.
Qed.

Lemma names_NoDup h : nv_wf h -> NoDup (map fst (concat (nv_hash h))).
Proof. intros [_ H]. by apply (concat_names_NoDup _ 0). Qed.

Lemma get_vars h name : nv_wf h -> nvram_get char_val h name = vars h !! name.
Proof.
  intros Hwf. apply option_eq. intros v. unfold nvram_get, vars.
  pose proof (chain_lookup h name Hwf) as Hc.
  destruct (wf_chains _ Hwf _ _ Hc) as [_ Hnd].
  rewrite (chain_get_elem _ _ _ Hnd), <- elem_of_list_to_map by by apply names_NoDup.
  rewrite !list_elem_of_In, in_concat. split.
  - intros Hin. exists (chain char_val h name). split; [|done].
    apply list_elem_of_In. by eapply list_elem_of_lookup_2.
  - intros (l & Hl & Hin). apply list_elem_of_In, list_elem_of_lookup_1 in Hl as (i & Hi).
    destruct (wf_chains _ Hwf _ _ Hi) as [Hb _]. rewrite Forall_forall in Hb.
    apply list_elem_of_In in Hin. specialize (Hb _ Hin). cbn [fst] in Hb. subst i.
    pose proof (eq_trans (eq_sym Hc) Hi) as Hl. injection Hl as <-. by apply list_elem_of_In.
Qed.

(** ** Replacing one chain *)

Lemma put_chain_wf h name l dead :
  nv_wf h -> Forall (fun t => bucket_of char_val (fst t) = bucket_of char_val name) l ->
  NoDup (map fst l) -> nv_wf (set_hash h (set_chain char_val h name l) dead).
Proof.
  intros Hwf Hb Hnd. split; cbn [nv_hash set_hash]; unfold set_chain.
  - rewrite length_insert. apply Hwf.
  - intros i l' Hi. destruct (decide (i = bucket_of char_val name)) as [->|Hne].
    + rewrite list_lookup_insert_eq in Hi; [by simplify_eq|].
      rewrite (wf_buckets _ Hwf). apply bucket_of_lt.
    + rewrite list_lookup_insert_ne in Hi by done. by eapply wf_chains.
Qed.

Lemma put_chain_chain h name l dead k :
  nv_wf h ->
  chain char_val (set_hash h (set_chain char_val h name l) dead) k =
  if decide (bucket_of char_val k = bucket_of char_val name) then l else chain char_val h k.
Proof.
  intros Hwf. unfold chain, set_chain. cbn [nv_hash set_hash]. case_decide as Hk.
  - rewrite Hk. apply nth_lookup_Some, list_lookup_insert_eq.
    rewrite (wf_buckets _ Hwf). apply bucket_of_lt.
  - rewrite !nth_lookup. by rewrite list_lookup_insert_ne.
Qed.

Lemma chain_wf h name :
  nv_wf h ->
  Forall (fun t => bucket_of char_val (fst t) = bucket_of char_val name) (chain char_val h name)
  /\ NoDup (map fst (chain char_val h name)).
Proof. intros Hwf. exact (wf_chains _ Hwf _ _ (chain_lookup h name Hwf)). Qed.

Lemma chain_replace_names name v l : map fst (chain_replace name v l) = map fst l.
Proof.
  induction l as [|[n w] l IH]; cbn [chain_replace map fst]; [done|].
  case_if; cbn [map fst]; by rewrite ?IH.
Qed.
Lemma chain_replace_forall (P : string -> Prop) name v l :
  Forall (fun t => P (fst t)) l -> Forall (fun t => P (fst t)) (chain_replace name v l).
Proof.
  induction l as [|[n w] l IH]; cbn [chain_replace]; [done|]. rewrite Forall_cons. intros [Hp Hl].
  case_if; constructor; auto.
Qed.
Lemma chain_replace_get name v l k :
  chain_get name l <> None ->
  chain_get k (chain_replace name v l) = if decide (k = name) then Some v else chain_get k l.
Proof.
  induction l as [|[n w] l IH]; cbn [chain_replace chain_get]; [done|].
  case_if; cbn [chain_get]; intros Hn.
  - apply strcmp_eq_true in E. subst n. case_decide as Hk; [subst k; by rewrite strcmp_eq_refl|].
    case_if; [by apply strcmp_eq_true in E; subst|done].
  - rewrite IH by done. case_decide as Hk; [subst k; by rewrite E|done].
Qed.

Lemma chain_unlink_get name l k :
  NoDup (map fst l) ->
  chain_get k (chain_unlink name l) = if decide (k = name) then None else chain_get k l.
Proof.
  induction l as [|[n w] l IH]; cbn [chain_unlink chain_get map fst]; intros Hnd;
    [by case_decide|].
  apply NoDup_cons in Hnd as [Hn Hnd]. case_if; cbn [chain_get].
  - apply strcmp_eq_true in E. subst n. case_decide as Hk; [subst k; by apply chain_get_none|].
    case_if; [by apply strcmp_eq_true in E; subst|done].
  - rewrite IH by done. case_decide as Hk; [subst k; by rewrite E|done].
Qed.
Lemma chain_unlink_sublist name l : sublist (chain_unlink name l) l.
Proof.
  induction l as [|[n w] l IH]; cbn [chain_unlink]; [constructor|].
  case_if; by constructor.
Qed.

Lemma key_bucket k name : bucket_of char_val k <> bucket_of char_val name -> k <> name.
Proof. intros H ->. done. Qed.

(** ** The operations *)

Lemma too_long_false h v :
  too_long h v = false <-> (String.length v + 1 <= nv_length h - nv_offset h)%nat.
Proof. unfold too_long. rewrite Nat.ltb_ge. done. Qed.

Lemma set_vars h name v :
  nv_wf h -> too_long h v = false ->
  exists h', nvram_set char_val h name v = (0%Z, h') /\ nv_wf h' /\
    vars h' = <[name := v]> (vars h) /\ nv_mmap h' = nv_mmap h /\
    nv_length h' = nv_length h /\ nv_offset h' = nv_offset h.
Proof.
  intros Hwf Hlen. unfold nvram_set. rewrite Hlen. eexists. split; [done|].
  destruct (chain_wf h name Hwf) as [Hb Hnd].
  set (l' := match chain_get name (chain char_val h name) with
             | Some _ => chain_replace name v (chain char_val h name)
             | None => (name, v) :: chain char_val h name end).
  assert (Forall (fun t => bucket_of char_val (fst t) = bucket_of char_val name) l'
          /\ NoDup (map fst l')) as [Hb' Hnd'].
  { subst l'. destruct (chain_get name _) eqn:E.
    - rewrite chain_replace_names. split; [|done].
      by apply (chain_replace_forall (fun n => bucket_of char_val n = bucket_of char_val name)).
    - split; [by constructor|]. cbn [map fst]. constructor; [by apply chain_get_none|done]. }
  assert (forall k, chain_get k l' =
            if decide (k = name) then Some v else chain_get k (chain char_val h name)) as Hget.
  { intros k. subst l'. destruct (chain_get name _) eqn:E.
    - apply chain_replace_get. congruence.
    - cbn [chain_get]. destruct (strcmp_eq name k) eqn:Ek.
      + apply strcmp_eq_true in Ek. by rewrite decide_True.
      + apply strcmp_eq_false in Ek. rewrite decide_False; [done|congruence]. }
  pose proof (put_chain_wf h name l' (nv_dead h) Hwf Hb' Hnd') as Hwf'.
  split; [done|]. split; [|done]. apply map_eq. intros k.
  rewrite <- (get_vars _ k Hwf'). unfold nvram_get at 1. rewrite put_chain_chain by done.
  rewrite lookup_insert. case_decide as Hk.
  - rewrite Hget. destruct (decide (k = name)) as [->|Hne]; [by rewrite decide_True|].
    rewrite decide_False by congruence. rewrite <- (get_vars h k Hwf). unfold nvram_get, chain.
    by rewrite Hk.
  - apply key_bucket in Hk. rewrite decide_False by congruence. by rewrite <- (get_vars h k Hwf).
Qed.

Lemma unset_vars h name :
  nv_wf h ->
  exists h', nvram_unset char_val h name = (0%Z, h') /\ nv_wf h' /\
    vars h' = delete name (vars h) /\ nv_mmap h' = nv_mmap h /\
    nv_length h' = nv_length h /\ nv_offset h' = nv_offset h.
Proof.
  intros Hwf. unfold nvram_unset. destruct (chain_wf h name Hwf) as [Hb Hnd].
  destruct (chain_get name (chain char_val h name)) as [v|] eqn:E; eexists; (split; [done|]).
  - pose proof (chain_unlink_sublist name (chain char_val h name)) as Hsub.
    assert (nv_wf (set_hash h (set_chain char_val h name (chain_unlink name (chain char_val h name)))
              ((name, v) :: nv_dead h))) as Hwf'.
    { apply put_chain_wf; [done| |].
      - rewrite Forall_forall in *. intros t Ht. apply Hb. by eapply elem_of_sublist in Ht.
      - eapply sublist_NoDup; [exact Hnd|by apply fmap_sublist]. }
    split; [done|]. split; [|done]. apply map_eq. intros k. rewrite <- (get_vars _ k Hwf').
    unfold nvram_get at 1. rewrite put_chain_chain by done. rewrite lookup_delete.
    case_decide as Hk.
    + rewrite chain_unlink_get by done. destruct (decide (k = name)) as [->|Hne];
        [by rewrite decide_True|]. rewrite decide_False by congruence.
      rewrite <- (get_vars h k Hwf). unfold nvram_get, chain. by rewrite Hk.
    + apply key_bucket in Hk. rewrite decide_False by congruence. by rewrite <- (get_vars h k Hwf).
  - split; [done|]. split; [|done]. symmetry. apply delete_id. rewrite <- get_vars by done. done.
Qed.

Lemma free_wf h : nv_wf (_nvram_free h) /\ vars (_nvram_free h) = ∅.
Proof.
  split.
  - split; [done|]. cbn [nv_hash set_hash _nvram_free]. intros i l Hi.
    apply lookup_replicate in Hi as [-> _]. split; constructor.
  - reflexivity.
Qed.

End store.

