(* ===== verification/NvramImage.v ===== *)
(** nvram: the image [nvram_commit] writes and the next start reads: the bytes of
    its words, the tuples written and parsed back, the checksum, and the round
    trip. *)
From S2P Require Import Prelude CStr CNum Nvram.
From Stdlib Require Import Ascii.
Open Scope string_scope.
Open Scope list_scope.

(** * Words as bytes *)

Lemma val_byte z : val_of (byte_of z) = (z mod 256)%Z.
Proof.
  unfold val_of, byte_of. pose proof (Z.mod_pos_bound z 256).
  rewrite N_ascii_embedding by lia. lia.
Qed.

Lemma get32_le32 z rest : (0 <= z < 2 ^ 32)%Z -> get32 (le32 z +:+ rest) = z.
Proof.
  intros Hz. cbn [le32 String.append get32]. rewrite !val_byte.
  Z.to_euclidean_division_equations. lia.
Qed.

Lemma slen_header hd : String.length (header_bytes hd) = HEADER_SIZE.
Proof. reflexivity. Qed.

Definition words_ok (hd : nvram_header) : Prop :=
  (0 <= h_magic hd < 2 ^ 32)%Z /\ (0 <= h_len hd < 2 ^ 32)%Z /\
  (0 <= h_crc_ver_init hd < 2 ^ 32)%Z /\ (0 <= h_config_refresh hd < 2 ^ 32)%Z /\
  (0 <= h_config_ncdl hd < 2 ^ 32)%Z.

Lemma read_header_bytes hd rest : words_ok hd -> read_header (header_bytes hd +:+ rest) = hd.
Proof.
  intros (Hm & Hl & Hc & Hr & Hn). unfold read_header, header_bytes. rewrite !sapp_assoc.
  change 16%nat with (4 + (4 + (4 + 4)))%nat. change 12%nat with (4 + (4 + 4))%nat.
  change 8%nat with (4 + 4)%nat.
  assert (forall n z r, sdrop (4 + n) (le32 z +:+ r) = sdrop n r) as H4 by reflexivity.
  assert (forall z r, sdrop 4 (le32 z +:+ r) = r) as H5 by reflexivity.
  rewrite !H4, !H5, !get32_le32 by done. by destruct hd.
Qed.

Lemma lor_shifted k a b : (0 <= k)%Z -> (0 <= a < 2 ^ k)%Z -> Z.lor a (b * 2 ^ k) = (a + b * 2 ^ k)%Z.
Proof.
  intros Hk Ha.
  assert (Z.land a (b * 2 ^ k) = 0%Z) as H0.
  { apply Z.bits_inj'. intros i Hi. rewrite Z.land_spec, Z.bits_0.
    destruct (Z.lt_ge_cases i k).
    - rewrite Z.mul_pow2_bits_low by lia. apply andb_false_r.
    - rewrite <- (Z.mod_small a (2 ^ k)) by lia. rewrite Z.mod_pow2_bits_high by lia. done. }
  rewrite Z.add_nocarry_lxor by done. symmetry. by apply Z.lxor_lor.
Qed.

(** * The checksum *)

Lemma hndcrc8_app a b c : hndcrc8 (a +:+ b) c = hndcrc8 b (hndcrc8 a c).
Proof. revert c. induction a as [|x a IH]; intros c; [done|]. cbn [String.append hndcrc8]. apply IH. Qed.

Lemma crc8_table_range i : (0 <= nth i crc8_table 0 < 256)%Z.
Proof.
  assert (Forall (fun z => (0 <= z < 256)%Z) crc8_table) as H.
  { unfold crc8_table. repeat constructor; lia. }
  destruct (Nat.lt_ge_cases i (length crc8_table)) as [Hi|Hi].
  - rewrite Forall_forall in H. apply H, list_elem_of_In, nth_In. done.
  - rewrite nth_overflow by done. lia.
Qed.
Lemma hndcrc8_range s c : (0 <= c < 256)%Z -> (0 <= hndcrc8 s c < 256)%Z.
Proof.
  revert c. induction s as [|x s IH]; intros c Hc; [done|]. cbn [hndcrc8].
  apply IH, crc8_table_range.
Qed.

(** The checksum only changes the first byte of its word. *)
Lemma le32_low x c :
  (0 <= x)%Z -> (x mod 256 = 0)%Z -> (0 <= c < 256)%Z ->
  Z.lor x c = (x + c)%Z /\ sdrop 1 (le32 (Z.lor x c)) = sdrop 1 (le32 x).
Proof.
  intros Hx Hm Hc.
  assert (Z.lor x c = x + c)%Z as ->.
  { rewrite Z.lor_comm. replace x with (x / 256 * 2 ^ 8)%Z by (pose proof (Z.div_mod x 256); lia).
    rewrite lor_shifted by lia. lia. }
  split; [done|]. cbn [le32 sdrop].
  assert ((x + c) / 256 = x / 256)%Z as E1 by (Z.to_euclidean_division_equations; lia).
  assert ((x + c) / 65536 = x / 65536)%Z as E2 by (Z.to_euclidean_division_equations; lia).
  assert ((x + c) / 16777216 = x / 16777216)%Z as E3 by (Z.to_euclidean_division_equations; lia).
  by rewrite E1, E2, E3.
Qed.

(** * The tuples *)

Definition all_text (l : list tuple) : string :=
  foldr (fun t acc => tuple_text t +:+ String NUL acc) "" l.

Lemma all_text_app a b : all_text (a ++ b) = all_text a +:+ all_text b.
Proof.
  induction a as [|t a IH]; [done|]. cbn [all_text foldr app]. fold (all_text (a ++ b)).
  fold (all_text a). rewrite IH, sapp_assoc. done.
Qed.
Lemma tuple_text_length t :
  String.length (tuple_text t) = (String.length (fst t) + 1 + String.length (snd t))%nat.
Proof. unfold tuple_text. rewrite !slen_app. simpl. lia. Qed.

(** The tuples that are written: of each chain, those before the first one that
    does not fit. *)
Fixpoint kept_chain (l : list tuple) (pos stop : nat) : list tuple :=
  match l with
  | [] => []
  | t :: r =>
      let next := (pos + String.length (tuple_text t) + 1)%nat in
      if decide (next <= stop)%nat then t :: kept_chain r next stop else []
  end.
Fixpoint kept_tuples (t : list (list tuple)) (pos stop : nat) : list tuple :=
  match t with
  | [] => []
  | l :: r =>
      let k := kept_chain l pos stop in
      k ++ kept_tuples r (pos + String.length (all_text k)) stop
  end.

Lemma write_chain_kept l pos stop : write_chain l pos stop = all_text (kept_chain l pos stop).
Proof.
  revert pos. induction l as [|t l IH]; intros pos; [done|]. cbn [write_chain kept_chain].
  rewrite tuple_text_length. case_if; bprop.
  - rewrite decide_False by lia. done.
  - rewrite decide_True by lia. cbn [all_text foldr]. fold (all_text (kept_chain l (pos +
      (String.length t.1 + 1 + String.length t.2) + 1) stop)).
    rewrite IH, slen_app, tuple_text_length, sapp_assoc. cbn [String.append String.length].
    do 4 f_equal. lia.
Qed.
Lemma write_tuples_kept t pos stop : write_tuples t pos stop = all_text (kept_tuples t pos stop).
Proof.
  revert pos. induction t as [|l t IH]; intros pos; [done|].
  cbn [write_tuples kept_tuples]. by rewrite all_text_app, write_chain_kept, IH.
Qed.

Lemma kept_chain_sub l pos stop : kept_chain l pos stop `sublist_of` l.
Proof.
  revert pos. induction l as [|t l IH]; intros pos; cbn [kept_chain]; [constructor|].
  case_decide; [by apply sublist_skip|apply sublist_nil_l].
Qed.
Lemma kept_tuples_sub t pos stop : kept_tuples t pos stop `sublist_of` concat t.
Proof.
  revert pos. induction t as [|l t IH]; intros pos; [constructor|]. cbn [kept_tuples concat].
  apply sublist_app; [apply kept_chain_sub|apply IH].
Qed.

Lemma kept_chain_room l pos stop :
  (pos <= stop)%nat -> (pos + String.length (all_text (kept_chain l pos stop)) <= stop)%nat.
Proof.
  revert pos. induction l as [|t l IH]; intros pos Hp; cbn [kept_chain]; [simpl; lia|].
  case_decide; [|simpl; lia]. cbn [all_text foldr]. fold (all_text (kept_chain l (pos +
    String.length (tuple_text t) + 1) stop)).
  specialize (IH (pos + String.length (tuple_text t) + 1)%nat ltac:(lia)).
  rewrite slen_app. cbn [String.length]. lia.
Qed.
Lemma kept_tuples_room t pos stop :
  (pos <= stop)%nat -> (pos + String.length (all_text (kept_tuples t pos stop)) <= stop)%nat.
Proof.
  revert pos. induction t as [|l t IH]; intros pos Hp; cbn [kept_tuples]; [simpl; lia|].
  rewrite all_text_app, slen_app. pose proof (kept_chain_room l pos stop Hp) as Hk.
  specialize (IH _ Hk). lia.
Qed.

(** Tuples that fit are all written. *)
Lemma kept_chain_all l pos stop :
  (pos + String.length (all_text l) <= stop)%nat -> kept_chain l pos stop = l.
Proof.
  revert pos. induction l as [|t l IH]; intros pos Hs; [done|].
  cbn [kept_chain all_text foldr] in *. fold (all_text l) in *.
  rewrite slen_app in Hs. cbn [String.length] in Hs. rewrite decide_True by lia.
  f_equal. apply IH. lia.
Qed.
Lemma kept_tuples_all t pos stop :
  (pos + String.length (all_text (concat t)) <= stop)%nat -> kept_tuples t pos stop = concat t.
Proof.
  revert pos. induction t as [|l t IH]; intros pos Hs; [done|].
  cbn [kept_tuples concat] in *. rewrite all_text_app, slen_app in *.
  rewrite kept_chain_all by lia. f_equal. apply IH. lia.
Qed.

(** A tuple that the image can hold: no NUL, and no "=" in the name. *)
Definition not_nul (c : ascii) : bool := negb (ceq c NUL).
Definition clean_tuple (t : tuple) : bool :=
  sall (fun c => not_nul c && negb (ceq c "=")) (fst t) && sall not_nul (snd t).

Lemma parse_all_text l rest fuel :
  Forall (fun t => clean_tuple t = true) l -> (length l < fuel)%nat ->
  parse_tuples fuel (all_text l +:+ String NUL rest) = Ok l.
Proof.
  revert fuel. induction l as [|[n v] l IH]; intros fuel Hc Hf; (destruct fuel as [|fuel]; [lia|]).
  - reflexivity.
  - apply Forall_cons in Hc as [Ht Hc]. unfold clean_tuple in Ht. cbn [fst snd] in Ht.
    apply andb_true_iff in Ht as [Hn Hv].
    assert (sall not_nul n = true) as Hn1.
    { eapply sall_impl; [|exact Hn]. intros c Hx. by apply andb_true_iff in Hx as []. }
    assert (sall (fun c => negb (ceq c "=")) n = true) as Hn2.
    { eapply sall_impl; [|exact Hn]. intros c Hx. by apply andb_true_iff in Hx as []. }
    cbn [all_text foldr parse_tuples]. fold (all_text l). rewrite sapp_assoc. cbn [String.append].
    rewrite strchr_app.
    2:{ change (fun d => negb (ceq d NUL)) with not_nul. unfold tuple_text.
        rewrite !sall_app. cbn [fst snd sall]. by rewrite Hn1, Hv. }
    destruct (nonempty (tuple_text (n, v))) eqn:Ene; [|by destruct n].
    cbn [negb]. unfold tuple_text. cbn [fst snd]. change ("=" +:+ v) with (String "=" v).
    rewrite strchr_app by done.
    rewrite IH; [done|done|]. simpl in Hf. lia.
Qed.

(** * Reading the image back *)

Section image.
Variable char_val : ascii -> Z.
Variable long : Z.
Variable map_base : Z.

(** A handle of the same mapping, well formed, with these variables. *)
Record holds (h0 h : nvram_handle) (m : gmap string string) : Prop := {
  holds_wf : nv_wf char_val h;
  holds_vars : vars h = m;
  holds_mmap : nv_mmap h = nv_mmap h0;
  holds_length : nv_length h = nv_length h0;
  holds_offset : nv_offset h = nv_offset h0
}.

Lemma set_holds h0 h m name v :
  holds h0 h m -> (String.length v + 1 <= nv_length h0 - nv_offset h0)%nat ->
  holds h0 (snd (nvram_set char_val h name v)) (<[name := v]> m).
Proof.
  intros [Hwf Hv Hm Hl Ho] Hlen.
  destruct (set_vars char_val h name v Hwf) as (h' & -> & Hwf' & Hv' & Hm' & Hl' & Ho').
  { apply too_long_false. congruence. }
  split; cbn [snd]; congruence.
Qed.

Lemma set_all_holds h0 l h m :
  holds h0 h m -> NoDup (map fst l) ->
  Forall (fun t => (String.length (snd t) + 1 <= nv_length h0 - nv_offset h0)%nat) l ->
  holds h0 (set_all char_val h l) (list_to_map l ∪ m).
Proof.
  revert h m. induction l as [|[n v] l IH]; intros h m Hh Hnd Hf; cbn [set_all fold_left].
  - replace (list_to_map [] ∪ m) with m by (symmetry; apply (left_id_L ∅ (∪))). done.
  - apply NoDup_cons in Hnd as [Hn Hnd]. apply Forall_cons in Hf as [Hv Hf]. cbn [fst snd] in *.
    rewrite list_to_map_cons, <- insert_union_l, insert_union_r.
    + apply IH; [by apply set_holds|done|done].
    + by apply not_elem_of_list_to_map_1.
Qed.

Lemma set_missing_holds h0 h m name v :
  holds h0 h m -> (String.length v + 1 <= nv_length h0 - nv_offset h0)%nat ->
  holds h0 (set_missing char_val h name v) (m ∪ {[name := v]}).
Proof.
  intros Hh Hlen. unfold set_missing. rewrite get_vars by apply Hh. rewrite (holds_vars _ _ _ Hh).
  destruct (m !! name) as [w|] eqn:E.
  - replace (m ∪ {[name := v]}) with m; [done|]. apply map_eq. intros k.
    rewrite lookup_union. destruct (m !! k) eqn:Ek; [by destruct ({[name := v]} !! k)|].
    rewrite lookup_singleton_ne; [done|congruence].
  - replace (m ∪ {[name := v]}) with (<[name := v]> m); [by apply set_holds|].
    rewrite <- (right_id_L ∅ (∪) m) at 1. by rewrite insert_union_r.
Qed.

(** The four variables [_nvram_rehash] takes from the header when the image does
    not have them. *)
Definition sdram_vars (hd : nvram_header) : gmap string string :=
  {["sdram_init" := "0x" +:+ hex_fixed 4 (u16 (h_crc_ver_init hd / 65536))]} ∪
  ({["sdram_config" := "0x" +:+ hex_fixed 4 (u16 (h_config_refresh hd))]} ∪
   ({["sdram_refresh" := "0x" +:+ hex_fixed 4 (u16 (h_config_refresh hd / 65536))]} ∪
    {["sdram_ncdl" := "0x" +:+ hex_fixed 8 (h_config_ncdl hd)]})).

Lemma set_sdram_holds h0 h m hd :
  holds h0 h m -> (11 <= nv_length h0 - nv_offset h0)%nat ->
  holds h0 (set_sdram char_val hd h) (m ∪ sdram_vars hd).
Proof.
  intros Hh Hlen. unfold set_sdram, sdram_vars. rewrite !(assoc_L (∪)).
  repeat apply set_missing_holds; try done; rewrite slen_app, hex_fixed_length; simpl; lia.
Qed.

(** The shortest value that fits is bounded by the text of all tuples. *)
Lemma all_text_values l bound :
  (String.length (all_text l) <= bound)%nat ->
  Forall (fun t => (String.length (snd t) + 1 <= bound)%nat) l.
Proof.
  revert bound. induction l as [|t l IH]; intros bound Hb; [constructor|].
  cbn [all_text foldr] in Hb. fold (all_text l) in Hb.
  rewrite slen_app, tuple_text_length in Hb. cbn [String.length] in Hb.
  constructor; [lia|]. apply IH. lia.
Qed.
Lemma all_text_length l : (length l <= String.length (all_text l))%nat.
Proof.
  induction l as [|t l IH]; [done|]. cbn [all_text foldr]. fold (all_text l).
  rewrite slen_app. simpl. lia.
Qed.

(** [_nvram_rehash] of an image whose data begins with the text of tuples. *)
Lemma rehash_holds h hd l rest :
  at_header h = header_bytes hd +:+ (all_text l +:+ String NUL rest) -> words_ok hd ->
  Forall (fun t => clean_tuple t = true) l -> NoDup (map fst l) ->
  (String.length (all_text l) <= nv_length h - nv_offset h)%nat ->
  (11 <= nv_length h - nv_offset h)%nat ->
  exists h', _nvram_rehash char_val h = Ok h' /\ holds h h' (list_to_map l ∪ sdram_vars hd).
Proof.
  intros Hat Hhd Hc Hnd Hlen H11. unfold _nvram_rehash. rewrite Hat, read_header_bytes by done.
  change HEADER_SIZE with (String.length (header_bytes hd)). rewrite sdrop_app.
  rewrite parse_all_text; [|done|].
  - eexists. split; [done|]. apply set_sdram_holds; [|done].
    rewrite <- (right_id_L ∅ (∪) (list_to_map l)). apply set_all_holds; [|done|].
    + destruct (free_wf char_val h) as [Hwf Hv]. by split.
    + by apply all_text_values.
  - rewrite slen_app. pose proof (all_text_length l). simpl. lia.
Qed.

(** What [_nvram_rehash] does depends on the mapping only. *)
Lemma rehash_of_mapping m l o t1 d1 t2 d2 :
  _nvram_rehash char_val (mk_handle m l o t1 d1) = _nvram_rehash char_val (mk_handle m l o t2 d2).
Proof. reflexivity. Qed.

(** * The header of a commit *)

Lemma commit_header_ok h :
  let hd := commit_header char_val long h in
  words_ok hd /\ h_magic hd = NVRAM_MAGIC /\ (h_crc_ver_init hd mod 256 = 0)%Z /\
  (h_crc_ver_init hd / 256 mod 256 = NVRAM_VERSION)%Z.
Proof.
  assert (forall a b, (0 <= a < 65536)%Z -> (0 <= b < 65536)%Z ->
            Z.lor a (b * 65536) = (a + b * 65536)%Z) as Hlor.
  { intros a b Ha Hb. apply (lor_shifted 16); lia. }
  assert (forall i c r n, (0 <= i < 65536)%Z -> (0 <= c < 65536)%Z -> (0 <= r < 65536)%Z ->
    (0 <= n < 2 ^ 32)%Z ->
    let hd := mk_header NVRAM_MAGIC 0 (Z.lor (NVRAM_VERSION * 256) (i * 65536)) (Z.lor c (r * 65536)) n in
    words_ok hd /\ h_magic hd = NVRAM_MAGIC /\ (h_crc_ver_init hd mod 256 = 0)%Z /\
    (h_crc_ver_init hd / 256 mod 256 = NVRAM_VERSION)%Z) as H.
  { intros i c r n Hi Hc Hr Hn. unfold NVRAM_VERSION, NVRAM_MAGIC, words_ok.
    cbn [h_magic h_len h_crc_ver_init h_config_refresh h_config_ncdl].
    rewrite !Hlor by lia. repeat split; try lia; Z.to_euclidean_division_equations; lia. }
  cbv zeta. unfold commit_header. cbv zeta.
  assert (0 <= SDRAM_INIT < 65536)%Z by (unfold SDRAM_INIT; lia).
  assert (0 <= SDRAM_CONFIG < 65536)%Z by (unfold SDRAM_CONFIG; lia).
  assert (0 <= SDRAM_REFRESH < 65536)%Z by (unfold SDRAM_REFRESH; lia).
  repeat case_match; apply H; try done; try apply u16_range; try apply u32_range; lia.
Qed.

Definition sdram_defaults : gmap string string :=
  {["sdram_init" := "0x0419"; "sdram_config" := "0x0000"; "sdram_refresh" := "0x8040";
    "sdram_ncdl" := "0x00000000"]}.

Lemma union_covered (m a b : gmap string string) :
  (forall k, m !! k = None -> a !! k = b !! k) -> m ∪ a = m ∪ b.
Proof.
  intros H. apply map_eq. intros k. rewrite !lookup_union.
  destruct (m !! k) eqn:E; [by destruct (a !! k), (b !! k)|]. by rewrite H.
Qed.

(** A variable the table lacks gets its default; the header only counts then. *)
Lemma sdram_default_union h :
  nv_wf char_val h ->
  vars h ∪ sdram_vars (commit_header char_val long h) = vars h ∪ sdram_defaults.
Proof.
  intros Hwf. apply union_covered. intros k Hk. unfold commit_header. cbv zeta.
  rewrite !get_vars by done.
  assert (forall hd : nvram_header, vars h !! "sdram_init" <> None -> vars h !! "sdram_config" <> None ->
    vars h !! "sdram_refresh" <> None -> vars h !! "sdram_ncdl" <> None ->
    sdram_vars hd !! k = sdram_defaults !! k) as Hall.
  { intros hd H1 H2 H3 H4. unfold sdram_vars, sdram_defaults.
    transitivity (@None string).
    - rewrite !lookup_union, !lookup_singleton_ne by congruence. done.
    - symmetry. rewrite !lookup_insert_ne by congruence. by rewrite lookup_singleton_ne by congruence. }
  repeat (case_match; [|by vm_compute]). by apply Hall.
Qed.

(** * The image *)

Definition final_header (h : nvram_handle) (size : nat) : nvram_header :=
  read_header (commit_image char_val long map_base h size).

Lemma padding_le h pos : (padding map_base h pos <= 7)%nat.
Proof.
  unfold padding. case_if; [lia|]. bprop.
  pose proof (Z.rem_bound_abs (to_i32 (map_base + Z.of_nat (nv_offset h + pos))) 4). lia.
Qed.

Lemma fill_length n c : String.length (fill n c) = n.
Proof. induction n as [|n IH]; [done|]. simpl. by rewrite IH. Qed.

Definition text_total (h : nvram_handle) : nat := String.length (all_text (concat (nv_hash h))).
Definition kept (h : nvram_handle) (size : nat) : list tuple :=
  kept_tuples (nv_hash h) HEADER_SIZE (size - 2).

(** The conditions of a commit: what is written, with its padding, and its length
    stay within the mapping. *)
Record committable (h : nvram_handle) (size : nat) : Prop := {
  c_wf : nv_wf char_val h;
  c_clean : Forall (fun t => clean_tuple t = true) (concat (nv_hash h));
  c_data : (HEADER_SIZE + String.length (data_text map_base h size) <= size)%nat;
  c_len : (image_len h size <= size)%nat;
  c_size : (Z.of_nat size < 2 ^ 32)%Z
}.

Lemma committed_text h size :
  write_tuples (nv_hash h) HEADER_SIZE (size - 2) = all_text (kept h size).
Proof. apply write_tuples_kept. Qed.

Lemma round_up4_bounds x : (x <= round_up4 x <= x + 3)%nat.
Proof. unfold round_up4. pose proof (Nat.div_mod (x + 3) 4). pose proof (Nat.mod_upper_bound (x + 3) 4). lia. Qed.

Lemma image_len_ge h size :
  (HEADER_SIZE + String.length (all_text (kept h size)) + 2 <= image_len h size)%nat.
Proof. unfold image_len. rewrite committed_text. apply round_up4_bounds. Qed.

Lemma data_text_length h size :
  String.length (data_text map_base h size) =
  (String.length (all_text (kept h size)) + 1
   + padding map_base h (HEADER_SIZE + String.length (all_text (kept h size)) + 1))%nat.
Proof.
  unfold data_text. rewrite committed_text. cbv zeta.
  rewrite slen_app. cbn [String.length]. rewrite fill_length. lia.
Qed.

Lemma kept_all h size :
  (HEADER_SIZE + text_total h + 2 <= size)%nat -> kept h size = concat (nv_hash h).
Proof. intros Hr. apply kept_tuples_all. unfold text_total in Hr. lia. Qed.

(** With eight bytes to spare everything is written, and stays within. *)
Lemma roomy_committable h size :
  nv_wf char_val h -> Forall (fun t => clean_tuple t = true) (concat (nv_hash h)) ->
  (HEADER_SIZE + text_total h + 8 <= size)%nat -> (Z.of_nat size < 2 ^ 32)%Z ->
  committable h size /\ kept h size = concat (nv_hash h) /\ (image_len h size < size)%nat.
Proof.
  intros Hwf Hc Hr Hs. pose proof (kept_all h size ltac:(lia)) as Hk.
  assert (image_len h size < size)%nat as Hl.
  { unfold image_len. rewrite committed_text, Hk. fold (text_total h).
    pose proof (round_up4_bounds (HEADER_SIZE + text_total h + 2)). lia. }
  split; [|done]. split; [done|done| |lia|done].
  rewrite data_text_length, Hk. fold (text_total h).
  pose proof (padding_le h (HEADER_SIZE + text_total h + 1)). lia.
Qed.

(** The size of the mapping from the header on being a multiple of four, and its
    address too, and not negative as an [int], nothing is written past it. *)
Lemma aligned_committable h size :
  nv_wf char_val h -> Forall (fun t => clean_tuple t = true) (concat (nv_hash h)) ->
  (HEADER_SIZE + 2 <= size)%nat -> (size mod 4 = 0)%nat -> (Z.of_nat size < 2 ^ 32)%Z ->
  (0 <= map_base)%Z -> (map_base + Z.of_nat (nv_offset h + size) < 2 ^ 31)%Z ->
  ((map_base + Z.of_nat (nv_offset h)) mod 4 = 0)%Z ->
  committable h size.
Proof.
  intros Hwf Hc Hmin Hsz Hs Hb0 Hb1 Hal.
  assert (HEADER_SIZE + String.length (all_text (kept h size)) <= size - 2)%nat as Hk.
  { unfold kept. apply kept_tuples_room. lia. }
  set (n := (HEADER_SIZE + String.length (all_text (kept h size)))%nat) in *.
  split; [done|done| | |done].
  - rewrite data_text_length. fold n.
    assert (n + 1 + padding map_base h (n + 1) <= size)%nat; [|subst n; lia].
    unfold padding. rewrite to_i32_small by lia.
    rewrite Z.rem_mod_nonneg by lia.
    replace ((map_base + Z.of_nat (nv_offset h + (n + 1))) mod 4)%Z
      with (Z.of_nat ((n + 1) mod 4)).
    2:{ rewrite Nat2Z.inj_mod. rewrite (Nat2Z.inj_add (nv_offset h)).
        rewrite Z.add_assoc, <- Zplus_mod_idemp_l, Hal. done. }
    pose proof (Nat.div_mod (n + 1) 4). pose proof (Nat.mod_upper_bound (n + 1) 4).
    pose proof (Nat.div_mod size 4). case_if; bprop; lia.
  - unfold image_len. rewrite committed_text. fold n. unfold round_up4.
    pose proof (Nat.div_mod (n + 2 + 3) 4). pose proof (Nat.mod_upper_bound (n + 2 + 3) 4).
    pose proof (Nat.div_mod size 4). lia.
Qed.

(** The data after the header: the tuples, a NUL, and the rest up to the end. *)
Lemma commit_image_eq h size :
  committable h size ->
  exists rest,
    let data := all_text (kept h size) +:+ String NUL rest in
    let hd := commit_header char_val long h in
    let len := image_len h size in
    let hb := header_bytes (mk_header 0 0 (h_crc_ver_init hd) (h_config_refresh hd) (h_config_ncdl hd)) in
    let crc := hndcrc8 (stake (len - HEADER_SIZE) data) (hndcrc8 (sdrop 9 hb) 255) in
    commit_image char_val long map_base h size =
      header_bytes (mk_header (h_magic hd) (Z.of_nat len) (Z.lor (h_crc_ver_init hd) crc)
                      (h_config_refresh hd) (h_config_ncdl hd)) +:+ data /\
    String.length data = (size - HEADER_SIZE)%nat.
Proof.
  intros Hc. pose proof (c_data _ _ Hc) as Hl.
  unfold commit_image. cbv zeta.
  set (text := data_text map_base h size) in *.
  set (ff := fill (size - HEADER_SIZE - String.length text) (byte_of 255)).
  assert (exists z, text = all_text (kept h size) +:+ String NUL z) as (z & Hz).
  { subst text. unfold data_text. rewrite committed_text. eauto. }
  exists (z +:+ ff).
  assert (all_text (kept h size) +:+ String NUL (z +:+ ff) = text +:+ ff) as ->.
  { rewrite Hz, sapp_assoc. done. }
  split; [done|]. rewrite slen_app. subst ff. rewrite fill_length. lia.
Qed.

Lemma stake_app_plus a b n : stake (String.length a + n) (a +:+ b) = a +:+ stake n b.
Proof. induction a as [|c a IH]; [done|]. simpl. by rewrite IH. Qed.

Lemma div_low x c k :
  (0 <= x)%Z -> (x mod 256 = 0)%Z -> (0 <= c < 256)%Z -> (0 < k)%Z ->
  ((x + c) / (256 * k) = x / (256 * k))%Z.
Proof.
  intros. rewrite <- !Z.div_div by lia. f_equal. Z.to_euclidean_division_equations. lia.
Qed.

(** The header of the image, its checksum, and what is read back. *)
Lemma commit_image_ok h size :
  committable h size ->
  exists hd rest,
    commit_image char_val long map_base h size
      = header_bytes hd +:+ (all_text (kept h size) +:+ String NUL rest) /\
    words_ok hd /\ h_magic hd = NVRAM_MAGIC /\ (h_crc_ver_init hd / 256 mod 256 = NVRAM_VERSION)%Z /\
    h_len hd = Z.of_nat (image_len h size) /\
    sdram_vars hd = sdram_vars (commit_header char_val long h) /\
    String.length (commit_image char_val long map_base h size) = size /\
    (forall m : nvram_handle, at_header m = commit_image char_val long map_base h size ->
       info_crc m = Ok (Z.land (h_crc_ver_init hd) 255)).
Proof.
  intros Hc. destruct (commit_image_eq h size Hc) as (rest & E). cbv zeta in E.
  destruct E as [E Hlen]. pose proof (image_len_ge h size) as Hb.
  pose proof (c_size _ _ Hc) as Hsz. pose proof (c_data _ _ Hc) as Hroom.
  pose proof (c_len _ _ Hc) as Hb2.
  destruct (commit_header_ok h) as ((Hm1 & _ & Hv1 & Hr1 & Hn1) & Hm & Hv0 & Hver).
  set (hd := commit_header char_val long h) in *. set (data := _ +:+ String NUL rest) in *.
  set (len := image_len h size) in *.
  set (crc := hndcrc8 (stake _ data) _) in E.
  assert (0 <= crc < 256)%Z as Hcrc by (subst crc; do 2 apply hndcrc8_range; lia).
  destruct (le32_low (h_crc_ver_init hd) crc) as [El Ed]; [lia|done|done|].
  set (H := mk_header (h_magic hd) (Z.of_nat len) (Z.lor (h_crc_ver_init hd) crc)
              (h_config_refresh hd) (h_config_ncdl hd)) in *.
  assert (words_ok H) as HH.
  { unfold words_ok. subst H. cbn [h_magic h_len h_crc_ver_init h_config_refresh h_config_ncdl].
    rewrite El. repeat split; try lia. all: Z.to_euclidean_division_equations; lia. }
  exists H, rest. split; [exact E|]. split; [exact HH|]. split; [exact Hm|].
  subst H. cbn [h_len h_crc_ver_init]. rewrite El. split; [|split; [done|split; [|split]]].
  - rewrite <- Hver. f_equal. pose proof (div_low (h_crc_ver_init hd) crc 1). rewrite Z.mul_1_r in *. auto with lia.
  - unfold sdram_vars. cbn [h_crc_ver_init h_config_refresh h_config_ncdl].
    pose proof (div_low (h_crc_ver_init hd) crc 256) as Hdiv.
    change (256 * 256)%Z with 65536%Z in Hdiv. rewrite Hdiv; [done|lia..].
  - rewrite E, slen_app. change (String.length (header_bytes _)) with HEADER_SIZE. lia.
  - intros m Hat. unfold info_crc. rewrite Hat, E, read_header_bytes by done. cbn [h_len].
    change (Z.of_nat NVRAM_CRC_START_POSITION) with 9%Z.
    assert (Z.to_nat (u32 (Z.of_nat len - 9)) = 11 + (len - HEADER_SIZE))%nat as ->.
    { rewrite u32_small; unfold HEADER_SIZE in *; lia. }
    set (tail := le32 (h_config_refresh hd) +:+ le32 (h_config_ncdl hd)).
    rewrite (proj2 (Nat.ltb_ge _ _)).
    2:{ rewrite slen_app. change (String.length (header_bytes _)) with HEADER_SIZE.
        unfold NVRAM_CRC_START_POSITION, HEADER_SIZE in *. lia. }
    f_equal.
    transitivity (hndcrc8 (stake (11 + (len - HEADER_SIZE))
      ((sdrop 1 (le32 (Z.lor (h_crc_ver_init hd) crc)) +:+ tail) +:+ data)) 255); [done|].
    rewrite Ed. change 11%nat with (String.length (sdrop 1 (le32 (h_crc_ver_init hd)) +:+ tail)).
    rewrite stake_app_plus, hndcrc8_app.
    transitivity crc; [done|]. change 255%Z with (Z.ones 8). rewrite Z.land_ones by lia.
    symmetry. Z.to_euclidean_division_equations. lia.
Qed.

(** * Opening *)

Lemma find_magic_ge k mem o off : find_magic k mem o = Ok (Some off) -> (o <= off)%nat.
Proof.
  revert o. induction k as [|k IH]; intros o; cbn [find_magic]; [done|].
  case_if; [done|]. case_if; [intros [= ->]; done|]. intros H. apply IH in H. lia.
Qed.

Lemma stake_get32 off o s :
  (o + 4 <= off)%nat -> get32 (sdrop o (stake off s)) = get32 (sdrop o s).
Proof.
  revert off s. induction o as [|o IH]; intros off s Ho.
  - do 4 (destruct off as [|off]; [lia|]). destruct s as [|? [|? [|? [|? ?]]]]; reflexivity.
  - destruct off as [|off]; [lia|]. destruct s as [|c s]; [done|]. cbn [stake sdrop]. apply IH. lia.
Qed.
Lemma stake_length_eq n s : (n <= String.length s)%nat -> String.length (stake n s) = n.
Proof.
  revert s. induction n as [|n IH]; intros [|c s]; simpl; intros H; try lia. rewrite IH; lia.
Qed.
Lemma app_get32 o a b :
  (o + 4 <= String.length a)%nat -> get32 (sdrop o (a +:+ b)) = get32 (sdrop o a).
Proof.
  intros H. rewrite <- (stake_get32 (String.length a) o (a +:+ b)) by done. by rewrite stake_app.
Qed.

(** The search finds the same place after the bytes from there on are replaced. *)
Lemma find_magic_commit k mem image o off :
  find_magic k mem o = Ok (Some off) ->
  String.length (stake off mem +:+ image) = String.length mem ->
  (off <= String.length mem)%nat ->
  get32 image = NVRAM_MAGIC ->
  find_magic k (stake off mem +:+ image) o = Ok (Some off).
Proof.
  intros Hf Hlen Hoff Hmagic. revert o Hf.
  induction k as [|k IH]; intros o; cbn [find_magic]; [done|]. rewrite Hlen.
  case_if; [done|]. case_if.
  - intros [= ->]. rewrite <- (stake_length_eq off mem) at 1 by done. rewrite sdrop_app.
    by rewrite Hmagic, Z.eqb_refl.
  - intros Hf. pose proof (find_magic_ge _ _ _ _ Hf) as Ho.
    rewrite app_get32 by (rewrite stake_length_eq; lia). rewrite stake_get32 by lia.
    rewrite E0. by apply IH.
Qed.

Lemma find_magic_in k mem o off :
  find_magic k mem o = Ok (Some off) -> (off + 4 <= String.length mem)%nat.
Proof.
  revert o. induction k as [|k IH]; intros o; cbn [find_magic]; [done|].
  case_if; [done|]. case_if; [intros [= <-]; bprop; lia|apply IH].
Qed.

Lemma commit_at_header h size :
  (nv_offset h <= String.length (nv_mmap h))%nat ->
  at_header (commit_mmap char_val long map_base h size)
  = commit_image char_val long map_base h size.
Proof.
  intros Hoff. unfold at_header, commit_mmap. cbn [nv_offset nv_mmap].
  rewrite <- (stake_length_eq (nv_offset h) (nv_mmap h)) at 1 by lia. apply sdrop_app.
Qed.

(** The next start finds the image; for writing it refuses one whose length is
    not below the room. *)
Lemma open_commit h size hd data h' rdonly :
  find_magic (search_words long (nv_length h)) (nv_mmap h) 0 = Ok (Some (nv_offset h)) ->
  String.length (nv_mmap h) = nv_length h -> (nv_offset h + size = nv_length h)%nat ->
  commit_image char_val long map_base h size = header_bytes hd +:+ data ->
  String.length (commit_image char_val long map_base h size) = size ->
  words_ok hd -> h_magic hd = NVRAM_MAGIC ->
  _nvram_rehash char_val (commit_mmap char_val long map_base h size) = Ok h' ->
  nvram_open char_val long
    (stake (nv_offset h) (nv_mmap h) +:+ commit_image char_val long map_base h size)
    (nv_length h) rdonly
  = Ok (if rdonly || (h_len hd <? Z.of_nat size)%Z then Some h' else None).
Proof.
  intros Hf Hml Hoff Himg Hsize Hhd Hm Hre. unfold nvram_open.
  rewrite (find_magic_commit _ _ _ _ _ Hf); [|rewrite slen_app, stake_length_eq; lia|lia|].
  2:{ rewrite Himg. unfold header_bytes. rewrite !sapp_assoc, get32_le32; [done|apply Hhd]. }
  cbv zeta.
  rewrite (rehash_of_mapping _ _ _ _ _ (nv_hash h) (nv_dead h)).
  change (mk_handle _ _ _ (nv_hash h) _) with (commit_mmap char_val long map_base h size).
  rewrite Hre.
  assert (forall t d, at_header (mk_handle
            (stake (nv_offset h) (nv_mmap h) +:+ commit_image char_val long map_base h size)
            (nv_length h) (nv_offset h) t d) = header_bytes hd +:+ data) as Hat.
  { intros t d. rewrite <- Himg. apply (commit_at_header h size). lia. }
  rewrite Hat, read_header_bytes, Hm, Z.eqb_refl by done. cbn [andb].
  replace (nv_length h - nv_offset h)%nat with size by lia. by case_if.
Qed.

(** What a commit leaves: the table read back, its mapping, which the next start
    opens, and the header. *)
Lemma commit_result h (size := (nv_length h - nv_offset h)%nat) :
  committable h size ->
  String.length (nv_mmap h) = nv_length h ->
  find_magic (search_words long (nv_length h)) (nv_mmap h) 0 = Ok (Some (nv_offset h)) ->
  exists h' hd rest,
    nvram_commit char_val long map_base h (nv_length h) = Ok h' /\
    nv_wf char_val h' /\
    vars h' = list_to_map (kept h size) ∪ sdram_vars (commit_header char_val long h) /\
    String.length (nv_mmap h') = nv_length h /\ nv_offset h' = nv_offset h /\
    (forall rdonly, nvram_open char_val long (nv_mmap h') (nv_length h) rdonly
       = Ok (if rdonly || (image_len h size <? size)%nat then Some h' else None)) /\
    at_header h' = header_bytes hd +:+ rest /\ words_ok hd /\
    h_magic hd = NVRAM_MAGIC /\ (h_crc_ver_init hd / 256 mod 256 = NVRAM_VERSION)%Z /\
    info_crc h' = Ok (Z.land (h_crc_ver_init hd) 255).
Proof.
  intros Hc Hml Hf.
  destruct (commit_image_ok h size Hc)
    as (hd & rest & Himg & Hhd & Hm & Hver & Hlenw & Hsd & Hsize & Hcrc).
  pose proof (find_magic_in _ _ _ _ Hf) as Hoff. rewrite Hml in Hoff.
  pose proof (image_len_ge h size) as Hb. pose proof (c_data _ _ Hc) as Hd.
  pose proof (c_len _ _ Hc) as Hr. pose proof (kept_tuples_sub (nv_hash h) HEADER_SIZE (size - 2)) as Hsub.
  pose proof (commit_at_header h size ltac:(lia)) as Hat.
  destruct (rehash_holds (commit_mmap char_val long map_base h size) hd (kept h size) rest)
    as (h' & Hre & Hh').
  { by rewrite Hat, Himg. } { done. }
  { pose proof (c_clean _ _ Hc) as Hcl. rewrite Forall_forall in Hcl. apply Forall_forall.
    intros t Ht. by apply Hcl, (elem_of_sublist (kept h size)). }
  { eapply sublist_NoDup; [apply (names_NoDup char_val h (c_wf _ _ Hc))|].
    by apply fmap_sublist. }
  { cbn [nv_length nv_offset commit_mmap]. fold size. lia. }
  { cbn [nv_length nv_offset commit_mmap]. fold size. unfold HEADER_SIZE in *. lia. }
  exists h', hd, (all_text (kept h size) +:+ String NUL rest). unfold nvram_commit. fold size. cbv zeta.
  rewrite (proj2 (Nat.ltb_ge _ _)) by lia. rewrite (proj2 (Nat.ltb_ge _ _)) by lia. cbn [orb].
  split; [done|]. destruct Hh' as [Hwf' Hv' Hmm' Hl' Ho'].
  assert (nv_mmap h' = stake (nv_offset h) (nv_mmap h) +:+ commit_image char_val long map_base h size)
    as Hmm by done.
  assert (String.length (nv_mmap h') = nv_length h) as Hlen'.
  { rewrite Hmm, slen_app, stake_length_eq, Hsize by lia. subst size. lia. }
  assert (at_header h' = commit_image char_val long map_base h size) as Hat'.
  { unfold at_header. rewrite Hmm', Ho'. exact Hat. }
  split; [done|]. split; [by rewrite Hv', Hsd|].
  split; [done|]. split; [done|]. split.
  - intros rdonly. rewrite Hmm.
    rewrite (open_commit h size hd _ h' rdonly Hf Hml ltac:(lia) Himg Hsize Hhd Hm Hre), Hlenw.
    replace (Z.of_nat (image_len h size) <? Z.of_nat size)%Z with (image_len h size <? size)%nat;
      [done|]. apply eq_iff_eq_true. rewrite Z.ltb_lt, Nat.ltb_lt. lia.
  - rewrite (Hcrc h' Hat'), Hat', Himg. done.
Qed.

(** When all tuples are kept, the variables are, and the sdram defaults added. *)
Lemma kept_vars h size :
  nv_wf char_val h -> kept h size = concat (nv_hash h) ->
  list_to_map (kept h size) ∪ sdram_vars (commit_header char_val long h) = vars h ∪ sdram_defaults.
Proof. intros Hwf ->. by apply sdram_default_union. Qed.

End image.

(** * Witness *)

Definition sample_part : nat := Z.to_nat NVRAM_MIN_SPACE.
Definition sample_flash : nvram_handle :=
  mk_handle (le32 NVRAM_MAGIC +:+ fill (Z.to_nat (NVRAM_MIN_SPACE - 4)) NUL) sample_part 0
    (replicate BUCKETS []) [].
Definition sample_nvram : nvram_handle :=
  snd (nvram_set val_of sample_flash "lan_ipaddr" "192.168.1.1").

Lemma sample_committable h :
  nv_wf val_of h -> nv_offset h = 0%nat ->
  forallb clean_tuple (concat (nv_hash h)) = true ->
  committable val_of 0x77001000 h sample_part.
Proof.
  intros Hwf Ho Hc. apply aligned_committable; rewrite ?Ho.
  - exact Hwf.
  - apply Forall_forall. intros t Ht. apply list_elem_of_In in Ht. revert t Ht.
    by apply forallb_forall.
  - apply Nat.leb_le. vm_compute. reflexivity.
  - apply Nat.eqb_eq. vm_compute. reflexivity.
  - vm_compute. reflexivity.
  - done.
  - vm_compute. reflexivity.
  - reflexivity.
Qed.

Lemma sample_holds name v :
  (String.length v + 1 <= sample_part)%nat ->
  nv_wf val_of (snd (nvram_set val_of sample_flash name v)).
Proof.
  intros Hv. eapply (set_holds val_of sample_flash sample_flash ∅).
  - split; try done. exact (proj1 (free_wf val_of sample_flash)).
  - change (nv_length sample_flash - nv_offset sample_flash)%nat with (sample_part - 0)%nat.
    lia.
Qed.

(** An image that fills the partition to the last byte is committed, and opens for
    reading but no longer for writing: its length is not below the room. *)
Definition full_nvram : nvram_handle :=
  snd (nvram_set val_of sample_flash "a" (fill (Z.to_nat (NVRAM_MIN_SPACE - 25)) "x")).
Definition opens_image (rdonly : bool) : bool :=
  match nvram_commit val_of 32 0x77001000 full_nvram sample_part with
  | Ok h => match nvram_open val_of 32 (nv_mmap h) sample_part rdonly with
            | Ok (Some _) => true
            | _ => false
            end
  | _ => false
  end.
Example full_image_is_readonly : opens_image true = true /\ opens_image false = false.
Proof. split; vm_compute; reflexivity. Qed.

