(* ===== verification/NvramCli.v ===== *)
(** nvram: the command (src/package/utils/nvram/src/cli.c) and the parts of nvram.c
    that find the flash partition and copy it to the staging file and back. Every
    run of [main] is a process of its own. Files are their bytes and mode; the
    results of open(2), write(2) and unlink(2) are parameters; fsync, the success
    of mmap of an open file and memory exhaustion are not modelled. *)
From S2P Require Import Prelude CStr CNum Nvram NvramImage.
From stdpp Require Import pretty.
From Stdlib Require Import Ascii.
Open Scope string_scope.
Open Scope list_scope.

Definition NVRAM_STAGING : string := "/tmp/.nvram".
Definition PATH_MAX : nat := Z.to_nat 4096.
Definition S_IFBLK : Z := 0x6000.
Definition S_IFREG : Z := 0x8000.

(** * Files and the process *)

Record node := mk_node { n_mode : Z; n_data : string }.

Record nv_world := mk_world {
  w_files : gmap string node;
  w_out : list string;
  w_err : list string
}.
Definition put_file (path : string) (n : node) (w : nv_world) : nv_world :=
  mk_world (<[path := n]> (w_files w)) (w_out w) (w_err w).
Definition print (s : string) (w : nv_world) : nv_world :=
  mk_world (w_files w) (w_out w ++ [s]) (w_err w).
Definition complain (s : string) (w : nv_world) : nv_world :=
  mk_world (w_files w) (w_out w) (w_err w ++ [s]).

(** * The line of /proc/mtd *)

(** A number conversion of sscanf(3). *)
Definition scan_number (base : Z) (s : string) : option (Z * string) :=
  let '(neg, t) := sign (ltrim isspace s) in
  let '(b, u) := number_base base t in
  if starts_digit b u then
    let '(m, rest) := digits b 0 u in Some ((if neg then - m else m)%Z, rest)
  else None.

(** sscanf(dev, "mtd%d: %08x", &i, &part_size): what is converted. *)
Definition scan_mtd (dev : string) : option (Z * option Z) :=
  if String.prefix "mtd" dev then
    match scan_number 10 (sdrop 3 dev) with
    | Some (i, String c rest) =>
        Some (to_i32 i,
              if ceq c ":"
              then match scan_number 16 (stake 8 (ltrim isspace rest)) with
                   | Some (p, _) => Some (to_i32 p)
                   | None => None
                   end
              else None)
    | Some (i, "") => Some (to_i32 i, None)
    | None => None
    end
  else None.

Definition contains (needle s : string) : bool :=
  match String.index 0 needle s with Some _ => true | None => false end.

Section cli.
Variable char_val : ascii -> Z.
Variable long : Z.
Variable map_base : Z.
(** open(2) of an existing file, or of the staging file, for reading or writing
    ([true]); how many bytes write(2) writes; and whether unlink(2) succeeds. *)
Variable may_open : string -> bool -> bool.
Variable written : string -> string -> nat.
Variable may_unlink : bool.
(** The text of the percentage [do_info] prints. *)
Variable percent : Z -> Z -> string.

Definition is_block (w : nv_world) (path : string) : bool :=
  match w_files w !! path with
  | Some n => negb (Z.land (n_mode n) S_IFBLK =? 0)%Z
  | None => false
  end.

(** The loop of [nvram_find_mtd]; [part] is the variable [part_size], not yet set
    at first, and [size] the global [nvram_part_size]. *)
Fixpoint find_mtd_lines (w : nv_world) (lines : list string) (part : option Z) (size : Z)
    : outcome (option string * Z) :=
  match lines with
  | [] => Ok (None, size)
  | dev :: rest =>
      match (if contains "nvram" dev then scan_mtd dev else None) with
      | None => find_mtd_lines w rest part size
      | Some (i, p) =>
          match (match p with Some _ => p | None => part end) with
          | None => Crash
          | Some p =>
              let size := (p mod 2 ^ long)%Z in
              let path := "/dev/mtdblock" +:+ pretty i in
              if is_block w path then Ok (Some path, size)
              else find_mtd_lines w rest (Some p) size
          end
      end
  end.

(** The device and the new value of [nvram_part_size]. *)
Definition nvram_find_mtd (w : nv_world) (size : Z) : outcome (option string * Z) :=
  match w_files w !! "/proc/mtd" with
  | Some n => find_mtd_lines w (fgets_lines PATH_MAX (n_data n)) None size
  | None => Ok (None, size)
  end.

Definition nvram_find_staging (w : nv_world) : bool :=
  match w_files w !! NVRAM_STAGING with
  | Some n => negb (Z.land (n_mode n) S_IFREG =? 0)%Z
  | None => false
  end.

(** read(2) of exactly [n] bytes of a file that can be opened. *)
Definition read_exactly (w : nv_world) (path : string) (n : nat) : option string :=
  match w_files w !! path with
  | Some f => if may_open path false && (n <=? String.length (n_data f))%nat
              then Some (stake n (n_data f)) else None
  | None => None
  end.

(** write(2) over the beginning of a file; the result is not looked at. *)
Definition write_over (path : string) (buf : string) (n : node) : node :=
  let k := Nat.min (String.length buf) (written path buf) in
  mk_node (n_mode n) (stake k buf +:+ sdrop k (n_data n)).

Definition nvram_to_staging (w : nv_world) (size : Z) : outcome (Z * Z * nv_world) :=
  match nvram_find_mtd w size with
  | Ok (Some mtd, size) =>
      if (0 <? size)%Z then
        match read_exactly w mtd (Z.to_nat size) with
        | Some buf =>
            if may_open NVRAM_STAGING true then
              let old := default (mk_node 0x8180 "") (w_files w !! NVRAM_STAGING) in
              Ok (0%Z, size, put_file NVRAM_STAGING (write_over NVRAM_STAGING buf old) w)
            else Ok ((-1)%Z, size, w)
        | None => Ok ((-1)%Z, size, w)
        end
      else Ok ((-1)%Z, size, w)
  | Ok (None, size) => Ok ((-1)%Z, size, w)
  | Exit c => Exit c
  | Crash => Crash
  end.

Definition staging_to_nvram (w : nv_world) (size : Z) : outcome (Z * nv_world) :=
  match nvram_find_mtd w size with
  | Ok (Some mtd, size) =>
      if (0 <? size)%Z then
        match read_exactly w NVRAM_STAGING (Z.to_nat size) with
        | Some buf =>
            match w_files w !! mtd with
            | Some dev =>
                if may_open mtd true then
                  let w := put_file mtd (write_over mtd buf dev) w in
                  if may_unlink
                  then Ok (0%Z, mk_world (delete NVRAM_STAGING (w_files w)) (w_out w) (w_err w))
                  else Ok (1%Z, w)
                else Ok ((-1)%Z, w)
            | None => Ok ((-1)%Z, w)
            end
        | None => Ok ((-1)%Z, w)
        end
      else Ok ((-1)%Z, w)
  | Ok (None, _) => Ok ((-1)%Z, w)
  | Exit c => Exit c
  | Crash => Crash
  end.

(** [nvram_open(file, rdonly)]: the handle and [nvram_part_size]. *)
Definition open_file (w : nv_world) (size : Z) (file : string) (rdonly : bool)
    : outcome (option nvram_handle * Z) :=
  match (if (size =? 0)%Z then nvram_find_mtd w size else Ok (Some file, size)) with
  | Ok (Some _, size) =>
      if (size =? 0)%Z then Ok (None, size)
      else match w_files w !! file with
           | Some n =>
               if may_open file true then
                 match nvram_open char_val long (stake (Z.to_nat size) (n_data n))
                         (Z.to_nat size) rdonly with
                 | Ok h => Ok (h, size)
                 | Exit c => Exit c
                 | Crash => Crash
                 end
               else Ok (None, size)
           | None => Ok (None, size)
           end
  | Ok (None, size) => Ok (None, size)
  | Exit c => Exit c
  | Crash => Crash
  end.

Definition nvram_open_rdonly (w : nv_world) : outcome (option nvram_handle * Z) :=
  if nvram_find_staging w then open_file w 0 NVRAM_STAGING true
  else match nvram_find_mtd w 0 with
       | Ok (Some mtd, size) => open_file w size mtd true
       | Ok (None, size) => Ok (None, size)
       | Exit c => Exit c
       | Crash => Crash
       end.

Definition nvram_open_staging (w : nv_world) : outcome (option nvram_handle * Z * nv_world) :=
  let opened (w : nv_world) (size : Z) :=
    match open_file w size NVRAM_STAGING false with
    | Ok (h, size) => Ok (h, size, w)
    | Exit c => Exit c
    | Crash => Crash
    end in
  if nvram_find_staging w then opened w 0%Z
  else match nvram_to_staging w 0 with
       | Ok (stat, size, w) => if (stat =? 0)%Z then opened w size else Ok (None, size, w)
       | Exit c => Exit c
       | Crash => Crash
       end.

(** * The commands *)

Definition do_show (h : nvram_handle) (w : nv_world) : Z * nv_world :=
  match nvram_getall h with
  | [] => (1%Z, w)
  | l => (0%Z, fold_left (fun w t => print (fst t +:+ "=" +:+ snd t) w) l w)
  end.

Definition do_get (h : nvram_handle) (var : string) (w : nv_world) : Z * nv_world :=
  match nvram_get char_val h var with
  | Some val => (0%Z, print val w)
  | None => (1%Z, w)
  end.

Definition do_unset (h : nvram_handle) (var : string) : Z * nvram_handle :=
  nvram_unset char_val h var.

Definition do_set (h : nvram_handle) (pair : string) : Z * nvram_handle :=
  match strchr "=" pair with
  | Some (var, val) => nvram_set char_val h var val
  | None => (1%Z, h)
  end.

Definition hex_word (n : nat) (z : Z) : string := "0x" +:+ hex_fixed n z.
Definition do_info (h : nvram_handle) (w : nv_world) : outcome (Z * nv_world) :=
  match info_crc h with
  | Ok crc =>
      let hdr := read_header (at_header h) in
      let room := (Z.of_nat (nv_length h) - Z.of_nat (nv_offset h))%Z in
      let crc_ver_init := h_crc_ver_init hdr in
      Ok (0%Z,
       fold_left (fun w s => print s w)
         ["Magic:         " +:+ hex_word 8 (h_magic hdr);
          "Length:        " +:+ hex_word 8 (h_len hdr);
          "Offset:        " +:+ hex_word 8 (Z.of_nat (nv_offset h));
          "CRC8:          " +:+ hex_word 2 (Z.land crc_ver_init 255)
            +:+ " (calculated: " +:+ hex_word 2 crc +:+ ")";
          "Version:       " +:+ hex_word 2 (Z.land (crc_ver_init / 256) 255);
          "SDRAM init:    " +:+ hex_word 4 (Z.land (crc_ver_init / 65536) 65535);
          "SDRAM config:  " +:+ hex_word 4 (Z.land (h_config_refresh hdr) 65535);
          "SDRAM refresh: " +:+ hex_word 4 (Z.land (h_config_refresh hdr / 65536) 65535);
          "NCDL values:   " +:+ hex_word 8 (h_config_ncdl hdr);
          "";
          pretty (to_i32 (h_len hdr)) +:+ " bytes used / " +:+ pretty (to_i32 (room - h_len hdr))
            +:+ " bytes available (" +:+ percent (h_len hdr) room +:+ "%)"] w)
  | Exit c => Exit c
  | Crash => Crash
  end.

(** * [main] *)

(** What the loop over the arguments keeps: the exit status, [commit] and [done]. *)
Record run := mk_run { r_stat : Z; r_commit : bool; r_done : Z }.

Definition arg_command (name arg : string) (h : nvram_handle) (w : nv_world)
    : Z * nvram_handle * nv_world :=
  if strcmp_eq name "get" then let '(stat, w) := do_get h arg w in (stat, h, w)
  else let '(stat, h) := (if strcmp_eq name "unset" then do_unset h arg else do_set h arg) in
       (stat, h, w).

Fixpoint run_args (args : list string) (r : run) (h : nvram_handle) (w : nv_world)
    : outcome (run * nvram_handle * nv_world) :=
  match args with
  | [] => Ok (r, h, w)
  | a :: rest =>
      if strcmp_eq a "show" then
        let '(stat, w) := do_show h w in run_args rest (mk_run stat (r_commit r) (r_done r + 1)) h w
      else if strcmp_eq a "info" then
        match do_info h w with
        | Ok (stat, w) => run_args rest (mk_run stat (r_commit r) (r_done r + 1)) h w
        | Exit c => Exit c
        | Crash => Crash
        end
      else if strcmp_eq a "get" || strcmp_eq a "unset" || strcmp_eq a "set" then
        match rest with
        | arg :: rest =>
            let '(stat, h, w) := arg_command a arg h w in
            run_args rest (mk_run stat (r_commit r) (r_done r + 1)) h w
        | [] => Ok (mk_run (r_stat r) (r_commit r) 0, h,
                 complain ("Command '" +:+ a +:+ "' requires an argument!") w)
        end
      else if strcmp_eq a "commit" then run_args rest (mk_run (r_stat r) true (r_done r + 1)) h w
      else Ok (mk_run (r_stat r) (r_commit r) 0, h,
            complain ("Unknown option '" +:+ a +:+ "' !") w)
  end.

(** [argv] without the name of the program. *)
Definition wants_write (argv : list string) : bool :=
  match argv with
  | a :: rest =>
      (strcmp_eq a "set" && (1 <=? length rest)%nat)
      || (strcmp_eq a "unset" && (1 <=? length rest)%nat) || strcmp_eq a "commit"
  | [] => false
  end.

Definition usage (w : nv_world) : nv_world := complain "Usage:" w.

(** The shared mapping of the staging file holds what [nvram_commit] wrote. *)
Definition sync_staging (h : nvram_handle) (w : nv_world) : nv_world :=
  match w_files w !! NVRAM_STAGING with
  | Some n => put_file NVRAM_STAGING
                (mk_node (n_mode n) (nv_mmap h +:+ sdrop (nv_length h) (n_data n))) w
  | None => w
  end.

(** The end of [main] after the commands: commit, close, copy to the device. *)
Definition finish (write : bool) (size : Z) (r : run) (h : nvram_handle) (w : nv_world)
    : outcome Z * nv_world :=
  match (if write then nvram_commit char_val long map_base h (Z.to_nat size) else Ok h) with
  | Ok h' =>
      let w := if write then sync_staging h' w else w in
      let stat := if write then 0%Z else r_stat r in
      match (if r_commit r then staging_to_nvram w size else Ok (stat, w)) with
      | Ok (stat, w) => if (r_done r =? 0)%Z then (Ok 1%Z, usage w) else (Ok stat, w)
      | Exit c => (Exit c, w)
      | Crash => (Crash, w)
      end
  | Exit c => (Exit c, w)
  | Crash => (Crash, w)
  end.

Definition main (argv : list string) (w : nv_world) : outcome Z * nv_world :=
  match argv with
  | [] => (Ok 1%Z, usage w)
  | _ =>
      let write := wants_write argv in
      match (if write then nvram_open_staging w
             else match nvram_open_rdonly w with
                  | Ok (h, size) => Ok (h, size, w)
                  | Exit c => Exit c
                  | Crash => Crash
                  end) with
      | Ok (Some h, size, w) =>
          match run_args argv (mk_run 1 false 0) h w with
          | Ok (r, h, w) => finish write size r h w
          | Exit c => (Exit c, w)
          | Crash => (Crash, w)
          end
      | Ok (None, _, w) => (Ok 1%Z, complain "Could not open nvram!" w)
      | Exit c => (Exit c, w)
      | Crash => (Crash, w)
      end
  end.

(** * Finding the device *)

(** The device does not depend on files other than /proc/mtd and the block
    devices, nor on the size known before. *)
Lemma find_lines_agree w w' lines part size size' path z :
  (forall x, is_block w ("/dev/mtdblock" +:+ x) = is_block w' ("/dev/mtdblock" +:+ x)) ->
  find_mtd_lines w lines part size = Ok (Some path, z) ->
  find_mtd_lines w' lines part size' = Ok (Some path, z) /\ exists x, path = "/dev/mtdblock" +:+ x.
Proof.
  intros Hb. revert part size size'.
  induction lines as [|dev lines IH]; intros part size size'; cbn [find_mtd_lines]; [done|].
  destruct (if contains "nvram" dev then scan_mtd dev else None) as [[i p]|]; [|apply IH].
  destruct (match p with Some _ => p | None => part end) as [q|]; [|done].
  rewrite <- Hb. destruct (is_block w _) eqn:E; [|apply IH]. intros [= <- <-]. eauto.
Qed.
Lemma find_mtd_agree w w' size size' path z :
  w_files w !! "/proc/mtd" = w_files w' !! "/proc/mtd" ->
  (forall x, is_block w ("/dev/mtdblock" +:+ x) = is_block w' ("/dev/mtdblock" +:+ x)) ->
  nvram_find_mtd w size = Ok (Some path, z) ->
  nvram_find_mtd w' size' = Ok (Some path, z) /\ exists x, path = "/dev/mtdblock" +:+ x.
Proof.
  intros Hp Hb. unfold nvram_find_mtd. rewrite <- Hp.
  destruct (w_files w !! "/proc/mtd"); [|done]. by apply find_lines_agree.
Qed.

(** Worlds in which the devices are the same but for their content. *)
Definition same_devices (w w' : nv_world) : Prop :=
  w_files w !! "/proc/mtd" = w_files w' !! "/proc/mtd" /\
  forall x, is_block w ("/dev/mtdblock" +:+ x) = is_block w' ("/dev/mtdblock" +:+ x).

Lemma same_devices_trans w1 w2 w3 : same_devices w1 w2 -> same_devices w2 w3 -> same_devices w1 w3.
Proof. intros [H1 H2] [H3 H4]. split; [congruence|]. intros x. by rewrite H2. Qed.

Lemma put_staging_devices n w : same_devices w (put_file NVRAM_STAGING n w).
Proof.
  split; unfold is_block, put_file; cbn [w_files].
  - by rewrite lookup_insert_ne.
  - intros x. by rewrite lookup_insert_ne.
Qed.
Lemma put_device_devices x dev n w :
  w_files w !! ("/dev/mtdblock" +:+ x) = Some dev -> n_mode n = n_mode dev ->
  same_devices w (put_file ("/dev/mtdblock" +:+ x) n w).
Proof.
  intros Hd Hm. split; unfold is_block, put_file; cbn [w_files].
  - by rewrite lookup_insert_ne.
  - intros y. destruct (decide (y = x)) as [->|Hne].
    + by rewrite lookup_insert_eq, Hd, Hm.
    + rewrite lookup_insert_ne; [done|]. intros E. apply (inj (String.append _)) in E. congruence.
Qed.
Lemma find_mtd_same w w' size size' path z :
  same_devices w w' -> nvram_find_mtd w size = Ok (Some path, z) ->
  nvram_find_mtd w' size' = Ok (Some path, z).
Proof. intros [H1 H2] H. by apply (find_mtd_agree w w' size size' path z H1 H2). Qed.

Lemma find_mtd_path w size path z :
  nvram_find_mtd w size = Ok (Some path, z) -> exists x, path = "/dev/mtdblock" +:+ x.
Proof. intros H. by apply (find_mtd_agree w w size size path z eq_refl (fun x => eq_refl) H). Qed.

(** * Handles as opened *)

Record opened (mem : string) (part : nat) (h : nvram_handle) : Prop := {
  o_wf : nv_wf char_val h;
  o_mmap : nv_mmap h = mem;
  o_length : nv_length h = part;
  o_found : find_magic (search_words long part) mem 0 = Ok (Some (nv_offset h))
}.

(** An operation on the table: it stays well formed, of the same mapping. *)
Definition keeps (h h' : nvram_handle) : Prop :=
  nv_wf char_val h ->
  nv_wf char_val h' /\ nv_mmap h' = nv_mmap h /\ nv_length h' = nv_length h /\
  nv_offset h' = nv_offset h.
#[local] Instance keeps_preorder : PreOrder keeps.
Proof.
  split; [done|]. intros a b c H1 H2 Hwf. destruct (H1 Hwf) as (Hwf' & <- & <- & <-). auto.
Qed.

Lemma set_keeps h name v : keeps h (snd (nvram_set char_val h name v)).
Proof.
  intros Hwf. destruct (too_long h v) eqn:E.
  - unfold nvram_set. by rewrite E.
  - destruct (set_vars char_val h name v Hwf E) as (h' & -> & Hh). tauto.
Qed.
Lemma set_all_keeps l h : keeps h (set_all char_val h l).
Proof.
  revert h. induction l as [|t l IH]; intros h; [done|]. cbn [set_all fold_left].
  transitivity (snd (nvram_set char_val h (fst t) (snd t))); [apply set_keeps|apply IH].
Qed.
Lemma set_missing_keeps h name v : keeps h (set_missing char_val h name v).
Proof. unfold set_missing. destruct (nvram_get char_val h name); [done|apply set_keeps]. Qed.

Lemma rehash_frame h h' :
  _nvram_rehash char_val h = Ok h' ->
  nv_wf char_val h' /\ nv_mmap h' = nv_mmap h /\ nv_length h' = nv_length h /\
  nv_offset h' = nv_offset h.
Proof.
  unfold _nvram_rehash. destruct (parse_tuples _ _) as [l|c|]; [|done..]. intros [= <-].
  assert (keeps (_nvram_free h)
    (set_sdram char_val (read_header (at_header h)) (set_all char_val (_nvram_free h) l))) as H.
  { unfold set_sdram. cbv zeta.
    repeat (etransitivity; [|apply set_missing_keeps]). apply set_all_keeps. }
  exact (H (proj1 (free_wf char_val h))).
Qed.

Lemma open_opened mem part rdonly h :
  nvram_open char_val long mem part rdonly = Ok (Some h) -> opened mem part h.
Proof.
  unfold nvram_open. destruct (find_magic _ _ _) as [[off|]|c|] eqn:Ef; [|done..]. cbv zeta.
  case_if; [|done]. destruct (_nvram_rehash _ _) as [h'|c|] eqn:Er; [|done..]. intros [= <-].
  apply rehash_frame in Er as (Hwf & Hm & Hl & Ho). cbn [nv_mmap nv_length nv_offset] in *.
  split; [done|done|done|]. by rewrite Ho.
Qed.

(** * Committing a set of variables *)

(** A set of variables that an image of [size] bytes can hold. *)
Definition storable (m : gmap string string) (size : nat) : Prop :=
  Forall (fun t => clean_tuple t = true) (map_to_list m) /\
  (HEADER_SIZE + String.length (all_text (map_to_list m)) + 8 <= size)%nat /\
  (Z.of_nat size < 2 ^ 32)%Z.

Lemma all_text_perm l l' : l ≡ₚ l' -> String.length (all_text l) = String.length (all_text l').
Proof.
  induction 1 as [|t l l' _ IH|a b l|l l' l'' _ IH1 _ IH2]; cbn [all_text foldr];
    rewrite ?slen_app; cbn [String.length]; unfold all_text in *; [done|lia|rewrite ?slen_app; simpl; lia|lia].
Qed.

Lemma vars_perm h : nv_wf char_val h -> map_to_list (vars h) ≡ₚ concat (nv_hash h).
Proof. intros Hwf. apply map_to_list_to_map. by apply (names_NoDup char_val). Qed.

Lemma storable_committable h size :
  nv_wf char_val h -> storable (vars h) size ->
  committable char_val map_base h size /\ kept h size = concat (nv_hash h) /\
  (image_len h size < size)%nat.
Proof.
  intros Hwf (Hc & Hr & Hs). pose proof (vars_perm h Hwf) as Hp.
  pose proof (all_text_perm _ _ Hp) as Hl. apply roomy_committable; [done| | |done].
  - by rewrite <- Hp.
  - unfold text_total. rewrite <- Hl. exact Hr.
Qed.

Lemma storable_subseteq m m' size : m ⊆ m' -> storable m' size -> storable m size.
Proof.
  intros Hm (Hc & Hr & Hs).
  assert (map_to_list m ⊆+ map_to_list m') as Hsub by by apply map_to_list_submseteq.
  apply submseteq_Permutation in Hsub as (k & Hk). unfold storable.
  rewrite (all_text_perm _ _ Hk), all_text_app, slen_app in Hr. rewrite Hk, Forall_app in Hc.
  destruct Hc. split; [done|]. split; [lia|done].
Qed.

Lemma storable_value m size name v :
  storable m size -> m !! name = Some v -> (String.length v + 1 <= size)%nat.
Proof.
  intros (_ & Hr & _) Hv. apply elem_of_map_to_list in Hv.
  pose proof (all_text_values (map_to_list m) size ltac:(lia)) as Hf.
  rewrite Forall_forall in Hf. exact (Hf _ Hv).
Qed.

(** A commit of a handle as opened. *)
Lemma commit_opened mem part h :
  opened mem part h -> String.length mem = part -> storable (vars h) (part - nv_offset h) ->
  exists h', nvram_commit char_val long map_base h part = Ok h' /\
    opened (nv_mmap h') part h' /\ String.length (nv_mmap h') = part /\
    nv_offset h' = nv_offset h /\ vars h' = vars h ∪ sdram_defaults /\
    (forall rdonly, nvram_open char_val long (nv_mmap h') part rdonly = Ok (Some h')).
Proof.
  intros [Hwf <- <- Hf] Hmem Hs. apply storable_committable in Hs as (Hs & Hk & Hl); [|done].
  destruct (commit_result char_val long map_base h Hs Hmem Hf)
    as (h' & hd & rest & Hc & _ & Hv & Hlen & Ho & Hopen & _).
  apply Nat.ltb_lt in Hl. rewrite Hl in Hopen. setoid_rewrite orb_true_r in Hopen.
  rewrite kept_vars in Hv by done.
  exists h'. split; [done|]. split; [by apply (open_opened _ _ true)|]. done.
Qed.

Lemma set_opened mem part h name v :
  opened mem part h -> (String.length v + 1 <= part - nv_offset h)%nat ->
  exists h', nvram_set char_val h name v = (0%Z, h') /\ opened mem part h' /\
    nv_offset h' = nv_offset h /\ vars h' = <[name := v]> (vars h).
Proof.
  intros [Hwf Hm Hl Hf] Hv.
  destruct (set_vars char_val h name v Hwf) as (h' & E & Hwf' & Hvs & Hm' & Hl' & Ho').
  { apply too_long_false. by rewrite Hl. }
  exists h'. split; [done|]. split; [split; congruence|done].
Qed.

(** * A system on which the calls succeed

    Files open, the staging file can be removed, and what is written to it is
    written whole. What a write to the device writes is left open. *)

Section calls_succeed.
Hypothesis opens : forall path w, may_open path w = true.
Hypothesis writes : forall buf, (String.length buf <= written NVRAM_STAGING buf)%nat.
Hypothesis unlinks : may_unlink = true.

Lemma sdrop_all n s : (String.length s <= n)%nat -> sdrop n s = "".
Proof. revert s. induction n as [|n IH]; intros [|c s]; simpl; intros H; try done; [lia|]. apply IH. lia. Qed.

Lemma write_over_all path buf n :
  (String.length buf <= written path buf)%nat ->
  (String.length (n_data n) <= String.length buf)%nat ->
  write_over path buf n = mk_node (n_mode n) buf.
Proof.
  intros Hw H. unfold write_over. rewrite Nat.min_l by done. cbv zeta.
  by rewrite stake_id, sdrop_all, sapp_nil_r by done.
Qed.

Lemma read_whole w path n :
  w_files w !! path = Some n ->
  read_exactly w path (String.length (n_data n)) = Some (n_data n).
Proof.
  intros E. unfold read_exactly. rewrite E, opens, Nat.leb_refl. cbn [andb]. by rewrite stake_id.
Qed.

(** The staging file holds an image that opens as [h]. *)
Definition staged (w : nv_world) (part : nat) (h : nvram_handle) : Prop :=
  w_files w !! NVRAM_STAGING = Some (mk_node 0x8180 (nv_mmap h)) /\
  String.length (nv_mmap h) = part /\ opened (nv_mmap h) part h /\
  forall rdonly, nvram_open char_val long (nv_mmap h) part rdonly = Ok (Some h).

Lemma open_file_ok w size mtd file rdonly n h part :
  nvram_find_mtd w 0 = Ok (Some mtd, Z.of_nat part) -> (0 < part)%nat ->
  size = 0%Z \/ size = Z.of_nat part ->
  w_files w !! file = Some n -> String.length (n_data n) = part ->
  nvram_open char_val long (n_data n) part rdonly = Ok (Some h) ->
  open_file w size file rdonly = Ok (Some h, Z.of_nat part).
Proof.
  intros Hmtd Hpos Hsize Hn Hlen Hopen. unfold open_file.
  assert (exists f, (if (size =? 0)%Z then nvram_find_mtd w size else Ok (Some file, size))
            = Ok (Some f, Z.of_nat part)) as (f & ->).
  { destruct Hsize as [->| ->]; [by exists mtd|]. exists file.
    destruct (Z.eqb_spec (Z.of_nat part) 0); [lia|done]. }
  destruct (Z.eqb_spec (Z.of_nat part) 0); [lia|]. rewrite Hn, opens, Nat2Z.id.
  rewrite stake_id by lia. by rewrite Hopen.
Qed.

Lemma find_staged w part h : staged w part h -> nvram_find_staging w = true.
Proof. intros [E _]. unfold nvram_find_staging. by rewrite E. Qed.

(** Writing the table of a handle of the staging file back to it. *)
Lemma finish_staged size r h h' n w part :
  nvram_commit char_val long map_base h part = Ok h' -> size = Z.of_nat part ->
  w_files w !! NVRAM_STAGING = Some (mk_node 0x8180 n) -> String.length n = part ->
  nv_length h' = part -> r_commit r = false -> r_done r <> 0%Z ->
  finish true size r h w
  = (Ok 0%Z, put_file NVRAM_STAGING (mk_node 0x8180 (nv_mmap h')) w).
Proof.
  intros Hc -> Hn Hlen Hl Hcm Hd. unfold finish. rewrite Nat2Z.id, Hc, Hcm. cbv zeta.
  destruct (Z.eqb_spec (r_done r) 0); [done|]. unfold sync_staging. rewrite Hn.
  cbn [n_mode n_data]. rewrite Hl, sdrop_all, sapp_nil_r by lia. done.
Qed.

(** ** The three runs *)

(** The image the command works on: that of the staging file, or of the device
    when there is none. *)
Definition current (w : nv_world) (dev : node) (part : nat) (h : nvram_handle) : Prop :=
  (w_files w !! NVRAM_STAGING = None /\
   nvram_open char_val long (n_data dev) part false = Ok (Some h)) \/
  staged w part h.

Lemma open_current w mtd part dev h0 :
  nvram_find_mtd w 0 = Ok (Some mtd, Z.of_nat part) ->
  w_files w !! mtd = Some dev -> String.length (n_data dev) = part -> (0 < part)%nat ->
  current w dev part h0 ->
  exists mem, let w0 := put_file NVRAM_STAGING (mk_node 0x8180 mem) w in
    nvram_open_staging w = Ok (Some h0, Z.of_nat part, w0) /\
    String.length mem = part /\ opened mem part h0.
Proof.
  intros Hmtd Hdev Hlen Hpos [[Hst Hopen]|Hst]; unfold nvram_open_staging.
  - exists (n_data dev). split; [|split; [done|by apply (open_opened _ _ false)]].
    unfold nvram_find_staging, nvram_to_staging. rewrite Hst, Hmtd.
    destruct (Z.ltb_spec 0 (Z.of_nat part)); [|lia]. rewrite Nat2Z.id.
    rewrite <- Hlen at 1. rewrite (read_whole _ _ _ Hdev), opens. cbn [default].
    rewrite write_over_all by (first [apply writes|simpl; lia]). cbn [n_mode].
    change (0 =? 0)%Z with true. cbv iota.
    pose proof (put_staging_devices (mk_node 0x8180 (n_data dev)) w) as Hsame.
    rewrite (open_file_ok _ _ mtd _ _ (mk_node 0x8180 (n_data dev)) h0 part);
      [done|by eapply find_mtd_same|done|by right|apply lookup_insert_eq|done|done].
  - rewrite (find_staged _ _ _ Hst). destruct Hst as (Hn & Hl & Ho & Hopen).
    exists (nv_mmap h0). split; [|done].
    rewrite (open_file_ok _ _ mtd _ _ _ h0 part Hmtd Hpos (or_introl eq_refl) Hn Hl (Hopen false)).
    unfold put_file. rewrite insert_id by done. by destruct w.
Qed.

Lemma run_set w mtd part dev h0 name v :
  nvram_find_mtd w 0 = Ok (Some mtd, Z.of_nat part) ->
  w_files w !! mtd = Some dev -> String.length (n_data dev) = part -> (0 < part)%nat ->
  current w dev part h0 ->
  sall (fun c => not_nul c && negb (ceq c "=")) name = true ->
  storable (<[name := v]> (vars h0)) (part - nv_offset h0) ->
  exists h1, let w1 := put_file NVRAM_STAGING (mk_node 0x8180 (nv_mmap h1)) w in
    main ["set"; name +:+ "=" +:+ v] w = (Ok 0%Z, w1) /\ staged w1 part h1 /\
    nv_offset h1 = nv_offset h0 /\ vars h1 = <[name := v]> (vars h0) ∪ sdram_defaults.
Proof.
  intros Hmtd Hdev Hlen Hpos Hcur Hname Hs.
  destruct (open_current w mtd part dev h0 Hmtd Hdev Hlen Hpos Hcur) as (mem & Hopen & Hm & Ho).
  destruct (set_opened _ _ _ name v Ho) as (h1 & Eset & Ho1 & Hoff1 & Hv1).
  { eapply storable_value; [done|]. apply lookup_insert_eq. }
  destruct (commit_opened _ _ h1 Ho1 Hm) as (h2 & Ec & Ho2 & Hlen2 & Hoff2 & Hv2 & Hopen2).
  { by rewrite Hv1, Hoff1. }
  exists h2. cbv zeta. split; [|split; [|split; [congruence|by rewrite Hv2, Hv1]]].
  - unfold main. change (wants_write ["set"; name +:+ "=" +:+ v]) with true. rewrite Hopen.
    unfold run_args. cbn [strcmp_eq String.eqb Ascii.eqb Bool.eqb orb]. unfold arg_command.
    change (strcmp_eq "set" "get") with false. change (strcmp_eq "set" "unset") with false.
    unfold do_set. change ("=" +:+ v) with (String "=" v).
    rewrite strchr_app. 2:{ eapply sall_impl; [|exact Hname]. intros c Hx. by apply andb_true_iff in Hx as []. }
    rewrite Eset. cbv zeta iota.
    rewrite (finish_staged _ _ _ h2 mem _ part); try done.
    + unfold put_file. cbn [w_files w_out w_err]. by rewrite insert_insert_eq.
    + apply lookup_insert_eq.
    + by destruct Ho2.
  - split; [apply lookup_insert_eq|]. done.
Qed.

Lemma run_get w mtd part h name v :
  nvram_find_mtd w 0 = Ok (Some mtd, Z.of_nat part) -> (0 < part)%nat ->
  staged w part h -> vars h !! name = Some v ->
  main ["get"; name] w = (Ok 0%Z, print v w).
Proof.
  intros Hmtd Hpos Hst Hv. pose proof Hst as (Hn & Hlen & Ho & Hopen). unfold main.
  change (wants_write ["get"; name]) with false. unfold nvram_open_rdonly.
  rewrite (find_staged _ _ _ Hst).
  rewrite (open_file_ok _ _ mtd _ _ _ h part Hmtd Hpos (or_introl eq_refl) Hn Hlen (Hopen true)).
  unfold run_args. cbn [strcmp_eq String.eqb Ascii.eqb Bool.eqb orb]. unfold arg_command.
  change (strcmp_eq "get" "get") with true. cbv iota. unfold do_get.
  rewrite get_vars by apply Ho. rewrite Hv. done.
Qed.

(** The commit writes the image to the device; the status is 0 however much of it
    is written. *)
Lemma run_commit w mtd part dev h :
  nvram_find_mtd w 0 = Ok (Some mtd, Z.of_nat part) -> (0 < part)%nat ->
  w_files w !! mtd = Some dev ->
  staged w part h -> storable (vars h) (part - nv_offset h) ->
  exists h2 w2, main ["commit"] w = (Ok 0%Z, w2) /\ w_files w2 !! NVRAM_STAGING = None /\
    w_files w2 !! mtd = Some (write_over mtd (nv_mmap h2) dev) /\
    (forall p, p <> NVRAM_STAGING -> p <> mtd -> w_files w2 !! p = w_files w !! p) /\
    String.length (nv_mmap h2) = part /\
    nvram_open char_val long (nv_mmap h2) part false = Ok (Some h2) /\
    vars h2 = vars h ∪ sdram_defaults.
Proof.
  intros Hmtd Hpos Hdev Hst Hs. pose proof Hst as (Hn & Hlen & Ho & Hopen).
  destruct (commit_opened _ _ h Ho Hlen Hs) as (h2 & Ec & Ho2 & Hlen2 & Hoff2 & Hv2 & Hopen2).
  set (w1 := put_file NVRAM_STAGING (mk_node 0x8180 (nv_mmap h2)) w).
  destruct (find_mtd_path _ _ _ _ Hmtd) as [x Hx].
  assert (mtd <> NVRAM_STAGING) as Hne by (by rewrite Hx).
  assert (w_files w1 !! mtd = Some dev) as Hdev1 by (cbn; by rewrite lookup_insert_ne).
  set (w2 := put_file mtd (write_over mtd (nv_mmap h2) dev) w1).
  exists h2, (mk_world (delete NVRAM_STAGING (w_files w2)) (w_out w2) (w_err w2)).
  split; [|cbn [w_files]; rewrite lookup_delete_eq, lookup_delete_ne by done;
           split; [done|split; [apply lookup_insert_eq|split; [|done]]]].
  2:{ intros p Hp1 Hp2. rewrite lookup_delete_ne by done. subst w2 w1. cbn [put_file w_files].
      by rewrite !lookup_insert_ne by done. }
  unfold main. change (wants_write ["commit"]) with true. unfold nvram_open_staging.
  rewrite (find_staged _ _ _ Hst).
  rewrite (open_file_ok _ _ mtd _ _ _ h part Hmtd Hpos (or_introl eq_refl) Hn Hlen (Hopen false)).
  unfold run_args. cbn [strcmp_eq String.eqb Ascii.eqb Bool.eqb orb r_stat r_done]. unfold finish.
  rewrite Nat2Z.id, Ec. cbv zeta. unfold sync_staging. rewrite Hn. cbn [n_mode n_data r_commit r_done].
  destruct Ho2 as [_ _ Hl2 _]. rewrite Hl2, sdrop_all, sapp_nil_r by lia. fold w1.
  unfold staging_to_nvram.
  rewrite (find_mtd_same w w1 0 _ mtd (Z.of_nat part)); [|apply put_staging_devices|done].
  destruct (Z.ltb_spec 0 (Z.of_nat part)); [|lia]. rewrite Nat2Z.id.
  pose proof (read_whole w1 NVRAM_STAGING (mk_node 0x8180 (nv_mmap h2)) ltac:(apply lookup_insert_eq))
    as Hread. cbn [n_data] in Hread. rewrite Hlen2 in Hread. rewrite Hread.
  by rewrite Hdev1, opens, unlinks.
Qed.

End calls_succeed.
End cli.

(** * Witness *)

Definition sample_device : string :=
  le32 NVRAM_MAGIC +:+ fill (Z.to_nat (NVRAM_MIN_SPACE - 4)) NUL.
Definition sample_mtd : string :=
  "dev:    size   erasesize  name" +:+ String LF "" +:+ "mtd1: 00008000 00001000 nvram" +:+ String LF "".
Definition sample_world : nv_world :=
  mk_world {["/proc/mtd" := mk_node S_IFREG sample_mtd;
             "/dev/mtdblock1" := mk_node S_IFBLK sample_device]} [] [].
Definition sample_open : nvram_handle :=
  match nvram_open val_of 32 sample_device sample_part false with
  | Ok (Some h) => h
  | _ => sample_flash
  end.

Lemma sample_opens :
  nvram_open val_of 32 sample_device sample_part false = Ok (Some sample_open).
Proof.
  assert (match nvram_open val_of 32 sample_device sample_part false with
          | Ok (Some _) => true | _ => false end = true) as H by (vm_compute; reflexivity).
  unfold sample_open. destruct (nvram_open val_of 32 sample_device sample_part false) as [[h|]|c|];
    done.
Qed.

(** A write to the device that stops after [cut] bytes. *)
Definition sample_written (cut : nat) (path buf : string) : nat :=
  if String.eqb path NVRAM_STAGING then String.length buf else cut.

Lemma sample_written_device cut buf : sample_written cut "/dev/mtdblock1" buf = cut.
Proof. reflexivity. Qed.
Lemma sample_written_staging cut buf :
  (String.length buf <= sample_written cut NVRAM_STAGING buf)%nat.
Proof. reflexivity. Qed.


(** The status of "set" is that of the commit that follows it: a pair without
    "=" ends with 0, and stores nothing. *)
Example set_status_lost :
  match main val_of 32 0x77001000 (fun _ _ => true) (sample_written sample_part) true
          (fun _ _ => "0.10") ["set"; "no_pair"] sample_world with
  | (Ok status, w) =>
      (status =? 0)%Z &&
      match main val_of 32 0x77001000 (fun _ _ => true) (sample_written sample_part) true
              (fun _ _ => "0.10") ["get"; "no_pair"] w with
      | (Ok status, _) => (status =? 1)%Z
      | _ => false
      end
  | _ => false
  end = true.
Proof. vm_compute. reflexivity. Qed.
